(* ===== verification/_CoqProject ===== *)
-Q . S2P
Prelude.v
Crc.v
PacketTypes.v
PacketBuilder.v
PacketParser.v
PacketParserFacts.v
PacketTheorems.v
PacketIntegrity.v
TcpBackend.v
Posix.v
TcpClient.v
TcpClientTheorems.v
TcpServer.v
TcpServerTheorems.v
Framing.v
FramingFacts.v
FramingTheorems.v
Transactions.v
TransactionSlots.v
Node.v
TcpNode.v
TcpNodeTheorems.v
NodeInterface.v
NodeTheorems.v
Exchange.v
Concurrency.v
ConcurrencyFacts.v
ConcurrencyTokens.v
Interleavings.v
ThreadsAlone.v
Races.v
Serving.v
Sending.v
SendingFacts.v
SendingTheorems.v
SendingRaces.v
Receiving.v
AnyPeer.v
Polling.v
PollingTheorems.v
PollingAlone.v
MemoryClient.v
CommandLine.v
CommandLineTheorems.v
Statistics.v
Binary64.v
Tools.v
Progress.v
ToolsTheorems.v
ExampleProgram.v
PacketExample.v
PythonBinding.v
PythonTheorems.v
Network.v
EndToEnd.v
Witnesses.v
WitnessesTcp.v
WitnessesThreads.v
WitnessesSending.v
WitnessesTools.v
WitnessesPython.v
WitnessesPolling.v
