(* ===== verification/Prelude.v ===== *)
(** * SpwRmap: RMAP over SpaceWire over TCP, modelled and verified

    SpwRmap lets a host read and write the memory of SpaceWire devices with the
    Remote Memory Access Protocol, through a bridge that carries SpaceWire
    packets on a TCP connection, and lets a host be such a device.  This is
    the root file; it also holds what all files share.

    ** The program and its model

    - The checksum (src/src/crc.cc): [Crc].  The table, [calcCRC] and its two
      references, a shift register and the remainder of a polynomial.
    - Packets (rmap_packet_type.hh, packet_parser.hh, packet_builder.hh,
      error_code.hh, target_node.hh): [PacketTypes].  The builders
      (src/src/packet_builder.cc) are the Modules of [PacketBuilder], which
      write through a span by an [int] index; the parser
      (src/src/packet_parser.cc) is [PacketParser], which updates a packet
      object and leaves the fields of other packet types as they were.
    - The backend (the concept of spw_rmap_tcp_node_impl.hh): the classes
      [TcpBackend] and [TcpBackendLaws] of [TcpBackend], with the mock of
      tests/test_spw_rmap_node.cc.  The node's theorems use the laws only.
    - The system calls: the classes [Posix] and [PosixLaws] of [Posix], with a
      scripted system.  src/src/tcp_client.cc is Module [TCPClient] of
      [TcpClient], src/src/tcp_server.cc Module [TCPServer] of [TcpServer].
      [TcpClientTheorems] and [TcpServerTheorems] show that they are backends.
    - The node (include/spw_rmap/internal/spw_rmap_tcp_node_impl.hh) in three
      parts: [Framing] has the record [link] with the frames that are received
      and sent, [Transactions] the record [tx] with IDs, callbacks, promises
      and time-outs, [Node] the record [node] with starting, waiting, [poll]
      and [runLoop].  spw_rmap_tcp_node.hh is [TcpNode].  The interface
      spw_rmap_node_base.hh is the class [SpwRmapNodeBase] of [NodeInterface],
      with the client that the tools use; node and TCP client are instances.
    - Threads: [Concurrency] cuts the operations on the transaction table into
      the critical sections of their mutexes.  A thread is a program counter
      ([pc]), [thread_step] its next section, and a schedule chooses which
      thread moves.  [Sending] does the same for the mutex of the send buffer
      and that of [shutdown]: a thread that sends is a [sender], [sender_step]
      goes from the test of the backend to the lock, the work in the buffer and
      one round of [sendAll] after the other.  [Receiving] has
      [recvAndParseOnePacket_] and what it calls as a program over its uses of
      the backend, [Polling] a thread that runs it in [runLoop], one use of the
      pointer and one [::recv] after the other, next to one in [shutdown].
    - The tools (app/spwrmap.cc, app/spwrmap_speedtest.cc): their options are
      [CommandLine], the statistics of the speed test [Statistics] over the
      class [Double], [main] with the output [Tools], its progress bar over
      rationals and over binary64 [Progress].
    - The examples: examples/spwrmap_example.cc is [ExampleProgram],
      examples/packet_builder.cc [PacketExample].
    - The Python binding (bindings/python/src/): [PythonBinding], the node with
      its thread, flags and pending error, and the conversions of buffers.
    - The programs are written against the class of a client; what they need of
      it is the contract [MemoryClient] of a connected target with memory.
      [Network] is an environment of the model, not code: a system in which the
      client's connection leads to a target node with memory, and in which
      signals interrupt the calls of the client.

    A write runs through all of them: [write] starts an operation, which takes
    an ID ([Transactions]), builds the command ([PacketBuilder], [Crc]) and
    sends its frame ([Framing], [TcpBackend], [TcpClient]); [poll] of the
    target reassembles it ([Framing]), parses it ([PacketParser]), calls the
    user's function and sends the reply; [poll] of the initiator hands the
    reply to the operation by its ID ([Transactions]), whose promise [write]
    waits for.

    ** What is shown

    - [Crc]: the table computes the protocol's polynomial, and which
      corruptions it detects.
    - [PacketBuilder], [PacketParserFacts], [PacketTheorems]: every builder
      writes exactly the reference encoding or refuses; the parser accepts
      exactly the encodings of well-formed packets and never leaves the span;
      so the four round trips.  [PacketIntegrity]: packets corrupted
      behind their path are rejected with the right status; nothing protects
      the path.
    - [FramingFacts], [FramingTheorems]: the receive loop against its
      reference [collect] on a list of segments, for every way the connection
      cuts the bytes; the sending functions against the frame they should send.
    - [TransactionSlots]: the arrays of [tx] as a table of slots (free,
      reserved, waiting) and each operation as an operation on it.
      [NodeTheorems]: the invariant of reachable nodes, safety of the
      operations on them, and the allocation of IDs.
    - [Exchange]: whole transactions over two nodes, time-outs, and what late and
      unchecked replies do.  [Serving]: a target serves a sequence of
      commands in order, and what ends its loop.
    - [TcpClientTheorems], [TcpServerTheorems], [TcpNodeTheorems]: no
      descriptor leaks, everything is sent or an error is reported, for every
      sequence of results of the system calls, and where that fails.
    - [CommandLineTheorems]: numbers and options survive printing and parsing;
      accepted options are usable.
    - [ConcurrencyFacts], [ConcurrencyTokens], [Interleavings]: for every
      schedule, no index out of range and no deadlock; as long as no ID is
      reclaimed, the table is consistent and every promise gets its value at
      most once, and every run ends.  [ThreadsAlone]: a thread that is not
      interrupted has the effect of the sequential operation of [Node].
      [Races]: from which reachable states a run ends badly, because IDs are
      reclaimed by their index or a reply comes before its send has failed, and
      how the error callback of a slot runs next to its reply callback.
    - [SendingFacts], [SendingTheorems]: for every schedule of threads that
      send, the bytes on the connection are whole frames, no step is undefined,
      the threads end, and a target serves each command once; a thread alone
      has the effect of the sequential operation.  [SendingRaces]: from any
      state, what is not under the mutex breaks this: time codes, failed sends
      and [shutdown].
    - [Receiving]: with a fixed buffer, and a backend that fails at the end of
      the connection as the TCP client does, no sequence of bytes makes
      receiving undefined; over the TCP server, which hands over no bytes there,
      the end behind a header does, and with a buffer that grows a length that
      overflows does.
      [AnyPeer]: so the loop of a TCP client survives any peer, and that of a
      TCP server does not.  [PollingTheorems]: a thread that is blocked in
      [::recv] leaves its loop with success when the client is shut down, under
      every schedule, and where a shutdown meets it in a worse place.
      [PollingAlone]: without a shutdown it receives as [Framing] says.
    - [ToolsTheorems], [ExampleProgram], [PythonTheorems]: against the contract
      [MemoryClient], [spwrmap] prints the memory in a form that it reads back
      and stores its data, the speed test writes its
      pattern into the memory and would notice any other, the example program prints
      what it should, and the Python node reads what it has written.
      [PacketExample]: what packet_builder prints is read back as its bytes and
      these as its packet.  [Progress]: the bar never leaves its places.
    - [EndToEnd]: the TCP client on the network keeps the contract, whatever the
      program, for every size of the chunks in which the connection moves the
      bytes and every sequence of signals that interrupts its calls; so the four
      programs work over the whole stack: the frames of the
      client go through [TCPClient] and the network to [poll] of the target,
      and back.
    - [Statistics]: the quartiles are in order for doubles whose midpoint lies
      between its arguments.  [Binary64]: in binary64 they are exact for whole
      numbers below 2^51.
    - [PythonTheorems]: flags, thread and errors of a Python node over its
      life, what its read returns, and where restarting and late replies fail.
    - [Witnesses], [WitnessesTcp], [WitnessesThreads],
      [WitnessesSending], [WitnessesTools], [WitnessesPython], [WitnessesPolling]:
      the theorems on concrete inputs.

    ** Conventions

    - [outcome] separates what a function returns from undefined behaviour
      ([UB]), the end of the process ([Abort]) and no result ([Pending]).
      Assertions are enabled.  An exception that leaves a [noexcept] function
      ends the process.
    - Integers are [Z], wrapped where the code converts ([u8] to [u64]).
      A span is the list of its bytes; a packet holds copies of its spans.
    - Fuel: [recv_exact_loop] uses one round per byte of the buffer; the
      receive loops need more fuel than there are bytes on the stream;
      [run_loop] one round more per packet; the loops over system calls more
      rounds than signals ([retries]) and bytes.  That this is enough is part
      of the theorems: they say that the functions return.  The clock of an
      allocation is a list of readings; two are enough.
    - [alloc_limit] is the number of bytes that [resize] can obtain.

    ** What is not modelled

    In [Node] every operation is one step and what the other threads do between
    the operations is arbitrary ([others] of [attempts], [node_step], [waits]).
    The interleavings inside the operations are modelled around one lock each:
    [Concurrency] has those on the transaction table, [Sending] those of the
    senders with a shutdown, [Polling] those of the receiving thread with a
    shutdown, without what [poll] does with a packet.  The three are not
    combined, and [connect] next to other operations is in none of them.
    Threads are interleaved at these steps; the weak memory of C++ is not
    modelled, and races on plain members appear as the use of a destroyed or
    replaced value.  [EndToEnd] has one operation in flight at a time, and its
    network fails no call; [TcpClientTheorems] is about calls that fail.  A
    user's function does not call back into the node.

    Smaller than in the code: the depth of the stack, for the recursive call of
    [recvAndParseOnePacket_] behind a frame of type 0x01 is a round of the loop
    [recv_loop]; the two atomic flags that the Python thread clears at its end,
    which are one step ([thread_ends]); a promise destroyed without a value, for
    which the sequential [read] and [write] of [PythonBinding] report timed_out
    where [get] would throw; and the conversions of durations, whose counts are
    unbounded.

    Left out as input and output without state or consequence: the debug output
    (internal/debug.hh), messages to standard error, usage texts, the names of
    error categories, and the registration of the Python classes.  The random
    numbers and the clock of the speed test are arguments. *)

From stdpp Require Export base numbers list list_numbers gmap strings.
#[local] Open Scope Z_scope.

(** ** Outcomes of C++ code

    [Ret a]    : the code returned [a];
    [UB]       : an operation whose precondition the C++ standard requires of
                 the caller was executed outside it (a span or vector indexed
                 out of range, a null [unique_ptr] dereferenced, a signed
                 overflow);
    [Abort]    : the process was terminated (a failed [assert], an exception
                 leaving a [noexcept] function);
    [Pending]  : no result: the thread waits for its environment, or the fuel
                 of the definition ran out. *)
Inductive outcome (A : Type) : Type :=
| Ret (a : A)
| UB
| Abort
| Pending.
Arguments Ret {A} a.
Arguments UB {A}.
Arguments Abort {A}.
Arguments Pending {A}.

#[export] Instance outcome_ret : MRet outcome := fun A => @Ret A.
#[export] Instance outcome_bind : MBind outcome := fun A B f m =>
  match m with
  | Ret a => f a
  | UB => UB
  | Abort => Abort
  | Pending => Pending
  end.

Lemma bind_ret {A B} (a : A) (f : A → outcome B) : mbind f (Ret a) = f a.
Proof. done. Qed.

(** [safe m]: the run neither leaves the C++ standard nor kills the process. *)
Definition safe {A} (m : outcome A) : Prop := m ≠ UB ∧ m ≠ Abort.

Lemma safe_bind {A B} (m : outcome A) (f : A → outcome B) :
  safe m → (∀ a, safe (f a)) → safe (mbind f m).
Proof. intros [??] Hf. by destruct m; [apply Hf| | |]. Qed.

Lemma bind_Ret {A B} (m : outcome A) (f : A → outcome B) b :
  mbind f m = Ret b → ∃ a, m = Ret a ∧ f a = Ret b.
Proof. destruct m; try done. by eauto. Qed.

(** [returns m P]: the run returns, and what it returns satisfies [P]. *)
Definition returns {A} (m : outcome A) (P : A → Prop) : Prop :=
  ∃ a, m = Ret a ∧ P a.

(** ** Machine integers *)

Definition u8 (z : Z) : Z := z mod 2 ^ 8.
Definition u16 (z : Z) : Z := z mod 2 ^ 16.
Definition u32 (z : Z) : Z := z mod 2 ^ 32.
Definition u64 (z : Z) : Z := z mod 2 ^ 64.
Definition INT_MAX : Z := 2 ^ 31 - 1.

(** A value of [uint8_t], and a range of them. *)
Definition byte (b : Z) : Prop := 0 ≤ b < 256.
Definition bytes (l : list Z) : Prop := Forall byte l.

#[export] Instance byte_dec b : Decision (byte b).
Proof. unfold byte. apply _. Defined.
#[export] Instance bytes_dec l : Decision (bytes l).
Proof. unfold bytes. apply _. Defined.

(** ** Spans

    A span of bytes is the list of the bytes it views; its size is a
    [size_t]. *)

Definition zsize {A} (l : list A) : Z := Z.of_nat (length l).
Arguments zsize : simpl never.

(** [s[i]] for reading. *)
Definition rd {A} (s : list A) (i : Z) : outcome A :=
  if decide (0 ≤ i)
  then match s !! Z.to_nat i with Some b => Ret b | None => UB end
  else UB.

(** [s[i] = v]. *)
Definition wr {A} (s : list A) (i : Z) (v : A) : outcome (list A) :=
  if decide (0 ≤ i < zsize s) then Ret (<[Z.to_nat i := v]> s) else UB.

(** [s[head++]] for reading: the byte and the advanced index. *)
Definition next (s : list Z) (head : Z) : outcome (Z * Z) :=
  b ← rd s head; Ret (b, head + 1).

(** [s.subspan(off, count)] and [s.subspan(off)]; [s.first(count)] is
    [subspan s 0 count]. *)
Definition subspan {A} (s : list A) (off count : Z) : outcome (list A) :=
  if decide (0 ≤ off ∧ 0 ≤ count ∧ off + count ≤ zsize s)
  then Ret (take (Z.to_nat count) (drop (Z.to_nat off) s)) else UB.

Definition subspan_from {A} (s : list A) (off : Z) : outcome (list A) :=
  if decide (0 ≤ off ≤ zsize s) then Ret (drop (Z.to_nat off) s) else UB.

(** [first b s]: the bytes of the buffer [buf] from [off] on are overwritten
    with [l]; a memory write of [zsize l] bytes through a span of [buf]. *)
Definition overwrite {A} (buf : list A) (off : Z) (l : list A) : list A :=
  take (Z.to_nat off) buf ++ l ++ drop (Z.to_nat off + length l) buf.

(** [std::vector<uint8_t>::resize]: truncation, or extension with zeros. *)
Definition resize_bytes (v : list Z) (n : Z) : list Z :=
  resize (Z.to_nat n) 0 v.

(** ** Automation shared by the components *)

(** Rewriting of sizes; [zs] normalises the sizes in the goal and in the
    hypotheses and leaves the arithmetic to [lia]. *)
Create Rewrite HintDb zsize.

(** Facts that discharge the side conditions of the access lemmas. *)
Create HintDb spw.

Section sizes.
Context {A : Type}.
Implicit Types (l k : list A) (x : A).

Lemma zsize_nil : zsize (@nil A) = 0.
Proof. done. Qed.

Lemma zsize_cons x l : zsize (x :: l) = 1 + zsize l.
Proof. unfold zsize. simpl. lia. Qed.

Lemma zsize_app l k : zsize (l ++ k) = zsize l + zsize k.
Proof. unfold zsize. rewrite length_app. lia. Qed.

Lemma zsize_nonneg l : 0 ≤ zsize l.
Proof. unfold zsize. lia. Qed.

Lemma zsize_pos l : l ≠ [] → 0 < zsize l.
Proof. destruct l; [done|]. intros _. unfold zsize. simpl. lia. Qed.

Lemma zsize_zero l : zsize l = 0 → l = [].
Proof. destruct l; [done|]. unfold zsize. simpl. lia. Qed.

Lemma zsize_replicate n x : zsize (replicate n x) = Z.of_nat n.
Proof. unfold zsize. by rewrite length_replicate. Qed.

Lemma zsize_to_nat l : Z.to_nat (zsize l) = length l.
Proof. unfold zsize. lia. Qed.

Lemma zsize_insert i x l : zsize (<[i := x]> l) = zsize l.
Proof. unfold zsize. by rewrite length_insert. Qed.

Lemma zsize_take n l : zsize (take n l) = Z.min (Z.of_nat n) (zsize l).
Proof. unfold zsize. rewrite length_take. lia. Qed.

Lemma zsize_drop n l : zsize (drop n l) = Z.max 0 (zsize l - Z.of_nat n).
Proof. unfold zsize. rewrite length_drop. lia. Qed.
End sizes.

#[export] Hint Rewrite @zsize_nil @zsize_cons @zsize_app @zsize_replicate
  @zsize_to_nat @zsize_insert @zsize_take @zsize_drop : zsize.

Ltac zs := autorewrite with zsize in *.
(** [lia] with the equations of divisions and remainders. *)
Ltac dlia := Z.to_euclidean_division_equations; lia.
Ltac zlia := zs; unfold zsize in *; simpl length in *; lia.

(** ** Reading and writing through a span *)

Section spans.
Context {A : Type}.
Implicit Types (l k s pre mid post rest : list A) (x : A).

Lemma rd_lookup s i x : 0 ≤ i → s !! Z.to_nat i = Some x → rd s i = Ret x.
Proof. intros Hi Hx. unfold rd. by rewrite decide_True, Hx. Qed.

Lemma rd_in_range s i : 0 ≤ i < zsize s → ∃ x, rd s i = Ret x ∧ x ∈ s.
Proof.
  intros Hi. destruct (lookup_lt_is_Some_2 s (Z.to_nat i)) as [x Hx];
    [unfold zsize in Hi; lia|].
  exists x. split; [by apply rd_lookup; [lia|]|]. by eapply list_elem_of_lookup_2.
Qed.

Lemma rd_out_of_range s i : zsize s ≤ i → rd s i = UB.
Proof.
  intros Hi. unfold rd. case_decide; [|done].
  rewrite lookup_ge_None_2; [done|]. unfold zsize in Hi; lia.
Qed.

Lemma rd_app_r l k i : 0 ≤ i → rd (l ++ k) (zsize l + i) = rd k i.
Proof.
  intros Hi. pose proof (zsize_nonneg l). unfold rd.
  rewrite !decide_True by lia. rewrite lookup_app_r by (unfold zsize in *; lia).
  replace (Z.to_nat (zsize l + i) - length l)%nat with (Z.to_nat i); [done|].
  unfold zsize in *. lia.
Qed.

Lemma wr_app pre x y rest :
  wr (pre ++ x :: rest) (zsize pre) y = Ret (pre ++ y :: rest).
Proof.
  unfold wr. pose proof (zsize_nonneg pre). pose proof (zsize_nonneg rest).
  rewrite decide_True by (rewrite zsize_app, zsize_cons; lia).
  rewrite zsize_to_nat. apply f_equal.
  replace (length pre) with (length pre + 0)%nat by lia.
  by rewrite insert_app_r.
Qed.

Lemma subspan_app pre mid post :
  subspan (pre ++ mid ++ post) (zsize pre) (zsize mid) = Ret mid.
Proof.
  unfold subspan. rewrite decide_True.
  - by rewrite !zsize_to_nat, drop_app_length, take_app_length.
  - pose proof (zsize_nonneg pre). pose proof (zsize_nonneg mid).
    pose proof (zsize_nonneg post). zs. lia.
Qed.

(** The form used at call sites: the offsets are given by equations. *)
Lemma subspan_eq s pre mid post off n :
  s = pre ++ mid ++ post → off = zsize pre → n = zsize mid →
  subspan s off n = Ret mid.
Proof. intros -> -> ->. apply subspan_app. Qed.

Lemma subspan_from_app pre post : subspan_from (pre ++ post) (zsize pre) = Ret post.
Proof.
  unfold subspan_from. pose proof (zsize_nonneg pre). pose proof (zsize_nonneg post).
  rewrite decide_True by (zs; lia). by rewrite zsize_to_nat, drop_app_length.
Qed.

Lemma subspan_in_range s off n :
  0 ≤ off → 0 ≤ n → off + n ≤ zsize s →
  subspan s off n = Ret (take (Z.to_nat n) (drop (Z.to_nat off) s)).
Proof. intros. unfold subspan. by rewrite decide_True. Qed.
End spans.

(** Reading the head of what is left of a span. *)
Lemma next_drop (s : list Z) (h x : Z) t :
  0 ≤ h → drop (Z.to_nat h) s = x :: t →
  next s h = Ret (x, h + 1) ∧ drop (Z.to_nat (h + 1)) s = t.
Proof.
  intros Hh Hd. split.
  - unfold next. erewrite rd_lookup; [done|done|].
    rewrite <-(Nat.add_0_r (Z.to_nat h)), <-lookup_drop. by rewrite Hd.
  - replace (Z.to_nat (h + 1)) with (Z.to_nat h + 1)%nat by lia.
    by rewrite <-drop_drop, Hd.
Qed.

(** [step_next] executes the next [packet[head++]] of the goal, using the
    hypothesis that describes what is left of the span. *)
Ltac step_next :=
  match goal with
  | H : drop (Z.to_nat ?h) ?s = _ :: _ |- context [next ?s ?h] =>
      let E := fresh "E" in
      apply next_drop in H as [E H]; [|lia]; rewrite E; clear E; cbn [mbind outcome_bind]
  end.

(** ** Big-endian integers

    The reference for the shifts and masks of the packet code. *)

Fixpoint be_split (n : nat) (z : Z) : list Z :=
  match n with
  | O => []
  | S n => (z / 2 ^ (8 * Z.of_nat n)) mod 256 :: be_split n z
  end.

Definition be_combine (l : list Z) : Z := fold_left (λ acc b, acc * 256 + b) l 0.

Lemma length_be_split n z : length (be_split n z) = n.
Proof. induction n; simpl; congruence. Qed.

Lemma zsize_be_split n z : zsize (be_split n z) = Z.of_nat n.
Proof. unfold zsize. by rewrite length_be_split. Qed.
#[export] Hint Rewrite zsize_be_split : zsize.

Lemma byte_mod z : byte (z mod 256).
Proof. unfold byte. pose proof (Z.mod_pos_bound z 256). lia. Qed.

Lemma bytes_be_split n z : bytes (be_split n z).
Proof. induction n; constructor; [apply byte_mod|done]. Qed.
#[export] Hint Resolve byte_mod bytes_be_split : spw.

Lemma be_combine_acc l acc :
  fold_left (λ acc b, acc * 256 + b) l acc = acc * 2 ^ (8 * zsize l) + be_combine l.
Proof.
  unfold be_combine. revert acc. induction l as [|b l IH]; intros acc; cbn [fold_left].
  - zs. change (8 * 0) with 0. lia.
  - rewrite (IH (acc * 256 + b)), (IH (0 * 256 + b)), zsize_cons, Z.mul_add_distr_l.
    rewrite Z.pow_add_r by (pose proof (zsize_nonneg l); lia). lia.
Qed.

Lemma be_combine_cons b l : be_combine (b :: l) = b * 2 ^ (8 * zsize l) + be_combine l.
Proof. unfold be_combine at 1. simpl. by rewrite be_combine_acc. Qed.

Lemma be_combine_bound l : bytes l → 0 ≤ be_combine l < 2 ^ (8 * zsize l).
Proof.
  induction 1 as [|b l Hb Hl IH]; [unfold be_combine; zs; simpl; lia|].
  rewrite be_combine_cons, zsize_cons, Z.mul_add_distr_l.
  rewrite Z.pow_add_r by (pose proof (zsize_nonneg l); lia).
  unfold byte in Hb. nia.
Qed.

Lemma be_combine_split n z : be_combine (be_split n z) = z mod 2 ^ (8 * Z.of_nat n).
Proof.
  induction n as [|n IH]; [by rewrite Z.mod_1_r|].
  cbn [be_split]. rewrite be_combine_cons, IH, zsize_be_split.
  replace (8 * Z.of_nat (S n)) with (8 * Z.of_nat n + 8) by lia.
  rewrite Z.pow_add_r by lia. change (2 ^ 8) with 256.
  rewrite Z.rem_mul_r; lia.
Qed.

Lemma be_split_mod n k z : 0 ≤ 8 * Z.of_nat n ≤ k → be_split n (z mod 2 ^ k) = be_split n z.
Proof.
  intros Hk. induction n as [|n IH]; [done|]. cbn [be_split]. f_equal; [|apply IH; lia].
  change 256 with (2 ^ 8). rewrite <-!Z.land_ones, <-!Z.shiftr_div_pow2 by lia.
  apply Z.bits_inj'. intros i Hi. rewrite !Z.land_spec, !Z.shiftr_spec, Z.land_spec by lia.
  destruct (decide (i < 8)).
  - rewrite (Z.ones_spec_low k) by lia. by rewrite andb_true_r.
  - by rewrite (Z.ones_spec_high 8), !andb_false_r by lia.
Qed.

Lemma be_split_combine l : bytes l → be_split (length l) (be_combine l) = l.
Proof.
  induction 1 as [|b l Hb Hl IH]; [done|]. cbn [be_split length].
  pose proof (be_combine_bound l Hl) as Hr. rewrite be_combine_cons. fold (zsize l).
  set (w := 2 ^ (8 * zsize l)) in *. f_equal.
  - rewrite Z.div_add_l, Z.div_small, Z.add_0_r, Z.mod_small; unfold byte in *; lia.
  - rewrite <-(be_split_mod _ (8 * zsize l)) by (unfold zsize; lia). fold w.
    rewrite Z.add_comm, Z.mod_add, Z.mod_small; [done|lia|lia].
Qed.

Lemma be_split_combine_n n l :
  zsize l = Z.of_nat n → bytes l → be_split n (be_combine l) = l.
Proof. intros Hn Hl. rewrite <-(be_split_combine l Hl) at 2. f_equal. unfold zsize in Hn. lia. Qed.

(** A disjunction of disjoint bit fields is their sum. *)
Lemma lor_disjoint a b k : 0 ≤ k → 0 ≤ b < 2 ^ k → Z.lor (a * 2 ^ k) b = a * 2 ^ k + b.
Proof.
  intros Hk Hb. assert (Hz : Z.land (a * 2 ^ k) b = 0).
  { apply Z.bits_inj'. intros i Hi. rewrite Z.land_spec, Z.bits_0.
    destruct (decide (i < k)); [by rewrite Z.mul_pow2_bits_low|].
    destruct (decide (b = 0)) as [->|]; [by rewrite Z.bits_0, andb_false_r|].
    rewrite (Z.bits_above_log2 b i), andb_false_r; [done|lia|].
    apply Z.lt_le_trans with k; [|lia]. apply Z.log2_lt_pow2; lia. }
  by rewrite <-Z.lxor_lor, Z.add_nocarry_lxor.
Qed.

(** ** Folds *)

(** A fold whose steps are simulated through [φ] by the steps of another. *)
Lemma fold_left_simulation {A S T} (φ : S → T) (f : S → A → S) (g : T → A → T)
    (Inv : S → Prop) (Q : A → Prop) l s :
  (∀ s a, Inv s → Q a → φ (f s a) = g (φ s) a ∧ Inv (f s a)) →
  Forall Q l → Inv s → φ (fold_left f l s) = fold_left g l (φ s) ∧ Inv (fold_left f l s).
Proof.
  intros Hstep Hl. revert s. induction Hl as [|a l Ha Hl IH]; intros s Hs; simpl; [done|].
  destruct (Hstep s a Hs Ha) as [<- Hs']. by apply IH.
Qed.

Lemma fold_left_join {A B S} (f : S → B → S) (h : A → list B) l s :
  fold_left f (mjoin (h <$> l)) s = fold_left (λ s a, fold_left f (h a) s) l s.
Proof.
  revert s. induction l as [|a l IH]; intros s; [done|].
  cbn [fmap list_fmap mjoin list_join fold_left]. by rewrite fold_left_app, IH.
Qed.

(** ** Sums over lists *)

Lemma sum_insert {A} (f : A → nat) (l : list A) k x y :
  l !! k = Some y →
  (sum_list_with f (<[k := x]> l) + f y = sum_list_with f l + f x)%nat.
Proof.
  revert k. induction l as [|z l IH]; intros [|k] Hk; simplify_eq/=; [lia|].
  specialize (IH k Hk). lia.
Qed.

Lemma sum_ge {A} (f : A → nat) (l : list A) k y :
  l !! k = Some y → (f y ≤ sum_list_with f l)%nat.
Proof.
  revert k. induction l as [|z l IH]; intros [|k] Hk; simplify_eq/=; [lia|].
  specialize (IH k Hk). lia.
Qed.

Lemma sum_two {A} (f : A → nat) (l : list A) j k x y :
  l !! j = Some x → l !! k = Some y → j ≠ k → (f x + f y ≤ sum_list_with f l)%nat.
Proof.
  revert j k. induction l as [|z l IH]; intros [|j] [|k] Hj Hk ?; simplify_eq/=.
  - pose proof (sum_ge f l k y Hk). lia.
  - pose proof (sum_ge f l j x Hj). lia.
  - specialize (IH j k Hj Hk ltac:(lia)). lia.
Qed.

Lemma sum_pos {A} (f : A → nat) (l : list A) :
  (0 < sum_list_with f l)%nat → ∃ k x, l !! k = Some x ∧ (0 < f x)%nat.
Proof.
  induction l as [|z l IH]; cbn; [lia|]. intros Hs. destruct (decide (0 < f z)%nat); [by exists 0%nat, z|].
  destruct IH as (k & x & ? & ?); [lia|]. by exists (S k), x.
Qed.

Lemma sum_zero {A} (f : A → nat) (l : list A) :
  (∀ k x, l !! k = Some x → f x = 0%nat) → sum_list_with f l = 0%nat.
Proof.
  intros Hf. destruct (decide (0 < sum_list_with f l)%nat) as [(k & x & Hk & Hx)%sum_pos|]; [|lia].
  apply Hf in Hk. lia.
Qed.

(** A change of one element that conserves what it and a number have together
    conserves the total. *)
Lemma sum_conserved {A} (f : A → nat) (l : list A) k x y (g g' : nat) :
  l !! k = Some y → (g' + f x = g + f y)%nat →
  (g' + sum_list_with f (<[k := x]> l) = g + sum_list_with f l)%nat.
Proof. intros Hk Hg. pose proof (sum_insert f l k x y Hk). lia. Qed.
