(* ===== verification/Crc.v ===== *)
(** * The RMAP CRC (src/crc.cc, include/spw_rmap/crc.hh)

    [calcCRC] is the byte-wise table-driven routine of the source.  It is
    compared with two references that do not use the table: the bit-serial
    shift register of the RMAP standard and the remainder of a long division
    of the message polynomial by x^8 + x^2 + x + 1.  The remaining theorems
    are what the packet code relies on: the residue of a checksummed block is
    zero, and the errors a block is protected against. *)

From S2P Require Import Prelude.
#[local] Open Scope Z_scope.

Definition CRC_LOOKUP_TABLE : list Z :=
  [
    0x00; 0x91; 0xe3; 0x72; 0x07; 0x96; 0xe4; 0x75;
    0x0e; 0x9f; 0xed; 0x7c; 0x09; 0x98; 0xea; 0x7b;
    0x1c; 0x8d; 0xff; 0x6e; 0x1b; 0x8a; 0xf8; 0x69;
    0x12; 0x83; 0xf1; 0x60; 0x15; 0x84; 0xf6; 0x67;
    0x38; 0xa9; 0xdb; 0x4a; 0x3f; 0xae; 0xdc; 0x4d;
    0x36; 0xa7; 0xd5; 0x44; 0x31; 0xa0; 0xd2; 0x43;
    0x24; 0xb5; 0xc7; 0x56; 0x23; 0xb2; 0xc0; 0x51;
    0x2a; 0xbb; 0xc9; 0x58; 0x2d; 0xbc; 0xce; 0x5f;
    0x70; 0xe1; 0x93; 0x02; 0x77; 0xe6; 0x94; 0x05;
    0x7e; 0xef; 0x9d; 0x0c; 0x79; 0xe8; 0x9a; 0x0b;
    0x6c; 0xfd; 0x8f; 0x1e; 0x6b; 0xfa; 0x88; 0x19;
    0x62; 0xf3; 0x81; 0x10; 0x65; 0xf4; 0x86; 0x17;
    0x48; 0xd9; 0xab; 0x3a; 0x4f; 0xde; 0xac; 0x3d;
    0x46; 0xd7; 0xa5; 0x34; 0x41; 0xd0; 0xa2; 0x33;
    0x54; 0xc5; 0xb7; 0x26; 0x53; 0xc2; 0xb0; 0x21;
    0x5a; 0xcb; 0xb9; 0x28; 0x5d; 0xcc; 0xbe; 0x2f;
    0xe0; 0x71; 0x03; 0x92; 0xe7; 0x76; 0x04; 0x95;
    0xee; 0x7f; 0x0d; 0x9c; 0xe9; 0x78; 0x0a; 0x9b;
    0xfc; 0x6d; 0x1f; 0x8e; 0xfb; 0x6a; 0x18; 0x89;
    0xf2; 0x63; 0x11; 0x80; 0xf5; 0x64; 0x16; 0x87;
    0xd8; 0x49; 0x3b; 0xaa; 0xdf; 0x4e; 0x3c; 0xad;
    0xd6; 0x47; 0x35; 0xa4; 0xd1; 0x40; 0x32; 0xa3;
    0xc4; 0x55; 0x27; 0xb6; 0xc3; 0x52; 0x20; 0xb1;
    0xca; 0x5b; 0x29; 0xb8; 0xcd; 0x5c; 0x2e; 0xbf;
    0x90; 0x01; 0x73; 0xe2; 0x97; 0x06; 0x74; 0xe5;
    0x9e; 0x0f; 0x7d; 0xec; 0x99; 0x08; 0x7a; 0xeb;
    0x8c; 0x1d; 0x6f; 0xfe; 0x8b; 0x1a; 0x68; 0xf9;
    0x82; 0x13; 0x61; 0xf0; 0x85; 0x14; 0x66; 0xf7;
    0xa8; 0x39; 0x4b; 0xda; 0xaf; 0x3e; 0x4c; 0xdd;
    0xa6; 0x37; 0x45; 0xd4; 0xa1; 0x30; 0x42; 0xd3;
    0xb4; 0x25; 0x57; 0xc6; 0xb3; 0x22; 0x50; 0xc1;
    0xba; 0x2b; 0x59; 0xc8; 0xbd; 0x2c; 0x5e; 0xcf
  ].

Definition calcCRC (data : list Z) (crc : Z) : Z :=
  fold_left (λ crc byte, CRC_LOOKUP_TABLE !!! Z.to_nat (Z.lxor crc byte)) data crc.

(** ** References *)

(** One clock of the shift register of the standard, least significant bit
    first; 0xE0 is x^8 + x^2 + x + 1 with its bits reversed. *)
Definition crc_clock (c : Z) : Z :=
  if Z.testbit c 0 then Z.lxor (Z.shiftr c 1) 0xE0 else Z.shiftr c 1.

Definition crc_serial_byte (crc b : Z) : Z := Nat.iter 8 crc_clock (Z.lxor crc b).

Definition crc_serial (data : list Z) (crc : Z) : Z := fold_left crc_serial_byte data crc.

(** Long division over GF(2): [r] is the remainder of the bits read so far,
    the coefficient of x^i at bit i; 0x107 is x^8 + x^2 + x + 1. *)
Definition poly_step (r : Z) (bit : bool) : Z :=
  let r := Z.lor (Z.shiftl r 1) (Z.b2z bit) in
  if Z.testbit r 8 then Z.lxor r 0x107 else r.

Definition poly_rem (bits : list bool) (r : Z) : Z := fold_left poly_step bits r.

(** The bits of a byte in the order they are transmitted. *)
Definition byte_bits (b : Z) : list bool := (λ i, Z.testbit b i) <$> seqZ 0 8.

(** A byte with its bits reversed. *)
Definition rev8 (b : Z) : Z := foldr (λ i r, 2 * r + Z.b2z (Z.testbit b i)) 0 (reverse (seqZ 0 8)).

Definition message_bits (data : list Z) : list bool := mjoin (byte_bits <$> data).

(** The checksum as the standard words it: the remainder of the message times
    x^8, read back least significant bit first. *)
Definition crc_poly (data : list Z) : Z :=
  rev8 (poly_rem (message_bits data ++ replicate 8 false) 0).
(** ** Finite checks over bytes *)

Lemma forall_bytes (P : Z → bool) :
  forallb P (seqZ 0 256) = true → ∀ b, byte b → P b = true.
Proof.
  intros H b Hb. rewrite forallb_forall in H. apply H, list_elem_of_In, elem_of_seqZ.
  unfold byte in Hb. lia.
Qed.

Lemma forall_bytes2 (P : Z → Z → bool) :
  forallb (λ a, forallb (P a) (seqZ 0 256)) (seqZ 0 256) = true →
  ∀ a b, byte a → byte b → P a b = true.
Proof.
  intros H a b Ha Hb. apply (forall_bytes (P a)); [|done].
  by apply (forall_bytes (λ a, forallb (P a) (seqZ 0 256))).
Qed.

(** [by_bytes P] proves an equation between bytes by evaluating it on all of
    them. *)
Ltac by_bytes1 P := apply Z.eqb_eq, (forall_bytes P); [by vm_compute|assumption].
Ltac by_bytes2 P := apply Z.eqb_eq, (forall_bytes2 P); [by vm_compute|assumption..].

Lemma byte_lxor a b : byte a → byte b → byte (Z.lxor a b).
Proof.
  intros Ha Hb. unfold byte in *. split; [by apply Z.lxor_nonneg; lia|].
  destruct (decide (Z.lxor a b = 0)) as [->|Hn]; [lia|].
  apply (Z.log2_lt_pow2 _ 8); [pose proof (proj2 (Z.lxor_nonneg a b)); lia|].
  pose proof (Z.log2_lxor a b ltac:(lia) ltac:(lia)).
  assert (∀ c, 0 ≤ c < 256 → Z.log2 c < 8) as Hlog.
  { intros c Hc. destruct (decide (c = 0)) as [->|]; [done|]. apply Z.log2_lt_pow2; lia. }
  pose proof (Hlog a Ha). pose proof (Hlog b Hb). lia.
Qed.

Lemma bytes_CRC_LOOKUP_TABLE : bytes CRC_LOOKUP_TABLE.
Proof. apply (bool_decide_unpack _). by vm_compute. Qed.

(** The table entry for one byte. *)
Definition crc_step (crc b : Z) : Z := CRC_LOOKUP_TABLE !!! Z.to_nat (Z.lxor crc b).

Lemma byte_crc_entry i : byte i → byte (CRC_LOOKUP_TABLE !!! Z.to_nat i).
Proof.
  intros Hi. destruct (lookup_lt_is_Some_2 CRC_LOOKUP_TABLE (Z.to_nat i)) as [x Hx].
  - unfold byte in Hi. change (length CRC_LOOKUP_TABLE) with 256%nat. lia.
  - rewrite (list_lookup_total_correct _ _ _ Hx).
    eapply (Forall_lookup_1 byte); [apply bytes_CRC_LOOKUP_TABLE|exact Hx].
Qed.

Lemma byte_crc_step crc b : byte crc → byte b → byte (crc_step crc b).
Proof. intros. by apply byte_crc_entry, byte_lxor. Qed.
#[export] Hint Resolve byte_lxor byte_crc_step : spw.

Lemma calcCRC_app d1 d2 crc : calcCRC (d1 ++ d2) crc = calcCRC d2 (calcCRC d1 crc).
Proof. apply fold_left_app. Qed.

Lemma calcCRC_cons b d crc : calcCRC (b :: d) crc = calcCRC d (crc_step crc b).
Proof. done. Qed.

Lemma byte_calcCRC data crc : bytes data → byte crc → byte (calcCRC data crc).
Proof.
  intros Hd. revert crc. induction Hd as [|b d Hb Hd IH]; intros crc Hc; [done|].
  rewrite calcCRC_cons. auto with spw.
Qed.

Lemma byte_0 : byte 0.
Proof. unfold byte. lia. Qed.
#[export] Hint Resolve byte_calcCRC byte_0 : spw.

(** ** The table against the references *)

Lemma crc_step_serial crc b : byte crc → byte b → crc_step crc b = crc_serial_byte crc b.
Proof.
  intros Hc Hb. pose proof (byte_lxor _ _ Hc Hb) as Hx.
  unfold crc_step, crc_serial_byte. revert Hx. generalize (Z.lxor crc b). intros i Hi.
  by_bytes1 (λ i, CRC_LOOKUP_TABLE !!! Z.to_nat i =? Nat.iter 8 crc_clock i).
Qed.

(** Every index of the table lookup is within the table, whatever the data. *)
Lemma crc_index_in_table crc b :
  byte crc → byte b → 0 ≤ Z.lxor crc b < zsize CRC_LOOKUP_TABLE.
Proof.
  intros Hc Hb. pose proof (byte_lxor _ _ Hc Hb) as Hx. unfold byte in Hx.
  change (zsize CRC_LOOKUP_TABLE) with 256. lia.
Qed.

Lemma byte_poly_step r bit : byte r → byte (poly_step r bit).
Proof.
  intros Hr. assert ((0 <=? poly_step r bit) && (poly_step r bit <? 256) = true) as H.
  { apply (forall_bytes (λ r, (0 <=? poly_step r bit) && (poly_step r bit <? 256))); [|done].
    destruct bit; by vm_compute. }
  unfold byte. lia.
Qed.

Lemma byte_poly_rem bits r : byte r → byte (poly_rem bits r).
Proof.
  revert r. induction bits as [|b bits IH]; intros r Hr; [done|].
  by apply IH, byte_poly_step.
Qed.

Lemma poly_rem_app l1 l2 r : poly_rem (l1 ++ l2) r = poly_rem l2 (poly_rem l1 r).
Proof. apply fold_left_app. Qed.

(** Dividing by one more byte, then by the eight zeros that multiply by x^8,
    is one step of the table on the bit-reversed remainder. *)
Definition poly_crc (r : Z) : Z := rev8 (poly_rem (replicate 8 false) r).

Lemma poly_rem_byte r b :
  byte r → byte b → poly_crc (poly_rem (byte_bits b) r) = crc_step (poly_crc r) b.
Proof.
  intros Hr Hb.
  by_bytes2 (λ r b, poly_crc (poly_rem (byte_bits b) r) =? crc_step (poly_crc r) b).
Qed.

Lemma crc_poly_unfold data : crc_poly data = poly_crc (poly_rem (message_bits data) 0).
Proof. unfold crc_poly, poly_crc. by rewrite poly_rem_app. Qed.

Lemma poly_rem_message data r :
  poly_rem (message_bits data) r = fold_left (λ r b, poly_rem (byte_bits b) r) data r.
Proof. apply fold_left_join. Qed.

Lemma poly_crc_0 : poly_crc 0 = 0.
Proof. by vm_compute. Qed.

(** C36: The table-driven calcCRC computes the remainder of the message by the RMAP
    generator polynomial x^8 + x^2 + x + 1, with bits sent and stored least
    significant first. *)
Theorem calcCRC_polynomial data : bytes data → crc_poly data = calcCRC data 0.
Proof.
  intros Hd. rewrite crc_poly_unfold, poly_rem_message, <-poly_crc_0.
  refine (proj1 (fold_left_simulation poly_crc (λ r b, poly_rem (byte_bits b) r) crc_step
    byte byte data (poly_crc 0) _ Hd _)); [|rewrite poly_crc_0; apply byte_0].
  intros r b Hr Hb. split; [by apply poly_rem_byte|by apply byte_poly_rem].
Qed.

(** ** Algebra of the checksum *)

Lemma crc_entry_inj i j :
  byte i → byte j → CRC_LOOKUP_TABLE !!! Z.to_nat i = CRC_LOOKUP_TABLE !!! Z.to_nat j → i = j.
Proof.
  intros Hi Hj E. apply Z.eqb_eq in E.
  assert (H : implb (CRC_LOOKUP_TABLE !!! Z.to_nat i =? CRC_LOOKUP_TABLE !!! Z.to_nat j)
            (i =? j) = true).
  { apply (forall_bytes2 (λ i j, implb (CRC_LOOKUP_TABLE !!! Z.to_nat i =?
      CRC_LOOKUP_TABLE !!! Z.to_nat j) (i =? j))); [by vm_compute|done..]. }
  rewrite E in H. by apply Z.eqb_eq.
Qed.

Lemma lxor_inj_r a b c : Z.lxor a b = Z.lxor a c → b = c.
Proof.
  intros E. apply (f_equal (Z.lxor a)) in E.
  by rewrite <-!Z.lxor_assoc, Z.lxor_nilpotent, !Z.lxor_0_l in E.
Qed.

Lemma crc_step_inj_byte crc b1 b2 :
  byte crc → byte b1 → byte b2 → crc_step crc b1 = crc_step crc b2 → b1 = b2.
Proof.
  intros Hc H1 H2 E. apply crc_entry_inj in E; [|auto with spw..].
  by eapply lxor_inj_r.
Qed.

Lemma crc_step_inj_crc c1 c2 b :
  byte c1 → byte c2 → byte b → crc_step c1 b = crc_step c2 b → c1 = c2.
Proof.
  intros H1 H2 Hb E. apply crc_entry_inj in E; [|auto with spw..].
  rewrite !(Z.lxor_comm _ b) in E. by eapply lxor_inj_r.
Qed.

Lemma calcCRC_inj_crc data c1 c2 :
  bytes data → byte c1 → byte c2 → calcCRC data c1 = calcCRC data c2 → c1 = c2.
Proof.
  intros Hd. revert c1 c2. induction Hd as [|b d Hb Hd IH]; intros c1 c2 H1 H2 E; [exact E|].
  rewrite !calcCRC_cons in E. apply IH in E; [|auto with spw..].
  by apply (crc_step_inj_crc c1 c2 b).
Qed.

Lemma crc_step_same b : crc_step b b = 0.
Proof. unfold crc_step. by rewrite Z.lxor_nilpotent. Qed.

(** The table is linear over GF(2). *)
Lemma crc_entry_lxor i j :
  byte i → byte j →
  CRC_LOOKUP_TABLE !!! Z.to_nat (Z.lxor i j) =
  Z.lxor (CRC_LOOKUP_TABLE !!! Z.to_nat i) (CRC_LOOKUP_TABLE !!! Z.to_nat j).
Proof.
  intros Hi Hj. by_bytes2 (λ i j, CRC_LOOKUP_TABLE !!! Z.to_nat (Z.lxor i j) =?
    Z.lxor (CRC_LOOKUP_TABLE !!! Z.to_nat i) (CRC_LOOKUP_TABLE !!! Z.to_nat j)).
Qed.

Lemma lxor_exchange a b c d :
  Z.lxor (Z.lxor a b) (Z.lxor c d) = Z.lxor (Z.lxor a c) (Z.lxor b d).
Proof. by rewrite !Z.lxor_assoc, <-(Z.lxor_assoc b), (Z.lxor_comm b c), Z.lxor_assoc. Qed.

Lemma crc_step_lxor c1 c2 b1 b2 :
  byte c1 → byte c2 → byte b1 → byte b2 →
  crc_step (Z.lxor c1 c2) (Z.lxor b1 b2) = Z.lxor (crc_step c1 b1) (crc_step c2 b2).
Proof.
  intros. unfold crc_step. rewrite lxor_exchange. apply crc_entry_lxor; auto with spw.
Qed.

(** The bitwise difference of two blocks of the same length. *)
Definition xor_bytes (d1 d2 : list Z) : list Z := zip_with Z.lxor d1 d2.

Lemma calcCRC_lxor d1 d2 c1 c2 :
  length d1 = length d2 → bytes d1 → bytes d2 → byte c1 → byte c2 →
  calcCRC (xor_bytes d1 d2) (Z.lxor c1 c2) = Z.lxor (calcCRC d1 c1) (calcCRC d2 c2).
Proof.
  intros Hlen H1. revert d2 c1 c2 Hlen.
  induction H1 as [|b1 d1 Hb1 H1 IH]; intros [|b2 d2] c1 c2 Hlen H2 Hc1 Hc2;
    [reflexivity|discriminate..|].
  apply Forall_cons_1 in H2 as [Hb2 H2]. injection Hlen as Hlen.
  change (xor_bytes (b1 :: d1) (b2 :: d2)) with (Z.lxor b1 b2 :: xor_bytes d1 d2).
  rewrite !calcCRC_cons, crc_step_lxor by done. apply IH; auto with spw.
Qed.

Lemma calcCRC_zeros n : calcCRC (replicate n 0) 0 = 0.
Proof. induction n as [|n IH]; [reflexivity|]. exact IH. Qed.

(** ** Properties *)

(** The table-driven calcCRC equals the bit-serial shift register, from any
    start value. *)
Theorem calcCRC_serial data crc :
  bytes data → byte crc → calcCRC data crc = crc_serial data crc.
Proof.
  intros Hd Hc.
  refine (proj1 (fold_left_simulation (λ c, c) crc_step crc_serial_byte byte byte data crc
    _ Hd Hc)).
  intros c b Hcb Hb. split; [by apply crc_step_serial|auto with spw].
Qed.

(** The residue: a block followed by one byte has checksum zero exactly when
    that byte is the checksum of the block. *)
Theorem calcCRC_residue data crc c :
  bytes data → byte crc → byte c →
  (calcCRC (data ++ [c]) crc = 0 ↔ c = calcCRC data crc).
Proof.
  intros Hd Hcrc Hc. rewrite calcCRC_app, calcCRC_cons. change (calcCRC [] ?x) with x.
  rewrite <-(crc_step_same (calcCRC data crc)). split.
  - intros E. by apply crc_step_inj_byte in E; auto with spw.
  - by intros ->.
Qed.

(** Any corruption confined to one byte of a block changes its checksum. *)
Theorem calcCRC_detects_byte pre b b' post crc :
  bytes pre → byte b → byte b' → bytes post → byte crc → b ≠ b' →
  calcCRC (pre ++ b :: post) crc ≠ calcCRC (pre ++ b' :: post) crc.
Proof.
  intros Hpre Hb Hb' Hpost Hcrc Hne E. rewrite !calcCRC_app, !calcCRC_cons in E.
  apply calcCRC_inj_crc in E; [|auto with spw..].
  by apply crc_step_inj_byte in E; auto with spw.
Qed.

(** A burst of at most eight bits, starting at any bit of any byte: the error
    pattern [e] (an odd byte, so that the burst starts at its lowest bit)
    shifted by [k] over two adjacent bytes of the block. *)
Definition burst_lo (e k : Z) : Z := u8 (Z.shiftl e k).
Definition burst_hi (e k : Z) : Z := u8 (Z.shiftr (Z.shiftl e k) 8).

Lemma burst_checksum e k :
  byte e → byte k → e ≠ 0 → k < 8 → calcCRC [burst_lo e k; burst_hi e k] 0 ≠ 0.
Proof.
  intros He Hk Hne Hlt.
  assert (H : (e =? 0) || negb (k <? 8) ||
              negb (calcCRC [burst_lo e k; burst_hi e k] 0 =? 0) = true).
  { apply (forall_bytes2 (λ e k, (e =? 0) || negb (k <? 8) ||
      negb (calcCRC [burst_lo e k; burst_hi e k] 0 =? 0))); [by vm_compute|done..]. }
  lia.
Qed.

(** A change of the data confined to eight consecutive bits, within a byte or
    across two, always changes the checksum. *)
Theorem calcCRC_detects_burst pre b0 b1 post crc e k :
  bytes pre → byte b0 → byte b1 → bytes post → byte crc → byte e → 0 ≤ k < 8 → e ≠ 0 →
  calcCRC (pre ++ Z.lxor b0 (burst_lo e k) :: Z.lxor b1 (burst_hi e k) :: post) crc ≠
  calcCRC (pre ++ b0 :: b1 :: post) crc.
Proof.
  intros Hpre H0 H1 Hpost Hcrc He Hk Hne E. rewrite !calcCRC_app, !calcCRC_cons in E.
  assert (byte (burst_lo e k) ∧ byte (burst_hi e k)) as [Hl Hh] by (split; apply byte_mod).
  set (c := calcCRC pre crc) in *. assert (byte c) as Hc by (subst c; auto with spw).
  apply calcCRC_inj_crc in E; [|auto 6 with spw..].
  rewrite <-(Z.lxor_0_r c) in E at 1.
  rewrite !crc_step_lxor in E; auto with spw.
  apply (burst_checksum e k); [done|unfold byte; lia|done|lia|].
  rewrite !calcCRC_cons. change (calcCRC [] ?x) with x.
  rewrite <-(Z.lxor_0_r (crc_step (crc_step c b0) b1)) in E at 2. by eapply lxor_inj_r.
Qed.
