(* ===== verification/PacketTypes.v ===== *)
(** * Data of the protocol
    (include/spw_rmap/rmap_packet_type.hh, packet_parser.hh, error_code.hh,
    target_node.hh)

    Enumerations with their underlying values, the [Packet] the parser fills
    in, the error codes every operation of the library returns, and the target
    nodes. *)

From stdpp Require Export vector.
From S2P Require Import Prelude.
#[local] Open Scope Z_scope.

(** ** rmap_packet_type.hh *)

Definition RMAPProtocolIdentifier : Z := 0x01.

Inductive RMAPPacketType := PT_Command | PT_Reply.

Definition packet_type_underlying (t : RMAPPacketType) : Z :=
  match t with PT_Command => 0x40 | PT_Reply => 0x00 end.

Inductive RMAPCommandCode :=
| CC_Write | CC_VerifyDataBeforeWrite | CC_Reply | CC_IncrementAddress.

Definition command_code_underlying (c : RMAPCommandCode) : Z :=
  match c with
  | CC_Write => 0x20
  | CC_VerifyDataBeforeWrite => 0x10
  | CC_Reply => 0x08
  | CC_IncrementAddress => 0x04
  end.

(** ** packet_parser.hh *)

Inductive PacketType := Undefined | Read | Write | ReadReply | WriteReply.

#[export] Instance PacketType_eq_dec : EqDecision PacketType.
Proof. solve_decision. Defined.

(** The spans of a packet are the bytes they view when the packet is parsed. *)
Record Packet := mkPacket {
  targetSpaceWireAddress : list Z;
  replyAddress : list Z;
  initiatorLogicalAddress : Z;
  instruction : Z;
  key : Z;
  status : Z;
  targetLogicalAddress : Z;
  transactionID : Z;
  extendedAddress : Z;
  address : Z;
  dataLength : Z;
  data : list Z;
  type : PacketType;
}.

Definition empty_packet : Packet := mkPacket [] [] 0 0 0 0 0 0 0 0 0 [] Undefined.

#[export] Instance Packet_eq_dec : EqDecision Packet.
Proof. solve_decision. Defined.

(** Assignments to one field of a packet. *)
Definition set_targetSpaceWireAddress (v : list Z) (p : Packet) : Packet :=
  mkPacket v (replyAddress p) (initiatorLogicalAddress p) (instruction p) (key p)
    (status p) (targetLogicalAddress p) (transactionID p) (extendedAddress p) (address
    p) (dataLength p) (data p) (type p).
Definition set_replyAddress (v : list Z) (p : Packet) : Packet :=
  mkPacket (targetSpaceWireAddress p) v (initiatorLogicalAddress p) (instruction p) (key
    p) (status p) (targetLogicalAddress p) (transactionID p) (extendedAddress p)
    (address p) (dataLength p) (data p) (type p).
Definition set_initiatorLogicalAddress (v : Z) (p : Packet) : Packet :=
  mkPacket (targetSpaceWireAddress p) (replyAddress p) v (instruction p) (key p) (status
    p) (targetLogicalAddress p) (transactionID p) (extendedAddress p) (address p)
    (dataLength p) (data p) (type p).
Definition set_instruction (v : Z) (p : Packet) : Packet :=
  mkPacket (targetSpaceWireAddress p) (replyAddress p) (initiatorLogicalAddress p) v
    (key p) (status p) (targetLogicalAddress p) (transactionID p) (extendedAddress p)
    (address p) (dataLength p) (data p) (type p).
Definition set_key (v : Z) (p : Packet) : Packet :=
  mkPacket (targetSpaceWireAddress p) (replyAddress p) (initiatorLogicalAddress p)
    (instruction p) v (status p) (targetLogicalAddress p) (transactionID p)
    (extendedAddress p) (address p) (dataLength p) (data p) (type p).
Definition set_status (v : Z) (p : Packet) : Packet :=
  mkPacket (targetSpaceWireAddress p) (replyAddress p) (initiatorLogicalAddress p)
    (instruction p) (key p) v (targetLogicalAddress p) (transactionID p)
    (extendedAddress p) (address p) (dataLength p) (data p) (type p).
Definition set_targetLogicalAddress (v : Z) (p : Packet) : Packet :=
  mkPacket (targetSpaceWireAddress p) (replyAddress p) (initiatorLogicalAddress p)
    (instruction p) (key p) (status p) v (transactionID p) (extendedAddress p) (address
    p) (dataLength p) (data p) (type p).
Definition set_transactionID (v : Z) (p : Packet) : Packet :=
  mkPacket (targetSpaceWireAddress p) (replyAddress p) (initiatorLogicalAddress p)
    (instruction p) (key p) (status p) (targetLogicalAddress p) v (extendedAddress p)
    (address p) (dataLength p) (data p) (type p).
Definition set_extendedAddress (v : Z) (p : Packet) : Packet :=
  mkPacket (targetSpaceWireAddress p) (replyAddress p) (initiatorLogicalAddress p)
    (instruction p) (key p) (status p) (targetLogicalAddress p) (transactionID p) v
    (address p) (dataLength p) (data p) (type p).
Definition set_address (v : Z) (p : Packet) : Packet :=
  mkPacket (targetSpaceWireAddress p) (replyAddress p) (initiatorLogicalAddress p)
    (instruction p) (key p) (status p) (targetLogicalAddress p) (transactionID p)
    (extendedAddress p) v (dataLength p) (data p) (type p).
Definition set_dataLength (v : Z) (p : Packet) : Packet :=
  mkPacket (targetSpaceWireAddress p) (replyAddress p) (initiatorLogicalAddress p)
    (instruction p) (key p) (status p) (targetLogicalAddress p) (transactionID p)
    (extendedAddress p) (address p) v (data p) (type p).
Definition set_data (v : list Z) (p : Packet) : Packet :=
  mkPacket (targetSpaceWireAddress p) (replyAddress p) (initiatorLogicalAddress p)
    (instruction p) (key p) (status p) (targetLogicalAddress p) (transactionID p)
    (extendedAddress p) (address p) (dataLength p) v (type p).
Definition set_type (v : PacketType) (p : Packet) : Packet :=
  mkPacket (targetSpaceWireAddress p) (replyAddress p) (initiatorLogicalAddress p)
    (instruction p) (key p) (status p) (targetLogicalAddress p) (transactionID p)
    (extendedAddress p) (address p) (dataLength p) (data p) v.

Inductive PacketStatusCode :=
| CommandExecutedSuccessfully | GeneralErrorCode | UnusedRMAPPacketTypeOrCommandCode
| InvalidKey | InvalidDataCRC | EarlyEOP | TooMuchData | EEP | VerifyBufferOverrun
| RMAPCommandNotImplementedOrNotAuthorised | RMWDataLengthError
| InvalidTargetLogicalAddress.

Definition PacketStatusCode_value (c : PacketStatusCode) : Z :=
  match c with
  | CommandExecutedSuccessfully => 0
  | GeneralErrorCode => 1
  | UnusedRMAPPacketTypeOrCommandCode => 2
  | InvalidKey => 3
  | InvalidDataCRC => 4
  | EarlyEOP => 5
  | TooMuchData => 6
  | EEP => 7
  | VerifyBufferOverrun => 9
  | RMAPCommandNotImplementedOrNotAuthorised => 10
  | RMWDataLengthError => 11
  | InvalidTargetLogicalAddress => 12
  end.

Inductive Status :=
| Success | InvalidPacket | HeaderCRCError | DataCRCError | IncompletePacket
| NotReplyPacket | PacketStatusError | UnknownProtocolIdentifier.

#[export] Instance Status_eq_dec : EqDecision Status.
Proof. solve_decision. Defined.

Definition Status_value (s : Status) : Z :=
  match s with
  | Success => 0
  | InvalidPacket => 2
  | HeaderCRCError => 3
  | DataCRCError => 4
  | IncompletePacket => 5
  | NotReplyPacket => 6
  | PacketStatusError => 7
  | UnknownProtocolIdentifier => 8
  end.

(** ** Error codes *)

(** The portable conditions the library names through [std::errc]. *)
Inductive errc :=
| no_buffer_space | invalid_argument | not_connected | bad_message | timed_out
| operation_canceled | resource_unavailable_try_again | connection_aborted
| io_error | already_connected | bad_file_descriptor.

#[export] Instance errc_eq_dec : EqDecision errc.
Proof. solve_decision. Defined.

(** A [std::error_code]: a value and its category.  [make_error_code(errc)]
    is [generic]; codes built from [errno] keep the number. *)
Inductive error_code :=
| generic (e : errc)
| system_category (errno : Z)
| generic_category (errno : Z)
| gai_category (rc : Z)
| status_code_category (ev : Z).

#[export] Instance error_code_eq_dec : EqDecision error_code.
Proof. solve_decision. Defined.

(** [std::expected<A, std::error_code>]. *)
Inductive expected (A : Type) : Type :=
| Ok (a : A)
| Unexpected (ec : error_code).
Arguments Ok {A} a.
Arguments Unexpected {A} ec.

(** ** error_code.hh *)

Definition make_error_code (e : Status) : error_code := status_code_category (Status_value e).

(** [StatusCodeCategory::message]; the [switch] of the source on the integer. *)
Definition StatusCodeCategory_message (ev : Z) : string :=
  if ev =? Status_value Success then "Success"
  else if ev =? Status_value InvalidPacket then "Invalid packet"
  else if ev =? Status_value HeaderCRCError then "Header CRC error"
  else if ev =? Status_value DataCRCError then "Data CRC error"
  else if ev =? Status_value IncompletePacket then "Incomplete packet"
  else if ev =? Status_value NotReplyPacket then "Not a reply packet"
  else if ev =? Status_value PacketStatusError then "Packet status error"
  else if ev =? Status_value UnknownProtocolIdentifier then "Unknown protocol identifier"
  else "Unknown status code".

(** ** target_node.hh

    [TargetNodeBase] and its two subclasses. *)
Inductive TargetNodeBase :=
| TargetNodeFixed {TargetLength ReplyLength : nat} (logical_address : Z)
    (target_spacewire_address : vec Z TargetLength) (reply_address : vec Z ReplyLength)
| TargetNodeDynamic (logical_address : Z)
    (target_spacewire_address reply_address : list Z).

Definition getTargetLogicalAddress (n : TargetNodeBase) : Z :=
  match n with
  | TargetNodeFixed la _ _ => la
  | TargetNodeDynamic la _ _ => la
  end.

Definition getTargetSpaceWireAddress (n : TargetNodeBase) : list Z :=
  match n with
  | TargetNodeFixed _ t _ => vec_to_list t
  | TargetNodeDynamic _ t _ => t
  end.

Definition getReplyAddress (n : TargetNodeBase) : list Z :=
  match n with
  | TargetNodeFixed _ _ r => vec_to_list r
  | TargetNodeDynamic _ _ r => r
  end.

(** The fields hold values of their C++ types; addresses fit in a packet. *)
Definition target_node_wf (n : TargetNodeBase) : Prop :=
  byte (getTargetLogicalAddress n) ∧ bytes (getTargetSpaceWireAddress n) ∧
  bytes (getReplyAddress n).

(** A target node of either class answers its getters alike, so a fixed node
    can stand for the dynamic one with the same addresses. *)
Lemma target_node_fixed_dynamic {n m} la (t : vec Z n) (r : vec Z m) :
  let f := TargetNodeFixed la t r in
  let d := TargetNodeDynamic la (vec_to_list t) (vec_to_list r) in
  getTargetLogicalAddress f = getTargetLogicalAddress d ∧
  getTargetSpaceWireAddress f = getTargetSpaceWireAddress d ∧
  getReplyAddress f = getReplyAddress d ∧
  length (getTargetSpaceWireAddress f) = n ∧ length (getReplyAddress f) = m.
Proof. simpl. by rewrite !length_vec_to_list. Qed.

(** Every status of the parser travels through [std::error_code] without loss,
    and the category names it. *)
Lemma status_message_known s :
  StatusCodeCategory_message (Status_value s) ≠ "Unknown status code".
Proof. by destruct s. Qed.

Lemma make_error_code_inj s1 s2 : make_error_code s1 = make_error_code s2 → s1 = s2.
Proof. by destruct s1, s2. Qed.

Lemma status_message_inj s1 s2 :
  StatusCodeCategory_message (Status_value s1) = StatusCodeCategory_message (Status_value s2) →
  s1 = s2.
Proof. by destruct s1, s2. Qed.
