(* ===== verification/PacketBuilder.v ===== *)
(** * The packet builders (src/packet_builder.cc, include/spw_rmap/packet_builder.hh)

    Each builder writes a packet into a caller's buffer through an [int] index
    [head].  The builders are translated statement by statement over the
    buffer; the reference of each is the packet as a concatenation of its
    fields ([encode_*]), and the theorems say that a builder leaves exactly
    that packet at the front of the buffer, the rest of the buffer untouched,
    or rejects a buffer that is too small. *)

From S2P Require Import Prelude Crc PacketTypes.
#[local] Open Scope Z_scope.

(** ** The configurations *)

Module ReadPacketConfig.
Record t := mk {
  targetSpaceWireAddress : list Z;
  replyAddress : list Z;
  targetLogicalAddress : Z;
  initiatorLogicalAddress : Z;
  transactionID : Z;
  extendedAddress : Z;
  address : Z;
  dataLength : Z;
  key : Z;
  incrementMode : bool;
}.
End ReadPacketConfig.

Module WritePacketConfig.
Record t := mk {
  targetSpaceWireAddress : list Z;
  replyAddress : list Z;
  targetLogicalAddress : Z;
  initiatorLogicalAddress : Z;
  transactionID : Z;
  key : Z;
  extendedAddress : Z;
  address : Z;
  incrementMode : bool;
  reply : bool;
  verifyMode : bool;
  data : list Z;
}.
End WritePacketConfig.

Module ReadReplyPacketConfig.
Record t := mk {
  replyAddress : list Z;
  initiatorLogicalAddress : Z;
  status : Z;
  targetLogicalAddress : Z;
  transactionID : Z;
  data : list Z;
  incrementMode : bool;
}.
End ReadReplyPacketConfig.

Module WriteReplyPacketConfig.
Record t := mk {
  replyAddress : list Z;
  initiatorLogicalAddress : Z;
  status : Z;
  targetLogicalAddress : Z;
  transactionID : Z;
  incrementMode : bool;
  verifyMode : bool;
}.
End WriteReplyPacketConfig.

(** ** Writing through [out[head++]] *)

(** The output span and the index [head], an [int] of the source. *)
Definition cursor : Type := list Z * Z.

Definition emit (b : Z) (s : cursor) : outcome cursor :=
  let '(out, head) := s in
  out ← wr out head b;
  if head <? INT_MAX then Ret (out, head + 1) else UB.

Arguments emit : simpl never.

(** [for (const auto& byte : l) out[head++] = byte;] *)
Fixpoint emit_all (l : list Z) (s : cursor) : outcome cursor :=
  match l with
  | [] => Ret s
  | b :: l => s ← emit b s; emit_all l s
  end.

(** [for (size_t i = 0; i < n; ++i) out[head++] = 0x00;] *)
Fixpoint emit_zeros (n : nat) (s : cursor) : outcome cursor :=
  match n with
  | O => Ret s
  | S n => s ← emit 0x00 s; emit_zeros n s
  end.

(** [crc::calcCRC(std::span(out).subspan(from, head - from))], then
    [out[head++] = crc]. *)
Definition emit_crc (from : Z) (s : cursor) : outcome cursor :=
  let '(out, head) := s in
  covered ← subspan out from (u64 (head - from));
  emit (calcCRC covered 0) s.

(** The reply address length of a command: rounded up to words, and its number
    of words added to the instruction byte.  More than 12 bytes fail the
    [assert] of the source. *)
Definition encode_reply_size (replyAddressSize instruction : Z) : outcome (Z * Z) :=
  if replyAddressSize =? 0 then Ret (replyAddressSize, instruction)
  else if 12 <? replyAddressSize then Abort
  else
    let replyAddressSize := Z.land (replyAddressSize - 1) 0x0C + 0x04 in
    Ret (replyAddressSize, u8 (Z.lor instruction (Z.shiftr replyAddressSize 2))).

(** The zeros in front of the reply address. *)
Definition emit_padding (replyAddressSize actual : Z) (s : cursor) : outcome cursor :=
  if negb (replyAddressSize =? 0)
  then emit_zeros (Z.to_nat (u64 (replyAddressSize - actual))) s
  else Ret s.

Definition emit_u16 (v : Z) (s : cursor) : outcome cursor :=
  s ← emit (u8 (Z.shiftr v 8)) s;
  emit (u8 (Z.land v 0xFF)) s.

Definition emit_u24 (v : Z) (s : cursor) : outcome cursor :=
  s ← emit (u8 (Z.land (Z.shiftr v 16) 0xFF)) s;
  s ← emit (u8 (Z.land (Z.shiftr v 8) 0xFF)) s;
  emit (u8 (Z.land (Z.shiftr v 0) 0xFF)) s.

Definition emit_u32 (v : Z) (s : cursor) : outcome cursor :=
  s ← emit (u8 (Z.land (Z.shiftr v 24) 0xFF)) s;
  s ← emit (u8 (Z.land (Z.shiftr v 16) 0xFF)) s;
  s ← emit (u8 (Z.land (Z.shiftr v 8) 0xFF)) s;
  emit (u8 (Z.land (Z.shiftr v 0) 0xFF)) s.

(** [instruction |= bit], and the same under a condition. *)
Definition set_bits (bits instruction : Z) : Z := u8 (Z.lor instruction bits).
Definition set_bits_if (c : bool) (bits instruction : Z) : Z :=
  if c then set_bits bits instruction else instruction.

(** ** The four builders

    [build] returns what the source returns, and the buffer as it leaves it. *)

Module ReadPacketBuilder.
Import ReadPacketConfig.

Definition getTotalSize (config : t) : Z :=
  zsize (targetSpaceWireAddress config) + 4 + (zsize (replyAddress config) + 3) / 4 * 4 + 12.

Definition build (config : t) (out : list Z) : outcome (expected Z * list Z) :=
  if zsize out <? getTotalSize config
  then Ret (Unexpected (generic no_buffer_space), out)
  else
    s ← emit_all (targetSpaceWireAddress config) (out, 0);
    s ← emit (targetLogicalAddress config) s;
    s ← emit RMAPProtocolIdentifier s;
    let instruction := 0 in
    let instruction := set_bits (packet_type_underlying PT_Command) instruction in
    let instruction := set_bits (command_code_underlying CC_Reply) instruction in
    let instruction := set_bits_if (incrementMode config)
                         (command_code_underlying CC_IncrementAddress) instruction in
    '(replyAddressSize, instruction) ←
      encode_reply_size (zsize (replyAddress config)) instruction;
    s ← emit instruction s;
    s ← emit (key config) s;
    s ← emit_padding replyAddressSize (zsize (replyAddress config)) s;
    s ← emit_all (replyAddress config) s;
    s ← emit (initiatorLogicalAddress config) s;
    s ← emit_u16 (transactionID config) s;
    s ← emit (extendedAddress config) s;
    s ← emit_u32 (address config) s;
    s ← emit_u24 (dataLength config) s;
    s ← emit_crc (zsize (targetSpaceWireAddress config)) s;
    let '(out, head) := s in
    Ret (Ok head, out).
End ReadPacketBuilder.

Module WritePacketBuilder.
Import WritePacketConfig.

Definition getTotalSize (config : t) : Z :=
  zsize (targetSpaceWireAddress config) + 4 + (zsize (replyAddress config) + 3) / 4 * 4 +
  12 + zsize (data config) + 1.

Definition build (config : t) (out : list Z) : outcome (expected Z * list Z) :=
  if zsize out <? getTotalSize config
  then Ret (Unexpected (generic no_buffer_space), out)
  else
    s ← emit_all (targetSpaceWireAddress config) (out, 0);
    s ← emit (targetLogicalAddress config) s;
    s ← emit RMAPProtocolIdentifier s;
    let instruction := 0 in
    let instruction := set_bits (packet_type_underlying PT_Command) instruction in
    let instruction := set_bits (command_code_underlying CC_Write) instruction in
    let instruction := set_bits_if (reply config)
                         (command_code_underlying CC_Reply) instruction in
    let instruction := set_bits_if (verifyMode config)
                         (command_code_underlying CC_VerifyDataBeforeWrite) instruction in
    let instruction := set_bits_if (incrementMode config)
                         (command_code_underlying CC_IncrementAddress) instruction in
    '(replyAddressSize, instruction) ←
      encode_reply_size (zsize (replyAddress config)) instruction;
    s ← emit instruction s;
    s ← emit (key config) s;
    s ← emit_padding replyAddressSize (zsize (replyAddress config)) s;
    s ← emit_all (replyAddress config) s;
    s ← emit (initiatorLogicalAddress config) s;
    s ← emit_u16 (transactionID config) s;
    s ← emit (extendedAddress config) s;
    s ← emit_u32 (address config) s;
    s ← emit_u24 (zsize (data config)) s;
    s ← emit_crc (zsize (targetSpaceWireAddress config)) s;
    s ← emit_all (data config) s;
    s ← emit (calcCRC (data config) 0) s;
    let '(out, head) := s in
    Ret (Ok head, out).
End WritePacketBuilder.

Module WriteReplyPacketBuilder.
Import WriteReplyPacketConfig.

Definition getTotalSize (config : t) : Z := zsize (replyAddress config) + 8.

Definition build (config : t) (out : list Z) : outcome (expected Z * list Z) :=
  if zsize out <? getTotalSize config
  then Ret (Unexpected (generic no_buffer_space), out)
  else
    s ← emit_all (replyAddress config) (out, 0);
    s ← emit (initiatorLogicalAddress config) s;
    s ← emit 0x01 s;
    let instruction := 0 in
    let instruction := set_bits (packet_type_underlying PT_Reply) instruction in
    let instruction := set_bits (command_code_underlying CC_Write) instruction in
    let instruction := set_bits (command_code_underlying CC_Reply) instruction in
    let instruction := set_bits_if (verifyMode config)
                         (command_code_underlying CC_VerifyDataBeforeWrite) instruction in
    let instruction := set_bits_if (incrementMode config)
                         (command_code_underlying CC_IncrementAddress) instruction in
    s ← emit instruction s;
    s ← emit (status config) s;
    s ← emit (targetLogicalAddress config) s;
    s ← emit_u16 (transactionID config) s;
    s ← emit_crc (zsize (replyAddress config)) s;
    let '(out, head) := s in
    Ret (Ok head, out).
End WriteReplyPacketBuilder.

Module ReadReplyPacketBuilder.
Import ReadReplyPacketConfig.

Definition getTotalSize (config : t) : Z :=
  zsize (replyAddress config) + 12 + zsize (data config) + 1.

Definition build (config : t) (out : list Z) : outcome (expected Z * list Z) :=
  if zsize out <? getTotalSize config
  then Ret (Unexpected (generic no_buffer_space), out)
  else
    s ← emit_all (replyAddress config) (out, 0);
    s ← emit (initiatorLogicalAddress config) s;
    s ← emit RMAPProtocolIdentifier s;
    let instruction := 0 in
    let instruction := set_bits (packet_type_underlying PT_Reply) instruction in
    let instruction := set_bits (command_code_underlying CC_Reply) instruction in
    let instruction := set_bits_if (incrementMode config)
                         (command_code_underlying CC_IncrementAddress) instruction in
    s ← emit instruction s;
    s ← emit (status config) s;
    s ← emit (targetLogicalAddress config) s;
    s ← emit_u16 (transactionID config) s;
    s ← emit 0x00 s;
    s ← emit_u24 (zsize (data config)) s;
    s ← emit_crc (zsize (replyAddress config)) s;
    s ← emit_all (data config) s;
    s ← emit (calcCRC (data config) 0) s;
    let '(out, head) := s in
    Ret (Ok head, out).
End ReadReplyPacketBuilder.

(** ** The interface of the builders

    [PacketBuilderBase<ConfigT>]; its member [total_size_] is not used by the
    code. *)
Class PacketBuilderBase (ConfigT : Type) := {
  getTotalSize : ConfigT → Z;
  build : ConfigT → list Z → outcome (expected Z * list Z);
}.

#[export] Instance read_packet_builder : PacketBuilderBase ReadPacketConfig.t :=
  {| getTotalSize := ReadPacketBuilder.getTotalSize; build := ReadPacketBuilder.build |}.
#[export] Instance write_packet_builder : PacketBuilderBase WritePacketConfig.t :=
  {| getTotalSize := WritePacketBuilder.getTotalSize; build := WritePacketBuilder.build |}.
#[export] Instance write_reply_packet_builder : PacketBuilderBase WriteReplyPacketConfig.t :=
  {| getTotalSize := WriteReplyPacketBuilder.getTotalSize; build := WriteReplyPacketBuilder.build |}.
#[export] Instance read_reply_packet_builder : PacketBuilderBase ReadReplyPacketConfig.t :=
  {| getTotalSize := ReadReplyPacketBuilder.getTotalSize; build := ReadReplyPacketBuilder.build |}.

(** ** Reference: packets as concatenations of their fields *)

Definition flag (c : bool) (v : Z) : Z := if c then v else 0.

(** The number of four-byte words of a reply address, and the reply address
    field of a command: the address behind leading zeros. *)
Definition reply_words (r : list Z) : Z := (zsize r + 3) / 4.
Definition reply_field (r : list Z) : list Z :=
  replicate (Z.to_nat (4 * reply_words r - zsize r)) 0 ++ r.

(** A block followed by its checksum. *)
Definition with_crc (l : list Z) : list Z := l ++ [calcCRC l 0].

Definition read_instruction (c : ReadPacketConfig.t) : Z :=
  0x48 + flag (ReadPacketConfig.incrementMode c) 4 + reply_words (ReadPacketConfig.replyAddress c).

Definition encode_read (c : ReadPacketConfig.t) : list Z :=
  ReadPacketConfig.targetSpaceWireAddress c ++
  with_crc (
    [ReadPacketConfig.targetLogicalAddress c; 1; read_instruction c; ReadPacketConfig.key c] ++
    reply_field (ReadPacketConfig.replyAddress c) ++
    [ReadPacketConfig.initiatorLogicalAddress c] ++
    be_split 2 (ReadPacketConfig.transactionID c) ++
    [ReadPacketConfig.extendedAddress c] ++
    be_split 4 (ReadPacketConfig.address c) ++
    be_split 3 (ReadPacketConfig.dataLength c)).

Definition write_instruction (c : WritePacketConfig.t) : Z :=
  0x60 + flag (WritePacketConfig.verifyMode c) 16 + flag (WritePacketConfig.reply c) 8 +
  flag (WritePacketConfig.incrementMode c) 4 + reply_words (WritePacketConfig.replyAddress c).

Definition encode_write (c : WritePacketConfig.t) : list Z :=
  WritePacketConfig.targetSpaceWireAddress c ++
  with_crc (
    [WritePacketConfig.targetLogicalAddress c; 1; write_instruction c; WritePacketConfig.key c] ++
    reply_field (WritePacketConfig.replyAddress c) ++
    [WritePacketConfig.initiatorLogicalAddress c] ++
    be_split 2 (WritePacketConfig.transactionID c) ++
    [WritePacketConfig.extendedAddress c] ++
    be_split 4 (WritePacketConfig.address c) ++
    be_split 3 (zsize (WritePacketConfig.data c))) ++
  with_crc (WritePacketConfig.data c).

Definition write_reply_instruction (c : WriteReplyPacketConfig.t) : Z :=
  0x28 + flag (WriteReplyPacketConfig.verifyMode c) 16 +
  flag (WriteReplyPacketConfig.incrementMode c) 4.

Definition encode_write_reply (c : WriteReplyPacketConfig.t) : list Z :=
  WriteReplyPacketConfig.replyAddress c ++
  with_crc (
    [WriteReplyPacketConfig.initiatorLogicalAddress c; 1; write_reply_instruction c;
     WriteReplyPacketConfig.status c; WriteReplyPacketConfig.targetLogicalAddress c] ++
    be_split 2 (WriteReplyPacketConfig.transactionID c)).

Definition read_reply_instruction (c : ReadReplyPacketConfig.t) : Z :=
  0x08 + flag (ReadReplyPacketConfig.incrementMode c) 4.

Definition encode_read_reply (c : ReadReplyPacketConfig.t) : list Z :=
  ReadReplyPacketConfig.replyAddress c ++
  with_crc (
    [ReadReplyPacketConfig.initiatorLogicalAddress c; 1; read_reply_instruction c;
     ReadReplyPacketConfig.status c; ReadReplyPacketConfig.targetLogicalAddress c] ++
    be_split 2 (ReadReplyPacketConfig.transactionID c) ++
    [0] ++
    be_split 3 (zsize (ReadReplyPacketConfig.data c))) ++
  with_crc (ReadReplyPacketConfig.data c).

(** ** Lemmas on the cursor *)

(** The cursor of a buffer [out] at whose front [pre] has been written. *)
Definition written (out pre : list Z) : cursor := (pre ++ drop (length pre) out, zsize pre).

Arguments written : simpl never.

(** [fits out n]: the next [n] bytes can be written. *)
Definition fits (out : list Z) (n : Z) : Prop := n ≤ zsize out ∧ n ≤ INT_MAX.

Lemma written_nil out : (out, 0) = written out [].
Proof. done. Qed.

Lemma emit_written out pre b :
  fits out (zsize pre + 1) → emit b (written out pre) = Ret (written out (pre ++ [b])).
Proof.
  intros [Hs Hi]. unfold emit, written.
  destruct (drop (length pre) out) as [|x rest] eqn:E.
  { apply (f_equal length) in E. rewrite length_drop in E. simpl in E. unfold zsize in Hs. lia. }
  rewrite wr_app. cbn [mbind outcome_bind].
  destruct (Z.ltb_spec (zsize pre) INT_MAX); [|lia]. do 2 f_equal; [|by zs].
  rewrite length_app, <-drop_drop, E. simpl. by rewrite <-app_assoc.
Qed.

Lemma emit_all_written out pre l :
  fits out (zsize pre + zsize l) →
  emit_all l (written out pre) = Ret (written out (pre ++ l)).
Proof.
  revert pre. induction l as [|b l IH]; intros pre Hf; simpl; [by rewrite app_nil_r|].
  pose proof (zsize_nonneg l). unfold fits in *. rewrite zsize_cons in Hf.
  rewrite emit_written by (split; lia). cbn [mbind outcome_bind].
  rewrite IH by (rewrite zsize_app, zsize_cons, zsize_nil; split; lia).
  by rewrite <-app_assoc.
Qed.

Lemma emit_zeros_all n s : emit_zeros n s = emit_all (replicate n 0) s.
Proof.
  revert s. induction n as [|n IH]; intros s; simpl; [done|].
  destruct (emit 0 s); simpl; auto.
Qed.

Lemma emit_all_app l1 l2 s : (s ← emit_all l1 s; emit_all l2 s) = emit_all (l1 ++ l2) s.
Proof.
  revert s. induction l1 as [|b l1 IH]; intros s; simpl; [done|].
  destruct (emit b s); simpl; [apply IH|done..].
Qed.

Lemma emit_one b s : emit b s = emit_all [b] s.
Proof. simpl. by destruct (emit b s). Qed.

Lemma u8_shiftr v k : 0 ≤ k → u8 (Z.shiftr v k) = (v / 2 ^ k) mod 256.
Proof. intros. unfold u8. by rewrite Z.shiftr_div_pow2. Qed.

Lemma u8_land_shiftr v k : 0 ≤ k → u8 (Z.land (Z.shiftr v k) 0xFF) = (v / 2 ^ k) mod 256.
Proof.
  intros. unfold u8. change 0xFF with (Z.ones 8).
  rewrite Z.land_ones, Z.shiftr_div_pow2 by lia. by rewrite Z.mod_mod by lia.
Qed.

Lemma u8_land v : u8 (Z.land v 0xFF) = (v / 2 ^ 0) mod 256.
Proof. rewrite <-u8_land_shiftr by lia. by rewrite Z.shiftr_0_r. Qed.

Lemma emit_u16_all v s : emit_u16 v s = emit_all (be_split 2 v) s.
Proof.
  unfold emit_u16. rewrite u8_shiftr, u8_land by lia. cbn [be_split emit_all].
  simpl (8 * _). destruct (emit _ s); simpl; [apply emit_one|done..].
Qed.

Lemma emit_u24_all v s : emit_u24 v s = emit_all (be_split 3 v) s.
Proof.
  unfold emit_u24. rewrite !u8_land_shiftr by lia. cbn [be_split emit_all].
  simpl (8 * _). destruct (emit _ s); simpl; [|done..].
  destruct (emit _ a); simpl; [apply emit_one|done..].
Qed.

Lemma emit_u32_all v s : emit_u32 v s = emit_all (be_split 4 v) s.
Proof.
  unfold emit_u32. rewrite !u8_land_shiftr by lia. cbn [be_split emit_all].
  simpl (8 * _). destruct (emit _ s); simpl; [|done..].
  destruct (emit _ a); simpl; [|done..]. destruct (emit _ a0); simpl; [apply emit_one|done..].
Qed.

Lemma emit_crc_written out pre l :
  fits out (zsize pre + zsize l + 1) →
  emit_crc (zsize pre) (written out (pre ++ l)) = Ret (written out (pre ++ with_crc l)).
Proof.
  intros Hf. unfold emit_crc, written at 1.
  pose proof (zsize_nonneg pre). pose proof (zsize_nonneg l). unfold fits, INT_MAX in Hf.
  rewrite (subspan_eq _ pre l (drop (length (pre ++ l)) out)); [|by rewrite <-app_assoc|done|].
  - cbn [mbind outcome_bind]. unfold with_crc. rewrite app_assoc. apply emit_written.
    unfold fits, INT_MAX. zs. lia.
  - unfold u64. rewrite zsize_app, Z.add_simpl_l. apply Z.mod_small. lia.
Qed.

Lemma encode_reply_size_spec n i :
  0 ≤ n ≤ 12 → byte i → i mod 4 = 0 →
  encode_reply_size n i = Ret (4 * ((n + 3) / 4), i + (n + 3) / 4).
Proof.
  intros Hn Hi Hmod. unfold byte in Hi. unfold encode_reply_size.
  destruct (Z.eqb_spec n 0) as [->|Hn0]; [by rewrite Z.add_0_r|].
  destruct (Z.ltb_spec 12 n); [lia|].
  assert (Hr : Z.land (n - 1) 0x0C + 0x04 = 4 * ((n + 3) / 4)).
  { assert (n ∈ seqZ 1 12) as Hin by (apply elem_of_seqZ; lia).
    clear -Hin. repeat (apply elem_of_cons in Hin as [->|Hin]; [reflexivity|]).
    by apply elem_of_nil in Hin. }
  rewrite Hr. do 2 f_equal. rewrite Z.shiftr_div_pow2 by lia. change (2 ^ 2) with 4.
  rewrite (Z.mul_comm 4), Z.div_mul by lia.
  replace i with (i / 4 * 2 ^ 2) at 1 by dlia. rewrite lor_disjoint by dlia.
  unfold u8. rewrite Z.mod_small; dlia.
Qed.

(** ** The builders against the references *)

Lemma zsize_reply_field r : zsize (reply_field r) = 4 * reply_words r.
Proof.
  unfold reply_field, reply_words. pose proof (zsize_nonneg r). zs. dlia.
Qed.

Lemma zsize_with_crc l : zsize (with_crc l) = zsize l + 1.
Proof. unfold with_crc. by zs. Qed.
#[export] Hint Rewrite zsize_reply_field zsize_with_crc : zsize.

Lemma emit_padding_all r s :
  zsize r ≤ 12 →
  emit_padding (4 * reply_words r) (zsize r) s =
  emit_all (replicate (Z.to_nat (4 * reply_words r - zsize r)) 0) s.
Proof.
  intros Hr. unfold emit_padding, reply_words. pose proof (zsize_nonneg r).
  destruct (Z.eqb_spec (4 * ((zsize r + 3) / 4)) 0) as [E|E]; simpl.
  - by replace (4 * ((zsize r + 3) / 4) - zsize r) with 0 by dlia.
  - rewrite emit_zeros_all. do 3 f_equal. apply Z.mod_small. dlia.
Qed.

(** [build_step] executes the next statement of a builder on a [written]
    cursor; the side conditions follow from the size test at its start. *)
Ltac fits_tac :=
  match goal with H : fits ?out _ |- fits ?out _ =>
    revert H; unfold fits; autorewrite with zsize; intros H; lia
  end.

Ltac build_step :=
  first
    [ rewrite emit_u16_all | rewrite emit_u24_all | rewrite emit_u32_all
    | rewrite emit_padding_all by lia | idtac ];
  first
    [ rewrite emit_written by fits_tac
    | rewrite emit_all_written by fits_tac
    | rewrite <-!app_assoc, app_nil_l, emit_crc_written by fits_tac ];
  cbn [mbind outcome_bind].

(** The result of a builder: the packet at the front of the buffer. *)
Definition built (out pkt : list Z) : outcome (expected Z * list Z) :=
  Ret (Ok (zsize pkt), pkt ++ drop (length pkt) out).

Lemma built_written out P Q :
  P = Q → (let '(out, head) := written out P in Ret (Ok head, out)) = built out Q.
Proof. by intros ->. Qed.

Ltac build_done :=
  apply built_written;
  unfold encode_read, encode_write, encode_write_reply, encode_read_reply, reply_field, with_crc;
  repeat rewrite <-app_assoc; reflexivity.

Lemma reply_words_pad r : 0 ≤ 4 * reply_words r - zsize r.
Proof. unfold reply_words. pose proof (zsize_nonneg r). dlia. Qed.

Lemma fits_not_small out n : fits out n → (zsize out <? n) = false.
Proof. unfold fits. lia. Qed.

Lemma read_build_fits c out :
  zsize (ReadPacketConfig.replyAddress c) ≤ 12 →
  fits out (ReadPacketBuilder.getTotalSize c) →
  ReadPacketBuilder.build c out = built out (encode_read c).
Proof.
  intros Hr Hf. unfold ReadPacketBuilder.build. rewrite fits_not_small by done.
  unfold ReadPacketBuilder.getTotalSize in Hf.
  fold (reply_words (ReadPacketConfig.replyAddress c)) in Hf.
  pose proof (zsize_nonneg (ReadPacketConfig.targetSpaceWireAddress c)).
  pose proof (zsize_nonneg (ReadPacketConfig.replyAddress c)).
  pose proof (reply_words_pad (ReadPacketConfig.replyAddress c)).
  rewrite written_nil. do 3 build_step. cbv zeta.
  rewrite encode_reply_size_spec; [|lia|by destruct ReadPacketConfig.incrementMode..].
  cbn [mbind outcome_bind]. fold (reply_words (ReadPacketConfig.replyAddress c)).
  replace (_ + reply_words _) with (read_instruction c)
    by (unfold read_instruction; by destruct ReadPacketConfig.incrementMode).
  do 10 build_step. build_done.
Qed.

Lemma write_build_fits c out :
  zsize (WritePacketConfig.replyAddress c) ≤ 12 →
  fits out (WritePacketBuilder.getTotalSize c) →
  WritePacketBuilder.build c out = built out (encode_write c).
Proof.
  intros Hr Hf. unfold WritePacketBuilder.build. rewrite fits_not_small by done.
  unfold WritePacketBuilder.getTotalSize in Hf.
  fold (reply_words (WritePacketConfig.replyAddress c)) in Hf.
  pose proof (zsize_nonneg (WritePacketConfig.targetSpaceWireAddress c)).
  pose proof (zsize_nonneg (WritePacketConfig.replyAddress c)).
  pose proof (zsize_nonneg (WritePacketConfig.data c)).
  pose proof (reply_words_pad (WritePacketConfig.replyAddress c)).
  rewrite written_nil. do 3 build_step. cbv zeta.
  rewrite encode_reply_size_spec;
    [|lia|by destruct WritePacketConfig.incrementMode, WritePacketConfig.reply,
          WritePacketConfig.verifyMode..].
  cbn [mbind outcome_bind]. fold (reply_words (WritePacketConfig.replyAddress c)).
  replace (_ + reply_words _) with (write_instruction c)
    by (unfold write_instruction; by destruct WritePacketConfig.incrementMode,
          WritePacketConfig.reply, WritePacketConfig.verifyMode).
  do 12 build_step. build_done.
Qed.

Lemma write_reply_build_fits c out :
  fits out (WriteReplyPacketBuilder.getTotalSize c) →
  WriteReplyPacketBuilder.build c out = built out (encode_write_reply c).
Proof.
  intros Hf. unfold WriteReplyPacketBuilder.build. rewrite fits_not_small by done.
  unfold WriteReplyPacketBuilder.getTotalSize in Hf.
  pose proof (zsize_nonneg (WriteReplyPacketConfig.replyAddress c)).
  rewrite written_nil. do 3 build_step. cbv zeta.
  replace (set_bits_if _ _ _) with (write_reply_instruction c)
    by (unfold write_reply_instruction; by destruct WriteReplyPacketConfig.incrementMode,
          WriteReplyPacketConfig.verifyMode).
  do 5 build_step. build_done.
Qed.

Lemma read_reply_build_fits c out :
  fits out (ReadReplyPacketBuilder.getTotalSize c) →
  ReadReplyPacketBuilder.build c out = built out (encode_read_reply c).
Proof.
  intros Hf. unfold ReadReplyPacketBuilder.build. rewrite fits_not_small by done.
  unfold ReadReplyPacketBuilder.getTotalSize in Hf.
  pose proof (zsize_nonneg (ReadReplyPacketConfig.replyAddress c)).
  pose proof (zsize_nonneg (ReadReplyPacketConfig.data c)).
  rewrite written_nil. do 3 build_step. cbv zeta.
  replace (set_bits_if _ _ _) with (read_reply_instruction c)
    by (unfold read_reply_instruction; by destruct ReadReplyPacketConfig.incrementMode).
  do 9 build_step. build_done.
Qed.

(** ** The commands over every buffer and reply address *)

Lemma read_build_spec c out :
  ReadPacketBuilder.getTotalSize c ≤ INT_MAX →
  ReadPacketBuilder.build c out =
  if zsize out <? ReadPacketBuilder.getTotalSize c
  then Ret (Unexpected (generic no_buffer_space), out)
  else if 12 <? zsize (ReadPacketConfig.replyAddress c) then Abort
  else built out (encode_read c).
Proof.
  intros Hm. destruct (Z.ltb_spec (zsize out) (ReadPacketBuilder.getTotalSize c)).
  { unfold ReadPacketBuilder.build. by destruct (Z.ltb_spec (zsize out) (ReadPacketBuilder.getTotalSize c)); [|lia]. }
  assert (Hf : fits out (ReadPacketBuilder.getTotalSize c)) by done.
  destruct (Z.ltb_spec 12 (zsize (ReadPacketConfig.replyAddress c))) as [Hr|Hr];
    [|by apply read_build_fits].
  unfold ReadPacketBuilder.build. rewrite fits_not_small by done.
  unfold ReadPacketBuilder.getTotalSize in Hf.
  pose proof (zsize_nonneg (ReadPacketConfig.targetSpaceWireAddress c)).
  assert (0 ≤ (zsize (ReadPacketConfig.replyAddress c) + 3) / 4) by dlia.
  rewrite written_nil. do 3 build_step. cbv zeta. unfold encode_reply_size.
  destruct (Z.eqb_spec (zsize (ReadPacketConfig.replyAddress c)) 0); [lia|].
  by destruct (Z.ltb_spec 12 (zsize (ReadPacketConfig.replyAddress c))); [|lia].
Qed.

Lemma write_build_spec c out :
  WritePacketBuilder.getTotalSize c ≤ INT_MAX →
  WritePacketBuilder.build c out =
  if zsize out <? WritePacketBuilder.getTotalSize c
  then Ret (Unexpected (generic no_buffer_space), out)
  else if 12 <? zsize (WritePacketConfig.replyAddress c) then Abort
  else built out (encode_write c).
Proof.
  intros Hm. destruct (Z.ltb_spec (zsize out) (WritePacketBuilder.getTotalSize c)).
  { unfold WritePacketBuilder.build. by destruct (Z.ltb_spec (zsize out) (WritePacketBuilder.getTotalSize c)); [|lia]. }
  assert (Hf : fits out (WritePacketBuilder.getTotalSize c)) by done.
  destruct (Z.ltb_spec 12 (zsize (WritePacketConfig.replyAddress c))) as [Hr|Hr];
    [|by apply write_build_fits].
  unfold WritePacketBuilder.build. rewrite fits_not_small by done.
  unfold WritePacketBuilder.getTotalSize in Hf.
  pose proof (zsize_nonneg (WritePacketConfig.targetSpaceWireAddress c)).
  pose proof (zsize_nonneg (WritePacketConfig.data c)).
  assert (0 ≤ (zsize (WritePacketConfig.replyAddress c) + 3) / 4) by dlia.
  rewrite written_nil. do 3 build_step. cbv zeta. unfold encode_reply_size.
  destruct (Z.eqb_spec (zsize (WritePacketConfig.replyAddress c)) 0); [lia|].
  by destruct (Z.ltb_spec 12 (zsize (WritePacketConfig.replyAddress c))); [|lia].
Qed.

(** ** The replies over every buffer *)

Lemma write_reply_build_spec c out :
  WriteReplyPacketBuilder.getTotalSize c ≤ INT_MAX →
  WriteReplyPacketBuilder.build c out =
  if zsize out <? WriteReplyPacketBuilder.getTotalSize c
  then Ret (Unexpected (generic no_buffer_space), out)
  else built out (encode_write_reply c).
Proof.
  intros Hm. destruct (Z.ltb_spec (zsize out) (WriteReplyPacketBuilder.getTotalSize c)).
  - unfold WriteReplyPacketBuilder.build.
    by destruct (Z.ltb_spec (zsize out) (WriteReplyPacketBuilder.getTotalSize c)); [|lia].
  - by apply write_reply_build_fits.
Qed.

Lemma read_reply_build_spec c out :
  ReadReplyPacketBuilder.getTotalSize c ≤ INT_MAX →
  ReadReplyPacketBuilder.build c out =
  if zsize out <? ReadReplyPacketBuilder.getTotalSize c
  then Ret (Unexpected (generic no_buffer_space), out)
  else built out (encode_read_reply c).
Proof.
  intros Hm. destruct (Z.ltb_spec (zsize out) (ReadReplyPacketBuilder.getTotalSize c)).
  - unfold ReadReplyPacketBuilder.build.
    by destruct (Z.ltb_spec (zsize out) (ReadReplyPacketBuilder.getTotalSize c)); [|lia].
  - by apply read_reply_build_fits.
Qed.

(** Sizes of the encodings. *)
Lemma zsize_encode_read c : zsize (encode_read c) = ReadPacketBuilder.getTotalSize c.
Proof.
  unfold encode_read, ReadPacketBuilder.getTotalSize.
  fold (reply_words (ReadPacketConfig.replyAddress c)). zs. lia.
Qed.
Lemma zsize_encode_write c : zsize (encode_write c) = WritePacketBuilder.getTotalSize c.
Proof.
  unfold encode_write, WritePacketBuilder.getTotalSize.
  fold (reply_words (WritePacketConfig.replyAddress c)). zs. lia.
Qed.
Lemma zsize_encode_write_reply c :
  zsize (encode_write_reply c) = WriteReplyPacketBuilder.getTotalSize c.
Proof. unfold encode_write_reply, WriteReplyPacketBuilder.getTotalSize. zs. lia. Qed.
Lemma zsize_encode_read_reply c :
  zsize (encode_read_reply c) = ReadReplyPacketBuilder.getTotalSize c.
Proof. unfold encode_read_reply, ReadReplyPacketBuilder.getTotalSize. zs. lia. Qed.
#[export] Hint Rewrite zsize_encode_read zsize_encode_write zsize_encode_write_reply
  zsize_encode_read_reply : zsize.

(** C24: Every builder, for a packet of at most INT_MAX bytes, on every buffer: a
    buffer smaller than the packet is refused with no_buffer_space and not
    written to, a reply address of more than 12 bytes in a command fails the
    assertion, and otherwise the buffer starts with exactly the reference
    encoding, its rest is untouched and the encoding's size is returned. *)
Theorem builders_outcomes out :
  (∀ c, ReadPacketBuilder.getTotalSize c ≤ INT_MAX →
     zsize (encode_read c) = ReadPacketBuilder.getTotalSize c ∧
     ReadPacketBuilder.build c out =
     (if zsize out <? zsize (encode_read c) then Ret (Unexpected (generic no_buffer_space), out)
      else if 12 <? zsize (ReadPacketConfig.replyAddress c) then Abort
      else built out (encode_read c))) ∧
  (∀ c, WritePacketBuilder.getTotalSize c ≤ INT_MAX →
     zsize (encode_write c) = WritePacketBuilder.getTotalSize c ∧
     WritePacketBuilder.build c out =
     (if zsize out <? zsize (encode_write c) then Ret (Unexpected (generic no_buffer_space), out)
      else if 12 <? zsize (WritePacketConfig.replyAddress c) then Abort
      else built out (encode_write c))) ∧
  (∀ c, ReadReplyPacketBuilder.getTotalSize c ≤ INT_MAX →
     zsize (encode_read_reply c) = ReadReplyPacketBuilder.getTotalSize c ∧
     ReadReplyPacketBuilder.build c out =
     (if zsize out <? zsize (encode_read_reply c)
      then Ret (Unexpected (generic no_buffer_space), out) else built out (encode_read_reply c))) ∧
  (∀ c, WriteReplyPacketBuilder.getTotalSize c ≤ INT_MAX →
     zsize (encode_write_reply c) = WriteReplyPacketBuilder.getTotalSize c ∧
     WriteReplyPacketBuilder.build c out =
     (if zsize out <? zsize (encode_write_reply c)
      then Ret (Unexpected (generic no_buffer_space), out) else built out (encode_write_reply c))).
Proof.
  split_and!; intros c Hc; (split; [by zs|]); zs; [by apply read_build_spec|by apply write_build_spec|
    by apply read_reply_build_spec|by apply write_reply_build_spec].
Qed.
