(* ===== verification/PacketParser.v ===== *)
(** * The packet parser (src/packet_parser.cc, include/spw_rmap/packet_parser.hh)

    [PacketParser] keeps one [Packet] between calls; a parse updates it field
    by field and may return before all fields are set.  The parsing functions
    take the packet object and return the status with the object as it is left.
    Every [packet[head++]] is a checked read, so that a result other than [UB]
    means that the parser stayed inside the span. *)

From S2P Require Import Prelude Crc PacketTypes.
#[local] Open Scope Z_scope.

(** [v |= packet[head++] << k], for a [v] of the width of the wrapper [wrap]. *)
Definition or_next (wrap : Z → Z) (packet : list Z) (k : Z) (v head : Z) : outcome (Z * Z) :=
  '(b, head) ← next packet head;
  Ret (wrap (Z.lor v (Z.shiftl b k)), head).

(** [packet_.transactionID = 0] and its two bytes. *)
Definition parse_u16 (packet : list Z) (head : Z) : outcome (Z * Z) :=
  '(v, head) ← or_next u16 packet 8 0 head;
  or_next u16 packet 0 v head.

(** [packet_.dataLength = 0] and its three bytes. *)
Definition parse_u24 (packet : list Z) (head : Z) : outcome (Z * Z) :=
  '(v, head) ← or_next u32 packet 16 0 head;
  '(v, head) ← or_next u32 packet 8 v head;
  or_next u32 packet 0 v head.

(** [packet_.address = 0] and its four bytes. *)
Definition parse_u32 (packet : list Z) (head : Z) : outcome (Z * Z) :=
  '(v, head) ← or_next u32 packet 24 0 head;
  '(v, head) ← or_next u32 packet 16 v head;
  '(v, head) ← or_next u32 packet 8 v head;
  or_next u32 packet 0 v head.

(** The loop over the reply address field: it skips leading zeros, and jumps to
    the end of the field at the first byte that is not zero.  Results:
    [head], [replyAddressFirstByte], [replyAddressActualSize]. *)
Fixpoint scan_reply_address (n : nat) (packet : list Z) (head first actual : Z)
    : outcome (Z * Z * Z) :=
  match n with
  | O => Ret (head, first, actual)
  | S n =>
      '(b, head) ← next packet head;
      if b =? 0x00
      then scan_reply_address n packet head head (u64 (actual - 1))
      else Ret (u64 (head + u64 (actual - 1)), first, actual)
  end.

(** The part of a command behind the key byte up to the header CRC, which the
    two command parsers share: reply address to data length. *)
Definition parse_command_fields (packet : list Z) (replyAddressSize head : Z) (p : Packet)
    : outcome (Packet * Z) :=
  '(head, replyAddressFirstByte, replyAddressActualSize) ←
    scan_reply_address (Z.to_nat replyAddressSize) packet head head replyAddressSize;
  reply ← subspan packet replyAddressFirstByte replyAddressActualSize;
  let p := set_replyAddress reply p in
  '(b, head) ← next packet head;
  let p := set_initiatorLogicalAddress b p in
  '(v, head) ← parse_u16 packet head;
  let p := set_transactionID v p in
  '(b, head) ← next packet head;
  let p := set_extendedAddress b p in
  '(v, head) ← parse_u32 packet head;
  let p := set_address v p in
  '(v, head) ← parse_u24 packet head;
  let p := set_dataLength v p in
  Ret (p, head).

Definition parseReadPacket (packet : list Z) (p : Packet) : outcome (Status * Packet) :=
  if zsize packet <? 4 then Ret (IncompletePacket, p) else
  let head := 0 in
  instruction ← rd packet 2;
  let replyAddressSize := Z.land instruction 3 * 4 in
  if negb (zsize packet =? 16 + replyAddressSize) then Ret (IncompletePacket, p) else
  header ← subspan packet 0 (16 + replyAddressSize);
  if negb (calcCRC header 0 =? 0x00) then Ret (HeaderCRCError, p) else
  '(b, head) ← next packet head;
  let p := set_targetLogicalAddress b p in
  '(b, head) ← next packet head;
  if negb (b =? 0x01) then Ret (UnknownProtocolIdentifier, p) else
  '(b, head) ← next packet head;
  let p := set_instruction b p in
  '(b, head) ← next packet head;
  let p := set_key b p in
  '(p, head) ← parse_command_fields packet replyAddressSize head p;
  Ret (Success, p).

Definition parseReadReplyPacket (packet : list Z) (p : Packet) : outcome (Status * Packet) :=
  let head := 0 in
  if zsize packet <? 12 then Ret (IncompletePacket, p) else
  header ← subspan packet 0 12;
  if negb (calcCRC header 0 =? 0x00) then Ret (HeaderCRCError, p) else
  '(b, head) ← next packet head;
  let p := set_initiatorLogicalAddress b p in
  '(b, head) ← next packet head;
  if negb (b =? 0x01) then Ret (UnknownProtocolIdentifier, p) else
  '(b, head) ← next packet head;
  let p := set_instruction b p in
  '(b, head) ← next packet head;
  let p := set_status b p in
  '(b, head) ← next packet head;
  let p := set_targetLogicalAddress b p in
  '(v, head) ← parse_u16 packet head;
  let p := set_transactionID v p in
  let head := head + 1 in
  '(v, head) ← parse_u24 packet head;
  let p := set_dataLength v p in
  if negb (zsize packet =? u32 (12 + dataLength p + 1)) then Ret (IncompletePacket, p) else
  body ← subspan packet 12 (u32 (dataLength p + 1));
  if negb (calcCRC body 0 =? 0x00) then Ret (DataCRCError, p) else
  let head := head + 1 in
  data ← subspan packet head (dataLength p);
  Ret (Success, set_data data p).

Definition parseWritePacket (packet : list Z) (p : Packet) : outcome (Status * Packet) :=
  if zsize packet <? 4 then Ret (IncompletePacket, p) else
  let head := 0 in
  instruction ← rd packet 2;
  let replyAddressSize := Z.land instruction 3 * 4 in
  if zsize packet <=? 16 + replyAddressSize then Ret (IncompletePacket, p) else
  header ← subspan packet 0 (16 + replyAddressSize);
  if negb (calcCRC header 0 =? 0x00) then Ret (HeaderCRCError, p) else
  '(b, head) ← next packet head;
  let p := set_targetLogicalAddress b p in
  '(b, head) ← next packet head;
  if negb (b =? 0x01) then Ret (UnknownProtocolIdentifier, p) else
  '(b, head) ← next packet head;
  let p := set_instruction b p in
  '(b, head) ← next packet head;
  let p := set_key b p in
  '(p, head) ← parse_command_fields packet replyAddressSize head p;
  if negb (zsize packet =? 16 + replyAddressSize + dataLength p + 1)
  then Ret (IncompletePacket, p) else
  body ← subspan packet (16 + replyAddressSize) (u32 (dataLength p + 1));
  if negb (calcCRC body 0 =? 0x00) then Ret (DataCRCError, p) else
  let head := head + 1 in
  data ← subspan packet head (dataLength p);
  Ret (Success, set_data data p).

Definition parseWriteReplyPacket (packet : list Z) (p : Packet) : outcome (Status * Packet) :=
  let head := 0 in
  if negb (zsize packet =? 8) then Ret (IncompletePacket, p) else
  header ← subspan packet 0 8;
  if negb (calcCRC header 0 =? 0x00) then Ret (HeaderCRCError, p) else
  '(b, head) ← next packet head;
  let p := set_initiatorLogicalAddress b p in
  '(b, head) ← next packet head;
  if negb (b =? 0x01) then Ret (UnknownProtocolIdentifier, p) else
  '(b, head) ← next packet head;
  let p := set_instruction b p in
  '(b, head) ← next packet head;
  let p := set_status b p in
  '(b, head) ← next packet head;
  let p := set_targetLogicalAddress b p in
  '(v, head) ← parse_u16 packet head;
  let p := set_transactionID v p in
  Ret (Success, p).

(** [while (packet[head] < 0x20)]: the index of the first byte that is not a
    path address, or [None] when the packet ends before one. *)
Fixpoint skip_path (fuel : nat) (packet : list Z) (head : Z) : outcome (option Z) :=
  match fuel with
  | O => Pending
  | S fuel =>
      b ← rd packet head;
      if b <? 0x20 then
        let head := head + 1 in
        if zsize packet <=? head then Ret None else skip_path fuel packet head
      else Ret (Some head)
  end.

Definition parse (packet : list Z) (p : Packet) : outcome (Status * Packet) :=
  r ← skip_path (S (length packet)) packet 0;
  match r with
  | None => Ret (IncompletePacket, p)
  | Some head =>
      if u64 (zsize packet - head) <? 4 then Ret (IncompletePacket, p) else
      b ← rd packet (head + 2);
      let p := set_instruction b p in
      let is_command := negb (Z.land (instruction p) 0x40 =? 0) in
      let is_write :=
        negb (Z.land (instruction p) (command_code_underlying CC_Write) =? 0) in
      path ← subspan packet 0 head;
      rest ← subspan_from packet head;
      match is_command, is_write with
      | false, false =>
          parseReadReplyPacket rest (set_replyAddress path (set_type ReadReply p))
      | false, true =>
          parseWriteReplyPacket rest (set_replyAddress path (set_type WriteReply p))
      | true, false =>
          parseReadPacket rest (set_targetSpaceWireAddress path (set_type Read p))
      | true, true =>
          parseWritePacket rest (set_targetSpaceWireAddress path (set_type Write p))
      end
  end.

(** On an empty span PacketParser::parse reads packet[0] before it looks at the
    size. *)
Theorem parse_empty_reads_out_of_range p : parse [] p = UB.
Proof. done. Qed.
