(* ===== verification/PacketParserFacts.v ===== *)
(** * What the parser computes

    The lemmas of this file give the result of each parsing function on a
    packet written as the list of its fields; every packet that passes the size
    tests has that form.  From them follow the safety of the parser on all
    inputs, its soundness (an accepted packet is the encoding of the fields it
    reports) and its completeness (the encoding of well-formed fields is
    accepted). *)

From S2P Require Import Prelude Crc PacketTypes PacketBuilder PacketParser.
#[local] Open Scope Z_scope.

(** ** Fields *)

(** A reply address field without its leading zeros. *)
Fixpoint strip_zeros (l : list Z) : list Z :=
  match l with
  | [] => []
  | b :: l' => if b =? 0 then strip_zeros l' else l
  end.

Lemma strip_zeros_suffix l :
  ∃ n, l = replicate n 0 ++ strip_zeros l ∧ zsize l = Z.of_nat n + zsize (strip_zeros l).
Proof.
  induction l as [|b l [n [IH1 IH2]]]; [by exists O|]. simpl.
  destruct (Z.eqb_spec b 0) as [->|Hb]; [|by exists O].
  exists (S n). split; [simpl; by rewrite <-IH1|]. rewrite zsize_cons. lia.
Qed.

Lemma strip_zeros_pad n r : strip_zeros (replicate n 0 ++ r) = strip_zeros r.
Proof. by induction n. Qed.

Lemma bytes_strip_zeros l : bytes l → bytes (strip_zeros l).
Proof.
  intros Hl. destruct (strip_zeros_suffix l) as (n & E & _). rewrite E in Hl.
  by apply Forall_app in Hl as [_ ?].
Qed.

(** Accumulating one more byte with [|=] and a shift. *)
Lemma lor_shift_byte a b k k' :
  0 ≤ k → k' = k + 8 → byte b → Z.lor (a * 2 ^ k') (Z.shiftl b k) = (a * 256 + b) * 2 ^ k.
Proof.
  intros Hk -> Hb. unfold byte in Hb. rewrite Z.shiftl_mul_pow2 by lia.
  rewrite lor_disjoint; rewrite ?Z.pow_add_r by lia; nia.
Qed.

(** [l] is what is left of the packet at index [head]. *)
Definition left_at (packet : list Z) (head : Z) (l : list Z) : Prop :=
  ∃ pre, packet = pre ++ l ∧ head = zsize pre.

Lemma left_at_app packet head a l :
  left_at packet head (a ++ l) → left_at packet (head + zsize a) l.
Proof. intros (pre & -> & ->). exists (pre ++ a). by rewrite <-app_assoc, zsize_app. Qed.

Lemma left_at_bound packet head l : left_at packet head l → 0 ≤ head ∧ zsize packet = head + zsize l.
Proof. intros (pre & -> & ->). pose proof (zsize_nonneg pre). zs. lia. Qed.

Lemma next_at packet head b l :
  left_at packet head (b :: l) →
  next packet head = Ret (b, head + 1) ∧ left_at packet (head + 1) l.
Proof.
  intros Hl. split; [|by apply (left_at_app _ _ [b])].
  destruct Hl as (pre & -> & ->). unfold next.
  rewrite <-(Z.add_0_r (zsize pre)), rd_app_r by lia. by rewrite Z.add_0_r.
Qed.

Lemma subspan_at packet head a m l off n :
  left_at packet head (a ++ m ++ l) → off = head + zsize a → n = zsize m →
  subspan packet off n = Ret m.
Proof.
  intros (pre & -> & ->) -> ->. eapply (subspan_eq _ (pre ++ a)); [|by zs|done].
  by rewrite <-app_assoc.
Qed.

Section integers.
Context (packet : list Z) (head : Z) (l : list Z).

Lemma parse_u16_at b1 b0 :
  byte b1 → byte b0 → left_at packet head (b1 :: b0 :: l) →
  parse_u16 packet head = Ret (be_combine [b1; b0], head + 1 + 1) ∧
  left_at packet (head + 1 + 1) l.
Proof.
  intros H1 H0 [E1 H]%next_at. apply next_at in H as [E0 H]. split; [|done].
  unfold parse_u16, or_next. rewrite E1. cbn [mbind outcome_bind]. rewrite E0.
  cbn [mbind outcome_bind]. do 2 f_equal. unfold byte in *.
  rewrite Z.lor_0_l, Z.shiftl_mul_pow2 by lia. unfold u16 at 2. rewrite Z.mod_small by lia.
  rewrite (lor_shift_byte b1 b0 0 8) by (unfold byte; lia).
  unfold u16, be_combine. simpl fold_left. rewrite Z.mod_small; lia.
Qed.

Lemma parse_u24_at b2 b1 b0 :
  byte b2 → byte b1 → byte b0 → left_at packet head (b2 :: b1 :: b0 :: l) →
  parse_u24 packet head = Ret (be_combine [b2; b1; b0], head + 1 + 1 + 1) ∧
  left_at packet (head + 1 + 1 + 1) l.
Proof.
  intros H2 H1 H0 [E2 H]%next_at. apply next_at in H as [E1 H]. apply next_at in H as [E0 H].
  split; [|done]. unfold parse_u24, or_next.
  rewrite E2; cbn [mbind outcome_bind]; rewrite E1; cbn [mbind outcome_bind]; rewrite E0.
  cbn [mbind outcome_bind]. do 2 f_equal. unfold byte in *.
  rewrite Z.lor_0_l, Z.shiftl_mul_pow2 by lia. unfold u32 at 3. rewrite Z.mod_small by lia.
  rewrite (lor_shift_byte b2 b1 8 16) by (unfold byte; lia).
  unfold u32 at 2. rewrite Z.mod_small by lia.
  rewrite (lor_shift_byte _ b0 0 8) by (unfold byte; lia).
  unfold u32, be_combine. simpl fold_left. rewrite Z.mod_small; lia.
Qed.

Lemma parse_u32_at b3 b2 b1 b0 :
  byte b3 → byte b2 → byte b1 → byte b0 →
  left_at packet head (b3 :: b2 :: b1 :: b0 :: l) →
  parse_u32 packet head = Ret (be_combine [b3; b2; b1; b0], head + 1 + 1 + 1 + 1) ∧
  left_at packet (head + 1 + 1 + 1 + 1) l.
Proof.
  intros H3 H2 H1 H0 [E3 H]%next_at. apply next_at in H as [E2 H].
  apply next_at in H as [E1 H]. apply next_at in H as [E0 H].
  split; [|done]. unfold parse_u32, or_next.
  rewrite E3; cbn [mbind outcome_bind]; rewrite E2; cbn [mbind outcome_bind];
    rewrite E1; cbn [mbind outcome_bind]; rewrite E0.
  cbn [mbind outcome_bind]. do 2 f_equal. unfold byte in *.
  rewrite Z.lor_0_l, Z.shiftl_mul_pow2 by lia. unfold u32 at 4. rewrite Z.mod_small by lia.
  rewrite (lor_shift_byte b3 b2 16 24) by (unfold byte; lia).
  unfold u32 at 3. rewrite Z.mod_small by lia.
  rewrite (lor_shift_byte _ b1 8 16) by (unfold byte; lia).
  unfold u32 at 2. rewrite Z.mod_small by lia.
  rewrite (lor_shift_byte _ b0 0 8) by (unfold byte; lia).
  unfold u32, be_combine. simpl fold_left. rewrite Z.mod_small; lia.
Qed.
End integers.

Ltac ret_lia := apply f_equal; repeat apply (f_equal2 pair); lia.

Lemma scan_reply_address_at packet head raw l :
  left_at packet head (raw ++ l) → head + zsize raw < 2 ^ 64 →
  scan_reply_address (length raw) packet head head (zsize raw) =
    Ret (head + zsize raw, head + zsize raw - zsize (strip_zeros raw), zsize (strip_zeros raw)).
Proof.
  revert head. induction raw as [|b raw IH]; intros head Hl Hb.
  { simpl. zs. ret_lia. }
  simpl. apply next_at in Hl as [-> Hl]. cbn [mbind outcome_bind].
  rewrite zsize_cons in *. pose proof (zsize_nonneg raw).
  apply left_at_bound in Hl as Hbound.
  unfold u64. rewrite (Z.mod_small (1 + _ - 1)) by lia.
  replace (1 + zsize raw - 1) with (zsize raw) by lia.
  destruct (Z.eqb_spec b 0) as [->|Hne].
  - rewrite IH by (done || lia). ret_lia.
  - rewrite Z.mod_small by lia. rewrite zsize_cons.
    ret_lia.
Qed.

(** ** Packets as fields *)

(** A command up to its header checksum, with raw fields. *)
Definition command_header (tla pid instr key : Z) (raw : list Z) (ila : Z) (tid : list Z)
    (ext : Z) (addr len : list Z) : list Z :=
  [tla; pid; instr; key] ++ raw ++ [ila] ++ tid ++ [ext] ++ addr ++ len.

(** A reply up to its transaction identifier. *)
Definition reply_header (ila pid instr st tla : Z) (tid : list Z) : list Z :=
  [ila; pid; instr; st; tla] ++ tid.

(** Peeling a list of known length. *)
Ltac peel l H :=
  let x := fresh "x" in
  destruct l as [|x l]; [exfalso; revert H; autorewrite with zsize; lia|];
  rewrite zsize_cons in H.

Lemma split_at {A} (l : list A) n :
  0 ≤ n ≤ zsize l → ∃ a b, l = a ++ b ∧ zsize a = n ∧ zsize b = zsize l - n.
Proof.
  intros Hn. exists (take (Z.to_nat n) l), (drop (Z.to_nat n) l).
  rewrite take_drop. split; [done|]. zs. lia.
Qed.

Lemma list_of_2 {A} (l : list A) : zsize l = 2 → ∃ a b, l = [a; b].
Proof. destruct l as [|a [|b [|]]]; zs; intros; try lia; [eauto|]. pose proof (zsize_nonneg l). lia. Qed.
Lemma list_of_3 {A} (l : list A) : zsize l = 3 → ∃ a b c, l = [a; b; c].
Proof.
  destruct l as [|a l]; zs; intros; [lia|].
  destruct (list_of_2 l) as (b & c & ->); [lia|eauto].
Qed.
Lemma list_of_4 {A} (l : list A) : zsize l = 4 → ∃ a b c d, l = [a; b; c; d].
Proof.
  destruct l as [|a l]; zs; intros; [lia|].
  destruct (list_of_3 l) as (b & c & d & ->); [lia|eauto].
Qed.

Lemma command_split packet rs :
  0 ≤ rs → 16 + rs ≤ zsize packet →
  ∃ tla pid instr key raw ila tid ext addr len crc body,
    packet = command_header tla pid instr key raw ila tid ext addr len ++ [crc] ++ body ∧
    zsize raw = rs ∧ zsize tid = 2 ∧ zsize addr = 4 ∧ zsize len = 3 ∧
    zsize body = zsize packet - (16 + rs).
Proof.
  intros Hrs H. do 4 peel packet H.
  destruct (split_at packet rs) as (raw & l & -> & Hraw & Hl); [lia|].
  rewrite zsize_app in H. peel l H.
  destruct (split_at l 2) as (tid & l' & -> & Htid & Hl'); [lia|].
  rewrite zsize_app in H. peel l' H.
  destruct (split_at l' 4) as (addr & l & -> & Haddr & Hl4); [lia|].
  destruct (split_at l 3) as (len & l' & -> & Hlen & Hl3); [zs; lia|].
  rewrite !zsize_app in H. peel l' H.
  exists x, x0, x1, x2, raw, x3, tid, x4, addr, len, x5, l'.
  split; [unfold command_header; by rewrite <-!app_assoc|]. zs. lia.
Qed.

Section command.
Context (tla pid instr key : Z) (raw : list Z) (ila : Z) (tid : list Z) (ext : Z).
Context (addr len : list Z) (crc : Z) (body : list Z).
Context (Htid : zsize tid = 2) (Haddr : zsize addr = 4) (Hlen : zsize len = 3).
Context (Hraw : zsize raw ≤ 12).
Let header := command_header tla pid instr key raw ila tid ext addr len.
Let packet := header ++ [crc] ++ body.
Context (Hb : bytes packet).

(** The packet object after the fields of a command. *)
Definition command_fields (p : Packet) : Packet :=
  set_dataLength (be_combine len) (set_address (be_combine addr)
    (set_extendedAddress ext (set_transactionID (be_combine tid)
    (set_initiatorLogicalAddress ila (set_replyAddress (strip_zeros raw) p))))).

Lemma zsize_command_header : zsize header = 15 + zsize raw.
Proof. subst header packet. unfold command_header. zs. lia. Qed.

Lemma parse_command_fields_at p :
  parse_command_fields packet (zsize raw) 4 p = Ret (command_fields p, 15 + zsize raw).
Proof.
  pose proof (zsize_nonneg raw).
  assert (left_at packet 4 (raw ++ ila :: tid ++ ext :: addr ++ len ++ [crc] ++ body)) as Hl.
  { exists [tla; pid; instr; key]. split; [|done]. subst packet header.
    unfold command_header. by rewrite <-!app_assoc. }
  unfold parse_command_fields, command_fields.
  rewrite zsize_to_nat, (scan_reply_address_at _ _ _ _ Hl) by lia. cbn [mbind outcome_bind].
  destruct (strip_zeros_suffix raw) as (z & Ez & Hz).
  rewrite (subspan_at packet 4 (replicate z 0) (strip_zeros raw)
    (ila :: tid ++ ext :: addr ++ len ++ [crc] ++ body)); [|by rewrite app_assoc, <-Ez|zs; lia|done].
  cbn [mbind outcome_bind]. apply left_at_app in Hl.
  destruct (list_of_2 tid Htid) as (t1 & t0 & ->).
  destruct (list_of_4 addr Haddr) as (a3 & a2 & a1 & a0 & ->).
  destruct (list_of_3 len Hlen) as (l2 & l1 & l0 & ->).
  assert (bytes [t1; t0; a3; a2; a1; a0; l2; l1; l0]) as Hbs.
  { revert Hb. subst packet header. unfold command_header, bytes.
    rewrite !Forall_app, !Forall_cons. tauto. }
  unfold bytes in Hbs. rewrite !Forall_cons in Hbs. destruct_and! Hbs.
  apply next_at in Hl as [-> Hl]. cbn [mbind outcome_bind].
  apply parse_u16_at in Hl as [-> Hl]; [|done..]. cbn [mbind outcome_bind].
  apply next_at in Hl as [-> Hl]. cbn [mbind outcome_bind].
  apply parse_u32_at in Hl as [-> Hl]; [|done..]. cbn [mbind outcome_bind].
  apply parse_u24_at in Hl as [-> Hl]; [|done..]. cbn [mbind outcome_bind].
  apply f_equal, (f_equal2 pair); [done|lia].
Qed.

Lemma next_0 : next packet 0 = Ret (tla, 1).
Proof. done. Qed.
Lemma next_1 : next packet 1 = Ret (pid, 2).
Proof. done. Qed.
Lemma next_2 : next packet 2 = Ret (instr, 3).
Proof. done. Qed.
Lemma next_3 : next packet 3 = Ret (key, 4).
Proof. done. Qed.
Lemma rd_instruction : rd packet 2 = Ret instr.
Proof. done. Qed.

Lemma header_crc_span : subspan packet 0 (16 + zsize raw) = Ret (header ++ [crc]).
Proof.
  apply (subspan_eq _ [] (header ++ [crc]) body); [|done|].
  - subst packet. by rewrite <-app_assoc.
  - rewrite zsize_app, zsize_command_header. zs. lia.
Qed.

Definition command_start (p : Packet) : Packet :=
  set_key key (set_instruction instr (set_targetLogicalAddress tla p)).

Context (Hrs : Z.land instr 3 * 4 = zsize raw).

Lemma parseReadPacket_at p :
  body = [] →
  parseReadPacket packet p =
    Ret (if negb (calcCRC (header ++ [crc]) 0 =? 0) then (HeaderCRCError, p)
         else if negb (pid =? 1)
              then (UnknownProtocolIdentifier, set_targetLogicalAddress tla p)
              else (Success, command_fields (command_start p))).
Proof.
  intros Hbody. pose proof (zsize_nonneg raw).
  assert (Hsz : zsize packet = 16 + zsize raw).
  { subst packet. rewrite Hbody, zsize_app, zsize_command_header. zs. lia. }
  unfold parseReadPacket. rewrite Hsz. destruct (Z.ltb_spec (16 + zsize raw) 4); [lia|].
  rewrite rd_instruction. cbn [mbind outcome_bind]. rewrite Hrs, Z.eqb_refl. cbn [negb].
  rewrite header_crc_span. cbn [mbind outcome_bind].
  destruct (calcCRC (header ++ [crc]) 0 =? 0); cbn [negb]; [|done].
  rewrite next_0, bind_ret, next_1, bind_ret. destruct (pid =? 1); cbn [negb]; [|done].
  rewrite next_2, bind_ret, next_3, bind_ret.
  by rewrite parse_command_fields_at.
Qed.

Lemma be_combine_len_bound : 0 ≤ be_combine len < 2 ^ 24.
Proof.
  replace 24 with (8 * zsize len) by lia. apply be_combine_bound.
  revert Hb. subst packet header. unfold command_header, bytes. rewrite !Forall_app. tauto.
Qed.

Lemma parseWritePacket_at p q :
  body ≠ [] → q = command_fields (command_start p) →
  parseWritePacket packet p =
    Ret (if negb (calcCRC (header ++ [crc]) 0 =? 0) then (HeaderCRCError, p)
         else if negb (pid =? 1)
              then (UnknownProtocolIdentifier, set_targetLogicalAddress tla p)
         else if negb (zsize body =? be_combine len + 1) then (IncompletePacket, q)
              else if negb (calcCRC body 0 =? 0) then (DataCRCError, q)
              else (Success, set_data (take (Z.to_nat (be_combine len)) body) q)).
Proof.
  intros Hbody Hq. pose proof (zsize_nonneg raw). pose proof be_combine_len_bound as Hl.
  assert (Hsz : zsize packet = 16 + zsize raw + zsize body).
  { subst packet. rewrite zsize_app, zsize_command_header. zs. lia. }
  pose proof (zsize_pos body Hbody).
  unfold parseWritePacket. rewrite Hsz. destruct (Z.ltb_spec (16 + zsize raw + zsize body) 4); [lia|].
  rewrite rd_instruction. cbn [mbind outcome_bind]. rewrite Hrs.
  destruct (Z.leb_spec (16 + zsize raw + zsize body) (16 + zsize raw)); [lia|].
  rewrite header_crc_span. cbn [mbind outcome_bind].
  destruct (calcCRC (header ++ [crc]) 0 =? 0); cbn [negb]; [|done].
  rewrite next_0, bind_ret, next_1, bind_ret. destruct (pid =? 1); cbn [negb]; [|done].
  rewrite next_2, bind_ret, next_3, bind_ret.
  rewrite parse_command_fields_at. cbn [mbind outcome_bind].
  change (set_key key _) with (command_start p). rewrite <-Hq.
  replace (dataLength q) with (be_combine len) by by rewrite Hq.
  replace (16 + zsize raw + zsize body =? 16 + zsize raw + be_combine len + 1)
    with (zsize body =? be_combine len + 1) by lia.
  destruct (Z.eqb_spec (zsize body) (be_combine len + 1)) as [Eb|]; cbn [negb]; [|done].
  assert (Hh : left_at packet (16 + zsize raw) body).
  { exists (header ++ [crc]). split; [by subst packet; rewrite <-app_assoc|].
    rewrite zsize_app, zsize_command_header. zs. lia. }
  unfold u32. rewrite Z.mod_small by lia.
  rewrite (subspan_at packet (16 + zsize raw) [] body [] (16 + zsize raw) (be_combine len + 1));
    [|by rewrite app_nil_r|zs; lia|lia].
  cbn [mbind outcome_bind]. destruct (calcCRC body 0 =? 0); cbn [negb]; [|done].
  set (n := Z.to_nat (be_combine len)).
  rewrite (subspan_at packet (16 + zsize raw) [] (take n body) (drop n body));
    [done|by rewrite app_nil_l, take_drop|zs; lia|zs; lia].
Qed.
End command.

Lemma reply_split packet :
  8 ≤ zsize packet →
  ∃ ila pid instr st tla tid rest,
    packet = reply_header ila pid instr st tla tid ++ rest ∧
    zsize tid = 2 ∧ zsize rest = zsize packet - 7.
Proof.
  intros H. do 5 peel packet H.
  destruct (split_at packet 2) as (tid & l & -> & Htid & Hl); [lia|].
  exists x, x0, x1, x2, x3, tid, l. split; [done|]. zs. lia.
Qed.

Lemma read_reply_split packet :
  12 ≤ zsize packet →
  ∃ ila pid instr st tla tid rsv len crc body,
    packet = reply_header ila pid instr st tla tid ++ [rsv] ++ len ++ [crc] ++ body ∧
    zsize tid = 2 ∧ zsize len = 3 ∧ zsize body = zsize packet - 12.
Proof.
  intros H. destruct (reply_split packet) as (ila & pid & instr & st & tla & tid & l & -> & Htid & Hl);
    [lia|].
  unfold reply_header in *. rewrite !zsize_app in *. zs. peel l H. rewrite zsize_cons in Hl.
  destruct (split_at l 3) as (len & l' & -> & Hlen & Hl'); [lia|].
  rewrite zsize_app in *. peel l' H. exists ila, pid, instr, st, tla, tid, x, len, x0, l'.
  split; [by rewrite <-!app_assoc|]. zs. lia.
Qed.

Section reply.
Context (ila pid instr st tla : Z) (tid : list Z) (Htid : zsize tid = 2).
Let header := reply_header ila pid instr st tla tid.

Lemma zsize_reply_header : zsize header = 7.
Proof. subst header. unfold reply_header. zs. lia. Qed.

(** The packet object after the fields the two replies share. *)
Definition reply_fields (p : Packet) : Packet :=
  set_transactionID (be_combine tid) (set_targetLogicalAddress tla
    (set_status st (set_instruction instr (set_initiatorLogicalAddress ila p)))).

Lemma parse_reply_tid rest :
  bytes (header ++ rest) →
  parse_u16 (header ++ rest) 5 = Ret (be_combine tid, 7).
Proof.
  subst header. destruct (list_of_2 tid Htid) as (t1 & t0 & ->). intros Hb.
  assert (byte t1 ∧ byte t0) as [H1 H0].
  { revert Hb. unfold reply_header, bytes. rewrite !Forall_app, !Forall_cons. tauto. }
  edestruct (parse_u16_at (reply_header ila pid instr st tla [t1; t0] ++ rest) 5 rest t1 t0)
    as [E _]; [done..| |exact E].
  by exists [ila; pid; instr; st; tla].
Qed.

Lemma parseWriteReplyPacket_at crc p :
  bytes (header ++ [crc]) →
  parseWriteReplyPacket (header ++ [crc]) p =
    Ret (if negb (calcCRC (header ++ [crc]) 0 =? 0) then (HeaderCRCError, p)
         else if negb (pid =? 1)
              then (UnknownProtocolIdentifier, set_initiatorLogicalAddress ila p)
              else (Success, reply_fields p)).
Proof.
  intros Hb. assert (Hsz : zsize (header ++ [crc]) = 8).
  { rewrite zsize_app, zsize_reply_header. by zs. }
  pose proof (parse_reply_tid [crc] Hb) as Ht.
  unfold parseWriteReplyPacket. rewrite Hsz. cbn [Z.eqb Pos.eqb negb].
  rewrite (subspan_eq _ [] (header ++ [crc]) []); [|by rewrite app_nil_r|done..].
  cbn [mbind outcome_bind].
  destruct (calcCRC (header ++ [crc]) 0 =? 0); cbn [negb]; [|done].
  change (next (header ++ [crc]) 0) with (@Ret (Z * Z) (ila, 1)). rewrite bind_ret.
  change (next (header ++ [crc]) 1) with (@Ret (Z * Z) (pid, 2)). rewrite bind_ret.
  destruct (pid =? 1); cbn [negb]; [|done].
  change (next (header ++ [crc]) 2) with (@Ret (Z * Z) (instr, 3)). rewrite bind_ret.
  change (next (header ++ [crc]) 3) with (@Ret (Z * Z) (st, 4)). rewrite bind_ret.
  change (next (header ++ [crc]) 4) with (@Ret (Z * Z) (tla, 5)). rewrite bind_ret.
  by rewrite Ht.
Qed.

Lemma parseReadReplyPacket_at rsv len crc body p :
  zsize len = 3 →
  bytes (header ++ [rsv] ++ len ++ [crc] ++ body) →
  parseReadReplyPacket (header ++ [rsv] ++ len ++ [crc] ++ body) p =
    Ret (if negb (calcCRC (header ++ [rsv] ++ len ++ [crc]) 0 =? 0) then (HeaderCRCError, p)
         else if negb (pid =? 1)
              then (UnknownProtocolIdentifier, set_initiatorLogicalAddress ila p)
         else let q := set_dataLength (be_combine len) (reply_fields p) in
              if negb (zsize body =? be_combine len + 1) then (IncompletePacket, q)
              else if negb (calcCRC body 0 =? 0) then (DataCRCError, q)
              else (Success, set_data (take (Z.to_nat (be_combine len)) body) q)).
Proof.
  intros Hlen Hb. set (packet := header ++ [rsv] ++ len ++ [crc] ++ body) in *.
  pose proof (zsize_nonneg body).
  assert (Hsz : zsize packet = 12 + zsize body).
  { subst packet. rewrite !zsize_app, zsize_reply_header. zs. lia. }
  assert (Hbody : left_at packet 12 body).
  { exists (header ++ [rsv] ++ len ++ [crc]). split; [by subst packet; rewrite <-!app_assoc|].
    rewrite !zsize_app, zsize_reply_header. zs. lia. }
  assert (bytes len) as Hbl.
  { revert Hb. subst packet. unfold bytes. rewrite !Forall_app. tauto. }
  assert (0 ≤ be_combine len < 2 ^ 24) as Hl.
  { replace 24 with (8 * zsize len) by lia. by apply be_combine_bound. }
  assert (parse_u24 packet 8 = Ret (be_combine len, 11)) as E24.
  { destruct (list_of_3 len Hlen) as (l2 & l1 & l0 & ->).
    unfold bytes in Hbl. rewrite !Forall_cons in Hbl. destruct_and! Hbl.
    edestruct (parse_u24_at packet 8 (crc :: body) l2 l1 l0) as [E _]; [done..| |exact E].
    exists (header ++ [rsv]). rewrite zsize_app, zsize_reply_header. split; [|done].
    by subst packet; rewrite <-!app_assoc. }
  unfold parseReadReplyPacket. rewrite Hsz. destruct (Z.ltb_spec (12 + zsize body) 12); [lia|].
  rewrite (subspan_eq packet [] (header ++ [rsv] ++ len ++ [crc]) body 0 12);
    [|by subst packet; rewrite <-!app_assoc|done|rewrite !zsize_app, zsize_reply_header; zs; lia].
  rewrite bind_ret.
  destruct (calcCRC (header ++ [rsv] ++ len ++ [crc]) 0 =? 0); cbn [negb]; [|done].
  change (next packet 0) with (@Ret (Z * Z) (ila, 1)). rewrite bind_ret.
  change (next packet 1) with (@Ret (Z * Z) (pid, 2)). rewrite bind_ret.
  destruct (pid =? 1); cbn [negb]; [|done].
  change (next packet 2) with (@Ret (Z * Z) (instr, 3)). rewrite bind_ret.
  change (next packet 3) with (@Ret (Z * Z) (st, 4)). rewrite bind_ret.
  change (next packet 4) with (@Ret (Z * Z) (tla, 5)). rewrite bind_ret.
  subst packet. rewrite parse_reply_tid by done.
  set (packet := header ++ [rsv] ++ len ++ [crc] ++ body) in *. rewrite bind_ret.
  change (7 + 1) with 8. rewrite E24, bind_ret. change (11 + 1) with 12.
  change (dataLength (set_dataLength ?v _)) with v.
  unfold u32. rewrite !Z.mod_small by lia.
  replace (12 + zsize body =? 12 + be_combine len + 1)
    with (zsize body =? be_combine len + 1) by lia.
  destruct (Z.eqb_spec (zsize body) (be_combine len + 1)) as [Eb|]; cbn [negb]; [|done].
  rewrite (subspan_at packet 12 [] body [] 12 (be_combine len + 1));
    [|by rewrite app_nil_r|done|lia].
  rewrite bind_ret. destruct (calcCRC body 0 =? 0); cbn [negb]; [|done].
  set (n := Z.to_nat (be_combine len)).
  rewrite (subspan_at packet 12 [] (take n body) (drop n body));
    [done|by rewrite app_nil_l, take_drop|done|zs; lia].
Qed.
End reply.

(** ** The wire format

    The packet that carries the fields of [q]; [rsv] is the reserved byte of a
    read reply, which no field holds. *)

Definition padded_reply (q : Packet) : list Z :=
  replicate (Z.to_nat (Z.land (instruction q) 3 * 4 - zsize (replyAddress q))) 0 ++
  replyAddress q.

Definition wire_command (q : Packet) : list Z :=
  with_crc (command_header (targetLogicalAddress q) 1 (instruction q) (key q) (padded_reply q)
    (initiatorLogicalAddress q) (be_split 2 (transactionID q)) (extendedAddress q)
    (be_split 4 (address q)) (be_split 3 (dataLength q))).

Definition wire_reply (q : Packet) : list Z :=
  reply_header (initiatorLogicalAddress q) 1 (instruction q) (status q)
    (targetLogicalAddress q) (be_split 2 (transactionID q)).

Definition wire (rsv : Z) (q : Packet) : list Z :=
  match type q with
  | Read => targetSpaceWireAddress q ++ wire_command q
  | Write => targetSpaceWireAddress q ++ wire_command q ++ with_crc (data q)
  | ReadReply =>
      replyAddress q ++ with_crc (wire_reply q ++ [rsv] ++ be_split 3 (dataLength q)) ++
      with_crc (data q)
  | WriteReply => replyAddress q ++ with_crc (wire_reply q)
  | Undefined => []
  end.

(** A path of SpaceWire address bytes, and a logical address. *)
Definition path_byte (b : Z) : Prop := 0 ≤ b < 0x20.
Definition logical_byte (b : Z) : Prop := 0x20 ≤ b < 256.
Definition is_path (l : list Z) : Prop := Forall path_byte l.

(** A reply address as the parser reports it: without leading zeros. *)
Definition stripped (l : list Z) : Prop := strip_zeros l = l.

Definition command_wf (q : Packet) : Prop :=
  is_path (targetSpaceWireAddress q) ∧ logical_byte (targetLogicalAddress q) ∧
  byte (instruction q) ∧ byte (key q) ∧
  bytes (replyAddress q) ∧ stripped (replyAddress q) ∧
  zsize (replyAddress q) ≤ Z.land (instruction q) 3 * 4 ∧
  byte (initiatorLogicalAddress q) ∧ 0 ≤ transactionID q < 2 ^ 16 ∧
  byte (extendedAddress q) ∧ 0 ≤ address q < 2 ^ 32 ∧ 0 ≤ dataLength q < 2 ^ 24.

Definition reply_wf (q : Packet) : Prop :=
  is_path (replyAddress q) ∧ logical_byte (initiatorLogicalAddress q) ∧
  byte (instruction q) ∧ byte (status q) ∧ byte (targetLogicalAddress q) ∧
  0 ≤ transactionID q < 2 ^ 16.

(** The data field and its announced length. *)
Definition data_wf (q : Packet) : Prop :=
  bytes (data q) ∧ zsize (data q) = dataLength q ∧ 0 ≤ dataLength q < 2 ^ 24.

(** The bits of the instruction that select the packet type. *)
Definition instruction_type (i : Z) : PacketType :=
  match negb (Z.land i 0x40 =? 0), negb (Z.land i 0x20 =? 0) with
  | false, false => ReadReply
  | false, true => WriteReply
  | true, false => Read
  | true, true => Write
  end.

Definition packet_wf (q : Packet) : Prop :=
  type q = instruction_type (instruction q) ∧
  match type q with
  | Read => command_wf q
  | Write => command_wf q ∧ data_wf q
  | ReadReply => reply_wf q ∧ data_wf q
  | WriteReply => reply_wf q
  | Undefined => False
  end.

(** The object after a packet carrying [q] was parsed into [p]: the fields a
    packet type does not carry keep what the previous packet left there. *)
Definition received (p q : Packet) : Packet :=
  match type q with
  | Read => set_status (status p) (set_data (data p) q)
  | Write => set_status (status p) q
  | ReadReply =>
      mkPacket (targetSpaceWireAddress p) (replyAddress q) (initiatorLogicalAddress q)
        (instruction q) (key p) (status q) (targetLogicalAddress q) (transactionID q)
        (extendedAddress p) (address p) (dataLength q) (data q) (type q)
  | WriteReply =>
      mkPacket (targetSpaceWireAddress p) (replyAddress q) (initiatorLogicalAddress q)
        (instruction q) (key p) (status q) (targetLogicalAddress q) (transactionID q)
        (extendedAddress p) (address p) (dataLength p) (data p) (type q)
  | Undefined => p
  end.

(** ** The path in front of the packet *)

Lemma skip_path_app path rest fuel pre :
  Forall (λ b, b < 0x20) path → (length path < fuel)%nat → rest ≠ [] →
  (∀ b t, rest = b :: t → 0x20 ≤ b) →
  skip_path fuel (pre ++ path ++ rest) (zsize pre) = Ret (Some (zsize pre + zsize path)).
Proof.
  intros Hp. revert fuel pre. induction Hp as [|b path Hb Hp IH]; intros [|fuel] pre Hf Hne Hr;
    simpl in Hf; try lia; cbn [skip_path].
  - destruct rest as [|b t]; [done|]. specialize (Hr b t eq_refl).
    rewrite <-(Z.add_0_r (zsize pre)), rd_app_r by lia.
    change (rd _ 0) with (@Ret Z b). rewrite bind_ret. destruct (Z.ltb_spec b 0x20); [lia|].
    do 2 f_equal. zs. lia.
  - rewrite <-(Z.add_0_r (zsize pre)), rd_app_r by lia.
    change (rd _ 0) with (@Ret Z b). rewrite bind_ret. destruct (Z.ltb_spec b 0x20); [|lia].
    rewrite Z.add_0_r. destruct (Z.leb_spec (zsize (pre ++ (b :: path) ++ rest)) (zsize pre + 1)).
    { apply zsize_pos in Hne. pose proof (zsize_nonneg path). zs. lia. }
    replace (zsize pre + 1) with (zsize (pre ++ [b])) by by zs.
    replace (pre ++ (b :: path) ++ rest) with ((pre ++ [b]) ++ path ++ rest)
      by by rewrite <-app_assoc.
    rewrite IH by (done || lia). do 2 f_equal. zs. lia.
Qed.

Lemma skip_path_all path fuel pre :
  Forall (λ b, b < 0x20) path → path ≠ [] → (length path < fuel)%nat →
  skip_path fuel (pre ++ path) (zsize pre) = Ret None.
Proof.
  intros Hp Hne. revert fuel pre. induction Hp as [|b path Hb Hp IH]; intros [|fuel] pre Hf;
    simpl in Hf; try lia; [done|]. cbn [skip_path].
  rewrite <-(Z.add_0_r (zsize pre)), rd_app_r by lia.
  change (rd _ 0) with (@Ret Z b). rewrite bind_ret. destruct (Z.ltb_spec b 0x20); [|lia].
  rewrite Z.add_0_r. destruct (decide (path = [])) as [->|Hp'].
  - destruct (Z.leb_spec (zsize (pre ++ [b])) (zsize pre + 1)); [done|zs; lia].
  - destruct (Z.leb_spec (zsize (pre ++ b :: path)) (zsize pre + 1)); [done|].
    replace (zsize pre + 1) with (zsize (pre ++ [b])) by by zs.
    replace (pre ++ b :: path) with ((pre ++ [b]) ++ path) by by rewrite <-app_assoc.
    apply IH; [done|lia].
Qed.

Lemma path_split packet :
  ∃ path rest, packet = path ++ rest ∧ Forall (λ b, b < 0x20) path ∧
    (∀ b t, rest = b :: t → 0x20 ≤ b).
Proof.
  induction packet as [|b packet (path & rest & -> & Hp & Hr)].
  - by exists [], [].
  - destruct (decide (b < 0x20)).
    + exists (b :: path), rest. split_and!; [done|by constructor|done].
    + exists [], (b :: path ++ rest). split_and!; [done|done|]. intros ? ? [= <- <-]. lia.
Qed.

(** The parser by packet type, for a packet split into path and rest. *)
Definition parse_body (instr : Z) (path rest : list Z) (p : Packet) : outcome (Status * Packet) :=
  let p := set_type (instruction_type instr) (set_instruction instr p) in
  match instruction_type instr with
  | ReadReply => parseReadReplyPacket rest (set_replyAddress path p)
  | WriteReply => parseWriteReplyPacket rest (set_replyAddress path p)
  | Read => parseReadPacket rest (set_targetSpaceWireAddress path p)
  | Write => parseWritePacket rest (set_targetSpaceWireAddress path p)
  | Undefined => Pending
  end.

Lemma parse_dispatch path rest p :
  Forall (λ b, b < 0x20) path → (∀ b t, rest = b :: t → 0x20 ≤ b) → rest ≠ [] →
  zsize (path ++ rest) < 2 ^ 64 →
  parse (path ++ rest) p =
    if zsize rest <? 4 then Ret (IncompletePacket, p)
    else instr ← rd rest 2; parse_body instr path rest p.
Proof.
  intros Hp Hr Hne Hs. pose proof (zsize_nonneg path). pose proof (zsize_nonneg rest).
  pose proof (skip_path_app path rest (S (length (path ++ rest))) [] Hp
    ltac:(rewrite length_app; lia) Hne Hr) as E.
  rewrite app_nil_l, zsize_nil, Z.add_0_l in E.
  unfold parse. rewrite E, bind_ret. zs. unfold u64.
  replace (zsize path + zsize rest - zsize path) with (zsize rest) by lia.
  rewrite Z.mod_small by lia. destruct (zsize rest <? 4); [done|].
  rewrite rd_app_r by lia. destruct (rd rest 2) as [instr| | |]; [|done..].
  cbn [mbind outcome_bind].
  rewrite (subspan_eq _ [] path rest), subspan_from_app by done. cbn [mbind outcome_bind].
  unfold parse_body, instruction_type. cbn [instruction set_instruction command_code_underlying].
  by destruct (Z.land instr 64 =? 0), (Z.land instr 32 =? 0).
Qed.

Lemma parse_path_only path p :
  Forall (λ b, b < 0x20) path → path ≠ [] → parse path p = Ret (IncompletePacket, p).
Proof.
  intros Hp Hne. unfold parse.
  pose proof (skip_path_all path (S (length path)) [] Hp Hne ltac:(lia)) as E.
  rewrite app_nil_l, zsize_nil in E. by rewrite E.
Qed.

(** ** Checksummed blocks *)

Lemma crc_ok_with_crc l c : bytes (l ++ [c]) → calcCRC (l ++ [c]) 0 = 0 → l ++ [c] = with_crc l.
Proof.
  intros [Hl Hc]%Forall_app E. apply Forall_cons_1 in Hc as [Hc _].
  apply calcCRC_residue in E; [|done|apply byte_0|done]. unfold with_crc. by rewrite E.
Qed.

Lemma with_crc_ok l : bytes l → calcCRC (with_crc l) 0 = 0.
Proof. intros Hl. apply calcCRC_residue; auto with spw. Qed.

Lemma body_with_crc body n :
  bytes body → zsize body = n + 1 → 0 ≤ n → calcCRC body 0 = 0 →
  body = with_crc (take (Z.to_nat n) body).
Proof.
  intros Hb Hs Hn E. rewrite <-(take_drop (Z.to_nat n) body) in Hb, E |- * at 1.
  destruct (drop (Z.to_nat n) body) as [|c [|]] eqn:Ed.
  - apply (f_equal zsize) in Ed. zs. lia.
  - by apply crc_ok_with_crc.
  - apply (f_equal zsize) in Ed. pose proof (zsize_nonneg l). zs. lia.
Qed.

(** ** Each parser on an arbitrary span

    [returns m P]: the parser comes back, and an accepted span is the encoding
    of the fields it reports. *)

Lemma land3_bound i : byte i → 0 ≤ Z.land i 3 * 4 ≤ 12.
Proof.
  intros Hi. change 3 with (Z.ones 2). rewrite Z.land_ones by lia.
  pose proof (Z.mod_pos_bound i (2 ^ 2)). lia.
Qed.

Lemma padded_strip raw n :
  zsize raw = n → replicate (Z.to_nat (n - zsize (strip_zeros raw))) 0 ++ strip_zeros raw = raw.
Proof.
  intros <-. destruct (strip_zeros_suffix raw) as (z & E & Hz).
  replace (Z.to_nat (zsize raw - zsize (strip_zeros raw))) with z by lia. by rewrite <-E.
Qed.

Lemma strip_zeros_idem l : stripped (strip_zeros l).
Proof.
  unfold stripped. induction l as [|b l IH]; simpl; [done|].
  destruct (b =? 0) eqn:E; [done|]. simpl. by rewrite E.
Qed.

(** The data of a packet is no part of its command fields. *)
Lemma wire_command_set_data v q : wire_command (set_data v q) = wire_command q.
Proof. by destruct q. Qed.
Lemma command_wf_set_data v q : command_wf q → command_wf (set_data v q).
Proof. by destruct q. Qed.

(** What a parser promises about an accepted span: the fields are well formed
    and the span carries them. *)
Definition accepts (m : outcome (Status * Packet)) (good : Packet → Prop) : Prop :=
  returns m (λ '(s, q), s = Success → good q).

Lemma accepts_reject s q good : s ≠ Success → accepts (Ret (s, q)) good.
Proof. intros Hs. exists (s, q). split; [done|]. by intros ->. Qed.

Lemma accepts_if (b : bool) x y good :
  (b = true → accepts (Ret x) good) → (b = false → accepts (Ret y) good) →
  accepts (Ret (if b then x else y)) good.
Proof. destruct b; auto. Qed.

(** The next test of the parser: either it rejects the span, or [H] holds. *)
Ltac reject H :=
  apply accepts_if; [intros _; by apply accepts_reject
                    |intros H; apply negb_false_iff, Z.eqb_eq in H].

Section accepted.
Context (rest : list Z) (instr : Z) (p : Packet).
Context (Hb : bytes rest) (Hi : rd rest 2 = Ret instr).
Context (Hfirst : ∀ b t, rest = b :: t → 0x20 ≤ b).

Lemma byte_rest i b : rd rest i = Ret b → byte b.
Proof.
  unfold rd. case_decide; [|done]. destruct (rest !! Z.to_nat i) as [c|] eqn:E; [|done].
  intros [= <-]. by eapply (Forall_lookup_1 byte).
Qed.

(** The fields of an accepted command. *)
Lemma command_accepted tla k raw ila tid ext addr len tl :
  let h := command_header tla 1 instr k raw ila tid ext addr len in
  let q := command_fields raw ila tid ext addr len (command_start tla instr k p) in
  rest = h ++ tl → zsize raw = Z.land instr 3 * 4 →
  zsize tid = 2 → zsize addr = 4 → zsize len = 3 →
  is_path (targetSpaceWireAddress p) →
  command_wf q ∧ with_crc h = wire_command q ∧ type q = type p ∧ instruction q = instr ∧
  targetSpaceWireAddress q = targetSpaceWireAddress p ∧ dataLength q = be_combine len.
Proof.
  intros h q Hrest Hraw Htid Haddr Hlen Hpath.
  assert (bytes h) as Hh by (rewrite Hrest in Hb; by apply Forall_app in Hb as [? _]).
  assert (0x20 ≤ tla) by (eapply Hfirst; by rewrite Hrest).
  assert (byte instr) by (by eapply byte_rest).
  subst h. unfold command_header, bytes in Hh. rewrite !Forall_app, !Forall_cons in Hh.
  destruct_and! Hh.
  pose proof (be_combine_bound tid) as Ht. pose proof (be_combine_bound addr) as Ha.
  pose proof (be_combine_bound len) as Hl. rewrite Htid in Ht. rewrite Haddr in Ha.
  rewrite Hlen in Hl.
  destruct (strip_zeros_suffix raw) as (z & _ & Hz).
  split; [|split; [|by subst q]].
  - unfold command_wf, logical_byte. subst q. cbn. unfold byte in *.
    split_and!; try done; try lia; [by apply bytes_strip_zeros|apply strip_zeros_idem|..];
      try (apply Ht; done); try (apply Ha; done); apply Hl; done.
  - unfold wire_command, padded_reply. subst q. cbn [command_fields command_start
      targetLogicalAddress instruction PacketTypes.key initiatorLogicalAddress transactionID
      extendedAddress address dataLength replyAddress set_dataLength set_address
      set_extendedAddress set_transactionID set_initiatorLogicalAddress set_replyAddress
      set_key set_instruction set_targetLogicalAddress].
    rewrite padded_strip by done.
    by rewrite (be_split_combine_n 2 tid), (be_split_combine_n 4 addr),
      (be_split_combine_n 3 len).
Qed.

Lemma parseReadPacket_accepts :
  is_path (targetSpaceWireAddress p) →
  accepts (parseReadPacket rest p) (λ q,
    command_wf q ∧ rest = wire_command q ∧ type q = type p ∧ instruction q = instr ∧
    targetSpaceWireAddress q = targetSpaceWireAddress p).
Proof.
  intros Hpath. pose proof (land3_bound instr (byte_rest _ _ Hi)) as Hrs.
  destruct (decide (zsize rest = 16 + Z.land instr 3 * 4)) as [Hs|Hs].
  - destruct (command_split rest (Z.land instr 3 * 4)) as
      (tla & pid & i & k & raw & ila & tid & ext & addr & len & crc & body & E & Hraw &
       Htid & Haddr & Hlen & Hbody); [lia..|].
    assert (body = []) as -> by (destruct body; [done|zs; pose proof (zsize_nonneg body); lia]).
    assert (i = instr) as -> by (rewrite E in Hi; by injection Hi).
    rewrite E. rewrite parseReadPacket_at by (try lia; try done; by rewrite <-E).
    reject Hcrc. reject Hpid. subst pid.
    eexists (_, _). split; [done|]. intros _.
    destruct (command_accepted tla k raw ila tid ext addr len [crc] E)
      as (Hwf & Hw & Hty & Hin & Hta & _); [done..|].
    split_and!; [exact Hwf| |done..].
    rewrite <-Hw. rewrite app_nil_r. apply crc_ok_with_crc; [|done].
    rewrite E, app_nil_r in Hb. exact Hb.
  - unfold parseReadPacket. destruct (zsize rest <? 4); [by apply accepts_reject|].
    rewrite Hi, bind_ret. destruct (Z.eqb_spec (zsize rest) (16 + Z.land instr 3 * 4)); [done|].
    by apply accepts_reject.
Qed.

Lemma parseWritePacket_accepts :
  is_path (targetSpaceWireAddress p) →
  accepts (parseWritePacket rest p) (λ q,
    command_wf q ∧ data_wf q ∧ rest = wire_command q ++ with_crc (data q) ∧
    type q = type p ∧ instruction q = instr ∧
    targetSpaceWireAddress q = targetSpaceWireAddress p).
Proof.
  intros Hpath. pose proof (land3_bound instr (byte_rest _ _ Hi)) as Hrs.
  destruct (decide (16 + Z.land instr 3 * 4 < zsize rest)) as [Hs|Hs].
  - destruct (command_split rest (Z.land instr 3 * 4)) as
      (tla & pid & i & k & raw & ila & tid & ext & addr & len & crc & body & E & Hraw &
       Htid & Haddr & Hlen & Hbody); [lia..|].
    assert (body ≠ []) by (intros ->; zs; lia).
    assert (i = instr) as -> by (rewrite E in Hi; by injection Hi).
    pose proof Hb as Hb'. rewrite E in Hb'.
    set (q := command_fields raw ila tid ext addr len (command_start tla instr k p)).
    rewrite E. rewrite (parseWritePacket_at _ _ _ _ _ _ _ _ _ _ _ _) with (q := q)
      by (done || lia).
    reject Hcrc. reject Hpid. subst pid. reject Hsize. reject Hdcrc.
    eexists (_, _). split; [done|]. intros _.
    destruct (command_accepted tla k raw ila tid ext addr len ([crc] ++ body) E)
      as (Hwf & Hw & Hty & Hin & Hta & Hdl); [done..|].
    fold q in Hwf, Hw, Hty, Hin, Hta, Hdl. clearbody q.
    rewrite app_assoc in Hb'. apply Forall_app in Hb' as [Hbh Hbb].
    pose proof (be_combine_bound len) as Hl. rewrite Hlen in Hl.
    assert (bytes len) as Hbl.
    { revert Hbh. unfold command_header. rewrite !Forall_app. tauto. }
    specialize (Hl Hbl).
    split_and!; [by apply command_wf_set_data| | |exact Hty|exact Hin|exact Hta].
    + unfold data_wf. cbn. rewrite Hdl. split_and!; [by apply Forall_take|zs; lia|lia..].
    + cbn [data set_data]. rewrite <-body_with_crc by (done || lia).
      rewrite wire_command_set_data, <-Hw, app_assoc.
      f_equal. by apply crc_ok_with_crc.
  - unfold parseWritePacket. destruct (zsize rest <? 4); [by apply accepts_reject|].
    rewrite Hi, bind_ret. destruct (Z.leb_spec (zsize rest) (16 + Z.land instr 3 * 4)); [|lia].
    by apply accepts_reject.
Qed.

(** The fields of an accepted reply. *)
Lemma reply_accepted ila st tla tid tl :
  let h := reply_header ila 1 instr st tla tid in
  let q := reply_fields ila instr st tla tid p in
  rest = h ++ tl → zsize tid = 2 → is_path (replyAddress p) →
  reply_wf q ∧ h = wire_reply q.
Proof.
  intros h q Hrest Htid Hpath.
  assert (bytes h) as Hh by (rewrite Hrest in Hb; by apply Forall_app in Hb as [? _]).
  assert (0x20 ≤ ila) by (eapply Hfirst; by rewrite Hrest).
  subst h. unfold reply_header, bytes in Hh. rewrite !Forall_app, !Forall_cons in Hh.
  destruct_and! Hh. pose proof (be_combine_bound tid) as Ht. rewrite Htid in Ht.
  split.
  - unfold reply_wf, logical_byte. subst q. cbn. unfold byte in *.
    split_and!; try done; try lia; by apply Ht.
  - unfold wire_reply. subst q. cbn -[be_split]. by rewrite (be_split_combine_n 2 tid).
Qed.

Lemma parseWriteReplyPacket_accepts :
  is_path (replyAddress p) →
  accepts (parseWriteReplyPacket rest p) (λ q,
    reply_wf q ∧ rest = with_crc (wire_reply q) ∧ type q = type p ∧ instruction q = instr ∧
    replyAddress q = replyAddress p).
Proof.
  intros Hpath. destruct (decide (zsize rest = 8)) as [Hs|Hs].
  - destruct (reply_split rest) as (ila & pid & i & st & tla & tid & tl & E & Htid & Htl); [lia|].
    destruct tl as [|crc tl]; [zs; lia|].
    assert (tl = []) as -> by (destruct tl; [done|zs; pose proof (zsize_nonneg tl); lia]).
    assert (i = instr) as -> by (rewrite E in Hi; by injection Hi).
    pose proof Hb as Hb'. rewrite E in Hb'. rewrite E, parseWriteReplyPacket_at by done.
    reject Hcrc. reject Hpid. subst pid. eexists (_, _). split; [done|]. intros _.
    destruct (reply_accepted ila st tla tid [crc] E) as [Hwf Hw]; [done..|].
    split_and!; [exact Hwf| |done..]. rewrite <-Hw. by apply crc_ok_with_crc.
  - unfold parseWriteReplyPacket. destruct (Z.eqb_spec (zsize rest) 8); [done|].
    by apply accepts_reject.
Qed.

Lemma parseReadReplyPacket_accepts :
  is_path (replyAddress p) →
  accepts (parseReadReplyPacket rest p) (λ q,
    reply_wf q ∧ data_wf q ∧ type q = type p ∧ instruction q = instr ∧
    replyAddress q = replyAddress p ∧
    ∃ rsv, byte rsv ∧
      rest = with_crc (wire_reply q ++ [rsv] ++ be_split 3 (dataLength q)) ++ with_crc (data q)).
Proof.
  intros Hpath. destruct (decide (12 ≤ zsize rest)) as [Hs|Hs].
  - destruct (read_reply_split rest) as
      (ila & pid & i & st & tla & tid & rsv & len & crc & body & E & Htid & Hlen & Hbody); [lia|].
    assert (i = instr) as -> by (rewrite E in Hi; by injection Hi).
    pose proof Hb as Hb'. rewrite E in Hb'. rewrite E, parseReadReplyPacket_at by done.
    reject Hcrc. reject Hpid. subst pid. cbv zeta. reject Hsize. reject Hdcrc.
    eexists (_, _). split; [done|]. intros _.
    destruct (reply_accepted ila st tla tid _ E) as [Hwf Hw]; [done..|].
    pose proof (be_combine_bound len) as Hl. rewrite Hlen in Hl.
    assert (byte rsv ∧ bytes len ∧ bytes body ∧
      bytes (reply_header ila 1 instr st tla tid ++ [rsv] ++ len ++ [crc])) as
      (Hrsv & Hbl & Hbb & Hbh).
    { revert Hb'. unfold bytes. rewrite !Forall_app, !Forall_cons. tauto. }
    specialize (Hl Hbl).
    split_and!; [exact Hwf|..]; try done.
    + unfold data_wf. cbn. split_and!; [by apply Forall_take|zs; lia|lia..].
    + exists rsv. split; [done|]. cbn [data set_data].
      rewrite <-body_with_crc by (done || lia).
      change (wire_reply (set_data _ (set_dataLength _ ?q))) with (wire_reply q).
      change (dataLength (set_data _ (set_dataLength ?v _))) with v.
      rewrite <-Hw, (be_split_combine_n 3 len) by done.
      rewrite <-crc_ok_with_crc with (c := crc); rewrite <-!app_assoc; try done.
  - unfold parseReadReplyPacket. destruct (Z.ltb_spec (zsize rest) 12); [|lia].
    by apply accepts_reject.
Qed.
End accepted.
