(* ===== verification/PacketTheorems.v ===== *)
(** * The packet format: safety, soundness, completeness, round trips

    The theorems a user of builders and parser relies on, from the lemmas of
    [PacketBuilder] and [PacketParserFacts]. *)

From S2P Require Import Prelude Crc PacketTypes PacketBuilder PacketParser PacketParserFacts.
#[local] Open Scope Z_scope.

(** A span of bytes in memory. *)
Definition span_wf (s : list Z) : Prop := bytes s ∧ zsize s < 2 ^ 64.

Lemma is_path_below path : bytes path → Forall (λ b, b < 0x20) path → is_path path.
Proof.
  intros Hb Hp. apply Forall_forall. intros b Hin.
  rewrite Forall_forall in Hp. unfold bytes in Hb. rewrite Forall_forall in Hb.
  specialize (Hp b Hin). specialize (Hb b Hin). unfold byte in Hb. split; lia.
Qed.

Lemma is_path_lt path : is_path path → Forall (λ b, b < 0x20) path.
Proof. intros Hp. eapply Forall_impl; [exact Hp|]. unfold path_byte. lia. Qed.

(** Every parse of a non-empty span comes back, and accepts encodings only. *)
Lemma parse_accepts packet p :
  span_wf packet → packet ≠ [] →
  accepts (parse packet p) (λ q, packet_wf q ∧ ∃ rsv, byte rsv ∧ packet = wire rsv q).
Proof.
  intros [Hb Hs] Hne. destruct (path_split packet) as (path & rest & -> & Hp & Hr).
  apply Forall_app in Hb as [Hbp Hbr].
  destruct (decide (rest = [])) as [->|Hrest].
  { rewrite app_nil_r in *. rewrite parse_path_only by done. by apply accepts_reject. }
  rewrite parse_dispatch by done.
  destruct (Z.ltb_spec (zsize rest) 4); [by apply accepts_reject|].
  destruct (rd_in_range rest 2) as (instr & Hi & _); [lia|]. rewrite Hi, bind_ret.
  pose proof (is_path_below path Hbp Hp) as Hpath. unfold parse_body.
  set (p' := set_type (instruction_type instr) (set_instruction instr p)).
  destruct (instruction_type instr) eqn:Et.
  - unfold instruction_type in Et. by repeat case_match.
  - edestruct (parseReadPacket_accepts rest instr (set_targetSpaceWireAddress path p'))
      as ([s q] & E & Hq); [done..|]. exists (s, q). split; [done|]. intros Hok.
    destruct (Hq Hok) as (Hwf & Hw & Hty & Hin & Hta). cbn in Hty, Hin, Hta.
    split; [unfold packet_wf; rewrite Hin, Et, Hty; done|].
    exists 0. split; [apply byte_0|]. unfold wire. by rewrite Hty, Hta, Hw.
  - edestruct (parseWritePacket_accepts rest instr (set_targetSpaceWireAddress path p'))
      as ([s q] & E & Hq); [done..|]. exists (s, q). split; [done|]. intros Hok.
    destruct (Hq Hok) as (Hwf & Hd & Hw & Hty & Hin & Hta). cbn in Hty, Hin, Hta.
    split; [unfold packet_wf; rewrite Hin, Et, Hty; done|].
    exists 0. split; [apply byte_0|]. unfold wire. by rewrite Hty, Hta, Hw.
  - edestruct (parseReadReplyPacket_accepts rest instr) with
      (p := set_replyAddress path p') as ([s q] & E & Hq); [done..|].
    exists (s, q). split; [done|]. intros Hok.
    destruct (Hq Hok) as (Hwf & Hd & Hty & Hin & Hta & rsv & Hrsv & Hw). cbn in Hty, Hin, Hta.
    split; [unfold packet_wf; rewrite Hin, Et, Hty; done|].
    exists rsv. split; [done|]. unfold wire. by rewrite Hty, Hta, Hw.
  - edestruct (parseWriteReplyPacket_accepts rest instr) with
      (p := set_replyAddress path p') as ([s q] & E & Hq); [done..|].
    exists (s, q). split; [done|]. intros Hok.
    destruct (Hq Hok) as (Hwf & Hw & Hty & Hin & Hta). cbn in Hty, Hin, Hta.
    split; [unfold packet_wf; rewrite Hin, Et, Hty; done|].
    exists 0. split; [apply byte_0|]. unfold wire. by rewrite Hty, Hta, Hw.
Qed.

(** ** Completeness *)

Lemma be_combine_split_small n z :
  0 ≤ z < 2 ^ (8 * Z.of_nat n) → be_combine (be_split n z) = z.
Proof. intros. by rewrite be_combine_split, Z.mod_small. Qed.

Lemma zsize_padded_reply q :
  zsize (replyAddress q) ≤ Z.land (instruction q) 3 * 4 →
  zsize (padded_reply q) = Z.land (instruction q) 3 * 4.
Proof. intros. unfold padded_reply. pose proof (zsize_nonneg (replyAddress q)). zs. lia. Qed.

Lemma strip_padded_reply q : stripped (replyAddress q) → strip_zeros (padded_reply q) = replyAddress q.
Proof. intros Hs. unfold padded_reply. by rewrite strip_zeros_pad. Qed.

Lemma bytes_replicate_0 n : bytes (replicate n 0).
Proof. induction n; constructor; [apply byte_0|done]. Qed.

Lemma bytes_padded_reply q : bytes (replyAddress q) → bytes (padded_reply q).
Proof. intros. apply Forall_app. split; [apply bytes_replicate_0|done]. Qed.

Lemma logical_byte_byte b : logical_byte b → byte b.
Proof. unfold logical_byte, byte. lia. Qed.

Lemma is_path_bytes l : is_path l → bytes l.
Proof. intros Hp. eapply Forall_impl; [exact Hp|]. unfold path_byte, byte. lia. Qed.

Lemma byte_1 : byte 1.
Proof. unfold byte. lia. Qed.

Lemma bytes_app l k : bytes l → bytes k → bytes (l ++ k).
Proof. intros. by apply Forall_app. Qed.
Lemma bytes_cons b l : byte b → bytes l → bytes (b :: l).
Proof. intros. by constructor. Qed.
Lemma bytes_nil : bytes [].
Proof. constructor. Qed.
Lemma bytes_with_crc l : bytes l → bytes (with_crc l).
Proof. intros. apply bytes_app; [done|]. apply bytes_cons; auto using bytes_nil with spw. Qed.
#[export] Hint Resolve bytes_app bytes_cons bytes_nil bytes_with_crc byte_1 logical_byte_byte
  is_path_bytes bytes_padded_reply : spw.

(** The header fields of a well-formed command are bytes. *)
Definition command_block (q : Packet) : list Z :=
  command_header (targetLogicalAddress q) 1 (instruction q) (key q) (padded_reply q)
    (initiatorLogicalAddress q) (be_split 2 (transactionID q)) (extendedAddress q)
    (be_split 4 (address q)) (be_split 3 (dataLength q)).

Lemma bytes_command_block q : command_wf q → bytes (command_block q).
Proof. unfold command_wf. intros. destruct_and!. unfold command_block, command_header. auto 12 with spw. Qed.

Lemma zsize_command_block q : zsize (command_block q) = 15 + zsize (padded_reply q).
Proof. unfold command_block, command_header. zs. lia. Qed.
#[export] Hint Rewrite zsize_command_block : zsize.

Lemma bytes_wire_reply q : reply_wf q → bytes (wire_reply q).
Proof. unfold reply_wf. intros. destruct_and!. unfold wire_reply, reply_header. auto 12 with spw. Qed.
#[export] Hint Resolve bytes_command_block bytes_wire_reply : spw.

(** A path and what follows it, as the parser splits them. *)
Lemma parse_path path b0 b1 instr t p :
  is_path path → logical_byte b0 → 1 ≤ zsize t → zsize (path ++ b0 :: b1 :: instr :: t) < 2 ^ 64 →
  parse (path ++ b0 :: b1 :: instr :: t) p = parse_body instr path (b0 :: b1 :: instr :: t) p.
Proof.
  intros Hp Hb Ht Hs. rewrite parse_dispatch; [|by apply is_path_lt| |done|done].
  - destruct (Z.ltb_spec (zsize (b0 :: b1 :: instr :: t)) 4); [zs; lia|done].
  - intros ? ? [= <- <-]. unfold logical_byte in Hb. lia.
Qed.

(** The packet object after the command fields of [q] were parsed into [p]. *)
Definition command_into (q p : Packet) : Packet :=
  mkPacket (targetSpaceWireAddress p) (replyAddress q) (initiatorLogicalAddress q)
    (instruction q) (key q) (status p) (targetLogicalAddress q) (transactionID q)
    (extendedAddress q) (address q) (dataLength q) (data p) (type p).

Lemma command_into_fields q p :
  command_wf q →
  command_fields (padded_reply q) (initiatorLogicalAddress q) (be_split 2 (transactionID q))
    (extendedAddress q) (be_split 4 (address q)) (be_split 3 (dataLength q))
    (command_start (targetLogicalAddress q) (instruction q) (key q) p) = command_into q p.
Proof.
  unfold command_wf. intros. destruct_and!. unfold command_fields, command_into.
  by rewrite !be_combine_split_small, strip_padded_reply by done.
Qed.

Lemma parseReadPacket_complete q p :
  command_wf q → parseReadPacket (with_crc (command_block q)) p = Ret (Success, command_into q p).
Proof.
  intros Hwf. rewrite <-command_into_fields by done.
  pose proof (bytes_command_block q Hwf) as Hb. pose proof (with_crc_ok _ Hb) as Hc.
  pose proof (bytes_with_crc _ Hb) as Hbc. pose proof Hwf as Hwf'. unfold command_wf in Hwf'.
  destruct_and! Hwf'. pose proof (land3_bound (instruction q)).
  unfold with_crc in *. unfold command_block at 1.
  rewrite <-(app_nil_r [calcCRC (command_block q) 0]).
  rewrite parseReadPacket_at; [|by rewrite zsize_be_split..| |by rewrite app_nil_r| |done].
  - fold (command_block q). by rewrite Hc.
  - rewrite zsize_padded_reply by done. tauto.
  - by rewrite zsize_padded_reply.
Qed.

Lemma parseWritePacket_complete q p :
  command_wf q → data_wf q →
  parseWritePacket (with_crc (command_block q) ++ with_crc (data q)) p =
    Ret (Success, set_data (data q) (command_into q p)).
Proof.
  intros Hwf (Hd & Hds & Hdl). rewrite <-command_into_fields by done.
  pose proof (bytes_command_block q Hwf) as Hb. pose proof (with_crc_ok _ Hb) as Hc.
  pose proof (bytes_with_crc _ Hb) as Hbc. pose proof (with_crc_ok _ Hd) as Hdc.
  pose proof Hwf as Hwf'. unfold command_wf in Hwf'.
  destruct_and! Hwf'. pose proof (land3_bound (instruction q)).
  unfold with_crc at 1. rewrite <-app_assoc. unfold command_block at 1.
  erewrite parseWritePacket_at; [|by rewrite zsize_be_split..| | | | |reflexivity].
  - fold (command_block q). fold (with_crc (command_block q)). rewrite Hc. cbn [negb Z.eqb].
    rewrite be_combine_split_small by done. rewrite zsize_with_crc, Hds, Z.eqb_refl, Hdc.
    cbn [negb Z.eqb]. unfold with_crc. rewrite <-Hds, zsize_to_nat, take_app_length. done.
  - rewrite zsize_padded_reply by done. tauto.
  - fold (command_block q). rewrite app_assoc. apply bytes_app; auto with spw.
  - by rewrite zsize_padded_reply.
  - unfold with_crc. by destruct (data q).
Qed.

(** The same for the fields of a reply. *)
Definition reply_into (q p : Packet) : Packet :=
  mkPacket (targetSpaceWireAddress p) (replyAddress p) (initiatorLogicalAddress q)
    (instruction q) (key p) (status q) (targetLogicalAddress q) (transactionID q)
    (extendedAddress p) (address p) (dataLength p) (data p) (type p).

Lemma reply_into_fields q p :
  reply_wf q →
  reply_fields (initiatorLogicalAddress q) (instruction q) (status q) (targetLogicalAddress q)
    (be_split 2 (transactionID q)) p = reply_into q p.
Proof.
  unfold reply_wf. intros. destruct_and!. unfold reply_fields, reply_into.
  by rewrite be_combine_split_small.
Qed.

Lemma parseWriteReplyPacket_complete q p :
  reply_wf q → parseWriteReplyPacket (with_crc (wire_reply q)) p = Ret (Success, reply_into q p).
Proof.
  intros Hwf. rewrite <-reply_into_fields by done.
  pose proof (bytes_wire_reply q Hwf) as Hb. pose proof (with_crc_ok _ Hb) as Hc.
  unfold with_crc in *. unfold wire_reply at 1.
  rewrite parseWriteReplyPacket_at; [|by rewrite zsize_be_split|by apply (bytes_with_crc _ Hb)].
  fold (wire_reply q). by rewrite Hc.
Qed.

Lemma parseReadReplyPacket_complete rsv q p :
  reply_wf q → data_wf q → byte rsv →
  parseReadReplyPacket
    (with_crc (wire_reply q ++ [rsv] ++ be_split 3 (dataLength q)) ++ with_crc (data q)) p =
    Ret (Success, set_data (data q) (set_dataLength (dataLength q) (reply_into q p))).
Proof.
  intros Hwf (Hd & Hds & Hdl) Hr. rewrite <-reply_into_fields by done.
  pose proof (bytes_wire_reply q Hwf) as Hb.
  assert (bytes (wire_reply q ++ [rsv] ++ be_split 3 (dataLength q))) as Hh by auto with spw.
  pose proof (with_crc_ok _ Hh) as Hc. pose proof (with_crc_ok _ Hd) as Hdc.
  unfold with_crc in Hc. unfold with_crc at 1. unfold wire_reply at 1. rewrite <-!app_assoc in *.
  rewrite parseReadReplyPacket_at; [|by rewrite zsize_be_split..|].
  - fold (wire_reply q). rewrite Hc. cbn [negb Z.eqb].
    rewrite be_combine_split_small by done. rewrite zsize_with_crc, Hds, Z.eqb_refl, Hdc.
    cbn [negb Z.eqb]. unfold with_crc. rewrite <-Hds, zsize_to_nat, take_app_length. done.
  - fold (wire_reply q). auto 10 with spw.
Qed.

(** The wire form of a packet starts with its path, then four bytes whose
    third is the instruction. *)
Lemma parse_command q tail p :
  command_wf q → zsize (targetSpaceWireAddress q ++ with_crc (command_block q) ++ tail) < 2 ^ 64 →
  parse (targetSpaceWireAddress q ++ with_crc (command_block q) ++ tail) p =
  parse_body (instruction q) (targetSpaceWireAddress q) (with_crc (command_block q) ++ tail) p.
Proof.
  intros Hwf Hs. unfold command_wf in Hwf. destruct_and! Hwf.
  pose proof (zsize_nonneg (padded_reply q)). pose proof (zsize_nonneg tail).
  assert (He : with_crc (command_block q) ++ tail = targetLogicalAddress q :: 1 :: instruction q ::
    drop 3 (with_crc (command_block q)) ++ tail) by done.
  rewrite He in Hs |- *. apply parse_path; [done|done| |done]. zs. lia.
Qed.

Lemma parse_reply q tail p :
  reply_wf q → 1 ≤ zsize tail → zsize (replyAddress q ++ wire_reply q ++ tail) < 2 ^ 64 →
  parse (replyAddress q ++ wire_reply q ++ tail) p =
  parse_body (instruction q) (replyAddress q) (wire_reply q ++ tail) p.
Proof.
  intros Hwf Ht Hs. unfold reply_wf in Hwf. destruct_and! Hwf.
  assert (He : wire_reply q ++ tail = initiatorLogicalAddress q :: 1 :: instruction q ::
    drop 3 (wire_reply q) ++ tail) by done.
  rewrite He in Hs |- *. apply parse_path; [done|done| |done].
  pose proof (zsize_nonneg (drop 3 (wire_reply q))). zs. lia.
Qed.

Lemma parse_wire rsv q p :
  packet_wf q → byte rsv → zsize (wire rsv q) < 2 ^ 64 →
  parse (wire rsv q) p = Ret (Success, received p q).
Proof.
  intros [Hty Hwf] Hr Hs. unfold wire, received in *. destruct (type q) eqn:Ht; [done|..].
  - unfold wire_command in *. fold (command_block q) in *.
    rewrite <-(app_nil_r (with_crc _)) in Hs |- *. rewrite parse_command by done.
    unfold parse_body. rewrite <-Hty, app_nil_r, parseReadPacket_complete by done.
    destruct q; cbn in Ht; by subst.
  - destruct Hwf as [Hc Hd]. unfold wire_command in *. fold (command_block q) in *.
    rewrite parse_command by done. unfold parse_body.
    rewrite <-Hty, parseWritePacket_complete by done. destruct q; cbn in Ht; by subst.
  - destruct Hwf as [Hc Hd]. unfold with_crc at 1. unfold with_crc at 1 in Hs.
    rewrite <-!app_assoc in *. rewrite parse_reply; [|done|zs; pose proof (zsize_nonneg (data q)); lia|done].
    unfold parse_body. rewrite <-Hty.
    pose proof (parseReadReplyPacket_complete rsv q (set_replyAddress (replyAddress q)
      (set_type ReadReply (set_instruction (instruction q) p))) Hc Hd Hr) as E.
    unfold with_crc at 1 in E. rewrite <-!app_assoc in E. rewrite E. destruct q; cbn in Ht; by subst.
  - unfold with_crc in *. rewrite parse_reply; [|done|by zs|done]. unfold parse_body.
    rewrite <-Hty. pose proof (parseWriteReplyPacket_complete q (set_replyAddress (replyAddress q)
      (set_type WriteReply (set_instruction (instruction q) p))) Hwf) as E.
    unfold with_crc in E. rewrite E. destruct q; cbn in Ht; by subst.
Qed.

(** ** Properties of the parser *)

(** PacketParser::parse returns a status for every non-empty span: no read of
    it, of a subspan or of a checksummed range leaves the span, whatever the
    bytes are. *)
Lemma parse_safe packet p :
  span_wf packet → packet ≠ [] → ∃ s q, parse packet p = Ret (s, q).
Proof.
  intros Hw Hne. destruct (parse_accepts packet p Hw Hne) as ([s q] & E & _). eauto.
Qed.

(** C5: PacketParser::parse returns a status for every non-empty span, without a
    read outside of the span, and this is Success exactly when the span is the
    encoding of a well-formed packet of one of the four types (path, header with
    valid checksum, data of the announced length with valid checksum); the
    packet object then holds the encoded fields. *)
Theorem parse_success_iff packet p :
  span_wf packet → packet ≠ [] →
  (∃ s q, parse packet p = Ret (s, q)) ∧
  ∀ q, parse packet p = Ret (Success, q) ↔
    ∃ rsv q0, packet_wf q0 ∧ byte rsv ∧ packet = wire rsv q0 ∧ q = received p q0.
Proof.
  intros Hw Hne. split; [by apply parse_safe|]. intros q. split.
  - intros E. destruct (parse_accepts packet p Hw Hne) as ([s q'] & E' & Hok).
    rewrite E in E'. injection E' as <- <-. destruct (Hok eq_refl) as (Hwf & rsv & Hr & Hpk).
    exists rsv, q. split_and!; [done..|].
    pose proof (parse_wire rsv q p Hwf Hr) as E'. rewrite <-Hpk in E'.
    specialize (E' (proj2 Hw)). congruence.
  - intros (rsv & q0 & Hwf & Hr & -> & ->). apply parse_wire; [done..|apply Hw].
Qed.

(** ** Round trips: what a builder writes, the parser reads back *)

(** The configurations a packet can carry: path and logical addresses in their
    ranges, integers of their widths, reply addresses of at most 12 bytes. *)
Definition read_config_wf (c : ReadPacketConfig.t) : Prop :=
  is_path (ReadPacketConfig.targetSpaceWireAddress c) ∧
  logical_byte (ReadPacketConfig.targetLogicalAddress c) ∧
  bytes (ReadPacketConfig.replyAddress c) ∧ zsize (ReadPacketConfig.replyAddress c) ≤ 12 ∧
  byte (ReadPacketConfig.initiatorLogicalAddress c) ∧
  0 ≤ ReadPacketConfig.transactionID c < 2 ^ 16 ∧ byte (ReadPacketConfig.extendedAddress c) ∧
  0 ≤ ReadPacketConfig.address c < 2 ^ 32 ∧ byte (ReadPacketConfig.key c).

Definition write_config_wf (c : WritePacketConfig.t) : Prop :=
  is_path (WritePacketConfig.targetSpaceWireAddress c) ∧
  logical_byte (WritePacketConfig.targetLogicalAddress c) ∧
  bytes (WritePacketConfig.replyAddress c) ∧ zsize (WritePacketConfig.replyAddress c) ≤ 12 ∧
  byte (WritePacketConfig.initiatorLogicalAddress c) ∧
  0 ≤ WritePacketConfig.transactionID c < 2 ^ 16 ∧ byte (WritePacketConfig.extendedAddress c) ∧
  0 ≤ WritePacketConfig.address c < 2 ^ 32 ∧ byte (WritePacketConfig.key c) ∧
  bytes (WritePacketConfig.data c) ∧ zsize (WritePacketConfig.data c) < 2 ^ 24.

Definition write_reply_config_wf (c : WriteReplyPacketConfig.t) : Prop :=
  is_path (WriteReplyPacketConfig.replyAddress c) ∧
  logical_byte (WriteReplyPacketConfig.initiatorLogicalAddress c) ∧
  byte (WriteReplyPacketConfig.status c) ∧ byte (WriteReplyPacketConfig.targetLogicalAddress c) ∧
  0 ≤ WriteReplyPacketConfig.transactionID c < 2 ^ 16.

Definition read_reply_config_wf (c : ReadReplyPacketConfig.t) : Prop :=
  is_path (ReadReplyPacketConfig.replyAddress c) ∧
  logical_byte (ReadReplyPacketConfig.initiatorLogicalAddress c) ∧
  byte (ReadReplyPacketConfig.status c) ∧ byte (ReadReplyPacketConfig.targetLogicalAddress c) ∧
  0 ≤ ReadReplyPacketConfig.transactionID c < 2 ^ 16 ∧
  bytes (ReadReplyPacketConfig.data c) ∧ zsize (ReadReplyPacketConfig.data c) < 2 ^ 24.

(** The fields a configuration puts on the wire. *)
Definition read_packet (c : ReadPacketConfig.t) : Packet :=
  mkPacket (ReadPacketConfig.targetSpaceWireAddress c)
    (strip_zeros (ReadPacketConfig.replyAddress c)) (ReadPacketConfig.initiatorLogicalAddress c)
    (read_instruction c) (ReadPacketConfig.key c) 0 (ReadPacketConfig.targetLogicalAddress c)
    (ReadPacketConfig.transactionID c) (ReadPacketConfig.extendedAddress c)
    (ReadPacketConfig.address c) (ReadPacketConfig.dataLength c mod 2 ^ 24) [] Read.

Definition write_packet (c : WritePacketConfig.t) : Packet :=
  mkPacket (WritePacketConfig.targetSpaceWireAddress c)
    (strip_zeros (WritePacketConfig.replyAddress c)) (WritePacketConfig.initiatorLogicalAddress c)
    (write_instruction c) (WritePacketConfig.key c) 0 (WritePacketConfig.targetLogicalAddress c)
    (WritePacketConfig.transactionID c) (WritePacketConfig.extendedAddress c)
    (WritePacketConfig.address c) (zsize (WritePacketConfig.data c)) (WritePacketConfig.data c)
    Write.

Definition write_reply_packet (c : WriteReplyPacketConfig.t) : Packet :=
  mkPacket [] (WriteReplyPacketConfig.replyAddress c)
    (WriteReplyPacketConfig.initiatorLogicalAddress c) (write_reply_instruction c) 0
    (WriteReplyPacketConfig.status c) (WriteReplyPacketConfig.targetLogicalAddress c)
    (WriteReplyPacketConfig.transactionID c) 0 0 0 [] WriteReply.

Definition read_reply_packet (c : ReadReplyPacketConfig.t) : Packet :=
  mkPacket [] (ReadReplyPacketConfig.replyAddress c)
    (ReadReplyPacketConfig.initiatorLogicalAddress c) (read_reply_instruction c) 0
    (ReadReplyPacketConfig.status c) (ReadReplyPacketConfig.targetLogicalAddress c)
    (ReadReplyPacketConfig.transactionID c) 0 0 (zsize (ReadReplyPacketConfig.data c))
    (ReadReplyPacketConfig.data c) ReadReply.

Lemma reply_words_bound r : zsize r ≤ 12 → 0 ≤ reply_words r ≤ 3.
Proof. intros. unfold reply_words. pose proof (zsize_nonneg r). dlia. Qed.

(** The low bits of a command's instruction are its reply address length. *)
Lemma land3_instruction i w : i mod 4 = 0 → 0 ≤ w ≤ 3 → Z.land (i + w) 3 = w.
Proof.
  intros Hi Hw. change 3 with (Z.ones 2). rewrite Z.land_ones by lia.
  change (2 ^ 2) with 4. dlia.
Qed.

Lemma reply_field_padded r i :
  zsize r ≤ 12 → Z.land i 3 = reply_words r →
  reply_field r =
  replicate (Z.to_nat (Z.land i 3 * 4 - zsize (strip_zeros r))) 0 ++ strip_zeros r.
Proof.
  intros Hr Hi. rewrite Hi. rewrite <-(padded_strip (reply_field r) (reply_words r * 4)) at 1 by (zs; lia).
  assert (E : strip_zeros (reply_field r) = strip_zeros r) by apply strip_zeros_pad.
  by rewrite E.
Qed.

Lemma zsize_strip_zeros r : zsize (strip_zeros r) ≤ zsize r.
Proof. destruct (strip_zeros_suffix r) as (n & _ & H). lia. Qed.

Ltac cases_up_to H :=
  match type of H with 0 ≤ ?w ≤ 3 =>
    let C := fresh in assert (C : w = 0 ∨ w = 1 ∨ w = 2 ∨ w = 3) by lia;
    destruct C as [->|[->|[->| ->]]]
  end.

Lemma read_packet_wf c : read_config_wf c → packet_wf (read_packet c).
Proof.
  unfold read_config_wf. intros. destruct_and!.
  pose proof (reply_words_bound (ReadPacketConfig.replyAddress c) ltac:(done)) as Hw.
  pose proof (zsize_strip_zeros (ReadPacketConfig.replyAddress c)).
  pose proof (reply_words_pad (ReadPacketConfig.replyAddress c)).
  pose proof (Z.mod_pos_bound (ReadPacketConfig.dataLength c) (2 ^ 24) ltac:(lia)).
  assert (Hl : Z.land (read_instruction c) 3 = reply_words (ReadPacketConfig.replyAddress c))
    by (apply land3_instruction; [by destruct ReadPacketConfig.incrementMode|done]).
  split.
  - unfold read_packet, read_instruction. cbn [type instruction].
    cases_up_to Hw; by destruct ReadPacketConfig.incrementMode.
  - unfold command_wf. cbn. rewrite Hl. split_and!; try done; try lia.
    + unfold read_instruction, byte. destruct ReadPacketConfig.incrementMode; simpl; lia.
    + by apply bytes_strip_zeros.
    + apply strip_zeros_idem.
Qed.

Lemma read_packet_wire c : read_config_wf c → encode_read c = wire 0 (read_packet c).
Proof.
  unfold read_config_wf. intros. destruct_and!.
  pose proof (reply_words_bound (ReadPacketConfig.replyAddress c) ltac:(done)) as Hw.
  unfold encode_read, wire. cbn [type read_packet targetSpaceWireAddress]. do 2 f_equal.
  unfold command_header, padded_reply. cbn -[be_split zsize Z.pow Z.modulo].
  rewrite (reply_field_padded _ (read_instruction c)); [|done|].
  2: { apply land3_instruction; [by destruct ReadPacketConfig.incrementMode|done]. }
  by rewrite (be_split_mod 3 24).
Qed.

Lemma write_instruction_base c :
  (0x60 + flag (WritePacketConfig.verifyMode c) 16 + flag (WritePacketConfig.reply c) 8 +
   flag (WritePacketConfig.incrementMode c) 4) mod 4 = 0.
Proof. by destruct WritePacketConfig.verifyMode, WritePacketConfig.reply, WritePacketConfig.incrementMode. Qed.

Lemma write_packet_wf c : write_config_wf c → packet_wf (write_packet c).
Proof.
  unfold write_config_wf. intros. destruct_and!.
  pose proof (reply_words_bound (WritePacketConfig.replyAddress c) ltac:(done)) as Hw.
  pose proof (zsize_strip_zeros (WritePacketConfig.replyAddress c)).
  pose proof (reply_words_pad (WritePacketConfig.replyAddress c)).
  pose proof (zsize_nonneg (WritePacketConfig.data c)).
  assert (Hl : Z.land (write_instruction c) 3 = reply_words (WritePacketConfig.replyAddress c))
    by (apply land3_instruction; [apply write_instruction_base|done]).
  split; [|split].
  - unfold write_packet, write_instruction. cbn [type instruction].
    cases_up_to Hw; by destruct WritePacketConfig.verifyMode, WritePacketConfig.reply,
      WritePacketConfig.incrementMode.
  - unfold command_wf. cbn. rewrite Hl. split_and!; try done; try lia.
    + unfold write_instruction, byte. destruct WritePacketConfig.verifyMode,
        WritePacketConfig.reply, WritePacketConfig.incrementMode; simpl; lia.
    + by apply bytes_strip_zeros.
    + apply strip_zeros_idem.
  - by unfold data_wf.
Qed.

Lemma write_packet_wire c : write_config_wf c → encode_write c = wire 0 (write_packet c).
Proof.
  unfold write_config_wf. intros. destruct_and!.
  pose proof (reply_words_bound (WritePacketConfig.replyAddress c) ltac:(done)) as Hw.
  unfold encode_write, wire. cbn [type write_packet targetSpaceWireAddress]. do 2 f_equal.
  unfold wire_command, command_header, padded_reply. cbn -[be_split zsize Z.pow Z.modulo with_crc].
  rewrite (reply_field_padded _ (write_instruction c)); [done|done|].
  apply land3_instruction; [apply write_instruction_base|done].
Qed.

Lemma write_reply_packet_wf c : write_reply_config_wf c → packet_wf (write_reply_packet c).
Proof.
  unfold write_reply_config_wf. intros. destruct_and!. unfold packet_wf, reply_wf. cbn.
  unfold write_reply_instruction, byte in *.
  destruct WriteReplyPacketConfig.verifyMode, WriteReplyPacketConfig.incrementMode;
    (split; [done|]); split_and!; try done; simpl; lia.
Qed.

Lemma write_reply_packet_wire c : encode_write_reply c = wire 0 (write_reply_packet c).
Proof. done. Qed.

Lemma read_reply_packet_wf c : read_reply_config_wf c → packet_wf (read_reply_packet c).
Proof.
  unfold read_reply_config_wf. intros. destruct_and!. unfold packet_wf, reply_wf, data_wf. cbn.
  pose proof (zsize_nonneg (ReadReplyPacketConfig.data c)).
  unfold read_reply_instruction, byte in *.
  destruct ReadReplyPacketConfig.incrementMode; (split; [done|]); split_and!; try done; simpl; lia.
Qed.

Lemma read_reply_packet_wire c : encode_read_reply c = wire 0 (read_reply_packet c).
Proof. unfold encode_read_reply, wire, wire_reply, reply_header. cbn. done. Qed.

Lemma take_built {A} (pkt rest : list A) : take (Z.to_nat (zsize pkt)) (pkt ++ rest) = pkt.
Proof. by rewrite zsize_to_nat, take_app_length. Qed.

(** The builder's result, parsed. *)
Lemma built_parses out pkt q p :
  packet_wf q → pkt = wire 0 q → zsize pkt < 2 ^ 64 →
  ∃ n out', built out pkt = Ret (Ok n, out') ∧
    parse (take (Z.to_nat n) out') p = Ret (Success, received p q).
Proof.
  intros Hwf -> Hs. do 2 eexists. split; [done|]. rewrite take_built.
  by apply parse_wire; [|apply byte_0|].
Qed.

(** ** What a builder promises to the parser

    [encode] is the packet as a concatenation of its fields, [packet_of] what
    the parser makes of it. *)
Class PacketBuilderLaws (ConfigT : Type) `{PacketBuilderBase ConfigT} := {
  config_wf : ConfigT → Prop;
  encode : ConfigT → list Z;
  packet_of : ConfigT → Packet;
  encode_size c : zsize (encode c) = getTotalSize c;
  build_encodes c out : config_wf c → fits out (getTotalSize c) → build c out = built out (encode c);
  packet_of_wf c : config_wf c → packet_wf (packet_of c);
  encode_wire c : config_wf c → encode c = wire 0 (packet_of c);
}.

#[export] Instance read_builder_laws : PacketBuilderLaws ReadPacketConfig.t := {|
  config_wf := read_config_wf;
  encode := encode_read;
  packet_of := read_packet;
  encode_size := zsize_encode_read;
  build_encodes c out Hc := read_build_fits c out ltac:(apply Hc);
  packet_of_wf := read_packet_wf;
  encode_wire := read_packet_wire;
|}.

#[export] Instance write_builder_laws : PacketBuilderLaws WritePacketConfig.t := {|
  config_wf := write_config_wf;
  encode := encode_write;
  packet_of := write_packet;
  encode_size := zsize_encode_write;
  build_encodes c out Hc := write_build_fits c out ltac:(apply Hc);
  packet_of_wf := write_packet_wf;
  encode_wire := write_packet_wire;
|}.

#[export] Instance write_reply_builder_laws : PacketBuilderLaws WriteReplyPacketConfig.t := {|
  config_wf := write_reply_config_wf;
  encode := encode_write_reply;
  packet_of := write_reply_packet;
  encode_size := zsize_encode_write_reply;
  build_encodes c out _ := write_reply_build_fits c out;
  packet_of_wf := write_reply_packet_wf;
  encode_wire c _ := write_reply_packet_wire c;
|}.

#[export] Instance read_reply_builder_laws : PacketBuilderLaws ReadReplyPacketConfig.t := {|
  config_wf := read_reply_config_wf;
  encode := encode_read_reply;
  packet_of := read_reply_packet;
  encode_size := zsize_encode_read_reply;
  build_encodes c out _ := read_reply_build_fits c out;
  packet_of_wf := read_reply_packet_wf;
  encode_wire c _ := read_reply_packet_wire c;
|}.

(** What any builder with these laws writes is parsed back. *)
Definition round_trips {ConfigT} `{PacketBuilderLaws ConfigT} : Prop :=
  ∀ c out p, config_wf c → fits out (getTotalSize c) →
  ∃ n out', build c out = Ret (Ok n, out') ∧
    parse (take (Z.to_nat n) out') p = Ret (Success, received p (packet_of c)).
Arguments round_trips ConfigT {_ _}.

Lemma builder_round_trips {ConfigT} `{PacketBuilderLaws ConfigT} : round_trips ConfigT.
Proof.
  intros c out p Hc Hf. rewrite build_encodes by done.
  apply built_parses; [by apply packet_of_wf|by apply encode_wire|].
  rewrite encode_size. unfold fits, INT_MAX in Hf. lia.
Qed.

(** C23: What each of the four builders writes into a large enough buffer, for a
    configuration within the ranges of the protocol, is parsed back as a packet
    of the builder's type with the configuration's fields and data, with two
    exceptions: the data length of a read is taken modulo 2^24, and the reply
    address of a command comes back without its leading zeros, which are not
    told from padding. *)
Theorem builders_round_trip :
  round_trips WritePacketConfig.t ∧ round_trips ReadPacketConfig.t ∧
  round_trips ReadReplyPacketConfig.t ∧ round_trips WriteReplyPacketConfig.t.
Proof. split_and!; apply builder_round_trips. Qed.
