(* ===== verification/PacketIntegrity.v ===== *)
(** * Corrupted packets

    The checksums at work in the parser: a packet in which one byte of a
    checksummed block has changed is rejected, with the status that names the
    block.  The path in front of them is in no block: a packet with another path
    is accepted as such. *)

From S2P Require Import Prelude Crc PacketTypes PacketBuilder PacketParser PacketParserFacts PacketTheorems.
#[local] Open Scope Z_scope.

(** The three parts of a packet on the wire. *)
Definition wire_path (q : Packet) : list Z :=
  match type q with Read | Write => targetSpaceWireAddress q | _ => replyAddress q end.

Definition header_block (rsv : Z) (q : Packet) : list Z :=
  match type q with
  | Read | Write => command_block q
  | ReadReply => wire_reply q ++ [rsv] ++ be_split 3 (dataLength q)
  | WriteReply | Undefined => wire_reply q
  end.

Definition data_block (q : Packet) : list Z :=
  match type q with Write | ReadReply => with_crc (data q) | _ => [] end.

Lemma wire_blocks rsv q :
  packet_wf q → wire rsv q = wire_path q ++ with_crc (header_block rsv q) ++ data_block q.
Proof.
  intros [_ Hwf]. unfold wire, wire_path, header_block, data_block, wire_command.
  destruct (type q); [done| |done|done|]; by rewrite ?app_nil_r.
Qed.

Lemma bytes_header_block rsv q : packet_wf q → byte rsv → bytes (header_block rsv q).
Proof.
  intros [_ Hwf] Hr. unfold header_block. destruct (type q); [done|..].
  - by apply bytes_command_block.
  - by apply bytes_command_block, Hwf.
  - destruct Hwf as [Hwf _]. pose proof (bytes_wire_reply _ Hwf). auto 10 with spw.
  - by apply bytes_wire_reply.
Qed.

Lemma bytes_data_block q : packet_wf q → bytes (data_block q).
Proof.
  intros [_ Hwf]. unfold data_block. destruct (type q); try apply bytes_nil;
    by apply bytes_with_crc, Hwf.
Qed.

(** A header starts with the logical address that ends the path. *)
Lemma header_shape rsv q :
  packet_wf q → ∃ b0 t, with_crc (header_block rsv q) = b0 :: 1 :: instruction q :: t ∧
    logical_byte b0 ∧ 5 ≤ zsize t.
Proof.
  intros [_ Hwf]. unfold header_block.
  pose proof (zsize_nonneg (padded_reply q)) as Hp.
  assert (Hc : command_wf q → ∃ b0 t, with_crc (command_block q) = b0 :: 1 :: instruction q :: t ∧
    logical_byte b0 ∧ 5 ≤ zsize t).
  { intros Hc. exists (targetLogicalAddress q), (drop 3 (with_crc (command_block q))).
    unfold command_wf in Hc. destruct_and! Hc. split_and!; [done|done|]. zs. lia. }
  assert (Hr : ∀ l, reply_wf q → ∃ b0 t, with_crc (wire_reply q ++ l) = b0 :: 1 :: instruction q :: t ∧
    logical_byte b0 ∧ 5 ≤ zsize t).
  { intros l Hr. exists (initiatorLogicalAddress q), (drop 3 (with_crc (wire_reply q ++ l))).
    unfold reply_wf in Hr. destruct_and! Hr. split_and!; [done|done|].
    assert (zsize (wire_reply q) = 7) as E by done. zs. pose proof (zsize_nonneg l). lia. }
  destruct (type q); [done|by apply Hc|by apply Hc, Hwf|by apply Hr, Hwf|].
  rewrite <-(app_nil_r (wire_reply q)). by apply Hr.
Qed.

(** ** One changed byte *)

Lemma calcCRC_changed pre b b' post :
  bytes (pre ++ b :: post) → byte b' → b ≠ b' → calcCRC (pre ++ b :: post) 0 = 0 →
  calcCRC (pre ++ b' :: post) 0 ≠ 0.
Proof.
  intros Hb Hb' Hne H0 E0.
  assert (E : calcCRC (pre ++ b' :: post) 0 = calcCRC (pre ++ b :: post) 0) by congruence.
  apply Forall_app in Hb as [Hpre Hb]. apply Forall_cons in Hb as [Hb Hpost].
  rewrite !calcCRC_app, !calcCRC_cons in E.
  pose proof (byte_calcCRC pre 0 Hpre byte_0).
  apply calcCRC_inj_crc in E; [|auto with spw..].
  apply crc_step_inj_byte in E; auto with spw.
Qed.

Section bad_header.
Context (h : list Z) (i : Z) (p : Packet) (Hi : rd h 2 = Ret i) (Hcrc : calcCRC h 0 ≠ 0).

Lemma crc_test : negb (calcCRC h 0 =? 0) = true.
Proof. by destruct (Z.eqb_spec (calcCRC h 0) 0). Qed.

Lemma header_span tl n : n = zsize h → subspan (h ++ tl) 0 n = Ret h.
Proof. intros ->. by apply (subspan_eq _ [] h tl). Qed.

Lemma rd_app_l tl : rd (h ++ tl) 2 = Ret i.
Proof.
  unfold rd in *. rewrite decide_True in * by lia. change (Z.to_nat 2) with 2%nat in *.
  destruct (h !! 2%nat) eqn:E; [|done]. by rewrite (lookup_app_l_Some _ _ _ _ E).
Qed.

Lemma read_bad_header :
  zsize h = 16 + Z.land i 3 * 4 → 16 ≤ zsize h → parseReadPacket h p = Ret (HeaderCRCError, p).
Proof.
  intros Hz H16. unfold parseReadPacket. destruct (Z.ltb_spec (zsize h) 4); [lia|].
  rewrite Hi, bind_ret. cbv zeta. rewrite <-Hz, Z.eqb_refl. cbn [negb].
  pose proof (header_span [] (zsize h) eq_refl) as E. rewrite app_nil_r in E.
  by rewrite E, bind_ret, crc_test.
Qed.

Lemma write_bad_header tl :
  zsize h = 16 + Z.land i 3 * 4 → 16 ≤ zsize h → tl ≠ [] →
  parseWritePacket (h ++ tl) p = Ret (HeaderCRCError, p).
Proof.
  intros Hz H16 Htl. pose proof (zsize_pos tl Htl).
  unfold parseWritePacket. rewrite zsize_app. destruct (Z.ltb_spec (zsize h + zsize tl) 4); [lia|].
  rewrite rd_app_l, bind_ret. cbv zeta. rewrite <-Hz.
  destruct (Z.leb_spec (zsize h + zsize tl) (zsize h)); [lia|].
  by rewrite header_span, bind_ret, crc_test.
Qed.

Lemma read_reply_bad_header tl :
  zsize h = 12 → parseReadReplyPacket (h ++ tl) p = Ret (HeaderCRCError, p).
Proof.
  intros Hz. unfold parseReadReplyPacket. rewrite zsize_app. pose proof (zsize_nonneg tl).
  destruct (Z.ltb_spec (zsize h + zsize tl) 12); [lia|].
  by rewrite header_span, bind_ret, crc_test.
Qed.

Lemma write_reply_bad_header :
  zsize h = 8 → parseWriteReplyPacket h p = Ret (HeaderCRCError, p).
Proof.
  intros Hz. unfold parseWriteReplyPacket. rewrite Hz. cbn [Z.eqb Pos.eqb negb].
  pose proof (header_span [] 8 ltac:(done)) as E. rewrite app_nil_r in E.
  by rewrite E, bind_ret, crc_test.
Qed.
End bad_header.

Lemma zsize_header_block rsv q :
  packet_wf q →
  zsize (with_crc (header_block rsv q)) =
  match type q with
  | Read | Write => 16 + Z.land (instruction q) 3 * 4
  | ReadReply => 12
  | _ => 8
  end.
Proof.
  intros [_ Hwf]. unfold header_block. destruct (type q); [done|..]; try done.
  - unfold command_wf in Hwf. destruct_and! Hwf. zs. rewrite zsize_padded_reply by done. lia.
  - destruct Hwf as [Hwf _]. unfold command_wf in Hwf. destruct_and! Hwf.
    zs. rewrite zsize_padded_reply by done. lia.
Qed.

Lemma path_of_wf q : packet_wf q → is_path (wire_path q).
Proof.
  intros [_ Hwf]. unfold wire_path. by destruct (type q); [done|apply Hwf..].
Qed.

(** A well-formed packet of any type in which one header byte has been changed,
    other than the instruction and other than the first byte into a path
    address, is rejected by parse with HeaderCRCError. *)
Lemma corrupted_header_rejected p q rsv pre b b' post :
  packet_wf q → byte rsv → with_crc (header_block rsv q) = pre ++ b :: post →
  byte b' → b ≠ b' → length pre ≠ 2%nat → (pre = [] → 0x20 ≤ b') →
  zsize (wire rsv q) < 2 ^ 64 →
  ∃ p', parse (wire_path q ++ (pre ++ b' :: post) ++ data_block q) p = Ret (HeaderCRCError, p').
Proof.
  intros Hwf Hrsv Hh Hb' Hne H2 H0 Hs. set (h := pre ++ b' :: post).
  pose proof (bytes_with_crc _ (bytes_header_block rsv q Hwf Hrsv)) as Hb.
  assert (Hcrc : calcCRC h 0 ≠ 0).
  { apply (calcCRC_changed pre b); [by rewrite <-Hh|done|done|]. rewrite <-Hh.
    by apply with_crc_ok, bytes_header_block. }
  assert (Hz : zsize h = zsize (with_crc (header_block rsv q))) by (rewrite Hh; unfold h; by zs).
  destruct (header_shape rsv q Hwf) as (b0 & t & Et & Hb0 & Ht).
  assert (∃ c0 c1 t', h = c0 :: c1 :: instruction q :: t' ∧ logical_byte c0 ∧ 1 ≤ zsize t')
    as (c0 & c1 & t' & Eh & Hc0 & Ht').
  { unfold h. rewrite Hh in Et. destruct pre as [|x0 [|x1 [|x2 pre]]]; [..|done|]; cbn in Et.
    - injection Et as -> ->. eexists _, _, _. split; [done|].
      split; [split; [by apply H0|unfold byte in Hb'; lia]|lia].
    - injection Et as -> -> ->. eexists _, _, _. split; [done|]. split; [done|lia].
    - injection Et as -> -> -> E. eexists _, _, _. split; [done|]. split; [done|].
      zs. pose proof (zsize_nonneg pre). pose proof (zsize_nonneg post). lia. }
  rewrite wire_blocks in Hs by done.
  assert (Hsz : zsize (wire_path q ++ h ++ data_block q) < 2 ^ 64) by (zs; lia).
  rewrite zsize_header_block in Hz by done.
  assert (Hi : rd h 2 = Ret (instruction q)) by by rewrite Eh.
  pose proof (zsize_nonneg (data_block q)).
  assert (parse (wire_path q ++ h ++ data_block q) p =
    parse_body (instruction q) (wire_path q) (h ++ data_block q) p) as ->.
  { rewrite Eh in Hsz |- *. apply parse_path; [by apply path_of_wf|done|zs; lia|done]. }
  unfold parse_body. pose proof Hwf as [Hty Hfields]. rewrite <-Hty. unfold data_block in *.
  destruct (type q); [done|..].
  - rewrite app_nil_r. rewrite (read_bad_header h (instruction q)); eauto.
    unfold command_wf in Hfields. destruct_and! Hfields. pose proof (land3_bound (instruction q) ltac:(done)). lia.
  - rewrite (write_bad_header h (instruction q)); eauto.
    + destruct Hfields as [Hc _]. unfold command_wf in Hc. destruct_and! Hc.
      pose proof (land3_bound (instruction q) ltac:(done)). lia.
    + unfold with_crc. by destruct (data q).
  - rewrite read_reply_bad_header; eauto.
  - rewrite app_nil_r. rewrite write_reply_bad_header; eauto.
Qed.

(** The checksum of the changed data. *)
Lemma changed_data_crc q pre b b' post :
  packet_wf q → data_block q = pre ++ b :: post → byte b' → b ≠ b' → data_block q ≠ [] →
  negb (calcCRC (pre ++ b' :: post) 0 =? 0) = true.
Proof.
  intros Hwf Hd Hb' Hne Hnil. pose proof (bytes_data_block q Hwf) as Hbd.
  destruct (Z.eqb_spec (calcCRC (pre ++ b' :: post) 0) 0) as [E|]; [|done]. exfalso. revert E.
  apply (calcCRC_changed pre b); [by rewrite <-Hd|done|done|]. rewrite <-Hd.
  destruct Hwf as [_ Hwf]. unfold data_block in *.
  destruct (type q); [done|done|by apply with_crc_ok, Hwf|by apply with_crc_ok, Hwf|done].
Qed.

(** A well-formed write command or read reply in which one byte of the data or
    of the data checksum has been changed is rejected by parse with
    DataCRCError. *)
Lemma corrupted_data_rejected p q rsv pre b b' post :
  packet_wf q → byte rsv → data_block q = pre ++ b :: post → byte b' → b ≠ b' →
  zsize (wire rsv q) < 2 ^ 64 →
  ∃ p', parse (wire_path q ++ with_crc (header_block rsv q) ++ (pre ++ b' :: post)) p =
        Ret (DataCRCError, p').
Proof.
  intros Hwf Hrsv Hd Hb' Hne Hs. set (body := pre ++ b' :: post).
  pose proof (bytes_data_block q Hwf) as Hbd.
  pose proof (changed_data_crc q pre b b' post Hwf Hd Hb' Hne) as Hcrc. fold body in Hcrc.
  assert (Hz : zsize body = zsize (data_block q)) by (rewrite Hd; unfold body; by zs).
  assert (Hbody : bytes body).
  { rewrite Hd in Hbd. apply Forall_app in Hbd as [? Hbd]. apply Forall_cons in Hbd as [_ ?].
    by apply Forall_app; split; [|constructor]. }
  rewrite wire_blocks in Hs by done.
  assert (Hsz : zsize (wire_path q ++ with_crc (header_block rsv q) ++ body) < 2 ^ 64) by (zs; lia).
  destruct (header_shape rsv q Hwf) as (b0 & t & Et & Hb0 & Ht).
  assert (parse (wire_path q ++ with_crc (header_block rsv q) ++ body) p =
    parse_body (instruction q) (wire_path q) (with_crc (header_block rsv q) ++ body) p) as ->.
  { rewrite Et in Hsz |- *. apply parse_path; [by apply path_of_wf|done| |done].
    zs. pose proof (zsize_nonneg body). lia. }
  unfold parse_body. pose proof Hwf as [Hty Hfields]. rewrite <-Hty.
  pose proof (bytes_header_block rsv q Hwf Hrsv) as Hbh.
  pose proof (with_crc_ok _ Hbh) as Hch. pose proof (bytes_with_crc _ Hbh) as Hbhc.
  unfold data_block, header_block in *.
  destruct (type q); [done|by destruct pre|..|by destruct pre].
  - destruct Hfields as [Hc (Hdb & Hdl & Hlen)]. pose proof Hc as Hc'. unfold command_wf in Hc'.
    destruct_and! Hc'. pose proof (land3_bound (instruction q)).
    unfold with_crc at 1. rewrite <-app_assoc. unfold command_block at 1.
    erewrite parseWritePacket_at; [|by rewrite zsize_be_split..| | | | |reflexivity].
    + fold (command_block q). fold (with_crc (command_block q)). rewrite Hch. cbn [negb Z.eqb].
      rewrite be_combine_split_small by done. rewrite Hz, zsize_with_crc, Hdl, Z.eqb_refl.
      rewrite Hcrc by (unfold with_crc; by destruct (data q)). by eexists.
    + rewrite zsize_padded_reply by done. tauto.
    + fold (command_block q). rewrite app_assoc. by apply bytes_app.
    + by rewrite zsize_padded_reply.
    + by unfold body; destruct pre.
  - destruct Hfields as [Hc (Hdb & Hdl & Hlen)].
    unfold with_crc in Hch. unfold with_crc at 1. unfold wire_reply at 1. rewrite <-!app_assoc in *.
    rewrite parseReadReplyPacket_at; [|by rewrite zsize_be_split..|].
    + fold (wire_reply q). rewrite Hch. cbn [negb Z.eqb]. cbv zeta.
      rewrite be_combine_split_small by done. rewrite Hz, zsize_with_crc, Hdl, Z.eqb_refl.
      rewrite Hcrc by (unfold with_crc; by destruct (data q)). by eexists.
    + fold (wire_reply q). pose proof (bytes_wire_reply _ Hc). auto 10 with spw.
Qed.

(** One byte of a checksummed block. *)
Lemma corrupted_byte_rejected p q rsv pre b b' post :
  packet_wf q → byte rsv → with_crc (header_block rsv q) ++ data_block q = pre ++ b :: post →
  byte b' → b ≠ b' → length pre ≠ 2%nat → (pre = [] → 0x20 ≤ b') → zsize (wire rsv q) < 2 ^ 64 →
  ∃ p', parse (wire_path q ++ pre ++ b' :: post) p =
    Ret (if zsize pre <? zsize (header_block rsv q) + 1 then HeaderCRCError else DataCRCError, p').
Proof.
  intros Hwf Hrsv E Hb' Hne H2 H0 Hs. apply app_eq_app in E as (mid & [[Eh Ed]|[Ep Ed]]).
  - destruct mid as [|x mid].
    + rewrite app_nil_r in Eh. cbn in Ed. rewrite <-Eh, zsize_with_crc, (proj2 (Z.ltb_ge _ _)) by lia.
      by apply (corrupted_data_rejected p q rsv [] b b' post).
    + injection Ed as <- ->. rewrite (proj2 (Z.ltb_lt _ _)).
      * destruct (corrupted_header_rejected p q rsv pre b b' mid) as [p' Hp]; try done.
        exists p'. by rewrite <-Hp, <-app_assoc.
      * rewrite <-zsize_with_crc, Eh. zs. pose proof (zsize_nonneg mid). lia.
  - rewrite Ep, <-app_assoc, (proj2 (Z.ltb_ge _ _)).
    + by apply (corrupted_data_rejected p q rsv mid b b' post).
    + zs. pose proof (zsize_nonneg mid). lia.
Qed.

(** [q] behind another path. *)
Definition set_path (path : list Z) (q : Packet) : Packet :=
  match type q with Read | Write => set_targetSpaceWireAddress path q | _ => set_replyAddress path q end.

Lemma set_path_wf path q :
  packet_wf q → is_path path →
  packet_wf (set_path path q) ∧ wire_path (set_path path q) = path ∧
  (∀ rsv, header_block rsv (set_path path q) = header_block rsv q) ∧ data_block (set_path path q) = data_block q.
Proof.
  intros [Ht Hwf] Hp. unfold set_path, packet_wf, wire_path, header_block, data_block in *.
  destruct q as [? ? ? ? ? ? ? ? ? ? ? ? []]; cbn in *; try done; unfold command_wf, reply_wf in *; cbn in *;
    (split; [split; [done|]; tauto|by split_and!]).
Qed.

(** No checksum protects the path. *)
Lemma path_accepted p q rsv path :
  packet_wf q → byte rsv → is_path path →
  zsize path + zsize (with_crc (header_block rsv q)) + zsize (data_block q) < 2 ^ 64 →
  parse (path ++ with_crc (header_block rsv q) ++ data_block q) p = Ret (Success, received p (set_path path q)).
Proof.
  intros Hwf Hr Hp Hs. destruct (set_path_wf path q Hwf Hp) as (Hwf' & Ew & Eh & Ed).
  pose proof (parse_wire rsv (set_path path q) p Hwf' Hr) as E. rewrite wire_blocks, Ew, Eh, Ed in E by done.
  apply E. zs. lia.
Qed.

(** C25: A well-formed packet of any type in which one byte behind its path has been
    changed, other than the instruction and other than the first of them into a
    path address, is rejected by parse: with HeaderCRCError when the byte is in
    the header or its checksum, with DataCRCError when it is in the data or
    their checksum. No checksum protects the path: a path byte changed into
    another path address goes unnoticed, and the packet is accepted with that
    path and everything else as it was sent. A path byte changed into a byte
    that is no path address is not covered. *)
Theorem corrupted_packet_rejected p q rsv :
  packet_wf q → byte rsv → zsize (wire rsv q) < 2 ^ 64 →
  (∀ pre b b' post,
     with_crc (header_block rsv q) ++ data_block q = pre ++ b :: post →
     byte b' → b ≠ b' → length pre ≠ 2%nat → (pre = [] → 0x20 ≤ b') →
     ∃ p', parse (wire_path q ++ pre ++ b' :: post) p =
       Ret (if zsize pre <? zsize (header_block rsv q) + 1 then HeaderCRCError else DataCRCError, p')) ∧
  (∀ pre b b' post,
     wire_path q = pre ++ b :: post → path_byte b' →
     parse ((pre ++ b' :: post) ++ with_crc (header_block rsv q) ++ data_block q) p =
       Ret (Success, received p (set_path (pre ++ b' :: post) q))).
Proof.
  intros Hwf Hrsv Hs. split; intros pre b b' post E Hb'.
  - intros Hne H2 H0. by eapply corrupted_byte_rejected.
  - rewrite wire_blocks, E in Hs by done. apply path_accepted; [done..| |revert Hs; zs; lia].
    pose proof (path_of_wf q Hwf) as Hp. rewrite E in Hp. apply Forall_app in Hp as [? [_ ?]%Forall_cons].
    by apply Forall_app; split; [|constructor].
Qed.
