(* ===== verification/TcpBackend.v ===== *)
(** * The backend interface (the concept [TcpBackend] of
    include/spw_rmap/internal/spw_rmap_tcp_node_impl.hh)

    The node is a template over its backend.  [TcpBackend] holds the operations
    of the concept as state-passing functions; [TcpBackendLaws] what the node
    relies on: a stream of bytes towards the node, a stream of bytes away from
    it, and no reordering in between.  The node's theorems use the laws only;
    the backends of the repository are instances.

    [MockBackend] is the backend of tests/test_spw_rmap_node.cc: an unbounded
    queue of incoming bytes and the list of frames sent. *)

From S2P Require Import Prelude PacketTypes.
#[local] Open Scope Z_scope.

Class TcpBackend (B : Type) := {
  (** [recvSome(inbuf)] for a buffer of the given size: the bytes stored at
      its front. *)
  recvSome : Z → B → outcome (expected (list Z) * B);
  sendAll : list Z → B → outcome (expected unit * B);
  setSendTimeout : Z → B → outcome (expected unit * B);
  getIpAddress : B → string;
  setIpAddress : string → B → B;
  getPort : B → string;
  setPort : string → B → B;
}.

Class TcpBackendLaws (B : Type) `{TcpBackend B} := {
  (** The bytes still to be read by the node, and all bytes it has sent. *)
  wire_in : B → list Z;
  wire_out : B → list Z;
  (** The connection delivers the bytes of [wire_in] before any failure. *)
  delivering : B → Prop;
  (** The connection accepts everything that is sent. *)
  accepting : B → Prop;

  recvSome_ok n b bs b' :
    0 < n → recvSome n b = Ret (Ok bs, b') →
    wire_in b = bs ++ wire_in b' ∧ zsize bs ≤ n ∧ wire_out b' = wire_out b;
  recvSome_error n b e b' :
    0 < n → recvSome n b = Ret (Unexpected e, b') → wire_out b' = wire_out b;
  recvSome_safe n b : 0 < n → safe (recvSome n b);
  recvSome_delivers n b :
    0 < n → delivering b → wire_in b ≠ [] →
    ∃ bs b', recvSome n b = Ret (Ok bs, b') ∧ bs ≠ [] ∧ delivering b' ∧
      (accepting b → accepting b');
  sendAll_ok d b b' :
    sendAll d b = Ret (Ok tt, b') → wire_out b' = wire_out b ++ d ∧ wire_in b' = wire_in b;
  sendAll_error d b e b' :
    sendAll d b = Ret (Unexpected e, b') →
    (∃ k, wire_out b' = wire_out b ++ take k d) ∧ wire_in b' = wire_in b;
  sendAll_safe d b : safe (sendAll d b);
  sendAll_accepts d b :
    accepting b → ∃ b', sendAll d b = Ret (Ok tt, b') ∧ accepting b' ∧
      (delivering b → delivering b');
}.

(** ** The mock backend of the tests *)

Record MockBackend := mkMock {
  ip_address_ : string;
  port_ : string;
  sent_frames_ : list (list Z);
  incoming_bytes_ : list Z;
  mock_shutdown_ : bool;
}.

(** [recvSome] waits for bytes or for the shutdown. *)
Definition mock_recvSome (n : Z) (b : MockBackend) : outcome (expected (list Z) * MockBackend) :=
  if n =? 0 then Ret (Ok [], b)
  else match incoming_bytes_ b with
  | [] => if mock_shutdown_ b then Ret (Unexpected (generic operation_canceled), b) else Pending
  | _ =>
      let count := Z.to_nat (Z.min n (zsize (incoming_bytes_ b))) in
      Ret (Ok (take count (incoming_bytes_ b)),
           mkMock (ip_address_ b) (port_ b) (sent_frames_ b) (drop count (incoming_bytes_ b))
             (mock_shutdown_ b))
  end.

Definition mock_sendAll (d : list Z) (b : MockBackend) : outcome (expected unit * MockBackend) :=
  Ret (Ok tt, mkMock (ip_address_ b) (port_ b) (sent_frames_ b ++ [d]) (incoming_bytes_ b)
                (mock_shutdown_ b)).

(** [enqueueIncoming] of the test: the peer sends bytes. *)
Definition mock_enqueueIncoming (d : list Z) (b : MockBackend) : MockBackend :=
  mkMock (ip_address_ b) (port_ b) (sent_frames_ b) (incoming_bytes_ b ++ d) (mock_shutdown_ b).

Definition mock_shutdown (b : MockBackend) : outcome (expected unit * MockBackend) :=
  Ret (Ok tt, mkMock (ip_address_ b) (port_ b) (sent_frames_ b) (incoming_bytes_ b) true).

#[export] Instance mock_backend : TcpBackend MockBackend := {
  recvSome := mock_recvSome;
  sendAll := mock_sendAll;
  setSendTimeout _ b := Ret (Ok tt, b);
  getIpAddress := ip_address_;
  setIpAddress ip b := mkMock ip (port_ b) (sent_frames_ b) (incoming_bytes_ b) (mock_shutdown_ b);
  getPort := port_;
  setPort p b := mkMock (ip_address_ b) p (sent_frames_ b) (incoming_bytes_ b) (mock_shutdown_ b);
}.

#[export] Program Instance mock_backend_laws : TcpBackendLaws MockBackend := {
  wire_in := incoming_bytes_;
  wire_out b := mjoin (sent_frames_ b);
  delivering _ := True;
  accepting _ := True;
}.
Next Obligation.
  intros n b bs b' Hn. simpl. unfold mock_recvSome.
  destruct (Z.eqb_spec n 0); [lia|]. destruct (incoming_bytes_ b) as [|x l] eqn:E.
  - by destruct (mock_shutdown_ b).
  - intros [= <- <-]. simpl. rewrite <-E, take_drop. split_and!; [done| |done].
    rewrite zsize_take. pose proof (zsize_nonneg (incoming_bytes_ b)). lia.
Qed.
Next Obligation.
  intros n b e b' Hn. simpl. unfold mock_recvSome. destruct (n =? 0); [done|].
  destruct (incoming_bytes_ b); [|done]. destruct (mock_shutdown_ b); [|done].
  by intros [= <- <-].
Qed.
Next Obligation.
  intros n b Hn. simpl. unfold mock_recvSome, safe. by repeat case_match.
Qed.
Next Obligation.
  intros n b Hn _ Hne. simpl in *. unfold mock_recvSome. destruct (Z.eqb_spec n 0); [lia|].
  destruct (incoming_bytes_ b) as [|x l] eqn:E; [done|].
  do 2 eexists. split; [done|]. split; [|done]. rewrite zsize_cons.
  pose proof (zsize_nonneg l).
  destruct (Z.to_nat (Z.min n (1 + zsize l))) eqn:Ec; [lia|]. done.
Qed.
Next Obligation.
  intros d b b' [= <-]. simpl. rewrite join_app. simpl. by rewrite app_nil_r.
Qed.
Next Obligation. done. Qed.
Next Obligation. by split. Qed.
Next Obligation. intros d b _. eexists. split; [done|]. done. Qed.
