(* ===== verification/Posix.v ===== *)
(** * The system calls of src/src/tcp_client.cc and src/src/tcp_server.cc

    [Posix] is the interface to the operating system: one function per system
    call, over a state [W] of the system.  A call returns what the C function
    returns; [errno] is read from the state behind it.  [PosixLaws] states the
    documented behaviour the theorems rely on.

    [ScriptedKernel] is a system with one connection: every call consumes an
    entry of a script that lets it succeed or fail with an [errno]. *)

From S2P Require Import Prelude PacketTypes.
#[local] Open Scope Z_scope.

(** ** Constants (Linux) *)

Definition EINTR : Z := 4.
Definition EBADF : Z := 9.
Definition EAGAIN : Z := 11.
Definition EWOULDBLOCK : Z := 11.
Definition ETIMEDOUT : Z := 110.
Definition EINPROGRESS : Z := 115.
Definition EAI_SYSTEM : Z := -11.

Definition AF_UNSPEC : Z := 0.
Definition AF_INET : Z := 2.
Definition SOCK_STREAM : Z := 1.
Definition IPPROTO_TCP : Z := 6.
Definition AI_PASSIVE : Z := 1.
Definition SOMAXCONN : Z := 4096.
Definition SHUT_RDWR : Z := 2.
Definition MSG_NOSIGNAL : Z := 0x4000.
Definition O_NONBLOCK : Z := 0x800.
Definition FD_CLOEXEC : Z := 1.
Definition POLLOUT : Z := 4.
Definition POLLERR : Z := 8.
Definition POLLHUP : Z := 16.
Definition POLLNVAL : Z := 32.

Record addrinfo := mkAddrinfo {
  ai_family : Z;
  ai_socktype : Z;
  ai_protocol : Z;
  ai_addr : list Z;
}.

(** The [fcntl] commands and the socket options of the sources. *)
Inductive fcntl_command := F_GETFL | F_SETFL (fl : Z) | F_GETFD | F_SETFD (fl : Z).

Inductive socket_option :=
| TCP_NODELAY (on : Z)
| SO_REUSEADDR (on : Z)
| SO_REUSEPORT (on : Z)
| SO_SNDTIMEO (tv_sec tv_usec : Z).

Class Posix (W : Type) := {
  errno : W → Z;
  sys_getaddrinfo : string → string → addrinfo → Z → W → Z * list addrinfo * W;
  sys_socket : Z → Z → Z → W → Z * W;
  sys_connect : Z → list Z → W → Z * W;
  (** [poll] on one descriptor: the result and [revents]. *)
  sys_poll : Z → Z → Z → W → Z * Z * W;
  (** [getsockopt(SO_ERROR)]: the result and [soerr]. *)
  sys_getsockopt_error : Z → W → Z * Z * W;
  sys_setsockopt : Z → socket_option → W → Z * W;
  sys_fcntl : Z → fcntl_command → W → Z * W;
  sys_send : Z → list Z → Z → W → Z * W;
  (** [recv]: the result and the bytes stored. *)
  sys_recv : Z → Z → W → Z * list Z * W;
  sys_bind : Z → list Z → W → Z * W;
  sys_listen : Z → Z → W → Z * W;
  sys_accept : Z → W → Z * W;
  sys_shutdown : Z → Z → W → Z * W;
  sys_close : Z → W → Z * W;
}.

(** The call failed because a signal interrupted it. *)
Definition interrupted {W} `{Posix W} (r : Z) (w : W) : bool := (r <? 0) && (errno w =? EINTR).

(** What a system shows of itself: the descriptors in use, the bytes on the
    connection of a descriptor, and how often signals will still interrupt a
    call. *)
Class PosixView (W : Type) := {
  open_fds : W → gset Z;
  inbound : W → Z → list Z;
  outbound : W → Z → list Z;
  interrupts : W → nat;
  (** A connection in blocking mode with its peer alive: a call on the
      descriptor delivers bytes that are there, or takes bytes. *)
  readable : W → Z → Prop;
  writable : W → Z → Prop;
}.

Section laws.
Context {W : Type} `{Posix W, PosixView W}.

(** A call without effect on the descriptors in use. *)
Definition keeps_fds (r : Z) (w w' : W) : Prop :=
  open_fds w' = open_fds w ∧ (interrupts w' ≤ interrupts w)%nat ∧
  (interrupted r w' = true → (interrupts w' < interrupts w)%nat).

(** A call that returns a new descriptor. *)
Definition opens_fd (r : Z) (w w' : W) : Prop :=
  (interrupts w' ≤ interrupts w)%nat ∧
  (interrupted r w' = true → (interrupts w' < interrupts w)%nat) ∧
  (if r <? 0 then open_fds w' = open_fds w
   else (r ∉ open_fds w) ∧ open_fds w' = {[r]} ∪ open_fds w).

Definition keeps_streams (fd : Z) (w w' : W) : Prop :=
  inbound w' fd = inbound w fd ∧ outbound w' fd = outbound w fd.
End laws.

Class PosixLaws (W : Type) `{Posix W, PosixView W} := {
  getaddrinfo_fds host port hints flags w r ais w' :
    sys_getaddrinfo host port hints flags w = (r, ais, w') →
    open_fds w' = open_fds w ∧ (interrupts w' ≤ interrupts w)%nat;
  socket_fds d t p w r w' : sys_socket d t p w = (r, w') → opens_fd r w w';
  connect_fds fd a w r w' : sys_connect fd a w = (r, w') → (r = 0 ∨ r = -1) ∧ keeps_fds r w w';
  poll_fds fd ev ms w r rev w' : sys_poll fd ev ms w = (r, rev, w') → keeps_fds r w w';
  getsockopt_fds fd w r e w' : sys_getsockopt_error fd w = (r, e, w') → keeps_fds r w w';
  setsockopt_fds fd o w r w' : sys_setsockopt fd o w = (r, w') → keeps_fds r w w';
  fcntl_fds fd c w r w' : sys_fcntl fd c w = (r, w') → keeps_fds r w w';
  bind_fds fd a w r w' : sys_bind fd a w = (r, w') → keeps_fds r w w';
  listen_fds fd n w r w' : sys_listen fd n w = (r, w') → keeps_fds r w w';
  accept_fds fd w r w' : sys_accept fd w = (r, w') → opens_fd r w w';
  shutdown_fds fd how w r w' : sys_shutdown fd how w = (r, w') → keeps_fds r w w';
  (** An interrupted [close] may or may not have closed the descriptor; after
      any other result it is closed. *)
  close_fds fd w r w' :
    sys_close fd w = (r, w') →
    (interrupts w' ≤ interrupts w)%nat ∧
    (interrupted r w' = true → (interrupts w' < interrupts w)%nat ∧
       (open_fds w' = open_fds w ∨ open_fds w' = open_fds w ∖ {[fd]})) ∧
    (interrupted r w' = false → open_fds w' = open_fds w ∖ {[fd]});

  send_fds fd d flags w r w' : sys_send fd d flags w = (r, w') → keeps_fds r w w';
  send_stream fd d flags w r w' :
    sys_send fd d flags w = (r, w') →
    r ≤ zsize d ∧ inbound w' fd = inbound w fd ∧
    outbound w' fd = outbound w fd ++ take (Z.to_nat r) d;
  send_writable fd d flags w r w' :
    writable w fd → d ≠ [] → sys_send fd d flags w = (r, w') →
    (0 < r ∨ interrupted r w' = true) ∧ writable w' fd ∧ (readable w fd → readable w' fd);
  recv_fds fd n w r bs w' : sys_recv fd n w = (r, bs, w') → keeps_fds r w w';
  recv_stream fd n w r bs w' :
    0 < n → sys_recv fd n w = (r, bs, w') →
    r ≤ n ∧ zsize bs = Z.max 0 r ∧ inbound w fd = bs ++ inbound w' fd ∧
    outbound w' fd = outbound w fd;
  recv_readable fd n w r bs w' :
    0 < n → readable w fd → inbound w fd ≠ [] → sys_recv fd n w = (r, bs, w') →
    (0 < r ∨ interrupted r w' = true) ∧ readable w' fd ∧ (writable w fd → writable w' fd);
  poll_stream fd ev ms w r rev w' :
    sys_poll fd ev ms w = (r, rev, w') → keeps_streams fd w w';
}.

(** ** Calls repeated until no signal interrupts them *)

(** [do r = call(); while (r < 0 && errno == EINTR)]. *)
Fixpoint retry {W A} `{Posix W} (fuel : nat) (result : A → Z) (call : W → A * W) (w : W)
    : outcome (A * W) :=
  match fuel with
  | O => Pending
  | S fuel =>
      let '(r, w) := call w in
      if interrupted (result r) w then retry fuel result call w else Ret (r, w)
  end.

(** The descriptors in use stay, and no signal is added. *)
Definition same_fds {W} `{PosixView W} (w w' : W) : Prop :=
  open_fds w' = open_fds w ∧ (interrupts w' ≤ interrupts w)%nat.

#[export] Instance same_fds_preorder {W} `{PosixView W} : PreOrder (same_fds (W := W)).
Proof.
  split; [by split|]. intros w1 w2 w3 [H1 ?] [H2 ?]. split; [by rewrite H2, H1|lia].
Qed.

(** Closing a descriptor that was just opened. *)
Lemma close_new (fd : Z) (X : gset Z) : fd ∉ X → ({[fd]} ∪ X) ∖ {[fd]} = X.
Proof. set_solver. Qed.

Section retry.
Context {W A : Type} `{Posix W, PosixView W}.
Implicit Types (w : W) (call : W → A * W) (result : A → Z).

(** A repeated call without the progress of its rounds: where it ends, the
    state [w0] of its last round is reached by the interrupted ones. *)
Lemma retry_ret fuel result call (R : W → W → Prop) (HP : PreOrder R) w r w' :
  (∀ w r w', call w = (r, w') → interrupted (result r) w' = true → R w w') →
  retry fuel result call w = Ret (r, w') →
  ∃ w0, R w w0 ∧ call w0 = (r, w') ∧ interrupted (result r) w' = false.
Proof.
  intros HR. revert w. induction fuel as [|fuel IH]; intros w; [done|].
  simpl. destruct (call w) as [r1 w1] eqn:Ec. destruct (interrupted (result r1) w1) eqn:Ei.
  - intros Hr. apply IH in Hr as (w0 & ? & ? & ?). exists w0. split; [|done].
    transitivity w1; [by eapply HR|done].
  - intros [= -> ->]. by exists w.
Qed.

Lemma retry_not_ub fuel result call w : safe (retry fuel result call w).
Proof.
  revert w. induction fuel as [|fuel IH]; intros w; [done|]. simpl.
  destruct (call w) as [r w1]. by destruct (interrupted (result r) w1).
Qed.

(** More rounds than signals are enough. *)
Lemma retry_ends fuel result call w :
  (∀ w r w', call w = (r, w') → (interrupts w' ≤ interrupts w)%nat ∧
     (interrupted (result r) w' = true → (interrupts w' < interrupts w)%nat)) →
  (interrupts w < fuel)%nat →
  ∃ r w', retry fuel result call w = Ret (r, w') ∧ (interrupts w' ≤ interrupts w)%nat.
Proof.
  intros HI. revert w. induction fuel as [|fuel IH]; intros w Hw; [lia|].
  simpl. destruct (call w) as [r1 w1] eqn:Ec. destruct (HI _ _ _ Ec) as [Hle Hlt].
  destruct (interrupted (result r1) w1) eqn:Ei; [|by eauto].
  specialize (Hlt eq_refl). destruct (IH w1) as (r & w' & -> & ?); [lia|].
  exists r, w'. split; [done|lia].
Qed.

Lemma retry_keeps fuel result call w :
  (∀ w r w', call w = (r, w') → keeps_fds (result r) w w') →
  (interrupts w < fuel)%nat →
  ∃ r w', retry fuel result call w = Ret (r, w') ∧ same_fds w w'.
Proof.
  intros Hk Hw. destruct (retry_ends fuel result call w) as (r & w' & Hr & Hle); [|done|].
  { intros w1 r1 w2 (_ & ? & ?)%Hk. by split. }
  exists r, w'. split; [done|]. apply (retry_ret _ _ _ same_fds _) in Hr as (w0 & Hw0 & Hc & _).
  - transitivity w0; [done|]. apply Hk in Hc as (? & ? & _). by split.
  - intros w1 r1 w2 (? & ? & _)%Hk _. by split.
Qed.

Lemma keeps_same r w w' : keeps_fds r w w' → same_fds w w'.
Proof. by intros (? & ? & _). Qed.
End retry.

Section repeated_calls.
Context {W : Type} {KP : Posix W} {KV : PosixView W} {KL : PosixLaws W} (fuel : nat).
Implicit Types (w : W).

Lemma close_retry_ret fd w :
  (interrupts w < fuel)%nat →
  ∃ r w', retry fuel id (sys_close fd) w = Ret (r, w') ∧
    open_fds w' = open_fds w ∖ {[fd]} ∧ (interrupts w' ≤ interrupts w)%nat.
Proof.
  intros Hw. destruct (retry_ends fuel id (sys_close fd) w) as (r & w' & Hr & Hle); [|done|].
  { intros w1 r w2 (? & Hi & _)%close_fds. split; [done|]. intros E. by apply Hi. }
  exists r, w'. split; [done|]. split; [|done].
  assert (Hpre : PreOrder (λ w1 w2, open_fds w1 ∖ {[fd]} = open_fds w2 ∖ {[fd]})).
  { split; [by intros ?|]. by intros x y z -> ->. }
  apply (retry_ret _ _ _ _ Hpre) in Hr as (w0 & He & Hc & Hi).
  - apply close_fds in Hc as (_ & _ & ->); [done|]. exact Hi.
  - intros w1 r1 w2 Hc Hi1. apply close_fds in Hc as (_ & [_ [-> | ->]] & _); [exact Hi1|done|].
    by rewrite difference_difference_l_L, union_idemp_L.
Qed.

(** Signals before a [recv] neither take bytes nor break the connection. *)
Lemma recv_retry_ret fd n w r w' :
  0 < n → retry fuel fst (sys_recv fd n) w = Ret (r, w') →
  ∃ w0, (inbound w0 fd = inbound w fd ∧ outbound w0 fd = outbound w fd ∧
         (readable w fd → inbound w fd ≠ [] →
            readable w0 fd ∧ (writable w fd → writable w0 fd))) ∧
    sys_recv fd n w0 = (r, w') ∧ interrupted (fst r) w' = false.
Proof.
  intros Hn Hr.
  set (R := λ w w0, inbound w0 fd = inbound w fd ∧ outbound w0 fd = outbound w fd ∧
         (readable w fd → inbound w fd ≠ [] →
            readable w0 fd ∧ (writable w fd → writable w0 fd))).
  assert (Hpre : PreOrder R).
  { split; [by intros ?|]. intros x y z (Hi & Ho & H1) (Hi' & Ho' & H2). unfold R.
    rewrite Hi', Ho', Hi, Ho. split_and!; [done|done|]. intros Hx Hne.
    destruct (H1 Hx Hne) as [Hy ?]. destruct H2 as [? ?]; [done|by rewrite Hi|]. auto. }
  apply (retry_ret _ _ _ _ Hpre) in Hr; [done|].
  intros u [k bs] u' Hc Hint. pose proof Hc as (_ & Hsz & Hi & Ho)%recv_stream; [|done].
  unfold interrupted in Hint. apply andb_true_iff in Hint as [Hneg%Z.ltb_lt _]. simpl in Hneg.
  rewrite Z.max_l in Hsz by lia. apply zsize_zero in Hsz as ->.
  split_and!; [done|done|]. intros Hrd Hne.
  by apply recv_readable in Hc as (_ & ? & ?).
Qed.

(** A readable connection with bytes delivers some of them. *)
Lemma recv_retry_readable fd n w :
  0 < n → (interrupts w < fuel)%nat → readable w fd → inbound w fd ≠ [] →
  ∃ k bs w', retry fuel fst (sys_recv fd n) w = Ret (k, bs, w') ∧ 0 < k ∧ bs ≠ [] ∧
    readable w' fd ∧ (interrupts w' ≤ interrupts w)%nat ∧ (writable w fd → writable w' fd).
Proof.
  intros Hn Hw Hrd Hne.
  destruct (retry_ends fuel fst (sys_recv fd n) w) as ([k bs] & w' & Hr & Hle); [|done|].
  { intros ? [] ? (_ & ? & ?)%recv_fds. by split. }
  rewrite Hr. apply recv_retry_ret in Hr as (w0 & (Hi0 & _ & Hrd0) & Hc & Hint); [|done].
  destruct (Hrd0 Hrd Hne) as [Hrd1 Hwr1].
  pose proof Hc as (_ & Hz & _ & _)%recv_stream; [|done].
  apply recv_readable in Hc as ([Hk|Hk] & Hrd2 & Hwr2); [| |done|done|by rewrite Hi0]; last first.
  { unfold interrupted in *. simpl in Hint. by rewrite Hk in Hint. }
  exists k, bs, w'. split_and!; [done|done| |done|done|auto].
  intros ->. unfold zsize in Hz. simpl in Hz. lia.
Qed.
End repeated_calls.

(** ** A system with one connection *)

Record ScriptedKernel := mkKernel {
  k_errno : Z;
  k_fds : list Z;              (* the descriptors in use *)
  k_script : list (option Z);  (* [Some e]: the next call fails with [e] *)
  k_in : list Z;
  k_out : list Z;
  k_chunk : nat;               (* how many bytes [send] and [recv] move *)
  k_addresses : list addrinfo;
}.

(** The outcome of the next call, and the system behind it. *)
Definition k_next (w : ScriptedKernel) : bool * ScriptedKernel :=
  match k_script w with
  | [] => (true, w)
  | None :: s => (true, mkKernel (k_errno w) (k_fds w) s (k_in w) (k_out w) (k_chunk w)
                          (k_addresses w))
  | Some e :: s => (false, mkKernel e (k_fds w) s (k_in w) (k_out w) (k_chunk w)
                             (k_addresses w))
  end.

Definition k_call (result : Z) (w : ScriptedKernel) : Z * ScriptedKernel :=
  let '(ok, w) := k_next w in if ok then (result, w) else (-1, w).

Definition k_set_fds (fds : list Z) (w : ScriptedKernel) : ScriptedKernel :=
  mkKernel (k_errno w) fds (k_script w) (k_in w) (k_out w) (k_chunk w) (k_addresses w).

(** The next free descriptor. *)
Definition k_fresh (w : ScriptedKernel) : Z := 1 + foldr Z.max 2 (k_fds w).

Definition k_open (w : ScriptedKernel) : Z * ScriptedKernel :=
  let '(ok, w) := k_next w in
  if ok then (k_fresh w, k_set_fds (k_fresh w :: k_fds w) w) else (-1, w).

Definition k_send (d : list Z) (w : ScriptedKernel) : Z * ScriptedKernel :=
  let '(ok, w) := k_next w in
  if ok then
    let bs := take (k_chunk w) d in
    (zsize bs, mkKernel (k_errno w) (k_fds w) (k_script w) (k_in w) (k_out w ++ bs)
                 (k_chunk w) (k_addresses w))
  else (-1, w).

Definition k_recv (n : Z) (w : ScriptedKernel) : Z * list Z * ScriptedKernel :=
  let '(ok, w) := k_next w in
  if ok then
    let bs := take (Nat.min (k_chunk w) (Z.to_nat n)) (k_in w) in
    (zsize bs, bs, mkKernel (k_errno w) (k_fds w) (k_script w) (drop (length bs) (k_in w))
                     (k_out w) (k_chunk w) (k_addresses w))
  else (-1, [], w).

#[export] Instance scripted_posix : Posix ScriptedKernel := {
  errno := k_errno;
  sys_getaddrinfo _ _ _ _ w :=
    let '(r, w) := k_call 0 w in (r, if r =? 0 then k_addresses w else [], w);
  sys_socket _ _ _ := k_open;
  sys_connect _ _ := k_call 0;
  sys_poll _ ev _ w := let '(r, w) := k_call 1 w in (r, ev, w);
  sys_getsockopt_error _ w := let '(r, w) := k_call 0 w in (r, 0, w);
  sys_setsockopt _ _ := k_call 0;
  sys_fcntl _ c := k_call (match c with F_GETFL => 2 | _ => 0 end);
  sys_send _ d _ := k_send d;
  sys_recv _ n := k_recv n;
  sys_bind _ _ := k_call 0;
  sys_listen _ _ := k_call 0;
  sys_accept _ := k_open;
  sys_shutdown _ _ := k_call 0;
  sys_close fd w :=
    let '(ok, w) := k_next w in
    let w' := k_set_fds (filter (λ x, x ≠ fd) (k_fds w)) w in
    if ok then (0, w')
    else if k_errno w =? EINTR then (-1, w) else (-1, w');
}.

(** The errors of the script are interruptions. *)
Definition k_only_interrupts (w : ScriptedKernel) : Prop :=
  (0 < k_chunk w)%nat ∧ Forall (λ o, o = None ∨ o = Some EINTR) (k_script w).

#[export] Instance scripted_view : PosixView ScriptedKernel := {
  open_fds w := list_to_set (k_fds w);
  inbound w _ := k_in w;
  outbound w _ := k_out w;
  interrupts w := length (k_script w);
  readable w _ := k_only_interrupts w;
  writable w _ := k_only_interrupts w;
}.

(** What one entry of the script does to the system. *)
Lemma k_next_spec w ok w' :
  k_next w = (ok, w') →
  k_fds w' = k_fds w ∧ k_in w' = k_in w ∧ k_out w' = k_out w ∧ k_chunk w' = k_chunk w ∧
  (length (k_script w') ≤ length (k_script w))%nat ∧
  (ok = false → (length (k_script w') < length (k_script w))%nat) ∧
  (k_only_interrupts w → k_only_interrupts w' ∧ (ok = false → k_errno w' = EINTR)).
Proof.
  unfold k_next, k_only_interrupts. destruct (k_script w) as [|[e|] s] eqn:E; intros [= <- <-].
  all: rewrite ?E; cbn [k_fds k_in k_out k_chunk k_script k_errno length].
  all: split_and!; try done; try lia; intros [Hc Hf]; inversion Hf as [|? ? Ho Hs]; subst.
  all: split_and!; try done. intros _. by destruct Ho as [[=]|[= ->]].
Qed.

Lemma k_call_spec (r0 : Z) w r w' :
  0 ≤ r0 → k_call r0 w = (r, w') →
  keeps_fds r w w' ∧ k_in w' = k_in w ∧ k_out w' = k_out w.
Proof.
  intros H0. unfold k_call. destruct (k_next w) as [ok w1] eqn:E.
  apply k_next_spec in E as (Hf & Hi & Ho & _ & Hl & Hlt & _).
  destruct ok; intros [= <- <-]; unfold keeps_fds; simpl; rewrite Hf;
    unfold interrupted; split_and!; try done.
  - destruct (Z.ltb_spec r0 0); [lia|done].
  - intros _. by apply Hlt.
Qed.

Lemma k_call_result r0 w r w' : k_call r0 w = (r, w') → r = r0 ∨ r = -1.
Proof.
  unfold k_call. destruct (k_next w) as [[] w1]; intros [= <- _]; [by left|by right].
Qed.

Lemma k_fresh_new w : k_fresh w ∉ (list_to_set (k_fds w) : gset Z).
Proof.
  rewrite elem_of_list_to_set. intros Hin.
  assert (Hle : ∀ l x, x ∈ l → x ≤ foldr Z.max 2 l).
  { induction l as [|y l IH]; intros x; [by intros ?%elem_of_nil|].
    intros [->|Hx]%elem_of_cons; simpl; [lia|]. specialize (IH x Hx). lia. }
  apply Hle in Hin. unfold k_fresh in Hin. lia.
Qed.

Lemma k_fresh_pos w : 0 ≤ k_fresh w.
Proof.
  assert (Hle : ∀ l, 2 ≤ foldr Z.max 2 l) by (induction l; simpl; lia).
  unfold k_fresh. specialize (Hle (k_fds w)). lia.
Qed.

Lemma k_open_spec w r w' : k_open w = (r, w') → opens_fd r w w'.
Proof.
  unfold k_open. destruct (k_next w) as [ok w1] eqn:E.
  apply k_next_spec in E as (Hf & _ & _ & _ & Hl & Hlt & _).
  destruct ok; intros [= <- <-]; unfold opens_fd, interrupted; simpl.
  - pose proof (k_fresh_pos w1). destruct (Z.ltb_spec (k_fresh w1) 0); [lia|].
    unfold k_fresh in *. rewrite Hf in *. split_and!; [done|done|apply k_fresh_new|done].
  - rewrite Hf. split_and!; [done|auto|done].
Qed.

Lemma k_send_spec d w r w' :
  k_send d w = (r, w') →
  keeps_fds r w w' ∧ r ≤ zsize d ∧ k_in w' = k_in w ∧
  k_out w' = k_out w ++ take (Z.to_nat r) d ∧
  (k_only_interrupts w → d ≠ [] →
     (0 < r ∨ interrupted r w' = true) ∧ k_only_interrupts w').
Proof.
  unfold k_send. destruct (k_next w) as [ok w1] eqn:E.
  apply k_next_spec in E as (Hf & Hi & Ho & Hc & Hl & Hlt & Hk).
  destruct ok; intros [= <- <-]; unfold keeps_fds, interrupted; simpl; rewrite ?Hf, ?Hi, ?Ho, ?Hc.
  - pose proof (zsize_nonneg (take (k_chunk w) d)).
    destruct (Z.ltb_spec (zsize (take (k_chunk w) d)) 0); [lia|].
    split_and!; try done.
    + rewrite zsize_take. lia.
    + f_equal. rewrite zsize_to_nat, length_take.
      destruct (decide (k_chunk w ≤ length d)%nat).
      * by rewrite Nat.min_l by done.
      * rewrite Nat.min_r by lia. by rewrite !take_ge by lia.
    + intros Hw Hd. destruct (Hk Hw) as [[Hp Hs] _]. split; [|split; simpl; [by rewrite <-Hc|done]].
      left. rewrite zsize_take. apply zsize_pos in Hd. lia.
  - pose proof (zsize_nonneg d). split_and!; try done; [auto|lia|by rewrite app_nil_r|].
    intros Hw _. destruct (Hk Hw) as [? He]. split; [|done]. right. by rewrite He.
Qed.

Lemma k_recv_spec n w r bs w' :
  0 < n → k_recv n w = (r, bs, w') →
  r ≤ n ∧ zsize bs = Z.max 0 r ∧ k_in w = bs ++ k_in w' ∧ k_out w' = k_out w ∧
  (k_only_interrupts w → k_in w ≠ [] →
     (0 < r ∨ interrupted r w' = true) ∧ k_only_interrupts w').
Proof.
  intros Hn. unfold k_recv. destruct (k_next w) as [ok w1] eqn:E.
  apply k_next_spec in E as (Hf & Hi & Ho & Hc & Hl & Hlt & Hk).
  destruct ok; intros [= <- <- <-]; unfold interrupted; simpl; rewrite ?Hi, ?Ho, ?Hc.
  - set (bs := take _ (k_in w)). pose proof (zsize_nonneg bs).
    assert (Hb : zsize bs ≤ n) by (subst bs; rewrite zsize_take; lia).
    split_and!; try done; [lia| |].
    + subst bs. rewrite length_take. rewrite <-(take_drop (k_chunk w `min` Z.to_nat n) (k_in w)) at 1.
      f_equal. destruct (decide (k_chunk w `min` Z.to_nat n ≤ length (k_in w))%nat).
      * by rewrite (Nat.min_l (_ `min` _)) by done.
      * rewrite (Nat.min_r (_ `min` _)) by lia. by rewrite !drop_ge by lia.
    + intros Hw Hne. destruct (Hk Hw) as [[Hp Hs] _]. split; [|split; simpl; [by rewrite <-Hc|done]].
      left. subst bs. rewrite zsize_take. apply zsize_pos in Hne. rewrite Hc in Hp. lia.
  - split_and!; try done; [lia|]. intros Hw _. destruct (Hk Hw) as [? He].
    split; [|done]. right. by rewrite He.
Qed.

Lemma k_recv_fds n w r bs w' : k_recv n w = (r, bs, w') → keeps_fds r w w'.
Proof.
  unfold k_recv. destruct (k_next w) as [ok w1] eqn:E.
  apply k_next_spec in E as (Hf & _ & _ & _ & Hl & Hlt & _).
  destruct ok; intros [= <- <- <-]; unfold keeps_fds, interrupted; simpl; rewrite Hf.
  - set (bs := take _ _). pose proof (zsize_nonneg bs).
    destruct (Z.ltb_spec (zsize bs) 0); [lia|]. by split_and!.
  - split_and!; auto.
Qed.

#[export] Instance scripted_laws : PosixLaws ScriptedKernel.
Proof.
  split; simpl.
  - intros _ _ _ _ w r ais w'. destruct (k_call 0 w) as [r1 w1] eqn:E. intros [= <- _ <-].
    apply k_call_spec in E as [(? & ? & _) _]; [by split|lia].
  - intros _ _ _. apply k_open_spec.
  - intros _ _ w r w' E. split; [by apply k_call_result in E|]. by apply k_call_spec in E as [? _].
  - intros _ ev _ w r rev w'. destruct (k_call 1 w) as [r1 w1] eqn:E. intros [= <- _ <-].
    by apply k_call_spec in E as [? _].
  - intros _ w r e w'. destruct (k_call 0 w) as [r1 w1] eqn:E. intros [= <- _ <-].
    by apply k_call_spec in E as [? _].
  - intros _ _ w r w' E. by apply k_call_spec in E as [? _].
  - intros _ c w r w' E. apply k_call_spec in E as [? _]; [done|by destruct c].
  - intros _ _ w r w' E. by apply k_call_spec in E as [? _].
  - intros _ _ w r w' E. by apply k_call_spec in E as [? _].
  - intros _. apply k_open_spec.
  - intros _ _ w r w' E. by apply k_call_spec in E as [? _].
  - intros fd w r w'. destruct (k_next w) as [ok w1] eqn:E.
    apply k_next_spec in E as (Hf & _ & _ & _ & Hl & Hlt & _).
    assert (Hrem : (list_to_set (filter (λ x, x ≠ fd) (k_fds w1)) : gset Z) =
                   list_to_set (k_fds w) ∖ {[fd]}).
    { rewrite Hf. apply set_eq. intros x. rewrite elem_of_list_to_set, list_elem_of_filter.
      rewrite elem_of_difference, elem_of_singleton, elem_of_list_to_set. tauto. }
    destruct ok; [|destruct (k_errno w1 =? EINTR) eqn:Ee]; intros [= <- <-];
      unfold interrupted; simpl; rewrite ?Ee; split_and!; auto; try done.
    intros _. split; [auto|]. left. by rewrite Hf.
  - intros fd d flags w r w' E. by apply k_send_spec in E as [? _].
  - intros fd d flags w r w' E. by apply k_send_spec in E as (_ & ? & ? & ? & _).
  - intros fd d flags w r w' Hw Hd E. apply k_send_spec in E as (_ & _ & _ & _ & E).
    destruct (E Hw Hd). split_and!; auto.
  - intros _. apply k_recv_fds.
  - intros fd n w r bs w' Hn E. by apply k_recv_spec in E as (? & ? & ? & ? & _).
  - intros fd n w r bs w' Hn Hr Hne E. apply k_recv_spec in E as (_ & _ & _ & _ & E); [|done].
    destruct (E Hr Hne). split_and!; auto.
  - intros fd ev ms w r rev w'. destruct (k_call 1 w) as [r1 w1] eqn:E. intros [= <- _ <-].
    by apply k_call_spec in E as (_ & ? & ?).
Qed.
