(* ===== verification/TcpClient.v ===== *)
(** * The TCP client (src/src/tcp_client.cc, include/spw_rmap/internal/tcp_client.hh)

    Module [TCPClient]: the client's members and the system it runs on.
    [retries] bounds the rounds of each loop that repeats an interrupted call;
    more rounds than signals are enough.  The preprocessor branches are those
    of a system other than Apple's. *)

From S2P Require Import Prelude PacketTypes Posix TcpBackend.
#[local] Open Scope Z_scope.

Module TCPClient.
Record t (W : Type) := mk {
  fd_ : Z;
  ip_address_ : string;
  port_ : string;
  os : W;
}.
Arguments mk {W}.
Arguments fd_ {W} _.
Arguments ip_address_ {W} _.
Arguments port_ {W} _.
Arguments os {W} _.

Definition set_fd_ {W} (v : Z) (c : t W) : t W := mk v (ip_address_ c) (port_ c) (os c).
Definition set_os {W} (v : W) (c : t W) : t W := mk (fd_ c) (ip_address_ c) (port_ c) v.
Definition setIpAddress {W} (v : string) (c : t W) : t W := mk (fd_ c) v (port_ c) (os c).
Definition setPort {W} (v : string) (c : t W) : t W := mk (fd_ c) (ip_address_ c) v (os c).

(** The constructor. *)
Definition init {W} (ip_address port : string) (w : W) : t W := mk (-1) ip_address port w.

Section client.
Context {W : Type} `{Posix W} (retries : nat).

(** [std::unexpected{std::error_code(errno, std::system_category())}]. *)
Definition fail_errno {A} (w : W) : expected A := Unexpected (system_category (errno w)).

Definition close_retry_ (fd : Z) (w : W) : outcome W :=
  if 0 <=? fd then '(_, w) ← retry retries id (sys_close fd) w; Ret w
  else Ret w.

(** The milliseconds given to [poll], from microseconds. *)
Definition timeout_ms (timeout : Z) : Z :=
  let ms64 := Z.quot timeout 1000 in
  if INT_MAX <? ms64 then INT_MAX else ms64.

(** [connect_with_timeout_] between the construction and the destruction of
    its [Restore]. *)
Definition connect_nonblocking (fd : Z) (addr : list Z) (ms : Z) (w : W)
    : outcome (expected unit * W) :=
  '(rc, w) ← retry retries (λ rc, if rc =? 0 then 0 else -1) (sys_connect fd addr) w;
  if rc =? 0 then Ret (Ok tt, w) else
  if negb (errno w =? EINPROGRESS) then Ret (fail_errno w, w) else
  '(prc, _, w) ← retry retries fst (sys_poll fd POLLOUT ms) w;
  if prc =? 0 then Ret (Unexpected (system_category ETIMEDOUT), w) else
  if prc <? 0 then Ret (fail_errno w, w) else
  let '(rc, soerr, w) := sys_getsockopt_error fd w in
  if negb (rc =? 0) then Ret (fail_errno w, w) else
  if negb (soerr =? 0) then Ret (Unexpected (system_category soerr), w) else
  Ret (Ok tt, w).

Definition connect_with_timeout_ (fd : Z) (addr : list Z) (timeout : Z) (w : W)
    : outcome (expected unit * W) :=
  if timeout <? 0 then Ret (Unexpected (generic invalid_argument), w) else
  let ms := timeout_ms timeout in
  let '(oldfl, w) := sys_fcntl fd F_GETFL w in
  if oldfl <? 0 then Ret (fail_errno w, w) else
  let was_blocking := Z.land oldfl O_NONBLOCK =? 0 in
  let '(r, w) := if was_blocking then sys_fcntl fd (F_SETFL (Z.lor oldfl O_NONBLOCK)) w
                 else (0, w) in
  if r <? 0 then Ret (fail_errno w, w) else
  '(res, w) ← connect_nonblocking fd addr ms w;
  let '(_, w) := if was_blocking then sys_fcntl fd (F_SETFL oldfl) w else (0, w) in
  Ret (res, w).

Definition set_sockopts (fd : Z) (w : W) : expected unit * W :=
  let '(r, w) := sys_setsockopt fd (TCP_NODELAY 1) w in
  if negb (r =? 0) then (fail_errno w, w) else
  let '(fdflags, w) := sys_fcntl fd F_GETFD w in
  if fdflags <? 0 then (fail_errno w, w) else
  let '(r, w) := sys_fcntl fd (F_SETFD (Z.lor fdflags FD_CLOEXEC)) w in
  if r <? 0 then (fail_errno w, w) else (Ok tt, w).

(** The loop of [connect] over the addresses. *)
Fixpoint connect_loop (timeout : Z) (ais : list addrinfo) (last : expected unit) (c : t W)
    : outcome (expected unit * t W) :=
  match ais with
  | [] => Ret (last, c)
  | ai :: ais =>
      let '(fd, w) := sys_socket (ai_family ai) (ai_socktype ai) (ai_protocol ai) (os c) in
      if fd <? 0 then
        let last := fail_errno w in
        w ← close_retry_ fd w;
        connect_loop timeout ais last (set_fd_ (-1) (set_os w c))
      else
        '(last, w) ←
          match set_sockopts fd w with
          | (Ok _, w) => connect_with_timeout_ fd (ai_addr ai) timeout w
          | (Unexpected e, w) => Ret (Unexpected e, w)
          end;
        match last with
        | Unexpected e =>
            w ← close_retry_ fd w;
            connect_loop timeout ais (Unexpected e) (set_fd_ (-1) (set_os w c))
        | Ok _ => Ret (last, set_fd_ fd (set_os w c))
        end
  end.

Definition hints : addrinfo := mkAddrinfo AF_INET SOCK_STREAM IPPROTO_TCP [].

Definition connect (timeout : Z) (c : t W) : outcome (expected unit * t W) :=
  if 0 <=? fd_ c then Ret (Unexpected (generic already_connected), c) else
  let '(rc, res, w) := sys_getaddrinfo (ip_address_ c) (port_ c) hints 0 (os c) in
  let c := set_os w c in
  if negb (rc =? 0) then
    if rc =? EAI_SYSTEM then Ret (fail_errno w, c)
    else Ret (Unexpected (gai_category rc), c)
  else
    '(last, c) ← connect_loop timeout res (Unexpected (generic invalid_argument)) c;
    Ret (last, if fd_ c <? 0 then set_fd_ (-1) c else c).

(** Also the destructor. *)
Definition disconnect (c : t W) : outcome (t W) :=
  w ← close_retry_ (fd_ c) (os c);
  Ret (set_fd_ (-1) (set_os w c)).

Definition setSendTimeout (timeout : Z) (c : t W) : outcome (expected unit * t W) :=
  if timeout <? 0 then Ret (Unexpected (generic invalid_argument), c) else
  let tv_sec := Z.quot timeout 1000000 in
  let tv_usec := Z.rem timeout 1000000 in
  let '(r, w) := sys_setsockopt (fd_ c) (SO_SNDTIMEO tv_sec tv_usec) (os c) in
  let c := set_os w c in
  if negb (r =? 0) then Ret (fail_errno w, c) else Ret (Ok tt, c).

(** After [send] has returned zero: [None] lets the loop go on. *)
Definition poll_writable (fd : Z) (w : W) : outcome (option error_code * W) :=
  '(prc, revents, w) ← retry retries fst (sys_poll fd POLLOUT 10) w;
  if prc =? 0 then Ret (Some (generic timed_out), w) else
  if prc <? 0 then Ret (Some (system_category (errno w)), w) else
  if negb (Z.land revents (Z.lor (Z.lor POLLERR POLLHUP) POLLNVAL) =? 0)
  then Ret (Some (generic connection_aborted), w) else
  if Z.land revents POLLOUT =? 0 then Ret (Some (generic io_error), w) else
  Ret (None, w).

Fixpoint send_loop (fuel : nat) (fd : Z) (data : list Z) (retried_zero : bool) (w : W)
    : outcome (expected unit * W) :=
  match fuel with
  | O => Pending
  | S fuel =>
      if zsize data =? 0 then Ret (Ok tt, w) else
      let '(n, w) := sys_send fd data MSG_NOSIGNAL w in
      if n <? 0 then
        if errno w =? EINTR then send_loop fuel fd data retried_zero w
        else if (errno w =? EAGAIN) || (errno w =? EWOULDBLOCK)
        then Ret (Unexpected (generic timed_out), w)
        else Ret (fail_errno w, w)
      else if n =? 0 then
        if retried_zero then Ret (Unexpected (generic io_error), w) else
        '(stop, w) ← poll_writable fd w;
        match stop with
        | Some e => Ret (Unexpected e, w)
        | None => send_loop fuel fd data true w
        end
      else
        data ← subspan_from data n;
        send_loop fuel fd data retried_zero w
  end.

(** Each round sends a byte, was interrupted, or is the one repetition after a
    zero. *)
Definition sendAll (data : list Z) (c : t W) : outcome (expected unit * t W) :=
  if fd_ c <? 0 then Ret (Unexpected (generic not_connected), c) else
  '(res, w) ← send_loop (retries + (2 + length data)) (fd_ c) data false (os c);
  Ret (res, set_os w c).

(** For a buffer of [size] bytes: the bytes received. *)
Definition recvSome (size : Z) (c : t W) : outcome (expected (list Z) * t W) :=
  if size =? 0 then Ret (Ok [], c) else
  '(n, buf, w) ← retry retries fst (sys_recv (fd_ c) size) (os c);
  let c := set_os w c in
  if n <? 0 then
    if (errno w =? EAGAIN) || (errno w =? EWOULDBLOCK)
    then Ret (Unexpected (generic timed_out), c)
    else Ret (fail_errno w, c)
  else if n =? 0 then Ret (Unexpected (generic io_error), c)
  else Ret (Ok buf, c).

Definition shutdown (c : t W) : outcome (expected unit * t W) :=
  if fd_ c <? 0 then Ret (Unexpected (generic bad_file_descriptor), c) else
  let '(r, w) := sys_shutdown (fd_ c) SHUT_RDWR (os c) in
  let c := set_os w c in
  if r <? 0 then Ret (Unexpected (generic_category (errno w)), c) else Ret (Ok tt, c).
End client.
End TCPClient.

#[export] Instance tcp_client_backend {W : Type} `{Posix W} (retries : nat)
    : TcpBackend (TCPClient.t W) := {
  recvSome := TCPClient.recvSome retries;
  sendAll := TCPClient.sendAll retries;
  setSendTimeout := TCPClient.setSendTimeout;
  getIpAddress := TCPClient.ip_address_;
  setIpAddress := TCPClient.setIpAddress;
  getPort := TCPClient.port_;
  setPort := TCPClient.setPort;
}.
