(* ===== verification/TcpClientTheorems.v ===== *)
(** * The TCP client over any system that obeys [PosixLaws]

    [connect] leaks no descriptor; [sendAll] sends all or reports an error;
    and the client obeys the laws of [TcpBackend], so that the theorems about
    the node hold over it. *)

From S2P Require Import Prelude PacketTypes Posix TcpBackend TcpClient.
#[local] Open Scope Z_scope.

Section client.
Context {W : Type} {KP : Posix W} {KV : PosixView W} {KL : PosixLaws W} (retries : nat).
Implicit Types (w : W) (c : TCPClient.t W).

(** ** Descriptors *)

Lemma close_retry_spec fd w :
  0 ≤ fd → (interrupts w < retries)%nat →
  ∃ w', TCPClient.close_retry_ retries fd w = Ret w' ∧
    open_fds w' = open_fds w ∖ {[fd]} ∧ (interrupts w' ≤ interrupts w)%nat.
Proof.
  intros Hfd Hw. unfold TCPClient.close_retry_. rewrite (proj2 (Z.leb_le 0 fd)) by done.
  destruct (close_retry_ret retries fd w Hw) as (r & w' & -> & ?). by exists w'.
Qed.

Lemma connect_nonblocking_spec fd addr ms w :
  (interrupts w < retries)%nat →
  ∃ res w', TCPClient.connect_nonblocking retries fd addr ms w = Ret (res, w') ∧ same_fds w w'.
Proof.
  intros Hw. unfold TCPClient.connect_nonblocking.
  destruct (retry_keeps retries (λ rc, if rc =? 0 then 0 else -1) (sys_connect fd addr) w)
    as (rc & w1 & -> & H1); [|done|].
  { by intros u r u' [[-> | ->] ?]%connect_fds. }
  cbn [mbind outcome_bind]. case_match; [by eauto|]. case_match; [by eauto|].
  destruct (retry_keeps retries fst (sys_poll fd POLLOUT ms) w1) as ([prc rev] & w2 & -> & H2);
    [intros ? [] ?; apply poll_fds|destruct H1; lia|].
  cbn [mbind outcome_bind].
  assert (Hs : same_fds w w2) by by transitivity w1.
  case_match; [by eauto|]. case_match; [by eauto|].
  destruct (sys_getsockopt_error fd w2) as [[r e] w3] eqn:E.
  apply getsockopt_fds, keeps_same in E.
  assert (Hs3 : same_fds w w3) by by transitivity w2.
  by repeat case_match; eauto.
Qed.

Lemma set_sockopts_spec fd w res w' :
  TCPClient.set_sockopts fd w = (res, w') → same_fds w w'.
Proof.
  unfold TCPClient.set_sockopts.
  destruct (sys_setsockopt fd _ w) as [r1 w1] eqn:E1. apply setsockopt_fds, keeps_same in E1.
  case_match; [by intros [= _ <-]|].
  destruct (sys_fcntl fd _ w1) as [r2 w2] eqn:E2. apply fcntl_fds, keeps_same in E2.
  case_match; [intros [= _ <-]; by transitivity w1|].
  destruct (sys_fcntl fd _ w2) as [r3 w3] eqn:E3. apply fcntl_fds, keeps_same in E3.
  assert (same_fds w w3) by (transitivity w1; [done|]; by transitivity w2).
  case_match; by intros [= _ <-].
Qed.

Lemma connect_with_timeout_spec fd addr timeout w :
  (interrupts w < retries)%nat →
  ∃ res w', TCPClient.connect_with_timeout_ retries fd addr timeout w = Ret (res, w') ∧
    same_fds w w'.
Proof.
  intros Hw. unfold TCPClient.connect_with_timeout_. case_match; [by eexists _, _|].
  destruct (sys_fcntl fd F_GETFL w) as [oldfl w1] eqn:E1. apply fcntl_fds, keeps_same in E1.
  case_match; [by eauto|].
  assert (Hfl : ∀ (b : bool) fl w1 r w2,
    (if b then sys_fcntl fd (F_SETFL fl) w1 else (0, w1)) = (r, w2) → same_fds w1 w2).
  { intros [] fl u r v; [|by intros [= _ <-]]. intros E. by apply fcntl_fds, keeps_same in E. }
  set (blocking := Z.land oldfl O_NONBLOCK =? 0).
  destruct (if blocking then sys_fcntl fd (F_SETFL (Z.lor oldfl O_NONBLOCK)) w1 else (0, w1)) as [r w2] eqn:E2.
  apply Hfl in E2. assert (Hs2 : same_fds w w2) by by transitivity w1.
  case_match; [by eauto|].
  destruct (connect_nonblocking_spec fd addr (TCPClient.timeout_ms timeout) w2)
    as (res & w3 & -> & H3); [destruct Hs2; lia|].
  cbn [mbind outcome_bind].
  destruct (if blocking then sys_fcntl fd (F_SETFL oldfl) w3 else (0, w3)) as [r4 w4] eqn:E4.
  apply Hfl in E4. exists res, w4. split; [done|].
  transitivity w2; [done|]. by transitivity w3.
Qed.

(** Behind the loop over the addresses: a new descriptor, or none. *)
Definition connected (c c' : TCPClient.t W) (res : expected unit) : Prop :=
  (interrupts (TCPClient.os c') ≤ interrupts (TCPClient.os c))%nat ∧
  match res with
  | Ok _ => 0 ≤ TCPClient.fd_ c' ∧ (TCPClient.fd_ c' ∉ open_fds (TCPClient.os c)) ∧
      open_fds (TCPClient.os c') = {[TCPClient.fd_ c']} ∪ open_fds (TCPClient.os c)
  | Unexpected _ => TCPClient.fd_ c' < 0 ∧
      open_fds (TCPClient.os c') = open_fds (TCPClient.os c)
  end.

Lemma sockopts_connect_spec timeout ai fd w :
  (interrupts w < retries)%nat →
  ∃ res w',
    match TCPClient.set_sockopts fd w with
    | (Ok _, w) => TCPClient.connect_with_timeout_ retries fd (ai_addr ai) timeout w
    | (Unexpected e, w) => Ret (Unexpected e, w)
    end = Ret (res, w') ∧ same_fds w w'.
Proof.
  intros Hw. destruct (TCPClient.set_sockopts fd w) as [[[]|e1] w1] eqn:Es;
    apply set_sockopts_spec in Es as Hs; [|by eauto].
  destruct (connect_with_timeout_spec fd (ai_addr ai) timeout w1) as (res & w2 & -> & Hs2);
    [destruct Hs; lia|].
  exists res, w2. split; [done|by transitivity w1].
Qed.

Lemma connect_loop_spec timeout ais e c :
  TCPClient.fd_ c < 0 → (interrupts (TCPClient.os c) < retries)%nat →
  ∃ res c', TCPClient.connect_loop retries timeout ais (Unexpected e) c = Ret (res, c') ∧
    connected c c' res.
Proof.
  revert e c. induction ais as [|ai ais IH]; intros e c Hfd Hw; [by eexists _, _|].
  cbn [TCPClient.connect_loop].
  destruct (sys_socket _ _ _ (TCPClient.os c)) as [fd w] eqn:E.
  apply socket_fds in E as (Hle & _ & Ho). destruct (Z.ltb_spec fd 0).
  - unfold TCPClient.close_retry_. rewrite (proj2 (Z.leb_gt 0 fd)) by done.
    cbn [mbind outcome_bind]. unfold TCPClient.fail_errno.
    edestruct IH as (res & c' & -> & Hc); cycle 2.
    { exists res, c'. split; [done|]. unfold connected in *. simpl in Hc. rewrite Ho in Hc.
      split; [lia|apply Hc]. }
    { simpl. lia. } { simpl. lia. }
  - destruct Ho as [Hnew Ho].
    destruct (sockopts_connect_spec timeout ai fd w) as (res & w1 & -> & [Hf1 Hi1]); [lia|].
    cbn [mbind outcome_bind]. destruct res as [[]|e1].
    + eexists _, _. split; [done|]. split; simpl; [lia|]. by rewrite Hf1.
    + destruct (close_retry_spec fd w1) as (w2 & -> & Hf2 & Hi2); [lia|lia|].
      cbn [mbind outcome_bind].
      edestruct (IH e1) as (res & c' & -> & Hc); cycle 2.
      { exists res, c'. split; [done|]. unfold connected in *. simpl in Hc.
        assert (Heq : open_fds w2 = open_fds (TCPClient.os c)).
        { rewrite Hf2, Hf1, Ho. by apply close_new. }
        rewrite Heq in Hc. split; [lia|apply Hc]. }
      { simpl. lia. } { simpl. lia. }
Qed.

Lemma client_connect_spec timeout c :
  (interrupts (TCPClient.os c) < retries)%nat →
  ∃ res c', TCPClient.connect retries timeout c = Ret (res, c') ∧
    if 0 <=? TCPClient.fd_ c then res = Unexpected (generic already_connected) ∧ c' = c
    else connected c c' res.
Proof.
  intros Hw. unfold TCPClient.connect. destruct (Z.leb_spec 0 (TCPClient.fd_ c)) as [|Hfd].
  { by eexists _, _. }
  destruct (sys_getaddrinfo _ _ _ 0 (TCPClient.os c)) as [[rc ais] w] eqn:E.
  apply getaddrinfo_fds in E as [Ho Hi].
  destruct (rc =? 0); cbn [negb].
  - destruct (connect_loop_spec timeout ais (generic invalid_argument) (TCPClient.set_os w c))
      as (res & c' & -> & Hc); [done|simpl; lia|].
    eexists _, _. split; [done|]. destruct Hc as [Hl Hc]. simpl in Hl.
    destruct res; unfold connected in *; simpl in *; rewrite Ho in Hc.
    + destruct (Z.ltb_spec (TCPClient.fd_ c') 0); [lia|]. split; [lia|done].
    + destruct Hc as [Hlt Hc]. rewrite (proj2 (Z.ltb_lt _ _) Hlt). simpl.
      split_and!; [lia|lia|done].
  - destruct (rc =? EAI_SYSTEM); eexists _, _; (split; [done|]); split; simpl; by rewrite ?Ho.
Qed.

(** ** Sending *)

Lemma poll_writable_spec fd w :
  (interrupts w < retries)%nat →
  ∃ stop w', TCPClient.poll_writable retries fd w = Ret (stop, w') ∧ same_fds w w'.
Proof.
  intros Hw. unfold TCPClient.poll_writable.
  destruct (retry_keeps retries fst (sys_poll fd POLLOUT 10) w) as ([prc rev] & w1 & -> & H1);
    [intros ? [] ?; apply poll_fds|done|].
  cbn [mbind outcome_bind]. by repeat case_match; eexists _, _.
Qed.

Lemma poll_writable_ret fd w stop w' :
  TCPClient.poll_writable retries fd w = Ret (stop, w') → same_fds w w' ∧ keeps_streams fd w w'.
Proof.
  unfold TCPClient.poll_writable.
  destruct (retry _ _ _ w) as [[[prc rev] w1]| | |] eqn:E; try done.
  cbn [mbind outcome_bind]. intros Hr.
  assert (w1 = w') as -> by (by repeat case_match; simplify_eq).
  assert (Hpre : PreOrder (λ w1 w2, same_fds w1 w2 ∧ keeps_streams fd w1 w2)).
  { split; [by intros ?; split|]. intros x y z [Hx [? ?]] [Hy [? ?]].
    split; [by transitivity y|]. split; by etransitivity. }
  assert (Hcall : ∀ w r w', sys_poll fd POLLOUT 10 w = (r, w') →
            same_fds w w' ∧ keeps_streams fd w w').
  { intros u [r rv] u' Hc. split; [by eapply keeps_same, poll_fds|by eapply poll_stream]. }
  apply (retry_ret _ _ _ _ Hpre) in E as (w0 & Hw0 & Hc & _).
  - exact (@PreOrder_Transitive _ _ Hpre _ _ _ Hw0 (Hcall _ _ _ Hc)).
  - intros ???? _. by eapply Hcall.
Qed.

Lemma poll_writable_safe fd w : safe (TCPClient.poll_writable retries fd w).
Proof.
  unfold TCPClient.poll_writable. apply safe_bind; [apply retry_not_ub|].
  intros [[prc rev] w1]. by repeat case_match.
Qed.

(** What the loop has sent when it returns. *)
Lemma send_loop_ret fuel fd d z w res w' :
  TCPClient.send_loop retries fuel fd d z w = Ret (res, w') →
  same_fds w w' ∧ inbound w' fd = inbound w fd ∧
  ∃ k, outbound w' fd = outbound w fd ++ take k d ∧ (res = Ok tt → take k d = d).
Proof.
  revert d z w. induction fuel as [|fuel IH]; intros d z w; [done|]. cbn [TCPClient.send_loop].
  destruct (Z.eqb_spec (zsize d) 0) as [Hd|Hd].
  { intros [= <- <-]. apply zsize_zero in Hd as ->. split; [done|]. split; [done|].
    exists 0%nat. by rewrite app_nil_r. }
  destruct (sys_send fd d MSG_NOSIGNAL w) as [n w1] eqn:E.
  pose proof E as Hs%send_stream. apply send_fds, keeps_same in E. destruct Hs as (Hn & Hi & Ho).
  destruct (Z.ltb_spec n 0) as [Hneg|Hpos].
  - replace (Z.to_nat n) with 0%nat in Ho by lia. rewrite take_0, app_nil_r in Ho.
    assert (Hstop : ∀ e, Ret (Unexpected e, w1) = Ret (res, w') →
      same_fds w w' ∧ inbound w' fd = inbound w fd ∧
      ∃ k, outbound w' fd = outbound w fd ++ take k d ∧ (res = Ok tt → take k d = d)).
    { intros e [= <- <-]. split; [done|]. split; [done|]. exists 0%nat. by rewrite app_nil_r. }
    destruct (errno w1 =? EINTR).
    + intros (? & -> & k & -> & ?)%IH. rewrite Ho. split; [by transitivity w1|]. by eauto.
    + destruct (_ || _); apply Hstop.
  - destruct (Z.eqb_spec n 0) as [->|Hn0].
    + rewrite take_0, app_nil_r in Ho. destruct z.
      { intros [= <- <-]. split; [done|]. split; [done|]. exists 0%nat. by rewrite app_nil_r. }
      destruct (TCPClient.poll_writable retries fd w1) as [[stop w2]| | |] eqn:Ep; try done.
      cbn [mbind outcome_bind]. apply poll_writable_ret in Ep as [Hf2 [Hi2 Ho2]].
      assert (same_fds w w2) by by transitivity w1. destruct stop as [e|].
      * intros [= <- <-]. rewrite Hi2, Ho2, Hi, Ho. split; [done|]. split; [done|].
        exists 0%nat. by rewrite app_nil_r.
      * intros (? & -> & k & -> & ?)%IH. rewrite Hi2, Ho2, Hi, Ho.
        split; [by transitivity w2|]. by eauto.
    + unfold subspan_from. rewrite decide_True by lia. cbn [mbind outcome_bind].
      intros (? & -> & k & -> & Hk)%IH. split; [by transitivity w1|]. split; [done|].
      exists (Z.to_nat n + k)%nat. rewrite Ho, <-app_assoc, take_take_drop. split; [done|].
      intros Hr. by rewrite <-take_take_drop, (Hk Hr), take_drop.
Qed.

Lemma send_loop_safe fuel fd d z w : safe (TCPClient.send_loop retries fuel fd d z w).
Proof.
  revert d z w. induction fuel as [|fuel IH]; intros d z w; [done|]. cbn [TCPClient.send_loop].
  destruct (zsize d =? 0); [done|]. destruct (sys_send fd d MSG_NOSIGNAL w) as [n w1] eqn:E.
  apply send_stream in E as (Hn & _). destruct (Z.ltb_spec n 0).
  - destruct (errno w1 =? EINTR); [apply IH|by destruct (_ || _)].
  - destruct (n =? 0).
    + destruct z; [done|]. apply safe_bind; [apply poll_writable_safe|].
      intros [[e|] w2]; [done|apply IH].
    + unfold subspan_from. rewrite decide_True by lia. apply IH.
Qed.

(** Every round uses up a signal, a byte or the repetition after a zero. *)
Lemma send_loop_total fuel fd d (z : bool) w :
  (interrupts w < retries)%nat →
  (interrupts w + length d + (if z then 0 else 1) < fuel)%nat →
  ∃ res w', TCPClient.send_loop retries fuel fd d z w = Ret (res, w').
Proof.
  revert d z w. induction fuel as [|fuel IH]; intros d z w Hw Hf; [lia|].
  cbn [TCPClient.send_loop]. destruct (zsize d =? 0); [by eexists _, _|].
  destruct (sys_send fd d MSG_NOSIGNAL w) as [n w1] eqn:E.
  pose proof E as (Hn & _ & _)%send_stream. apply send_fds in E as (_ & Hle & Hlt).
  unfold interrupted in Hlt. destruct (Z.ltb_spec n 0).
  - destruct (errno w1 =? EINTR) eqn:Ee; [|destruct (_ || _); by eexists _, _].
    specialize (Hlt eq_refl). apply IH; lia.
  - destruct (Z.eqb_spec n 0).
    + destruct z; [by eexists _, _|].
      destruct (poll_writable_spec fd w1) as ([err|] & w2 & -> & [_ ?]); [lia|by eexists _, _|].
      cbn [mbind outcome_bind]. apply IH; lia.
    + unfold subspan_from. rewrite decide_True by lia. cbn [mbind outcome_bind].
      unfold zsize in Hn. apply IH; [lia|]. rewrite length_drop. lia.
Qed.

(** A writable connection takes everything. *)
Lemma send_loop_accepts fuel fd d z w :
  writable w fd → (interrupts w + length d < fuel)%nat →
  ∃ w', TCPClient.send_loop retries fuel fd d z w = Ret (Ok tt, w') ∧ writable w' fd ∧
    (interrupts w' ≤ interrupts w)%nat ∧ (readable w fd → readable w' fd).
Proof.
  revert d z w. induction fuel as [|fuel IH]; intros d z w Hw Hf; [lia|].
  cbn [TCPClient.send_loop]. destruct (Z.eqb_spec (zsize d) 0) as [|Hd]; [by eauto|].
  destruct (sys_send fd d MSG_NOSIGNAL w) as [n w1] eqn:E.
  pose proof E as (Hn & _ & _)%send_stream. pose proof E as (_ & Hle & Hlt)%send_fds.
  apply send_writable in E as (Hr & Hw1 & Hrd); [|done|by intros ->].
  unfold interrupted in *. destruct (Z.ltb_spec n 0).
  - destruct Hr as [?|Hr]; [lia|]. simpl in Hr. rewrite Hr in *. specialize (Hlt eq_refl).
    destruct (IH d z w1) as (w' & -> & ? & ? & ?); [done|lia|].
    exists w'. split_and!; [done|done|lia|auto].
  - destruct Hr as [Hr|]; [|done]. destruct (Z.eqb_spec n 0); [lia|].
    unfold subspan_from. rewrite decide_True by lia. cbn [mbind outcome_bind].
    unfold zsize in Hn. destruct (IH (drop (Z.to_nat n) d) z w1) as (w' & -> & ? & ? & ?);
      [done|rewrite length_drop; lia|].
    exists w'. split_and!; [done|done|lia|auto].
Qed.

(** What the connection of the client has taken. *)
Definition sent c : list Z := outbound (TCPClient.os c) (TCPClient.fd_ c).

(** C27: TCPClient::sendAll returns after finitely many interruptions, partial sends
    and at most one send of zero bytes; success means that exactly the data went
    out behind what was sent before, an error that a prefix of it did; no
    descriptor is opened or closed. *)
Theorem client_sendAll_outcomes d c :
  (interrupts (TCPClient.os c) < retries)%nat →
  ∃ res c', TCPClient.sendAll retries d c = Ret (res, c') ∧
    TCPClient.fd_ c' = TCPClient.fd_ c ∧ same_fds (TCPClient.os c) (TCPClient.os c') ∧
    match res with
    | Ok _ => 0 ≤ TCPClient.fd_ c ∧ sent c' = sent c ++ d
    | Unexpected _ => ∃ k, sent c' = sent c ++ take k d
    end.
Proof.
  intros Hw. unfold TCPClient.sendAll, sent. destruct (Z.ltb_spec (TCPClient.fd_ c) 0).
  { eexists _, _. split_and!; try done. exists 0%nat. by rewrite app_nil_r. }
  destruct (send_loop_total (retries + (2 + length d)) (TCPClient.fd_ c) d false (TCPClient.os c))
    as (res & w & Hs); [done|lia|].
  rewrite Hs. apply send_loop_ret in Hs as (? & _ & k & Ho & Hk).
  eexists _, _. split; [done|]. simpl. split_and!; [done|done|].
  destruct res as [[]|e]; [|by eauto]. split; [done|]. by rewrite Ho, (Hk eq_refl).
Qed.

(** ** Receiving *)

Lemma recvSome_ret n c res c' :
  0 < n → TCPClient.recvSome retries n c = Ret (res, c') →
  TCPClient.fd_ c' = TCPClient.fd_ c ∧
  outbound (TCPClient.os c') (TCPClient.fd_ c) = outbound (TCPClient.os c) (TCPClient.fd_ c) ∧
  ∀ bs, res = Ok bs →
    inbound (TCPClient.os c) (TCPClient.fd_ c) =
      bs ++ inbound (TCPClient.os c') (TCPClient.fd_ c) ∧ 0 < zsize bs ≤ n.
Proof.
  intros Hn. unfold TCPClient.recvSome. destruct (Z.eqb_spec n 0); [lia|].
  destruct (retry _ _ _ _) as [[[k bs] w]| | |] eqn:E; try done.
  cbn [mbind outcome_bind]. apply recv_retry_ret in E as (w0 & (Hi0 & Ho0 & _) & Hc & _); [|done].
  apply recv_stream in Hc as (Hk & Hz & Hi & Ho); [|done]. rewrite Hi0 in Hi. rewrite Ho0 in Ho.
  destruct (Z.ltb_spec k 0); [|destruct (Z.eqb_spec k 0)]; intros Hr.
  1: destruct (_ || _).
  all: injection Hr as <- <-; simpl; split_and!; try done.
  intros bs' [= <-]. split; [done|lia].
Qed.

Lemma recvSome_delivering n c :
  0 < n → (interrupts (TCPClient.os c) < retries)%nat →
  readable (TCPClient.os c) (TCPClient.fd_ c) →
  inbound (TCPClient.os c) (TCPClient.fd_ c) ≠ [] →
  ∃ bs w, TCPClient.recvSome retries n c = Ret (Ok bs, TCPClient.set_os w c) ∧ bs ≠ [] ∧
    readable w (TCPClient.fd_ c) ∧ (interrupts w ≤ interrupts (TCPClient.os c))%nat ∧
    (writable (TCPClient.os c) (TCPClient.fd_ c) → writable w (TCPClient.fd_ c)).
Proof.
  intros Hn Hw Hrd Hne. unfold TCPClient.recvSome. destruct (Z.eqb_spec n 0); [lia|].
  destruct (recv_retry_readable retries (TCPClient.fd_ c) n (TCPClient.os c))
    as (k & bs & w & -> & ? & ? & ? & ? & ?); try done.
  cbn [mbind outcome_bind]. destruct (Z.ltb_spec k 0); [lia|]. destruct (Z.eqb_spec k 0); [lia|].
  by exists bs, w.
Qed.
End client.

(** ** The client as a backend *)

#[export] Program Instance tcp_client_laws {W : Type} `{PosixLaws W} (retries : nat)
    : @TcpBackendLaws (TCPClient.t W) (tcp_client_backend retries) := {
  wire_in c := inbound (TCPClient.os c) (TCPClient.fd_ c);
  wire_out c := outbound (TCPClient.os c) (TCPClient.fd_ c);
  delivering c := readable (TCPClient.os c) (TCPClient.fd_ c) ∧
    (interrupts (TCPClient.os c) < retries)%nat;
  accepting c := 0 ≤ TCPClient.fd_ c ∧ writable (TCPClient.os c) (TCPClient.fd_ c) ∧
    (interrupts (TCPClient.os c) < retries)%nat;
}.
Next Obligation.
  intros W ??? retries n c bs c' Hn Hr. apply recvSome_ret in Hr as (-> & ? & Hi); [|done].
  destruct (Hi bs) as [? ?]; [done|]. split_and!; [done|lia|done].
Qed.
Next Obligation.
  intros W ??? retries n c e c' Hn Hr. by apply recvSome_ret in Hr as (-> & ? & _).
Qed.
Next Obligation.
  intros W ??? retries n c Hn. simpl. unfold TCPClient.recvSome.
  destruct (n =? 0); [done|]. apply safe_bind; [apply retry_not_ub|].
  intros [[k bs] w]. by repeat case_match.
Qed.
Next Obligation.
  intros W ??? retries n c Hn [Hrd Hw] Hne.
  destruct (recvSome_delivering retries n c) as (bs & w & Hr & ? & ? & ? & ?); try done.
  exists bs, (TCPClient.set_os w c). simpl. split_and!; try done; [lia|].
  intros (? & ? & ?). split_and!; [done|auto|lia].
Qed.
Next Obligation.
  intros W ??? retries d c c'. simpl. unfold TCPClient.sendAll. case_match; [done|].
  destruct (TCPClient.send_loop _ _ _ _ _ _) as [[res w]| | |] eqn:E; try done.
  intros [= -> <-]. apply send_loop_ret in E as (_ & ? & k & Ho & Hk). simpl.
  by rewrite <-(Hk eq_refl).
Qed.
Next Obligation.
  intros W ??? retries d c e c'. simpl. unfold TCPClient.sendAll. case_match.
  { intros [= _ <-]. split; [|done]. exists 0%nat. by rewrite app_nil_r. }
  destruct (TCPClient.send_loop _ _ _ _ _ _) as [[res w]| | |] eqn:E; try done.
  intros [= -> <-]. apply send_loop_ret in E as (_ & ? & k & Ho & Hk). simpl. by eauto.
Qed.
Next Obligation.
  intros W ??? retries d c. simpl. unfold TCPClient.sendAll. case_match; [done|].
  apply safe_bind; [apply send_loop_safe|]. by intros [].
Qed.
Next Obligation.
  intros W ??? retries d c (Hfd & Hwr & Hw). simpl. unfold TCPClient.sendAll.
  destruct (Z.ltb_spec (TCPClient.fd_ c) 0); [lia|].
  destruct (send_loop_accepts retries (retries + (2 + length d)) (TCPClient.fd_ c) d false
              (TCPClient.os c)) as (w & -> & ? & ? & ?); [done|lia|].
  eexists. split; [done|]. simpl. split_and!; [done|done|lia|].
  intros [? ?]. split; [auto|lia].
Qed.
