(* ===== verification/TcpServer.v ===== *)
(** * The TCP server (src/src/tcp_server.cc, include/spw_rmap/internal/tcp_server.hh)

    Module [TCPServer], in the style of [TCPClient].  The listening socket
    exists inside [accept_once] only. *)

From S2P Require Import Prelude PacketTypes Posix TcpBackend.
#[local] Open Scope Z_scope.

Module TCPServer.
Record t (W : Type) := mk {
  listen_fd_ : Z;
  client_fd_ : Z;
  bind_address_ : string;
  port_ : string;
  os : W;
}.
Arguments mk {W}.
Arguments listen_fd_ {W} _.
Arguments client_fd_ {W} _.
Arguments bind_address_ {W} _.
Arguments port_ {W} _.
Arguments os {W} _.

Definition set_listen_fd_ {W} (v : Z) (s : t W) : t W :=
  mk v (client_fd_ s) (bind_address_ s) (port_ s) (os s).
Definition set_client_fd_ {W} (v : Z) (s : t W) : t W :=
  mk (listen_fd_ s) v (bind_address_ s) (port_ s) (os s).
Definition set_os {W} (v : W) (s : t W) : t W :=
  mk (listen_fd_ s) (client_fd_ s) (bind_address_ s) (port_ s) v.
Definition setIpAddress {W} (v : string) (s : t W) : t W :=
  mk (listen_fd_ s) (client_fd_ s) v (port_ s) (os s).
Definition setPort {W} (v : string) (s : t W) : t W :=
  mk (listen_fd_ s) (client_fd_ s) (bind_address_ s) v (os s).

(** The constructor. *)
Definition init {W} (bind_address port : string) (w : W) : t W := mk (-1) (-1) bind_address port w.

Section server.
Context {W : Type} `{Posix W} (retries : nat).

Definition fail_errno {A} (w : W) : expected A := Unexpected (system_category (errno w)).

Definition set_cloexec (fd : Z) (w : W) : expected unit * W :=
  let '(fdflags, w) := sys_fcntl fd F_GETFD w in
  if fdflags <? 0 then (fail_errno w, w) else
  let '(r, w) := sys_fcntl fd (F_SETFD (Z.lor fdflags FD_CLOEXEC)) w in
  if r <? 0 then (fail_errno w, w) else (Ok tt, w).

Definition set_listening_sockopt (fd : Z) (w : W) : expected unit * W :=
  let '(_, w) := sys_setsockopt fd (SO_REUSEADDR 1) w in
  let '(_, w) := sys_setsockopt fd (SO_REUSEPORT 1) w in
  set_cloexec fd w.

Definition server_set_sockopts (fd : Z) (w : W) : expected unit * W :=
  let '(r, w) := sys_setsockopt fd (TCP_NODELAY 1) w in
  if negb (r =? 0) then (fail_errno w, w) else set_cloexec fd w.

Definition close_retry_ (fd : Z) (w : W) : outcome W :=
  if fd <? 0 then Ret w
  else '(_, w) ← retry retries id (sys_close fd) w; Ret w.

(** [close_retry_(listen_fd_); listen_fd_ = -1], and the same for the client. *)
Definition close_listen (s : t W) : outcome (t W) :=
  w ← close_retry_ (listen_fd_ s) (os s);
  Ret (set_listen_fd_ (-1) (set_os w s)).
Definition close_client (s : t W) : outcome (t W) :=
  w ← close_retry_ (client_fd_ s) (os s);
  Ret (set_client_fd_ (-1) (set_os w s)).

(** The body of the loop of [accept_once]; the result is [last]. *)
Definition accept_on (ai : addrinfo) (s : t W) : outcome (expected unit * t W) :=
  let '(fd, w) := sys_socket (ai_family ai) (ai_socktype ai) (ai_protocol ai) (os s) in
  let s := set_listen_fd_ fd (set_os w s) in
  if listen_fd_ s <? 0 then Ret (fail_errno (os s), s) else
  let '(last, w) := set_listening_sockopt (listen_fd_ s) (os s) in
  let s := set_os w s in
  match last with
  | Unexpected e => s ← close_listen s; Ret (Unexpected e, s)
  | Ok _ =>
      let '(r, w) := sys_bind (listen_fd_ s) (ai_addr ai) (os s) in
      let s := set_os w s in
      if negb (r =? 0) then
        let last := fail_errno (os s) in s ← close_listen s; Ret (last, s)
      else
      let '(r, w) := sys_listen (listen_fd_ s) SOMAXCONN (os s) in
      let s := set_os w s in
      if negb (r =? 0) then
        let last := fail_errno (os s) in s ← close_listen s; Ret (last, s)
      else
      '(fd, w) ← retry retries id (sys_accept (listen_fd_ s)) (os s);
      let s := set_client_fd_ fd (set_os w s) in
      if client_fd_ s <? 0 then
        let last := fail_errno (os s) in s ← close_listen s; Ret (last, s)
      else
      let '(last, w) := server_set_sockopts (client_fd_ s) (os s) in
      let s := set_os w s in
      match last with
      | Ok _ => Ret (last, s)
      | Unexpected e =>
          s ← close_listen s;
          s ← close_client s;
          Ret (Unexpected e, s)
      end
  end.

(** The loop has no [break]: it runs over all addresses. *)
Fixpoint accept_loop (ais : list addrinfo) (last : expected unit) (s : t W)
    : outcome (expected unit * t W) :=
  match ais with
  | [] => Ret (last, s)
  | ai :: ais => '(last, s) ← accept_on ai s; accept_loop ais last s
  end.

Definition hints : addrinfo := mkAddrinfo AF_UNSPEC SOCK_STREAM IPPROTO_TCP [].

Definition accept_once (s : t W) : outcome (expected unit * t W) :=
  let '(rc, res, w) := sys_getaddrinfo (bind_address_ s) (port_ s) hints AI_PASSIVE (os s) in
  let s := set_os w s in
  if negb (rc =? 0) then Ret (Unexpected (gai_category rc), s) else
  '(last, s) ← accept_loop res (Unexpected (generic invalid_argument)) s;
  if client_fd_ s <? 0 then Ret (last, set_client_fd_ (-1) s)
  else s ← close_listen s; Ret (Ok tt, s).

(** The destructor. *)
Definition destroy (s : t W) : outcome (t W) :=
  s ← close_client s; close_listen s.

Definition setSendTimeout (timeout : Z) (s : t W) : outcome (expected unit * t W) :=
  if timeout <? 0 then Ret (Unexpected (generic invalid_argument), s) else
  let tv_sec := Z.quot timeout 1000000 in
  let tv_usec := Z.rem timeout 1000000 in
  let '(r, w) := sys_setsockopt (client_fd_ s) (SO_SNDTIMEO tv_sec tv_usec) (os s) in
  let s := set_os w s in
  if negb (r =? 0) then Ret (fail_errno w, s) else Ret (Ok tt, s).

(** A [send] that returns zero is repeated without a bound. *)
Fixpoint send_loop (fuel : nat) (fd : Z) (data : list Z) (w : W) : outcome (expected unit * W) :=
  match fuel with
  | O => Pending
  | S fuel =>
      if zsize data =? 0 then Ret (Ok tt, w) else
      let '(n, w) := sys_send fd data MSG_NOSIGNAL w in
      if n <? 0 then
        if errno w =? EINTR then send_loop fuel fd data w
        else if (errno w =? EAGAIN) || (errno w =? EWOULDBLOCK)
        then Ret (Unexpected (generic timed_out), w)
        else Ret (fail_errno w, w)
      else if n =? 0 then send_loop fuel fd data w
      else
        data ← subspan_from data n;
        send_loop fuel fd data w
  end.

Definition sendAll (data : list Z) (s : t W) : outcome (expected unit * t W) :=
  '(res, w) ← send_loop (retries + (1 + length data)) (client_fd_ s) data (os s);
  Ret (res, set_os w s).

(** No bytes: the peer has closed the connection. *)
Definition recvSome (size : Z) (s : t W) : outcome (expected (list Z) * t W) :=
  if size =? 0 then Ret (Ok [], s) else
  '(n, buf, w) ← retry retries fst (sys_recv (client_fd_ s) size) (os s);
  let s := set_os w s in
  if n <? 0 then
    if (errno w =? EAGAIN) || (errno w =? EWOULDBLOCK)
    then Ret (Unexpected (generic timed_out), s)
    else Ret (fail_errno w, s)
  else Ret (Ok buf, s).

Definition shutdown (s : t W) : outcome (expected unit * t W) :=
  if client_fd_ s <? 0 then Ret (Unexpected (generic bad_file_descriptor), s) else
  let '(r, w) := sys_shutdown (client_fd_ s) SHUT_RDWR (os s) in
  let s := set_os w s in
  if r <? 0 then Ret (Unexpected (generic_category (errno w)), s) else Ret (Ok tt, s).
End server.
End TCPServer.

#[export] Instance tcp_server_backend {W : Type} `{Posix W} (retries : nat)
    : TcpBackend (TCPServer.t W) := {
  recvSome := TCPServer.recvSome retries;
  sendAll := TCPServer.sendAll retries;
  setSendTimeout := TCPServer.setSendTimeout;
  getIpAddress := TCPServer.bind_address_;
  setIpAddress := TCPServer.setIpAddress;
  getPort := TCPServer.port_;
  setPort := TCPServer.setPort;
}.
