(* ===== verification/TcpServerTheorems.v ===== *)
(** * The TCP server over any system that obeys [PosixLaws]

    [accept_once] keeps no new descriptor but the connection when the address
    resolves to one socket address, and leaks a connection and a listening socket
    when it resolves to two; an earlier connection it neither closes nor tells
    from a new one; the server obeys the laws of [TcpBackend]. *)

From S2P Require Import Prelude PacketTypes Posix TcpBackend TcpServer.
#[local] Open Scope Z_scope.

Section server.
Context {W : Type} {KP : Posix W} {KV : PosixView W} {KL : PosixLaws W} (retries : nat).
Implicit Types (w : W) (s : TCPServer.t W).

Lemma set_cloexec_spec fd w res w' : TCPServer.set_cloexec fd w = (res, w') → same_fds w w'.
Proof.
  unfold TCPServer.set_cloexec.
  destruct (sys_fcntl fd F_GETFD w) as [r1 w1] eqn:E1. apply fcntl_fds, keeps_same in E1.
  case_match; [by intros [= _ <-]|].
  destruct (sys_fcntl fd _ w1) as [r2 w2] eqn:E2. apply fcntl_fds, keeps_same in E2.
  assert (same_fds w w2) by by transitivity w1. case_match; by intros [= _ <-].
Qed.

Lemma set_listening_sockopt_spec fd w res w' :
  TCPServer.set_listening_sockopt fd w = (res, w') → same_fds w w'.
Proof.
  unfold TCPServer.set_listening_sockopt.
  destruct (sys_setsockopt fd (SO_REUSEADDR 1) w) as [r1 w1] eqn:E1.
  apply setsockopt_fds, keeps_same in E1.
  destruct (sys_setsockopt fd (SO_REUSEPORT 1) w1) as [r2 w2] eqn:E2.
  apply setsockopt_fds, keeps_same in E2.
  intros E3%set_cloexec_spec. transitivity w1; [done|]. by transitivity w2.
Qed.

Lemma server_set_sockopts_spec fd w res w' :
  TCPServer.server_set_sockopts fd w = (res, w') → same_fds w w'.
Proof.
  unfold TCPServer.server_set_sockopts.
  destruct (sys_setsockopt fd (TCP_NODELAY 1) w) as [r1 w1] eqn:E1.
  apply setsockopt_fds, keeps_same in E1. case_match; [by intros [= _ <-]|].
  intros E2%set_cloexec_spec. by transitivity w1.
Qed.

Lemma close_listen_spec s :
  0 ≤ TCPServer.listen_fd_ s → (interrupts (TCPServer.os s) < retries)%nat →
  ∃ w, TCPServer.close_listen retries s =
      Ret (TCPServer.set_listen_fd_ (-1) (TCPServer.set_os w s)) ∧
    open_fds w = open_fds (TCPServer.os s) ∖ {[TCPServer.listen_fd_ s]} ∧
    (interrupts w ≤ interrupts (TCPServer.os s))%nat.
Proof.
  intros Hfd Hw. unfold TCPServer.close_listen, TCPServer.close_retry_.
  rewrite (proj2 (Z.ltb_ge _ 0)) by done.
  destruct (close_retry_ret retries (TCPServer.listen_fd_ s) (TCPServer.os s) Hw)
    as (r & w & -> & ?). by exists w.
Qed.

Lemma close_client_spec s :
  0 ≤ TCPServer.client_fd_ s → (interrupts (TCPServer.os s) < retries)%nat →
  ∃ w, TCPServer.close_client retries s =
      Ret (TCPServer.set_client_fd_ (-1) (TCPServer.set_os w s)) ∧
    open_fds w = open_fds (TCPServer.os s) ∖ {[TCPServer.client_fd_ s]} ∧
    (interrupts w ≤ interrupts (TCPServer.os s))%nat.
Proof.
  intros Hfd Hw. unfold TCPServer.close_client, TCPServer.close_retry_.
  rewrite (proj2 (Z.ltb_ge _ 0)) by done.
  destruct (close_retry_ret retries (TCPServer.client_fd_ s) (TCPServer.os s) Hw)
    as (r & w & -> & ?). by exists w.
Qed.

(** The state behind one address: a client and the listening socket, or what
    was there before; a failed [accept] and failed socket options also forget
    the client of before. *)
Definition accepted (s s' : TCPServer.t W) (res : expected unit) : Prop :=
  (interrupts (TCPServer.os s') ≤ interrupts (TCPServer.os s))%nat ∧
  match res with
  | Ok _ => 0 ≤ TCPServer.listen_fd_ s' ∧ 0 ≤ TCPServer.client_fd_ s' ∧
      TCPServer.listen_fd_ s' ≠ TCPServer.client_fd_ s' ∧
      (TCPServer.listen_fd_ s' ∉ open_fds (TCPServer.os s)) ∧
      (TCPServer.client_fd_ s' ∉ open_fds (TCPServer.os s)) ∧
      open_fds (TCPServer.os s') =
        {[TCPServer.client_fd_ s'; TCPServer.listen_fd_ s']} ∪ open_fds (TCPServer.os s)
  | Unexpected _ => TCPServer.listen_fd_ s' < 0 ∧
      (TCPServer.client_fd_ s' = TCPServer.client_fd_ s ∨ TCPServer.client_fd_ s' < 0) ∧
      open_fds (TCPServer.os s') = open_fds (TCPServer.os s)
  end.

(** Giving up on an address before a client is there. *)
Lemma address_abandoned s s0 e :
  0 ≤ TCPServer.listen_fd_ s0 → TCPServer.listen_fd_ s0 ∉ open_fds (TCPServer.os s) →
  (TCPServer.client_fd_ s0 = TCPServer.client_fd_ s ∨ TCPServer.client_fd_ s0 < 0) →
  open_fds (TCPServer.os s0) = {[TCPServer.listen_fd_ s0]} ∪ open_fds (TCPServer.os s) →
  (interrupts (TCPServer.os s0) ≤ interrupts (TCPServer.os s))%nat →
  (interrupts (TCPServer.os s) < retries)%nat →
  ∃ res s', (s1 ← TCPServer.close_listen retries s0; Ret (Unexpected e, s1)) = Ret (res, s') ∧
    accepted s s' res.
Proof.
  intros Hfd Hnew Hc Ho Hi Hw. destruct (close_listen_spec s0) as (w & -> & Hf & Hi'); [done|lia|].
  eexists _, _. split; [done|]. split; simpl; [lia|]. split_and!; [lia|done|].
  by rewrite Hf, Ho, close_new.
Qed.

Lemma accept_on_spec ai s :
  (interrupts (TCPServer.os s) < retries)%nat →
  ∃ res s', TCPServer.accept_on retries ai s = Ret (res, s') ∧ accepted s s' res.
Proof.
  intros Hw. unfold TCPServer.accept_on.
  destruct (sys_socket _ _ _ (TCPServer.os s)) as [fd w1] eqn:E1.
  apply socket_fds in E1 as (Hi1 & _ & Ho1). cbn.
  destruct (Z.ltb_spec fd 0) as [|Hfd].
  { eexists _, _. split; [done|]. split; simpl; [done|]. split_and!; [done|by left|done]. }
  destruct Ho1 as [Hnew Ho1].
  destruct (TCPServer.set_listening_sockopt fd w1) as [last w2] eqn:E2.
  apply set_listening_sockopt_spec in E2 as [Ho2 Hi2].
  destruct last as [u|e]; [clear u|apply address_abandoned; simpl; try done; [by left|congruence|lia]].
  destruct (sys_bind fd (ai_addr ai) w2) as [r3 w3] eqn:E3. apply bind_fds, keeps_same in E3 as [Ho3 Hi3].
  destruct (r3 =? 0); cbn [negb]; [|apply address_abandoned; simpl; try done; [by left|congruence|lia]].
  destruct (sys_listen fd SOMAXCONN w3) as [r4 w4] eqn:E4. apply listen_fds, keeps_same in E4 as [Ho4 Hi4].
  destruct (r4 =? 0); cbn [negb]; [|apply address_abandoned; simpl; try done; [by left|congruence|lia]].
  destruct (retry_ends retries id (sys_accept fd) w4) as (cfd & w5 & E5 & Hi5);
    [by intros u r u' (? & ? & _)%accept_fds|lia|].
  rewrite E5. cbn.
  apply (retry_ret _ _ _ same_fds _) in E5 as (w40 & [Ho40 Hi40] & Ha & _); last first.
  { intros u r u' (? & ? & Hr)%accept_fds Hint%andb_true_iff. unfold id in Hint.
    rewrite (proj1 Hint) in Hr. by split. }
  apply accept_fds in Ha as (_ & _ & Ho5).
  assert (Heq : open_fds w40 = {[fd]} ∪ open_fds (TCPServer.os s)) by congruence.
  rewrite Heq in Ho5. destruct (Z.ltb_spec cfd 0) as [|Hcfd].
  { apply address_abandoned; simpl; try done; [by right|lia]. }
  destruct Ho5 as [Hcnew Ho5].
  destruct (TCPServer.server_set_sockopts cfd w5) as [last w6] eqn:E6.
  apply server_set_sockopts_spec in E6 as [Ho6 Hi6]. destruct last as [u|e].
  - eexists _, _. split; [done|]. split; simpl; [lia|].
    split_and!; [done|done|set_solver|done|set_solver|]. rewrite Ho6, Ho5. by rewrite union_assoc_L.
  - match goal with |- context [TCPServer.close_listen _ ?s6] =>
      destruct (close_listen_spec s6) as (w7 & -> & Ho7 & Hi7); [done|simpl; lia|] end.
    cbn [mbind outcome_bind]. simpl in Ho7, Hi7.
    match goal with |- context [TCPServer.close_client _ ?s7] =>
      destruct (close_client_spec s7) as (w8 & -> & Ho8 & Hi8); [done|simpl; lia|] end.
    simpl in Ho8, Hi8. eexists _, _. split; [done|]. split; simpl; [lia|].
    split_and!; [lia|by right|]. rewrite Ho8, Ho7, Ho6, Ho5. set_solver.
Qed.

(** The addresses of the server. *)
Definition resolves (s : TCPServer.t W) (ais : list addrinfo) (w : W) : Prop :=
  sys_getaddrinfo (TCPServer.bind_address_ s) (TCPServer.port_ s) TCPServer.hints AI_PASSIVE
    (TCPServer.os s) = (0, ais, w).

(** C28: TCPServer::accept_once on an address that resolves to one socket address
    always returns and keeps no listening socket. When it succeeds, exactly the
    accepted connection is a new descriptor, or, on a server that holds an
    earlier connection already, no descriptor is new and the client descriptor
    is still the earlier one: a failure to serve the address is then reported as
    success. When it fails, no descriptor is left open that was not before and
    the client descriptor is -1. An earlier connection is closed in no case. *)
Theorem accept_once_outcomes s ai w :
  resolves s [ai] w → (interrupts (TCPServer.os s) < retries)%nat →
  ∃ res s', TCPServer.accept_once retries s = Ret (res, s') ∧ TCPServer.listen_fd_ s' < 0 ∧
    match res with
    | Ok _ => 0 ≤ TCPServer.client_fd_ s' ∧
        ((TCPServer.client_fd_ s' ∉ open_fds (TCPServer.os s)) ∧
         open_fds (TCPServer.os s') = {[TCPServer.client_fd_ s']} ∪ open_fds (TCPServer.os s) ∨
         0 ≤ TCPServer.client_fd_ s ∧ TCPServer.client_fd_ s' = TCPServer.client_fd_ s ∧
         open_fds (TCPServer.os s') = open_fds (TCPServer.os s))
    | Unexpected _ => TCPServer.client_fd_ s' = -1 ∧
        open_fds (TCPServer.os s') = open_fds (TCPServer.os s)
    end.
Proof.
  intros Hg Hw. unfold TCPServer.accept_once. rewrite Hg. cbn.
  apply getaddrinfo_fds in Hg as [Ho Hi].
  destruct (accept_on_spec ai (TCPServer.set_os w s)) as (res & s1 & -> & [Hi1 Hr]); [simpl; lia|].
  cbn [mbind outcome_bind]. simpl in Hi1. destruct res as [[]|e].
  - destruct Hr as (Hl & Hcl & Hne & Hnl & Hnc & Hop).
    destruct (Z.ltb_spec (TCPServer.client_fd_ s1) 0); [lia|].
    destruct (close_listen_spec s1) as (w2 & -> & Ho2 & _); [done|simpl in *; lia|].
    eexists _, _. split; [done|]. simpl in *. rewrite Ho in *. split; [lia|]. split; [done|]. left.
    split; [done|]. rewrite Ho2, Hop. set_solver.
  - destruct Hr as (Hl & Hcl & Hop). simpl in *.
    destruct (Z.ltb_spec (TCPServer.client_fd_ s1) 0).
    + eexists _, _. split; [done|]. simpl. split_and!; [done|done|congruence].
    + destruct Hcl as [Hcl|]; [|lia]. unfold TCPServer.close_listen, TCPServer.close_retry_.
      rewrite (proj2 (Z.ltb_lt (TCPServer.listen_fd_ s1) 0)) by done. eexists _, _. split; [done|]. simpl.
      split; [lia|]. split; [done|]. right. rewrite <-Hcl. split_and!; [done|done|congruence].
Qed.

(** When the address resolves to two socket addresses and both can be served,
    accept_once does not stop at the first: it waits for a second connection and
    returns that one, while the first connection and its listening socket stay
    open and belong to nobody. *)
Theorem accept_once_leaks s s1 s2 ai1 ai2 w :
  resolves s [ai1; ai2] w →
  TCPServer.accept_on retries ai1 (TCPServer.set_os w s) = Ret (Ok tt, s1) →
  TCPServer.accept_on retries ai2 s1 = Ret (Ok tt, s2) →
  (interrupts (TCPServer.os s) < retries)%nat →
  ∃ s', TCPServer.accept_once retries s = Ret (Ok tt, s') ∧
    TCPServer.client_fd_ s' = TCPServer.client_fd_ s2 ∧
    TCPServer.client_fd_ s' ≠ TCPServer.client_fd_ s1 ∧ TCPServer.listen_fd_ s' < 0 ∧
    open_fds (TCPServer.os s') =
      {[TCPServer.client_fd_ s'; TCPServer.client_fd_ s1; TCPServer.listen_fd_ s1]} ∪
      open_fds (TCPServer.os s).
Proof.
  intros Hg E1 E2 Hw. unfold TCPServer.accept_once. rewrite Hg. cbn.
  apply getaddrinfo_fds in Hg as [Ho Hi]. rewrite E1. cbn. rewrite E2. cbn.
  destruct (accept_on_spec ai1 (TCPServer.set_os w s)) as (? & ? & E & [Hi1 Hr1]); [simpl; lia|].
  rewrite E1 in E. injection E as <- <-. simpl in Hi1.
  destruct (accept_on_spec ai2 s1) as (? & ? & E & [Hi2 Hr2]); [lia|].
  rewrite E2 in E. injection E as <- <-.
  destruct Hr1 as (Hl1 & Hc1 & Hne1 & Hnl1 & Hnc1 & Ho1).
  destruct Hr2 as (Hl2 & Hc2 & Hne2 & Hnl2 & Hnc2 & Ho2). simpl in Ho1, Hnl1, Hnc1.
  destruct (Z.ltb_spec (TCPServer.client_fd_ s2) 0); [lia|].
  destruct (close_listen_spec s2) as (w3 & -> & Ho3 & _); [done|lia|].
  eexists. split; [done|]. simpl. split_and!; [done|set_solver|lia|].
  rewrite Ho3, Ho2, Ho1, Ho in *. set_solver.
Qed.

(** ** The connection *)

Lemma server_send_loop_ret fuel fd d w res w' :
  TCPServer.send_loop fuel fd d w = Ret (res, w') →
  inbound w' fd = inbound w fd ∧
  ∃ k, outbound w' fd = outbound w fd ++ take k d ∧ (res = Ok tt → take k d = d).
Proof.
  revert d w. induction fuel as [|fuel IH]; intros d w; [done|]. cbn [TCPServer.send_loop].
  destruct (Z.eqb_spec (zsize d) 0) as [Hd|Hd].
  { intros [= <- <-]. apply zsize_zero in Hd as ->. split; [done|].
    exists 0%nat. by rewrite app_nil_r. }
  destruct (sys_send fd d MSG_NOSIGNAL w) as [n w1] eqn:E. apply send_stream in E as (Hn & Hi & Ho).
  destruct (Z.ltb_spec n 0) as [Hneg|Hpos].
  - replace (Z.to_nat n) with 0%nat in Ho by lia. rewrite take_0, app_nil_r in Ho.
    destruct (errno w1 =? EINTR).
    + intros (-> & k & -> & ?)%IH. rewrite Ho. by eauto.
    + destruct (_ || _); intros [= <- <-]; (split; [done|]); exists 0%nat; by rewrite app_nil_r.
  - destruct (Z.eqb_spec n 0) as [->|Hn0].
    + rewrite take_0, app_nil_r in Ho. intros (-> & k & -> & ?)%IH. rewrite Ho. by eauto.
    + unfold subspan_from. rewrite decide_True by lia. cbn [mbind outcome_bind].
      intros (-> & k & -> & Hk)%IH. split; [done|].
      exists (Z.to_nat n + k)%nat. rewrite Ho, <-app_assoc, take_take_drop. split; [done|].
      intros Hr. by rewrite <-take_take_drop, (Hk Hr), take_drop.
Qed.

Lemma server_send_loop_safe fuel fd d w : safe (TCPServer.send_loop fuel fd d w).
Proof.
  revert d w. induction fuel as [|fuel IH]; intros d w; [done|]. cbn [TCPServer.send_loop].
  destruct (zsize d =? 0); [done|]. destruct (sys_send fd d MSG_NOSIGNAL w) as [n w1] eqn:E.
  apply send_stream in E as (Hn & _). destruct (Z.ltb_spec n 0).
  - destruct (errno w1 =? EINTR); [apply IH|by destruct (_ || _)].
  - destruct (n =? 0); [apply IH|]. unfold subspan_from. rewrite decide_True by lia. apply IH.
Qed.

Lemma server_send_loop_accepts fuel fd d w :
  writable w fd → (interrupts w + length d < fuel)%nat →
  ∃ w', TCPServer.send_loop fuel fd d w = Ret (Ok tt, w') ∧ writable w' fd ∧
    (interrupts w' ≤ interrupts w)%nat ∧ (readable w fd → readable w' fd).
Proof.
  revert d w. induction fuel as [|fuel IH]; intros d w Hw Hf; [lia|].
  cbn [TCPServer.send_loop]. destruct (Z.eqb_spec (zsize d) 0) as [|Hd]; [by eauto|].
  destruct (sys_send fd d MSG_NOSIGNAL w) as [n w1] eqn:E.
  pose proof E as (Hn & _ & _)%send_stream. pose proof E as (_ & Hle & Hlt)%send_fds.
  apply send_writable in E as (Hr & Hw1 & Hrd); [|done|by intros ->].
  unfold interrupted in *. destruct (Z.ltb_spec n 0).
  - destruct Hr as [?|Hr]; [lia|]. simpl in Hr. rewrite Hr in *. specialize (Hlt eq_refl).
    destruct (IH d w1) as (w' & -> & ? & ? & ?); [done|lia|].
    exists w'. split_and!; [done|done|lia|auto].
  - destruct Hr as [Hr|]; [|done]. destruct (Z.eqb_spec n 0); [lia|].
    unfold subspan_from. rewrite decide_True by lia. cbn [mbind outcome_bind].
    unfold zsize in Hn. destruct (IH (drop (Z.to_nat n) d) w1) as (w' & -> & ? & ? & ?);
      [done|rewrite length_drop; lia|].
    exists w'. split_and!; [done|done|lia|auto].
Qed.

Lemma server_recvSome_ret n s res s' :
  0 < n → TCPServer.recvSome retries n s = Ret (res, s') →
  TCPServer.client_fd_ s' = TCPServer.client_fd_ s ∧
  outbound (TCPServer.os s') (TCPServer.client_fd_ s) =
    outbound (TCPServer.os s) (TCPServer.client_fd_ s) ∧
  ∀ bs, res = Ok bs →
    inbound (TCPServer.os s) (TCPServer.client_fd_ s) =
      bs ++ inbound (TCPServer.os s') (TCPServer.client_fd_ s) ∧ zsize bs ≤ n.
Proof.
  intros Hn. unfold TCPServer.recvSome. destruct (Z.eqb_spec n 0); [lia|].
  destruct (retry _ _ _ _) as [[[k bs] w]| | |] eqn:E; try done.
  cbn [mbind outcome_bind]. apply recv_retry_ret in E as (w0 & (Hi0 & Ho0 & _) & Hc & _); [|done].
  apply recv_stream in Hc as (Hk & Hz & Hi & Ho); [|done]. rewrite Hi0 in Hi. rewrite Ho0 in Ho.
  destruct (Z.ltb_spec k 0); intros Hr.
  1: destruct (_ || _).
  all: injection Hr as <- <-; simpl; split_and!; try done.
  intros bs' [= <-]. split; [done|lia].
Qed.

Lemma server_recvSome_delivering n s :
  0 < n → (interrupts (TCPServer.os s) < retries)%nat →
  readable (TCPServer.os s) (TCPServer.client_fd_ s) →
  inbound (TCPServer.os s) (TCPServer.client_fd_ s) ≠ [] →
  ∃ bs w, TCPServer.recvSome retries n s = Ret (Ok bs, TCPServer.set_os w s) ∧ bs ≠ [] ∧
    readable w (TCPServer.client_fd_ s) ∧ (interrupts w ≤ interrupts (TCPServer.os s))%nat ∧
    (writable (TCPServer.os s) (TCPServer.client_fd_ s) → writable w (TCPServer.client_fd_ s)).
Proof.
  intros Hn Hw Hrd Hne. unfold TCPServer.recvSome. destruct (Z.eqb_spec n 0); [lia|].
  destruct (recv_retry_readable retries (TCPServer.client_fd_ s) n (TCPServer.os s))
    as (k & bs & w & -> & ? & ? & ? & ? & ?); try done.
  cbn [mbind outcome_bind]. destruct (Z.ltb_spec k 0); [lia|].
  by exists bs, w.
Qed.
End server.

(** ** The server as a backend *)

#[export] Program Instance tcp_server_laws {W : Type} `{PosixLaws W} (retries : nat)
    : @TcpBackendLaws (TCPServer.t W) (tcp_server_backend retries) := {
  wire_in s := inbound (TCPServer.os s) (TCPServer.client_fd_ s);
  wire_out s := outbound (TCPServer.os s) (TCPServer.client_fd_ s);
  delivering s := readable (TCPServer.os s) (TCPServer.client_fd_ s) ∧
    (interrupts (TCPServer.os s) < retries)%nat;
  accepting s := writable (TCPServer.os s) (TCPServer.client_fd_ s) ∧
    (interrupts (TCPServer.os s) < retries)%nat;
}.
Next Obligation.
  intros W ??? retries n s bs s' Hn Hr. apply server_recvSome_ret in Hr as (-> & ? & Hi); [|done].
  destruct (Hi bs) as [? ?]; [done|]. by split_and!.
Qed.
Next Obligation.
  intros W ??? retries n s e s' Hn Hr. by apply server_recvSome_ret in Hr as (-> & ? & _).
Qed.
Next Obligation.
  intros W ??? retries n s Hn. simpl. unfold TCPServer.recvSome.
  destruct (n =? 0); [done|]. apply safe_bind; [apply retry_not_ub|].
  intros [[k bs] w]. by repeat case_match.
Qed.
Next Obligation.
  intros W ??? retries n s Hn [Hrd Hw] Hne.
  destruct (server_recvSome_delivering retries n s) as (bs & w & Hr & ? & ? & ? & ?); try done.
  exists bs, (TCPServer.set_os w s). simpl. split_and!; try done; [lia|].
  intros (? & ?). split; [auto|lia].
Qed.
Next Obligation.
  intros W ??? retries d s s'. simpl. unfold TCPServer.sendAll.
  destruct (TCPServer.send_loop _ _ _ _) as [[res w]| | |] eqn:E; try done.
  intros [= -> <-]. apply server_send_loop_ret in E as (? & k & Ho & Hk). simpl.
  by rewrite <-(Hk eq_refl).
Qed.
Next Obligation.
  intros W ??? retries d s e s'. simpl. unfold TCPServer.sendAll.
  destruct (TCPServer.send_loop _ _ _ _) as [[res w]| | |] eqn:E; try done.
  intros [= -> <-]. apply server_send_loop_ret in E as (? & k & Ho & Hk). simpl. by eauto.
Qed.
Next Obligation.
  intros W ??? retries d s. simpl. unfold TCPServer.sendAll.
  apply safe_bind; [apply server_send_loop_safe|]. by intros [].
Qed.
Next Obligation.
  intros W ??? retries d s (Hwr & Hw). simpl. unfold TCPServer.sendAll.
  destruct (server_send_loop_accepts (retries + (1 + length d)) (TCPServer.client_fd_ s) d
              (TCPServer.os s)) as (w & -> & ? & ? & ?); [done|lia|].
  eexists. split; [done|]. simpl. split_and!; [done|lia|].
  intros [? ?]. split; [auto|lia].
Qed.
