(* ===== verification/Framing.v ===== *)
(** * Frames on the TCP connection
    (include/spw_rmap/internal/spw_rmap_tcp_node_impl.hh: [recvExact_],
    [calculateDataLength], [ignoreNBytes_], [recvAndParseOnePacket_], [send_],
    [sendReadPacket_], [sendWritePacket_])

    A SpaceWire packet travels behind a 12-byte header: a type byte, a zero,
    two bytes of extra length and a big-endian 64-bit length.  Type 0x00 ends a
    packet, 0x02 carries a fragment of one, 0x01 a packet that ended in an
    error and is skipped, 0x30 and 0x31 a time code.

    [link] is the part of the node's state that these operations use.  The
    fuel of the receive loops bounds the frames read and the chunks skipped;
    running out of it is [Pending], as is waiting for the peer.
    [alloc_limit] is the size up to which [std::vector::resize] obtains
    memory: a larger request throws, and every caller is [noexcept]. *)

From S2P Require Import Prelude PacketTypes PacketBuilder PacketParser TcpBackend.
#[local] Open Scope Z_scope.

Inductive BufferPolicy := Fixed | AutoResize.

Record link (B : Type) := mkLink {
  tcp_backend_ : option B;
  recv_buf_ : list Z;
  send_buf_ : list Z;
  buffer_policy_ : BufferPolicy;
  packet_parser_ : Packet;
  initiator_logical_address_ : Z;
  verify_mode_ : bool;
}.
Arguments mkLink {B}.
Arguments tcp_backend_ {B} _.
Arguments recv_buf_ {B} _.
Arguments send_buf_ {B} _.
Arguments buffer_policy_ {B} _.
Arguments packet_parser_ {B} _.
Arguments initiator_logical_address_ {B} _.
Arguments verify_mode_ {B} _.

Definition set_tcp_backend_ {B} (v : option B) (l : link B) : link B :=
  mkLink v (recv_buf_ l) (send_buf_ l) (buffer_policy_ l) (packet_parser_ l)
    (initiator_logical_address_ l) (verify_mode_ l).
Definition set_recv_buf_ {B} (v : list Z) (l : link B) : link B :=
  mkLink (tcp_backend_ l) v (send_buf_ l) (buffer_policy_ l) (packet_parser_ l)
    (initiator_logical_address_ l) (verify_mode_ l).
Definition set_send_buf_ {B} (v : list Z) (l : link B) : link B :=
  mkLink (tcp_backend_ l) (recv_buf_ l) v (buffer_policy_ l) (packet_parser_ l)
    (initiator_logical_address_ l) (verify_mode_ l).
Definition set_packet_parser_ {B} (v : Packet) (l : link B) : link B :=
  mkLink (tcp_backend_ l) (recv_buf_ l) (send_buf_ l) (buffer_policy_ l) v
    (initiator_logical_address_ l) (verify_mode_ l).
Definition set_initiator_logical_address_ {B} (v : Z) (l : link B) : link B :=
  mkLink (tcp_backend_ l) (recv_buf_ l) (send_buf_ l) (buffer_policy_ l) (packet_parser_
    l) v (verify_mode_ l).
Definition set_verify_mode_ {B} (v : bool) (l : link B) : link B :=
  mkLink (tcp_backend_ l) (recv_buf_ l) (send_buf_ l) (buffer_policy_ l) (packet_parser_
    l) (initiator_logical_address_ l) v.

(** [header[i] << k], or-ed to a [uint64_t]. *)
Definition or_at (header : list Z) (i k v : Z) : outcome Z :=
  b ← rd header i; Ret (Z.lor v (u64 (Z.shiftl b k))).

Definition calculateDataLength (header : list Z) : outcome (expected Z) :=
  if zsize header <? 12 then Ret (Unexpected (generic invalid_argument)) else
  v ← or_at header 4 56 0;
  v ← or_at header 5 48 v;
  v ← or_at header 6 40 v;
  v ← or_at header 7 32 v;
  v ← or_at header 8 24 v;
  v ← or_at header 9 16 v;
  v ← or_at header 10 8 v;
  v ← or_at header 11 0 v;
  Ret (Ok v).

(** [s[i] = l[0]; s[i+1] = l[1]; ...] *)
Fixpoint wr_seq (s : list Z) (i : Z) (l : list Z) : outcome (list Z) :=
  match l with
  | [] => Ret s
  | v :: l => s ← wr s i v; wr_seq s (i + 1) l
  end.

(** The twelve assignments at the start of [send_]. *)
Definition send_header (total_size : Z) : list Z :=
  [0x00; 0x00; 0x00; 0x00;
   u8 (Z.land (Z.shiftr total_size 56) 0xFF); u8 (Z.land (Z.shiftr total_size 48) 0xFF);
   u8 (Z.land (Z.shiftr total_size 40) 0xFF); u8 (Z.land (Z.shiftr total_size 32) 0xFF);
   u8 (Z.land (Z.shiftr total_size 24) 0xFF); u8 (Z.land (Z.shiftr total_size 16) 0xFF);
   u8 (Z.land (Z.shiftr total_size 8) 0xFF); u8 (Z.land (Z.shiftr total_size 0) 0xFF)].

Section framing.
Context {B : Type} `{TcpBackend B} (alloc_limit : Z).

Definition vector_resize (v : list Z) (n : Z) : outcome (list Z) :=
  if n <=? alloc_limit then Ret (resize_bytes v n) else Abort.

(** ** Receiving *)

(** The loop of [recvExact_]: [off] bytes of [buffer] are filled.  Every
    round that goes on fills at least one byte, so the fuel
    [S (length buffer)] is enough. *)
Fixpoint recv_exact_loop (fuel : nat) (buffer : list Z) (off : Z) (b : B)
    : outcome (expected Z * list Z * B) :=
  match fuel with
  | O => Pending
  | S fuel =>
      if off =? zsize buffer then Ret (Ok (zsize buffer), buffer, b) else
      '(res, b) ← recvSome (zsize buffer - off) b;
      match res with
      | Unexpected e => Ret (Unexpected e, buffer, b)
      | Ok bs =>
          if zsize bs =? 0 then Ret (Ok 0, buffer, b)
          else if zsize buffer - off <? zsize bs then UB
          else recv_exact_loop fuel (overwrite buffer off bs) (off + zsize bs) b
      end
  end.

Definition recvExact_ (buffer : list Z) (l : link B) : outcome (expected Z * list Z * link B) :=
  match tcp_backend_ l with
  | None => Ret (Unexpected (generic not_connected), buffer, l)
  | Some b =>
      '(res, buffer, b) ← recv_exact_loop (S (length buffer)) buffer 0 b;
      Ret (res, buffer, set_tcp_backend_ (Some b) l)
  end.

(** The loop of [ignoreNBytes_] over its 16-byte buffer. *)
Fixpoint ignore_loop (fuel : nat) (n : Z) (b : B) : outcome (expected Z * B) :=
  match fuel with
  | O => Pending
  | S fuel =>
      if 16 <? n then
        '(res, b) ← recvSome 16 b;
        match res with
        | Unexpected e => Ret (Unexpected e, b)
        | Ok bs =>
            if zsize bs =? 0 then Ret (Unexpected (generic connection_aborted), b)
            else ignore_loop fuel (u64 (n - zsize bs)) b
        end
      else Ret (Ok n, b)
  end.

Definition ignoreNBytes_ (fuel : nat) (n : Z) (l : link B) : outcome (expected Z * link B) :=
  match tcp_backend_ l with
  | None => Ret (Unexpected (generic not_connected), l)
  | Some b =>
      let requested_size := n in
      '(res, b) ← ignore_loop fuel n b;
      let l := set_tcp_backend_ (Some b) l in
      match res with
      | Unexpected e => Ret (Unexpected e, l)
      | Ok n =>
          if 0 <? n then
            '(res, _, l) ← recvExact_ (replicate (Z.to_nat n) 0) l;
            match res with
            | Unexpected e => Ret (Unexpected e, l)
            | Ok _ => Ret (Ok requested_size, l)
            end
          else Ret (Ok requested_size, l)
      end
  end.

(** The receive buffer for a frame of [dataLength] bytes behind [total_size]
    received ones, where [recv_buffer] is the span of [len] bytes at [off];
    [None] when the buffer is too small and may not grow. *)
Definition grow_recv_buffer (total_size dataLength off len : Z) (l : link B)
    : outcome (option (Z * Z * link B)) :=
  if len <? dataLength then
    match buffer_policy_ l with
    | Fixed => Ret None
    | AutoResize =>
        buf ← vector_resize (recv_buf_ l) (u64 (total_size + dataLength));
        recv_buffer ← subspan_from buf total_size;
        Ret (Some (total_size, zsize recv_buffer, set_recv_buf_ buf l))
    end
  else Ret (Some (off, len, l)).

(** [recvExact_(recv_buffer.first(dataLength))]. *)
Definition recv_data (off len dataLength : Z) (l : link B) : outcome (expected Z * link B) :=
  if len <? dataLength then UB else
  buffer ← subspan (recv_buf_ l) off dataLength;
  '(res, buffer, l) ← recvExact_ buffer l;
  Ret (res, set_recv_buf_ (overwrite (recv_buf_ l) off buffer) l).

(** The header of a time code behind its first two bytes. *)
Definition timecode_header : list Z := [0x00; 0x00; 0x00; 0x00; 0x00; 0x00; 0x00; 0x00; 0x00; 0x02].

(** After the loop: [packet_parser_.parse(std::span(recv_buf_).first(total_size))]. *)
Definition finish_packet (total_size : Z) (l : link B) : outcome (expected Z * link B) :=
  packet ← subspan (recv_buf_ l) 0 total_size;
  '(st, p) ← parse packet (packet_parser_ l);
  let l := set_packet_parser_ p l in
  if decide (st = Success) then Ret (Ok total_size, l)
  else Ret (Unexpected (make_error_code st), l).

Definition valid_type (b : Z) : bool :=
  (b =? 0x00) || (b =? 0x01) || (b =? 0x02) || (b =? 0x31) || (b =? 0x30).

Fixpoint recv_loop (fuel : nat) (total_size off len : Z) (l : link B)
    : outcome (expected Z * link B) :=
  match fuel with
  | O => Pending
  | S fuel =>
      '(res, header, l) ← recvExact_ (replicate 12 0) l;
      match res with
      | Unexpected e => Ret (Unexpected e, l)
      | Ok n =>
          if n =? 0 then Ret (Ok 0, l) else
          h0 ← rd header 0;
          if negb (valid_type h0) then Ret (Unexpected (generic bad_message), l) else
          h1 ← rd header 1;
          if negb (h1 =? 0x00) then Ret (Unexpected (generic bad_message), l) else
          dl ← calculateDataLength header;
          match dl with
          | Unexpected e => Ret (Unexpected e, l)
          | Ok dataLength =>
              if dataLength =? 0 then Ret (Unexpected (generic bad_message), l) else
              room ← grow_recv_buffer total_size dataLength off len l;
              match room with
              | None => Ret (Unexpected (generic no_buffer_space), l)
              | Some (off, len, l) =>
                  if h0 =? 0x00 then
                    '(res, l) ← recv_data off len dataLength l;
                    match res with
                    | Unexpected e => Ret (Unexpected e, l)
                    | Ok n => finish_packet (total_size + n) l
                    end
                  else if h0 =? 0x01 then
                    '(res, l) ← ignoreNBytes_ fuel dataLength l;
                    match res with
                    | Unexpected e => Ret (Unexpected e, l)
                    | Ok _ => recv_loop fuel 0 0 (zsize (recv_buf_ l)) l
                    end
                  else if h0 =? 0x02 then
                    '(res, l) ← recv_data off len dataLength l;
                    match res with
                    | Unexpected e => Ret (Unexpected e, l)
                    | Ok n => recv_loop fuel (total_size + n) (off + dataLength) (len - dataLength) l
                    end
                  else
                    rest ← subspan_from header 2;
                    if negb (bool_decide (rest = timecode_header))
                    then Ret (Unexpected (generic bad_message), l) else
                    '(res, tc, l) ← recvExact_ (replicate 2 0) l;
                    match res with
                    | Unexpected e => Ret (Unexpected e, l)
                    | Ok _ =>
                        tc1 ← rd tc 1;
                        if negb (tc1 =? 0x00) then Ret (Unexpected (generic bad_message), l)
                        else recv_loop fuel total_size off len l
                    end
              end
          end
      end
  end.

Definition recvAndParseOnePacket_ (fuel : nat) (l : link B) : outcome (expected Z * link B) :=
  match tcp_backend_ l with
  | None => Ret (Unexpected (generic not_connected), l)
  | Some _ => recv_loop fuel 0 0 (zsize (recv_buf_ l)) l
  end.

(** ** Sending *)

(** [send_]: the header in front of the [total_size] bytes of the packet. *)
Definition send_ (total_size : Z) (l : link B) : outcome (expected unit * link B) :=
  buf ← wr_seq (send_buf_ l) 0 (send_header total_size);
  let l := set_send_buf_ buf l in
  frame ← subspan buf 0 (u64 (total_size + 12));
  match tcp_backend_ l with
  | None => UB
  | Some b =>
      '(res, b) ← sendAll frame b;
      Ret (res, set_tcp_backend_ (Some b) l)
  end.

(** [if (n > send_buffer.size())]: fail or grow, after the policy. *)
Definition ensure_send_buffer (n : Z) (l : link B) : outcome (option (link B)) :=
  if zsize (send_buf_ l) <? n then
    match buffer_policy_ l with
    | Fixed => Ret None
    | AutoResize =>
        buf ← vector_resize (send_buf_ l) n;
        Ret (Some (set_send_buf_ buf l))
    end
  else Ret (Some l).

(** [builder.build(config, send_buffer.subspan(12))]. *)
Definition build_into (build : list Z → outcome (expected Z * list Z)) (l : link B)
    : outcome (expected Z * link B) :=
  out ← subspan_from (send_buf_ l) 12;
  '(res, out) ← build out;
  Ret (res, set_send_buf_ (take 12 (send_buf_ l) ++ out) l).

Definition read_config (target_node : TargetNodeBase) (transaction_id memory_address data_length : Z)
    (l : link B) : ReadPacketConfig.t := {|
  ReadPacketConfig.targetSpaceWireAddress := getTargetSpaceWireAddress target_node;
  ReadPacketConfig.replyAddress := getReplyAddress target_node;
  ReadPacketConfig.targetLogicalAddress := getTargetLogicalAddress target_node;
  ReadPacketConfig.initiatorLogicalAddress := initiator_logical_address_ l;
  ReadPacketConfig.transactionID := transaction_id;
  ReadPacketConfig.extendedAddress := 0x00;
  ReadPacketConfig.address := memory_address;
  ReadPacketConfig.dataLength := data_length;
  ReadPacketConfig.key := 0;
  ReadPacketConfig.incrementMode := true;
|}.

Definition write_config (target_node : TargetNodeBase) (transaction_id memory_address : Z)
    (data : list Z) (l : link B) : WritePacketConfig.t := {|
  WritePacketConfig.targetSpaceWireAddress := getTargetSpaceWireAddress target_node;
  WritePacketConfig.replyAddress := getReplyAddress target_node;
  WritePacketConfig.targetLogicalAddress := getTargetLogicalAddress target_node;
  WritePacketConfig.initiatorLogicalAddress := initiator_logical_address_ l;
  WritePacketConfig.transactionID := transaction_id;
  WritePacketConfig.key := 0;
  WritePacketConfig.extendedAddress := 0x00;
  WritePacketConfig.address := memory_address;
  WritePacketConfig.incrementMode := true;
  WritePacketConfig.reply := true;
  WritePacketConfig.verifyMode := verify_mode_ l;
  WritePacketConfig.data := data;
|}.

(** The size test and the last resize do not count alike: the packet goes
    behind 12 bytes of header, which [expected_length] leaves out. *)
Definition sendReadPacket_ (target_node : TargetNodeBase)
    (transaction_id memory_address data_length : Z) (l : link B)
    : outcome (expected unit * link B) :=
  match tcp_backend_ l with
  | None => Ret (Unexpected (generic not_connected), l)
  | Some _ =>
      let expected_length := zsize (getTargetSpaceWireAddress target_node) +
        (zsize (getReplyAddress target_node) + 3) / 4 * 4 + 4 + 12 + 1 in
      room ← ensure_send_buffer expected_length l;
      match room with
      | None => Ret (Unexpected (generic no_buffer_space), l)
      | Some l =>
          let config := read_config target_node transaction_id memory_address data_length l in
          '(res, l) ← build_into (ReadPacketBuilder.build config) l;
          match res with
          | Unexpected e => Ret (Unexpected e, l)
          | Ok _ =>
              room ← ensure_send_buffer (ReadPacketBuilder.getTotalSize config + 12) l;
              match room with
              | None => Ret (Unexpected (generic no_buffer_space), l)
              | Some l => send_ (ReadPacketBuilder.getTotalSize config) l
              end
          end
      end
  end.

Definition sendWritePacket_ (target_node : TargetNodeBase)
    (transaction_id memory_address : Z) (data : list Z) (l : link B)
    : outcome (expected unit * link B) :=
  match tcp_backend_ l with
  | None => Ret (Unexpected (generic not_connected), l)
  | Some _ =>
      let expected_length := zsize (getTargetSpaceWireAddress target_node) +
        (zsize (getReplyAddress target_node) + 3) / 4 * 4 + 4 + 12 + 1 + zsize data in
      room ← ensure_send_buffer (expected_length + 12) l;
      match room with
      | None => Ret (Unexpected (generic no_buffer_space), l)
      | Some l =>
          let config := write_config target_node transaction_id memory_address data l in
          '(res, l) ← build_into (WritePacketBuilder.build config) l;
          match res with
          | Unexpected e => Ret (Unexpected e, l)
          | Ok _ => send_ (WritePacketBuilder.getTotalSize config) l
          end
      end
  end.

(** The part of [poll] that answers a read command with [data], and a write
    command: [build] and [getTotalSize] are those of the reply's builder. *)
Definition send_reply (getTotalSize : Z) (build : list Z → outcome (expected Z * list Z))
    (l : link B) : outcome (expected unit * link B) :=
  room ← ensure_send_buffer (getTotalSize + 12) l;
  match room with
  | None => Ret (Unexpected (generic no_buffer_space), l)
  | Some l =>
      '(res, l) ← build_into build l;
      match res with
      | Unexpected e => Ret (Unexpected e, l)
      | Ok _ => send_ getTotalSize l
      end
  end.

Definition read_reply_config (packet : Packet) (data : list Z) : ReadReplyPacketConfig.t := {|
  ReadReplyPacketConfig.replyAddress := replyAddress packet;
  ReadReplyPacketConfig.initiatorLogicalAddress := targetLogicalAddress packet;
  ReadReplyPacketConfig.status := u8 (PacketStatusCode_value CommandExecutedSuccessfully);
  ReadReplyPacketConfig.targetLogicalAddress := initiatorLogicalAddress packet;
  ReadReplyPacketConfig.transactionID := transactionID packet;
  ReadReplyPacketConfig.data := data;
  ReadReplyPacketConfig.incrementMode := true;
|}.

Definition write_reply_config (packet : Packet) : WriteReplyPacketConfig.t := {|
  WriteReplyPacketConfig.replyAddress := replyAddress packet;
  WriteReplyPacketConfig.initiatorLogicalAddress := targetLogicalAddress packet;
  WriteReplyPacketConfig.status := u8 (PacketStatusCode_value CommandExecutedSuccessfully);
  WriteReplyPacketConfig.targetLogicalAddress := initiatorLogicalAddress packet;
  WriteReplyPacketConfig.transactionID := transactionID packet;
  WriteReplyPacketConfig.incrementMode := true;
  WriteReplyPacketConfig.verifyMode := true;
|}.

Definition send_read_reply (packet : Packet) (data : list Z) (l : link B) :=
  let config := read_reply_config packet data in
  send_reply (ReadReplyPacketBuilder.getTotalSize config) (ReadReplyPacketBuilder.build config) l.

Definition send_write_reply (packet : Packet) (l : link B) :=
  let config := write_reply_config packet in
  send_reply (WriteReplyPacketBuilder.getTotalSize config) (WriteReplyPacketBuilder.build config) l.

(** [emitTimeCode]: the byte is sent as it is. *)
Definition emitTimeCode (timecode : Z) (l : link B) : outcome (expected unit * link B) :=
  match tcp_backend_ l with
  | None => Ret (Unexpected (generic not_connected), l)
  | Some b =>
      '(res, b) ← sendAll ([0x30; 0x00] ++ replicate 9 0x00 ++ [0x02; timecode; 0x00]) b;
      Ret (res, set_tcp_backend_ (Some b) l)
  end.
End framing.
