(* ===== verification/FramingFacts.v ===== *)
(** * Frames: sizes, exact reads, sending

    The lemmas behind [Framing]: the length field, reads of an exact number of
    bytes whatever the chunks the backend delivers, and what the sending
    functions put on the wire.  Everything about the backend comes from
    [TcpBackendLaws]. *)

From S2P Require Import Prelude Crc PacketTypes PacketBuilder PacketParser PacketParserFacts PacketTheorems TcpBackend Framing.
#[local] Open Scope Z_scope.

(** A frame on the wire: type, extra length, length, data. *)
Definition frame_header (t x y n : Z) : list Z := [t; 0; x; y] ++ be_split 8 n.
Definition frame (t x y : Z) (d : list Z) : list Z := frame_header t x y (zsize d) ++ d.

Lemma zsize_frame_header t x y n : zsize (frame_header t x y n) = 12.
Proof. done. Qed.
#[export] Hint Rewrite zsize_frame_header : zsize.

Lemma send_header_frame n : send_header n = frame_header 0 0 0 n.
Proof.
  unfold send_header, frame_header. cbn [app be_split]. rewrite !u8_land_shiftr by lia. done.
Qed.

Lemma or_at_lookup h i k v b :
  0 ≤ i → h !! Z.to_nat i = Some b → or_at h i k v = Ret (Z.lor v (u64 (Z.shiftl b k))).
Proof. intros. unfold or_at. by rewrite (rd_lookup _ _ b). Qed.

Lemma lor_step_u64 a b k k' :
  0 ≤ k → k' = k + 8 → byte b → 0 ≤ a → a * 2 ^ k' < 2 ^ 64 → b * 2 ^ k < 2 ^ 64 →
  Z.lor (a * 2 ^ k') (u64 (Z.shiftl b k)) = (a * 256 + b) * 2 ^ k.
Proof.
  intros Hk -> Hb Ha Hs Hs'. unfold u64, byte in *. rewrite Z.shiftl_mul_pow2 by done.
  rewrite Z.mod_small by (split; [apply Z.mul_nonneg_nonneg|]; lia).
  rewrite Z.pow_add_r by lia. change (2 ^ 8) with 256.
  replace (a * (2 ^ k * 256)) with (Z.shiftl (a * 2 ^ 8) k) by (rewrite Z.shiftl_mul_pow2 by lia; change (2^8) with 256; lia).
  rewrite <-(Z.shiftl_mul_pow2 b k), <-Z.shiftl_lor, lor_disjoint, Z.shiftl_mul_pow2 by lia.
  done.
Qed.

Lemma calculateDataLength_header t r x y l :
  zsize l = 8 → bytes l →
  calculateDataLength ([t; r; x; y] ++ l) = Ret (Ok (be_combine l)).
Proof.
  intros Hl Hb. unfold calculateDataLength.
  destruct (Z.ltb_spec (zsize ([t; r; x; y] ++ l)) 12); [zs; lia|].
  do 8 (destruct l as [|? l]; [zs; lia|]). destruct l; [|zs; pose proof (zsize_nonneg l); lia].
  do 8 (erewrite or_at_lookup; [|lia|reflexivity]; rewrite bind_ret). unfold bytes in Hb.
  repeat match goal with H : Forall byte (_ :: _) |- _ => apply Forall_cons in H as [? H] end.
  do 2 f_equal. unfold be_combine. cbn [fold_left].
  rewrite <-(Z.mul_0_l (2 ^ 64)) at 1.
  do 8 (erewrite lor_step_u64; [|lia|reflexivity|done|unfold byte in *; lia..]).
  lia.
Qed.

Lemma calculateDataLength_frame t x y n :
  0 ≤ n < 2 ^ 64 → calculateDataLength (frame_header t x y n) = Ret (Ok n).
Proof.
  intros Hn. unfold frame_header.
  rewrite calculateDataLength_header by (done || apply bytes_be_split).
  by rewrite be_combine_split, Z.mod_small.
Qed.

Lemma overwrite_app {A} (pre rest bs : list A) :
  overwrite (pre ++ rest) (zsize pre) bs = pre ++ bs ++ drop (length bs) rest.
Proof.
  unfold overwrite. rewrite zsize_to_nat, take_app_length.
  by rewrite <-drop_drop, drop_app_length.
Qed.

Lemma wr_seq_app pre mid rest l :
  length mid = length l →
  wr_seq (pre ++ mid ++ rest) (zsize pre) l = Ret (pre ++ l ++ rest).
Proof.
  revert pre mid. induction l as [|v l IH]; intros pre mid Hl; destruct mid as [|m mid]; try done.
  cbn [wr_seq app]. rewrite wr_app, bind_ret.
  replace (zsize pre + 1) with (zsize (pre ++ [v])) by (zs; lia).
  replace (pre ++ v :: mid ++ rest) with ((pre ++ [v]) ++ mid ++ rest) by by rewrite <-app_assoc.
  rewrite IH by (simpl in Hl; lia). by rewrite <-app_assoc.
Qed.

Section facts.
Context {B : Type} `{TcpBackendLaws B} (alloc_limit : Z).
Implicit Types (b : B) (l : link B).

(** ** Reading an exact number of bytes *)

Lemma recv_exact_loop_ok fuel pre rest b w tl :
  delivering b → wire_in b = w ++ tl → zsize w = zsize rest → (length rest < fuel)%nat →
  ∃ b', recv_exact_loop fuel (pre ++ rest) (zsize pre) b
        = Ret (Ok (zsize pre + zsize rest), pre ++ w, b') ∧
    wire_in b' = tl ∧ wire_out b' = wire_out b ∧ delivering b' ∧
    (accepting b → accepting b').
Proof.
  revert pre rest b w. induction fuel as [|fuel IH]; intros pre rest b w Hd Hw Hs Hf; [lia|].
  cbn [recv_exact_loop]. rewrite zsize_app.
  destruct (Z.eqb_spec (zsize pre) (zsize pre + zsize rest)) as [E|E].
  { assert (rest = []) as -> by (apply zsize_zero; lia).
    assert (w = []) as -> by (apply zsize_zero; zs; lia).
    exists b. rewrite !app_nil_r. by zs. }
  pose proof (zsize_nonneg rest).
  replace (zsize pre + zsize rest - zsize pre) with (zsize rest) by lia.
  destruct (recvSome_delivers (zsize rest) b) as (bs & b1 & E1 & Hne & Hd1 & Ha1);
    [lia|done|rewrite Hw; intros [-> _]%app_nil; zs; lia|].
  destruct (recvSome_ok (zsize rest) b bs b1 ltac:(lia) E1) as (Hw1 & Hn1 & Ho1).
  rewrite E1, bind_ret. pose proof (zsize_pos bs Hne).
  destruct (Z.eqb_spec (zsize bs) 0); [lia|].
  destruct (Z.ltb_spec (zsize rest) (zsize bs)); [lia|].
  rewrite Hw in Hw1.
  assert (∃ w2, w = bs ++ w2) as [w2 ->].
  { exists (drop (length bs) w). rewrite <-(take_drop (length bs) w) at 1. f_equal.
    apply (f_equal (take (length bs))) in Hw1.
    by rewrite take_app_length, take_app_le in Hw1 by (unfold zsize in *; lia). }
  rewrite <-app_assoc in Hw1. apply app_inv_head in Hw1.
  rewrite overwrite_app, app_assoc.
  replace (zsize pre + zsize bs) with (zsize (pre ++ bs)) by by zs.
  destruct (IH (pre ++ bs) (drop (length bs) rest) b1 w2) as (b' & E' & Hi & Ho & Hd' & Ha');
    [done|done|zs; unfold zsize in *; lia|rewrite length_drop; unfold zsize in *; lia|].
  exists b'. rewrite E', <-app_assoc. split_and!; [|done|congruence|done|tauto].
  do 4 f_equal. zs. unfold zsize in *. lia.
Qed.

Lemma recvExact_ok l b buffer w tl :
  tcp_backend_ l = Some b → delivering b → wire_in b = w ++ tl → zsize w = zsize buffer →
  ∃ b', recvExact_ buffer l = Ret (Ok (zsize w), w, set_tcp_backend_ (Some b') l) ∧
    wire_in b' = tl ∧ wire_out b' = wire_out b ∧ delivering b' ∧
    (accepting b → accepting b').
Proof.
  intros Hb Hd Hw Hs. unfold recvExact_. rewrite Hb.
  destruct (recv_exact_loop_ok (S (length buffer)) [] buffer b w tl) as (b' & E & Hb');
    [done..|lia|].
  cbn [app] in E. change (zsize []) with 0 in E. rewrite E, bind_ret.
  exists b'. split; [by rewrite Z.add_0_l, Hs|done].
Qed.

Lemma ignore_loop_ok fuel n b w tl :
  delivering b → wire_in b = w ++ tl → zsize w = n → n < 2 ^ 64 → n < Z.of_nat fuel →
  ∃ m b' w', ignore_loop fuel n b = Ret (Ok m, b') ∧ wire_in b' = w' ++ tl ∧ zsize w' = m ∧
    wire_out b' = wire_out b ∧ delivering b' ∧ (accepting b → accepting b') ∧
    0 ≤ m ≤ 16 ∧ (n = 0 → m = 0).
Proof.
  revert n b w. induction fuel as [|fuel IH]; intros n b w Hd Hw Hs Hn Hf;
    pose proof (zsize_nonneg w); [lia|].
  cbn [ignore_loop]. destruct (Z.ltb_spec 16 n); [|exists n, b, w; split_and!; done || lia].
  destruct (recvSome_delivers 16 b) as (bs & b1 & E1 & Hne & Hd1 & Ha1);
    [lia|done|rewrite Hw; intros [-> _]%app_nil; zs; lia|].
  destruct (recvSome_ok 16 b bs b1 ltac:(lia) E1) as (Hw1 & Hn1 & Ho1).
  rewrite E1, bind_ret. pose proof (zsize_pos bs Hne).
  destruct (Z.eqb_spec (zsize bs) 0); [lia|]. rewrite Hw in Hw1.
  assert (∃ w2, w = bs ++ w2) as [w2 ->].
  { exists (drop (length bs) w). rewrite <-(take_drop (length bs) w) at 1. f_equal.
    apply (f_equal (take (length bs))) in Hw1.
    by rewrite take_app_length, take_app_le in Hw1 by (unfold zsize in *; lia). }
  rewrite <-app_assoc in Hw1. apply app_inv_head in Hw1. rewrite zsize_app in *.
  unfold u64. rewrite Z.mod_small by lia.
  destruct (IH (n - zsize bs) b1 w2) as (m & b' & w' & E' & Hi & Hz & Ho & Hd' & Ha' & Hm & _);
    [done|done|lia|lia|lia|].
  exists m, b', w'. split_and!; try done || lia; [congruence|tauto].
Qed.

Lemma ignoreNBytes_ok fuel l b w tl :
  tcp_backend_ l = Some b → delivering b → wire_in b = w ++ tl →
  zsize w < 2 ^ 64 → zsize w < Z.of_nat fuel →
  ∃ b', ignoreNBytes_ fuel (zsize w) l = Ret (Ok (zsize w), set_tcp_backend_ (Some b') l) ∧
    wire_in b' = tl ∧ wire_out b' = wire_out b ∧ delivering b' ∧
    (accepting b → accepting b').
Proof.
  intros Hb Hd Hw Hs Hf. unfold ignoreNBytes_. rewrite Hb.
  destruct (ignore_loop_ok fuel (zsize w) b w tl) as
    (m & b1 & w1 & E & Hi & Hz & Ho & Hd1 & Ha1 & Hm & _); [done..|]. rewrite E, bind_ret.
  destruct (Z.ltb_spec 0 m).
  - destruct (recvExact_ok (set_tcp_backend_ (Some b1) l) b1 (replicate (Z.to_nat m) 0) w1 tl)
      as (b2 & E2 & Hi2 & Ho2 & Hd2 & Ha2); [done..|zs; lia|].
    rewrite E2, bind_ret. exists b2. split_and!; [done|done|congruence|done|tauto].
  - destruct w1; [|zs; pose proof (zsize_nonneg w1); lia].
    exists b1. by split_and!.
Qed.
End facts.
