(* ===== verification/FramingTheorems.v ===== *)
(** * Frames: reassembly and emission

    What a node receives from a stream of frames, and what it puts on the
    wire.  The stream is described by [segment]s, the reference semantics of
    the receive loop is [collect]. *)

From S2P Require Import Prelude Crc PacketTypes PacketBuilder PacketParser PacketParserFacts PacketTheorems TcpBackend Framing FramingFacts.
#[local] Open Scope Z_scope.

(** ** The stream in front of the last frame of a packet *)

Inductive segment :=
| Fragment (x y : Z) (d : list Z)     (* type 0x02: the packet goes on *)
| Erroneous (x y : Z) (d : list Z)    (* type 0x01: the packet is dropped *)
| TimeCode (t c : Z).                 (* types 0x30 and 0x31 *)

Definition segment_type (s : segment) : Z :=
  match s with Fragment _ _ _ => 0x02 | Erroneous _ _ _ => 0x01 | TimeCode t _ => t end.

Definition segment_data (s : segment) : list Z :=
  match s with Fragment _ _ d => d | Erroneous _ _ d => d | TimeCode _ c => [c; 0] end.

Definition segment_bytes (s : segment) : list Z :=
  match s with
  | Fragment x y d => frame 0x02 x y d
  | Erroneous x y d => frame 0x01 x y d
  | TimeCode t c => frame t 0 0 [c; 0]
  end.

Definition segment_wf (s : segment) : Prop :=
  match s with
  | Fragment _ _ d | Erroneous _ _ d => d ≠ [] ∧ zsize d < 2 ^ 64
  | TimeCode t _ => t = 0x30 ∨ t = 0x31
  end.

(** The bytes of the current packet after a segment. *)
Definition collect (acc : list Z) (s : segment) : list Z :=
  match s with
  | Fragment _ _ d => acc ++ d
  | Erroneous _ _ _ => []
  | TimeCode _ _ => acc
  end.

(** Every segment, and the last frame [d], finds room in [cap] bytes. *)
Fixpoint room (cap : Z) (acc : list Z) (segs : list segment) (d : list Z) : Prop :=
  match segs with
  | [] => zsize acc + zsize d ≤ cap
  | s :: segs => zsize acc + zsize (segment_data s) ≤ cap ∧ room cap (collect acc s) segs d
  end.

Definition stream (segs : list segment) : list Z := mjoin (segment_bytes <$> segs).

Section receive.
Context {B : Type} `{TcpBackendLaws B} (alloc_limit : Z).
Context (alloc_range : alloc_limit < 2 ^ 64).
Implicit Types (b : B) (l : link B).

(** The size a buffer may reach. *)
Definition buffer_cap (policy : BufferPolicy) (size : Z) : Z :=
  match policy with Fixed => size | AutoResize => Z.max size alloc_limit end.

(** The link [l] with another receive buffer and backend state. *)
Definition at_ l (buf : list Z) b : link B := set_recv_buf_ buf (set_tcp_backend_ (Some b) l).

(** [b'] is [b] after the node has read [w]. *)
Definition consumed b w b' : Prop :=
  ∃ tl, wire_in b = w ++ tl ∧ wire_in b' = tl ∧ wire_out b' = wire_out b ∧ delivering b' ∧
    (accepting b → accepting b').

Lemma consumed_trans b w b1 w1 b2 : consumed b w b1 → consumed b1 w1 b2 → consumed b (w ++ w1) b2.
Proof.
  intros (tl & E & E1 & Ho & _ & Ha) (tl1 & E2 & E3 & Ho1 & Hd & Ha1).
  exists tl1. split_and!; [by rewrite E, <-app_assoc, <-E2, E1|done|congruence|done|tauto].
Qed.

Lemma recvExact_at l buf b buffer w tl :
  delivering b → wire_in b = w ++ tl → zsize w = zsize buffer →
  ∃ b', recvExact_ buffer (at_ l buf b) = Ret (Ok (zsize w), w, at_ l buf b') ∧
    consumed b w b' ∧ wire_in b' = tl.
Proof.
  intros Hd Hw Hs.
  destruct (recvExact_ok (at_ l buf b) b buffer w tl) as (b' & E & Hi & Ho & Hd' & Ha); [done..|].
  exists b'. split; [exact E|]. split; [|done]. exists tl. by split_and!.
Qed.

Lemma recv_data_at l acc junk b d tl :
  delivering b → wire_in b = d ++ tl → zsize d ≤ zsize junk →
  ∃ b', recv_data (zsize acc) (zsize junk) (zsize d) (at_ l (acc ++ junk) b)
        = Ret (Ok (zsize d), at_ l ((acc ++ d) ++ drop (length d) junk) b') ∧
    consumed b d b' ∧ wire_in b' = tl.
Proof.
  intros Hd Hw Hs. unfold recv_data.
  destruct (Z.ltb_spec (zsize junk) (zsize d)); [lia|].
  assert (E0 : subspan (acc ++ junk) (zsize acc) (zsize d) = Ret (take (length d) junk)).
  { apply (subspan_eq _ acc _ (drop (length d) junk)); [by rewrite take_drop|done|].
    zs. unfold zsize in *. lia. }
  cbn [recv_buf_ at_ set_recv_buf_]. rewrite E0, bind_ret.
  destruct (recvExact_at l (acc ++ junk) b (take (length d) junk) d tl)
    as (b' & E & Hb'); [done..|zs; unfold zsize in *; lia|].
  rewrite E, bind_ret. exists b'. split; [|done]. do 2 f_equal.
  unfold at_. cbn [recv_buf_ set_recv_buf_]. by rewrite overwrite_app, app_assoc.
Qed.

Lemma grow_recv_buffer_at l acc junk b n :
  0 < n → zsize acc + n ≤ buffer_cap (buffer_policy_ l) (zsize (acc ++ junk)) →
  ∃ junk', grow_recv_buffer alloc_limit (zsize acc) n (zsize acc) (zsize junk)
             (at_ l (acc ++ junk) b)
           = Ret (Some (zsize acc, zsize junk', at_ l (acc ++ junk') b)) ∧
    n ≤ zsize junk' ∧
    buffer_cap (buffer_policy_ l) (zsize (acc ++ junk)) =
    buffer_cap (buffer_policy_ l) (zsize (acc ++ junk')).
Proof.
  intros Hn Hc. unfold grow_recv_buffer. pose proof (zsize_nonneg acc).
  destruct (Z.ltb_spec (zsize junk) n); [|by exists junk].
  cbn [at_ buffer_policy_ set_recv_buf_ set_tcp_backend_ recv_buf_].
  unfold buffer_cap in *. destruct (buffer_policy_ l); zs; [lia|].
  unfold u64. rewrite Z.mod_small by lia. unfold vector_resize.
  destruct (Z.leb_spec (zsize acc + n) alloc_limit); [|lia]. rewrite bind_ret.
  assert (E : resize_bytes (acc ++ junk) (zsize acc + n) =
    acc ++ junk ++ replicate (Z.to_nat (n - zsize junk)) 0).
  { unfold resize_bytes. rewrite resize_ge by (rewrite length_app; unfold zsize in *; lia).
    rewrite <-app_assoc. do 3 f_equal. rewrite length_app. unfold zsize in *. lia. }
  rewrite E, subspan_from_app, bind_ret. eexists. split; [done|]. zs. lia.
Qed.

(** One round of the receive loop in front of a frame. *)
Lemma recv_round fuel l acc junk b t x y n tl :
  valid_type t = true → 0 < n < 2 ^ 64 → delivering b →
  wire_in b = frame_header t x y n ++ tl →
  zsize acc + n ≤ buffer_cap (buffer_policy_ l) (zsize (acc ++ junk)) →
  ∃ b' junk',
    recv_loop alloc_limit (S fuel) (zsize acc) (zsize acc) (zsize junk) (at_ l (acc ++ junk) b) =
    (let l := at_ l (acc ++ junk') b' in
     let off := zsize acc in let len := zsize junk' in
     if t =? 0x00 then
       '(res, l) ← recv_data off len n l;
       match res with
       | Unexpected e => Ret (Unexpected e, l)
       | Ok k => finish_packet (zsize acc + k) l
       end
     else if t =? 0x01 then
       '(res, l) ← ignoreNBytes_ fuel n l;
       match res with
       | Unexpected e => Ret (Unexpected e, l)
       | Ok _ => recv_loop alloc_limit fuel 0 0 (zsize (recv_buf_ l)) l
       end
     else if t =? 0x02 then
       '(res, l) ← recv_data off len n l;
       match res with
       | Unexpected e => Ret (Unexpected e, l)
       | Ok k => recv_loop alloc_limit fuel (zsize acc + k) (off + n) (len - n) l
       end
     else
       if negb (bool_decide ([x; y] ++ be_split 8 n = timecode_header))
       then Ret (Unexpected (generic bad_message), l) else
       '(res, tc, l) ← recvExact_ (replicate 2 0) l;
       match res with
       | Unexpected e => Ret (Unexpected e, l)
       | Ok _ =>
           tc1 ← rd tc 1;
           if negb (tc1 =? 0x00) then Ret (Unexpected (generic bad_message), l)
           else recv_loop alloc_limit fuel (zsize acc) off len l
       end) ∧
    n ≤ zsize junk' ∧
    buffer_cap (buffer_policy_ l) (zsize (acc ++ junk)) =
    buffer_cap (buffer_policy_ l) (zsize (acc ++ junk')) ∧
    consumed b (frame_header t x y n) b' ∧ wire_in b' = tl.
Proof.
  intros Ht Hn Hd Hw Hc. cbn [recv_loop].
  destruct (recvExact_at l (acc ++ junk) b (replicate 12 0) (frame_header t x y n) tl)
    as (b' & E & Hb' & Htl); [done..|].
  destruct (grow_recv_buffer_at l acc junk b' n) as (junk' & E' & Hj & Hcap); [lia|done|].
  exists b', junk'. rewrite E, bind_ret. rewrite zsize_frame_header.
  change (12 =? 0) with false. cbv iota.
  change (rd (frame_header t x y n) 0) with (Ret t). rewrite bind_ret, Ht. cbn [negb].
  change (rd (frame_header t x y n) 1) with (Ret 0). rewrite bind_ret. cbn [negb Z.eqb].
  rewrite calculateDataLength_frame, bind_ret by lia.
  destruct (Z.eqb_spec n 0); [lia|]. rewrite E', bind_ret. by split_and!.
Qed.

Lemma segment_cons s segs tl : stream (s :: segs) ++ tl = segment_bytes s ++ stream segs ++ tl.
Proof. unfold stream. cbn [fmap list_fmap mjoin list_join]. by rewrite <-app_assoc. Qed.

Lemma segment_shape s :
  ∃ x y, segment_bytes s =
    frame_header (segment_type s) x y (zsize (segment_data s)) ++ segment_data s.
Proof. destruct s as [x y d|x y d|t c]; [by exists x, y..|by exists 0, 0]. Qed.

(** A segment is read, and leaves the packet collected so far in front of
    the receive buffer. *)
Lemma recv_segment fuel l acc junk b s tl :
  segment_wf s → delivering b → wire_in b = segment_bytes s ++ tl →
  zsize acc + zsize (segment_data s) ≤ buffer_cap (buffer_policy_ l) (zsize (acc ++ junk)) →
  zsize (segment_bytes s) ≤ Z.of_nat fuel →
  ∃ b' junk', let acc' := collect acc s in
    recv_loop alloc_limit (S fuel) (zsize acc) (zsize acc) (zsize junk) (at_ l (acc ++ junk) b) =
    recv_loop alloc_limit fuel (zsize acc') (zsize acc') (zsize junk') (at_ l (acc' ++ junk') b') ∧
    buffer_cap (buffer_policy_ l) (zsize (acc ++ junk)) =
    buffer_cap (buffer_policy_ l) (zsize (acc' ++ junk')) ∧
    consumed b (segment_bytes s) b' ∧ wire_in b' = tl.
Proof.
  intros Hwf Hd Hw Hc Hf. destruct (segment_shape s) as (x & y & Es).
  rewrite Es, <-app_assoc in Hw. rewrite Es in Hf |- *.
  assert (Hn : 0 < zsize (segment_data s) < 2 ^ 64).
  { destruct s; cbn in Hwf |- *; [split; [by apply zsize_pos, Hwf|by apply Hwf]..|done]. }
  assert (Ht : valid_type (segment_type s) = true) by (destruct s; cbn in Hwf |- *; [done..|by destruct Hwf as [-> | ->]]).
  edestruct (recv_round fuel l acc junk b)
    as (b1 & junk1 & -> & Hj & Hcap & Hb1 & Hw1); [exact Ht|exact Hn|exact Hd|exact Hw|exact Hc|].
  assert (Hd1 : delivering b1) by by destruct Hb1 as (? & ? & ? & ? & ? & ?).
  destruct s as [xx yy d|xx yy d|t c]; cbn [segment_type segment_data collect] in *.
  - destruct (recv_data_at l acc junk1 b1 d tl) as (b2 & E2 & Hb2 & Hw2); [done..|].
    cbn [Z.eqb Pos.eqb]. cbv zeta. rewrite E2, bind_ret.
    exists b2, (drop (length d) junk1). split_and!; [|rewrite Hcap| |done].
    + f_equal; zs; unfold zsize in *; lia.
    + f_equal. zs. unfold zsize in *. lia.
    + by eapply consumed_trans.
  - assert (zsize d < Z.of_nat fuel) by (zs; lia).
    destruct Hb1 as (tl1 & Hb1). destruct Hb1 as (Hi1 & Hi1' & Ho1 & _ & Ha1). subst tl1.
    destruct (ignoreNBytes_ok fuel (at_ l (acc ++ junk1) b1) b1 d tl)
      as (b2 & E2 & Hi2 & Ho2 & Hd2 & Ha2); [done|done|done|lia|done|].
    cbn [Z.eqb Pos.eqb]. cbv zeta. rewrite E2, bind_ret.
    exists b2, (acc ++ junk1). split_and!; [done|done| |done].
    exists tl. split_and!; [|done|congruence|done|tauto].
    rewrite <-app_assoc. by rewrite Hi1, Hw1.
  - destruct (recvExact_at l (acc ++ junk1) b1 (replicate 2 0) [c; 0] tl)
      as (b2 & E2 & Hb2 & Hw2); [done..|].
    assert (x = 0 ∧ y = 0) as [-> ->] by (by injection Es).
    assert (negb (bool_decide ([0; 0] ++ be_split 8 (zsize [c; 0]) = timecode_header)) = false)
      as -> by reflexivity.
    exists b2, junk1. split_and!; [|done| |done].
    + cbv zeta. rewrite E2. destruct Hwf as [-> | ->]; reflexivity.
    + by eapply consumed_trans.
Qed.

(** The receive loop over a stream of segments and a last frame. *)
Lemma recv_loop_stream segs fuel l acc junk b x y d tl :
  delivering b → wire_in b = stream segs ++ frame 0x00 x y d ++ tl →
  Forall segment_wf segs → d ≠ [] → zsize d < 2 ^ 64 →
  room (buffer_cap (buffer_policy_ l) (zsize (acc ++ junk))) acc segs d →
  zsize (stream segs) + zsize (frame 0x00 x y d) < Z.of_nat fuel →
  ∃ b' junk', let pkt := fold_left collect segs acc ++ d in
    recv_loop alloc_limit fuel (zsize acc) (zsize acc) (zsize junk) (at_ l (acc ++ junk) b) =
    finish_packet (zsize pkt) (at_ l (pkt ++ junk') b') ∧
    consumed b (stream segs ++ frame 0x00 x y d) b' ∧ wire_in b' = tl.
Proof.
  intros Hd Hw Hwf Hne Hn. revert fuel acc junk b Hd Hw.
  induction Hwf as [|s segs Hs Hwf IH]; intros fuel acc junk b Hd Hw Hroom Hf;
    (destruct fuel as [|fuel]; [unfold zsize in Hf; lia|]).
  - cbn [stream fmap list_fmap mjoin list_join app fold_left] in *.
    unfold frame in Hw. rewrite <-app_assoc in Hw.
    pose proof (zsize_pos d Hne).
    destruct (recv_round fuel l acc junk b 0 x y (zsize d) _ eq_refl ltac:(lia) Hd Hw Hroom)
      as (b1 & junk1 & -> & Hj & Hcap & Hb1 & Hw1).
    assert (Hd1 : delivering b1) by by destruct Hb1 as (? & ? & ? & ? & ? & ?).
    destruct (recv_data_at l acc junk1 b1 d tl) as (b2 & E2 & Hb2 & Hw2); [done..|].
    cbn [Z.eqb]. cbv zeta. rewrite E2, bind_ret.
    exists b2, (drop (length d) junk1). split_and!; [by rewrite zsize_app| |done].
    by eapply consumed_trans.
  - rewrite segment_cons in Hw. destruct Hroom as [Hr1 Hr2].
    assert (Ez : zsize (stream (s :: segs)) = zsize (segment_bytes s) + zsize (stream segs))
      by (unfold stream; cbn [fmap list_fmap mjoin list_join]; by zs).
    pose proof (zsize_nonneg (stream segs)). pose proof (zsize_nonneg (frame 0 x y d)).
    destruct (recv_segment fuel l acc junk b s _ Hs Hd Hw Hr1)
      as (b1 & junk1 & -> & Hcap & Hb1 & Hw1); [lia|].
    assert (Hd1 : delivering b1) by by destruct Hb1 as (? & ? & ? & ? & ? & ?).
    assert (12 ≤ zsize (segment_bytes s)).
    { destruct (segment_shape s) as (x' & y' & ->). zs. pose proof (zsize_nonneg (segment_data s)). lia. }
    destruct (IH fuel (collect acc s) junk1 b1) as (b2 & junk2 & E2 & Hb2 & Hw2);
      [done|done|by rewrite <-Hcap|lia|].
    exists b2, junk2. split_and!; [exact E2| |done].
    rewrite segment_cons. by eapply consumed_trans.
Qed.

(** [recvAndParseOnePacket_] of a well-formed stream: the parser gets the
    reassembled packet, the frames are consumed, and the receive buffer alone
    has changed besides the parser's packet. *)
Lemma recv_packet_stream segs fuel l b x y d tl :
  tcp_backend_ l = Some b → delivering b →
  wire_in b = stream segs ++ frame 0x00 x y d ++ tl →
  Forall segment_wf segs → d ≠ [] → zsize d < 2 ^ 64 →
  room (buffer_cap (buffer_policy_ l) (zsize (recv_buf_ l))) [] segs d →
  zsize (stream segs) + zsize (frame 0x00 x y d) < Z.of_nat fuel →
  let pkt := fold_left collect segs [] ++ d in
  ∃ b' junk,
    recvAndParseOnePacket_ alloc_limit fuel l =
    ('(st, p) ← parse pkt (packet_parser_ l);
     Ret (if decide (st = Success) then Ok (zsize pkt) else Unexpected (make_error_code st),
          set_packet_parser_ p (at_ l (pkt ++ junk) b'))) ∧
    consumed b (stream segs ++ frame 0x00 x y d) b' ∧ wire_in b' = tl.
Proof.
  intros Hb Hd Hw Hwf Hne Hn Hroom Hf pkt. unfold recvAndParseOnePacket_. rewrite Hb.
  destruct (recv_loop_stream segs fuel l [] (recv_buf_ l) b x y d tl)
    as (b' & junk & E & Hb'); [done..|].
  replace (at_ l ([] ++ recv_buf_ l) b) with l in E by (destruct l; cbn in *; by subst).
  change (zsize (@nil Z)) with 0 in E. exists b', junk. rewrite E. split; [|done].
  unfold finish_packet. fold pkt. cbn [recv_buf_ at_ set_recv_buf_].
  rewrite (subspan_eq _ [] pkt junk) by done. rewrite bind_ret.
  change (packet_parser_ (at_ l (pkt ++ junk) b')) with (packet_parser_ l).
  destruct (parse pkt (packet_parser_ l)) as [[st p]| | |]; [|done..].
  cbn [mbind outcome_bind]. by destruct (decide (st = Success)).
Qed.
End receive.

(** ** Sending *)

Section send.
Context {B : Type} `{TcpBackendLaws B} (alloc_limit : Z).
Implicit Types (b : B) (l : link B).

(** The packet [pkt] is handed to the backend as one frame, out of a send
    buffer that starts with it. *)
Definition transmit (pkt : list Z) l b : outcome (expected unit * link B) :=
  '(res, b) ← sendAll (frame 0 0 0 pkt) b;
  Ret (res, set_tcp_backend_ (Some b)
    (set_send_buf_ (frame 0 0 0 pkt ++ drop (length (frame 0 0 0 pkt)) (send_buf_ l)) l)).

(** A link whose send buffer has [n] bytes. *)
Definition grown (n : Z) l : link B := set_send_buf_ (resize_bytes (send_buf_ l) n) l.

(** What a builder does in a buffer of enough bytes, and of too few. *)
Definition builds (build : list Z → outcome (expected Z * list Z)) (pkt : list Z) : Prop :=
  ∀ out, build out =
    if zsize out <? zsize pkt then Ret (Unexpected (generic no_buffer_space), out)
    else built out pkt.

Lemma build_into_small build pkt l :
  builds build pkt → 12 ≤ zsize (send_buf_ l) < zsize pkt + 12 →
  build_into build l = Ret (Unexpected (generic no_buffer_space), l).
Proof.
  intros Hb Hs. unfold build_into, subspan_from. rewrite decide_True by lia.
  rewrite bind_ret, Hb. destruct (Z.ltb_spec (zsize (drop (Z.to_nat 12) (send_buf_ l))) (zsize pkt));
    [|zs; lia].
  rewrite bind_ret. change (Z.to_nat 12) with 12%nat. rewrite take_drop. by destruct l.
Qed.

(** The link after a packet has been built behind the header's place. *)
Definition with_packet (pkt : list Z) l : link B :=
  set_send_buf_ (take 12 (send_buf_ l) ++ pkt ++ drop (length pkt) (drop 12 (send_buf_ l))) l.

Lemma build_into_ok build pkt l :
  builds build pkt → zsize pkt + 12 ≤ zsize (send_buf_ l) →
  build_into build l = Ret (Ok (zsize pkt), with_packet pkt l).
Proof.
  intros Hb Hs. pose proof (zsize_nonneg pkt). unfold build_into, subspan_from.
  rewrite decide_True by lia. change (Z.to_nat 12) with 12%nat. rewrite bind_ret, Hb.
  by destruct (Z.ltb_spec (zsize (drop 12 (send_buf_ l))) (zsize pkt)); [zs; lia|].
Qed.

Lemma zsize_with_packet pkt l :
  zsize pkt + 12 ≤ zsize (send_buf_ l) →
  zsize (send_buf_ (with_packet pkt l)) = zsize (send_buf_ l).
Proof.
  intros Hs. unfold with_packet. cbn [send_buf_ set_send_buf_]. zs. unfold zsize in *. lia.
Qed.

Lemma ensure_send_buffer_enough n l :
  n ≤ zsize (send_buf_ l) → ensure_send_buffer alloc_limit n l = Ret (Some l).
Proof. intros. unfold ensure_send_buffer. by destruct (Z.ltb_spec (zsize (send_buf_ l)) n); [lia|]. Qed.

Lemma send_with_packet pkt l b :
  tcp_backend_ l = Some b → zsize pkt + 12 ≤ zsize (send_buf_ l) → zsize pkt < 2 ^ 63 →
  send_ (zsize pkt) (with_packet pkt l) = transmit pkt l b.
Proof.
  intros Htcp Hs Hmax. pose proof (zsize_nonneg pkt).
  unfold send_, with_packet. cbn [set_send_buf_ send_buf_].
  pose proof (wr_seq_app [] (take 12 (send_buf_ l)) (pkt ++ drop (length pkt) (drop 12 (send_buf_ l)))
    (send_header (zsize pkt))) as E. cbn [app] in E. change (zsize (@nil Z)) with 0 in E.
  rewrite E by (rewrite length_take; change (length (send_header _)) with 12%nat;
    unfold zsize in *; lia).
  rewrite bind_ret, send_header_frame. unfold u64. rewrite Z.mod_small by lia.
  rewrite app_assoc. change (frame_header 0 0 0 (zsize pkt) ++ pkt) with (frame 0 0 0 pkt).
  rewrite (subspan_eq _ [] (frame 0 0 0 pkt) (drop (length pkt) (drop 12 (send_buf_ l))));
    [|done|done|unfold frame; zs; lia].
  rewrite bind_ret. cbn [tcp_backend_ set_send_buf_]. rewrite Htcp. unfold transmit.
  by rewrite drop_drop.
Qed.

(** Room, then the packet: the three outcomes of answering a command. *)
Lemma send_reply_spec n build pkt l b :
  builds build pkt → zsize pkt = n → n < 2 ^ 63 → tcp_backend_ l = Some b →
  send_reply alloc_limit n build l =
  if zsize (send_buf_ l) <? n + 12 then
    match buffer_policy_ l with
    | Fixed => Ret (Unexpected (generic no_buffer_space), l)
    | AutoResize => if n + 12 <=? alloc_limit then transmit pkt (grown (n + 12) l) b else Abort
    end
  else transmit pkt l b.
Proof.
  intros Hb <- Hmax Htcp. unfold send_reply, ensure_send_buffer. pose proof (zsize_nonneg pkt).
  destruct (Z.ltb_spec (zsize (send_buf_ l)) (zsize pkt + 12)).
  - destruct (buffer_policy_ l); [done|]. unfold vector_resize.
    destruct (Z.leb_spec (zsize pkt + 12) alloc_limit); [|done]. rewrite !bind_ret.
    assert (zsize pkt + 12 ≤ zsize (send_buf_ (grown (zsize pkt + 12) l))).
    { cbn. unfold resize_bytes, zsize at 2. rewrite length_resize. lia. }
    change (set_send_buf_ _ l) with (grown (zsize pkt + 12) l).
    rewrite (build_into_ok _ pkt) by done. by apply send_with_packet.
  - rewrite bind_ret, (build_into_ok _ pkt) by done. by apply send_with_packet.
Qed.

Lemma transmit_accepting pkt l b :
  accepting b →
  ∃ b' l', transmit pkt l b = Ret (Ok tt, l') ∧ tcp_backend_ l' = Some b' ∧
    wire_out b' = wire_out b ++ frame 0 0 0 pkt ∧ wire_in b' = wire_in b ∧ accepting b' ∧
    (delivering b → delivering b') ∧
    zsize (send_buf_ l') = Z.max (zsize (send_buf_ l)) (zsize pkt + 12) ∧
    l' = set_tcp_backend_ (Some b') (set_send_buf_ (send_buf_ l') l).
Proof.
  intros Ha. unfold transmit.
  destruct (sendAll_accepts (frame 0 0 0 pkt) b Ha) as (b' & E & Ha' & Hd').
  destruct (sendAll_ok _ _ _ E) as [Ho Hi]. rewrite E, bind_ret.
  do 2 eexists. split_and!; try done. cbn [send_buf_ set_tcp_backend_ set_send_buf_].
  rewrite zsize_app, zsize_drop. fold (zsize (frame 0 0 0 pkt)).
  unfold frame. zs. pose proof (zsize_nonneg pkt). unfold frame_header. simpl length. lia.
Qed.

(** ** The node's packets *)

Implicit Types (t : TargetNodeBase).

Definition read_size t : Z :=
  zsize (getTargetSpaceWireAddress t) + 4 + (zsize (getReplyAddress t) + 3) / 4 * 4 + 12.
Definition write_size t (data : list Z) : Z := read_size t + zsize data + 1.

Lemma builds_read t tid addr len l :
  zsize (getReplyAddress t) ≤ 12 → read_size t ≤ INT_MAX →
  builds (ReadPacketBuilder.build (read_config t tid addr len l))
    (encode_read (read_config t tid addr len l)).
Proof.
  intros Hr Hm out. rewrite read_build_spec by done. rewrite zsize_encode_read.
  cbn [ReadPacketConfig.replyAddress read_config].
  by destruct (Z.ltb_spec 12 (zsize (getReplyAddress t))); [lia|].
Qed.

Lemma builds_write t tid addr data l :
  zsize (getReplyAddress t) ≤ 12 → write_size t data ≤ INT_MAX →
  builds (WritePacketBuilder.build (write_config t tid addr data l))
    (encode_write (write_config t tid addr data l)).
Proof.
  intros Hr Hm out. rewrite write_build_spec by done. rewrite zsize_encode_write.
  cbn [WritePacketConfig.replyAddress write_config].
  by destruct (Z.ltb_spec 12 (zsize (getReplyAddress t))); [lia|].
Qed.

Lemma builds_read_reply p data :
  ReadReplyPacketBuilder.getTotalSize (read_reply_config p data) ≤ INT_MAX →
  builds (ReadReplyPacketBuilder.build (read_reply_config p data))
    (encode_read_reply (read_reply_config p data)).
Proof. intros Hm out. by rewrite read_reply_build_spec, zsize_encode_read_reply. Qed.

Lemma builds_write_reply p :
  WriteReplyPacketBuilder.getTotalSize (write_reply_config p) ≤ INT_MAX →
  builds (WriteReplyPacketBuilder.build (write_reply_config p))
    (encode_write_reply (write_reply_config p)).
Proof. intros Hm out. by rewrite write_reply_build_spec, zsize_encode_write_reply. Qed.

Lemma size_read_config t tid addr len l :
  ReadPacketBuilder.getTotalSize (read_config t tid addr len l) = read_size t.
Proof. done. Qed.

Lemma size_write_config t tid addr data l :
  WritePacketBuilder.getTotalSize (write_config t tid addr data l) = write_size t data.
Proof.
  unfold write_size, read_size, WritePacketBuilder.getTotalSize.
  cbn [WritePacketConfig.targetSpaceWireAddress WritePacketConfig.replyAddress
    WritePacketConfig.data write_config]. lia.
Qed.

(** A write goes out like a reply: room for exactly its packet. *)
Lemma sendWritePacket_as_send t tid addr data l b :
  tcp_backend_ l = Some b →
  sendWritePacket_ alloc_limit t tid addr data l =
  send_reply alloc_limit (write_size t data)
    (WritePacketBuilder.build (write_config t tid addr data l)) l.
Proof.
  intros Htcp. unfold sendWritePacket_, send_reply. rewrite Htcp.
  replace (_ + 1 + zsize data + 12) with (write_size t data + 12)
    by (unfold write_size, read_size; lia).
  unfold ensure_send_buffer.
  destruct (zsize (send_buf_ l) <? write_size t data + 12).
  - destruct (buffer_policy_ l); [done|]. destruct (vector_resize _ _ _); [|done..].
    rewrite !bind_ret. by rewrite size_write_config.
  - rewrite !bind_ret. by rewrite size_write_config.
Qed.

(** In a buffer of enough bytes a read goes out as it is. *)
Lemma sendReadPacket_roomy t tid addr len l b :
  tcp_backend_ l = Some b → zsize (getReplyAddress t) ≤ 12 → read_size t ≤ INT_MAX →
  read_size t + 12 ≤ zsize (send_buf_ l) →
  sendReadPacket_ alloc_limit t tid addr len l =
  transmit (encode_read (read_config t tid addr len l)) l b.
Proof.
  intros Htcp Hr Hm Hs. unfold sendReadPacket_. rewrite Htcp. cbv zeta.
  pose proof (builds_read t tid addr len l Hr Hm) as Hb.
  set (pkt := encode_read (read_config t tid addr len l)) in *.
  assert (Hz : zsize pkt = read_size t) by apply zsize_encode_read.
  rewrite ensure_send_buffer_enough by (unfold read_size in Hs; lia). rewrite bind_ret.
  rewrite (build_into_ok _ pkt), bind_ret by (done || lia). rewrite !size_read_config.
  rewrite ensure_send_buffer_enough by (rewrite zsize_with_packet; lia).
  rewrite bind_ret, <-Hz. apply send_with_packet; [done|lia|unfold INT_MAX in *; lia].
Qed.

(** The backend of [l'] has sent the frame of [pkt] after what [b] sent. *)
Definition sent_frame (pkt : list Z) b l l' : Prop :=
  ∃ b', tcp_backend_ l' = Some b' ∧ wire_out b' = wire_out b ++ frame 0 0 0 pkt ∧
    wire_in b' = wire_in b ∧ accepting b' ∧ (delivering b → delivering b') ∧
    zsize (send_buf_ l) ≤ zsize (send_buf_ l') ∧
    l' = set_tcp_backend_ (Some b') (set_send_buf_ (send_buf_ l') l).

Lemma transmit_sent pkt l b :
  accepting b → ∃ l', transmit pkt l b = Ret (Ok tt, l') ∧ sent_frame pkt b l l'.
Proof.
  intros Ha. destruct (transmit_accepting pkt l b Ha) as (b' & l' & E & Ht & Ho & Hi & Ha' & Hd & Hz & El).
  exists l'. split; [done|]. exists b'. split_and!; try done. lia.
Qed.

Lemma send_reply_sent n build pkt l b :
  builds build pkt → zsize pkt = n → n < 2 ^ 63 → tcp_backend_ l = Some b → accepting b →
  n + 12 ≤ buffer_cap alloc_limit (buffer_policy_ l) (zsize (send_buf_ l)) →
  ∃ l', send_reply alloc_limit n build l = Ret (Ok tt, l') ∧ sent_frame pkt b l l'.
Proof.
  intros Hb Hn Hm Ht Ha Hc. rewrite (send_reply_spec _ _ pkt l b) by done. unfold buffer_cap in Hc.
  destruct (Z.ltb_spec (zsize (send_buf_ l)) (n + 12)); [|by apply transmit_sent].
  destruct (buffer_policy_ l); [lia|]. destruct (Z.leb_spec (n + 12) alloc_limit); [|lia].
  destruct (transmit_sent pkt (grown (n + 12) l) b Ha) as (l' & E & b' & ? & ? & ? & ? & ? & Hz & El).
  exists l'. split; [done|]. exists b'. split_and!; try done.
  cbn in Hz. unfold resize_bytes, zsize in *. rewrite length_resize in Hz. lia.
Qed.

Lemma sendWritePacket_sent t tid addr data l b :
  tcp_backend_ l = Some b → accepting b → zsize (getReplyAddress t) ≤ 12 →
  write_size t data ≤ INT_MAX →
  write_size t data + 12 ≤ buffer_cap alloc_limit (buffer_policy_ l) (zsize (send_buf_ l)) →
  ∃ l', sendWritePacket_ alloc_limit t tid addr data l = Ret (Ok tt, l') ∧
    sent_frame (encode_write (write_config t tid addr data l)) b l l'.
Proof.
  intros Ht Ha Hr Hm Hc. rewrite (sendWritePacket_as_send _ _ _ _ _ b) by done.
  apply send_reply_sent; try done.
  - by apply builds_write.
  - by rewrite zsize_encode_write, size_write_config.
  - unfold INT_MAX in *. lia.
Qed.

Lemma sendReadPacket_sent t tid addr len l b :
  tcp_backend_ l = Some b → accepting b → zsize (getReplyAddress t) ≤ 12 →
  read_size t ≤ INT_MAX → read_size t + 12 ≤ zsize (send_buf_ l) →
  ∃ l', sendReadPacket_ alloc_limit t tid addr len l = Ret (Ok tt, l') ∧
    sent_frame (encode_read (read_config t tid addr len l)) b l l'.
Proof.
  intros Ht Ha Hr Hm Hc. rewrite (sendReadPacket_roomy _ _ _ _ _ b) by done.
  by apply transmit_sent.
Qed.

(** C30: sendWritePacket_ on a connected link that accepts what is sent, for a reply
    address of at most 12 bytes and a packet of at most INT_MAX bytes: when the
    send buffer has, or may grow to, room for the 12-byte header and the packet,
    exactly the header with the packet's length and the encoded write command go
    out and the receive side is untouched; a Fixed buffer that is too small
    gives no_buffer_space and no change; a growth beyond what can be allocated
    ends the process. *)
Theorem sendWritePacket_outcomes t tid addr data l b :
  tcp_backend_ l = Some b → accepting b → zsize (getReplyAddress t) ≤ 12 →
  write_size t data ≤ INT_MAX →
  let packet := encode_write (write_config t tid addr data l) in
  let cap := buffer_cap alloc_limit (buffer_policy_ l) (zsize (send_buf_ l)) in
  if decide (write_size t data + 12 ≤ cap) then
    ∃ l' b', sendWritePacket_ alloc_limit t tid addr data l = Ret (Ok tt, l') ∧
      tcp_backend_ l' = Some b' ∧
      wire_out b' = wire_out b ++ [0; 0; 0; 0] ++ be_split 8 (zsize packet) ++ packet ∧
      wire_in b' = wire_in b ∧ recv_buf_ l' = recv_buf_ l ∧ packet_parser_ l' = packet_parser_ l
  else sendWritePacket_ alloc_limit t tid addr data l =
    match buffer_policy_ l with
    | Fixed => Ret (Unexpected (generic no_buffer_space), l)
    | AutoResize => Abort
    end.
Proof.
  intros Ht Ha Hr Hm packet cap. case_decide as Hc.
  - destruct (sendWritePacket_sent t tid addr data l b) as (l' & E & b' & Hb' & Ho & Hi & _ & _ & _ & El);
      [done..|]. exists l', b'. split_and!; try done.
    + by rewrite El.
    + by rewrite El.
  - rewrite (sendWritePacket_as_send _ _ _ _ _ b) by done.
    rewrite (send_reply_spec _ _ packet l b); [|by apply builds_write| |unfold INT_MAX in *; lia|done].
    2: { unfold packet. by rewrite zsize_encode_write, size_write_config. }
    unfold cap, buffer_cap in Hc.
    destruct (Z.ltb_spec (zsize (send_buf_ l)) (write_size t data + 12)).
    + destruct (buffer_policy_ l); [done|].
      by destruct (Z.leb_spec (write_size t data + 12) alloc_limit); [lia|].
    + destruct (buffer_policy_ l); lia.
Qed.

(** sendReadPacket_ on a connected link whose send buffer has room for the
    12-byte header and the packet sends exactly the header with the packet's
    length and the encoded read command. *)
Theorem sendReadPacket_frame t tid addr len l b :
  tcp_backend_ l = Some b → accepting b → zsize (getReplyAddress t) ≤ 12 →
  read_size t ≤ INT_MAX → read_size t + 12 ≤ zsize (send_buf_ l) →
  let packet := encode_read (read_config t tid addr len l) in
  ∃ l' b', sendReadPacket_ alloc_limit t tid addr len l = Ret (Ok tt, l') ∧
    tcp_backend_ l' = Some b' ∧
    wire_out b' = wire_out b ++ [0; 0; 0; 0] ++ be_split 8 (zsize packet) ++ packet ∧
    wire_in b' = wire_in b ∧ recv_buf_ l' = recv_buf_ l ∧ packet_parser_ l' = packet_parser_ l.
Proof.
  intros Ht Ha Hr Hm Hc packet.
  destruct (sendReadPacket_sent t tid addr len l b) as (l' & E & b' & Hb' & Ho & Hi & _ & _ & _ & El);
    [done..|]. exists l', b'. split_and!; try done.
  - by rewrite El.
  - by rewrite El.
Qed.

(** In a send buffer with fewer bytes than header and packet need,
    sendReadPacket_ fails with no_buffer_space under either buffer policy and
    sends nothing: its size test leaves out the 12-byte header, so that
    AutoResize never makes enough room. *)
Theorem sendReadPacket_short_buffer t tid addr len l b :
  tcp_backend_ l = Some b → zsize (getReplyAddress t) ≤ 12 → read_size t ≤ INT_MAX →
  zsize (send_buf_ l) < read_size t + 12 → read_size t + 1 ≤ alloc_limit →
  ∃ l', sendReadPacket_ alloc_limit t tid addr len l =
      Ret (Unexpected (generic no_buffer_space), l') ∧
    tcp_backend_ l' = Some b ∧ zsize (send_buf_ l') < read_size t + 12.
Proof.
  intros Ht Hr Hm Hs Ha. unfold sendReadPacket_. rewrite Ht. cbv zeta.
  replace (_ + 4 + 12 + 1) with (read_size t + 1) by (unfold read_size; lia).
  pose proof (zsize_nonneg (getTargetSpaceWireAddress t)).
  assert (16 ≤ read_size t) by (unfold read_size; pose proof (zsize_nonneg (getReplyAddress t)); dlia).
  assert (Hsmall : ∀ l1, zsize (send_buf_ l1) < read_size t + 12 → 12 ≤ zsize (send_buf_ l1) →
    build_into (ReadPacketBuilder.build (read_config t tid addr len l1)) l1 =
    Ret (Unexpected (generic no_buffer_space), l1)).
  { intros l1 Hlo Hhi. eapply build_into_small; [by apply builds_read|].
    rewrite zsize_encode_read, size_read_config. lia. }
  unfold ensure_send_buffer.
  destruct (Z.ltb_spec (zsize (send_buf_ l)) (read_size t + 1)).
  - destruct (buffer_policy_ l); [by exists l|]. unfold vector_resize.
    destruct (Z.leb_spec (read_size t + 1) alloc_limit); [|lia]. rewrite !bind_ret.
    assert (zsize (resize_bytes (send_buf_ l) (read_size t + 1)) = read_size t + 1)
      by (unfold resize_bytes, zsize; rewrite length_resize; lia).
    rewrite Hsmall, bind_ret by (cbn [send_buf_ set_send_buf_]; lia).
    eexists. split_and!; [done..|cbn [send_buf_ set_send_buf_]; lia].
  - rewrite bind_ret, Hsmall, bind_ret by lia. by exists l.
Qed.
End send.

(** ** Receiving *)

(** C6: recvAndParseOnePacket_ reassembles a packet from fragments (type 0x02) and a
    last frame (type 0x00), skips time codes in between, drops what an erroneous
    packet (type 0x01) has left, reads through any chunking the backend
    delivers, grows the receive buffer when the policy allows, consumes exactly
    these frames and returns the size of the packet, with its fields in the
    parser's packet. *)
Theorem recv_reassembles {B} `{TcpBackendLaws B} alloc_limit segs fuel (l : link B) b x y d tl rsv q :
  alloc_limit < 2 ^ 64 → tcp_backend_ l = Some b → delivering b →
  wire_in b = stream segs ++ frame 0x00 x y d ++ tl →
  Forall segment_wf segs → d ≠ [] → zsize d < 2 ^ 64 →
  room (buffer_cap alloc_limit (buffer_policy_ l) (zsize (recv_buf_ l))) [] segs d →
  zsize (stream segs) + zsize (frame 0x00 x y d) < Z.of_nat fuel →
  fold_left collect segs [] ++ d = wire rsv q → packet_wf q → byte rsv → zsize (wire rsv q) < 2 ^ 64 →
  ∃ b' l',
    recvAndParseOnePacket_ alloc_limit fuel l = Ret (Ok (zsize (wire rsv q)), l') ∧
    packet_parser_ l' = received (packet_parser_ l) q ∧
    tcp_backend_ l' = Some b' ∧ wire_in b' = tl ∧ delivering b'.
Proof.
  intros Hal Hb Hd Hw Hwf Hne Hn Hr Hf Hpk Hq Hrsv Hs.
  destruct (recv_packet_stream alloc_limit Hal segs fuel l b x y d tl)
    as (b' & junk & E & Hc & Hi); [done..|]. rewrite Hpk in E.
  rewrite parse_wire, bind_ret in E by done. cbn [mbind outcome_bind] in E.
  do 2 eexists. split; [exact E|]. destruct Hc as (? & ? & ? & ? & ? & ?). by split_and!.
Qed.

(** When the parser rejects the reassembled packet, recvAndParseOnePacket_
    returns the error code of the parser's status and has consumed the packet's
    frames, so the next packet is read from its start. *)
Theorem recv_reports_status {B} `{TcpBackendLaws B} alloc_limit segs fuel (l : link B) b x y d tl st p :
  alloc_limit < 2 ^ 64 → tcp_backend_ l = Some b → delivering b →
  wire_in b = stream segs ++ frame 0x00 x y d ++ tl →
  Forall segment_wf segs → d ≠ [] → zsize d < 2 ^ 64 →
  room (buffer_cap alloc_limit (buffer_policy_ l) (zsize (recv_buf_ l))) [] segs d →
  zsize (stream segs) + zsize (frame 0x00 x y d) < Z.of_nat fuel →
  parse (fold_left collect segs [] ++ d) (packet_parser_ l) = Ret (st, p) → st ≠ Success →
  ∃ b' l',
    recvAndParseOnePacket_ alloc_limit fuel l = Ret (Unexpected (make_error_code st), l') ∧
    tcp_backend_ l' = Some b' ∧ wire_in b' = tl ∧ delivering b'.
Proof.
  intros Hal Hb Hd Hw Hwf Hne Hn Hr Hf Hp Hst.
  destruct (recv_packet_stream alloc_limit Hal segs fuel l b x y d tl)
    as (b' & junk & E & Hc & Hi); [done..|]. rewrite Hp, bind_ret, decide_False in E by done.
  do 2 eexists. split; [exact E|]. destruct Hc as (? & ? & ? & ? & ? & ?). by split_and!.
Qed.
