(* ===== verification/Transactions.v ===== *)
(** * The transaction table
    (include/spw_rmap/internal/spw_rmap_tcp_node_impl.hh: the constructor's
    arrays, [getAvailableTransactionID_], [releaseTransactionID_],
    [forceReleaseTransaction_], [cancelTransaction_], and the callbacks that
    [startWriteAsyncOperation_] and [startReadAsyncOperation_] install)

    Four parallel arrays are indexed by the transaction ID less
    [transaction_id_min_].  A promise is an index into [promises], with [None]
    while it has no value; [U] is the state the users' functions act on.  The
    two lambdas of an operation are values of [reply_handler] and
    [error_handler]: what they capture.  Each operation is one step here;
    [Concurrency] cuts them into their critical sections, and the specification
    of the table, a list of slots, is in [TransactionSlots]. *)

From S2P Require Import Prelude PacketTypes.
#[local] Open Scope Z_scope.

(** [std::chrono::steady_clock::time_point::min()], in nanoseconds. *)
Definition time_point_min : Z := - 2 ^ 63.

(** How the call of a user's function ends: it returns, throws a
    [std::exception], or throws something else. *)
Inductive call (A : Type) : Type :=
| Returned (a : A)
| ThrewException
| ThrewOther.
Arguments Returned {A} a.
Arguments ThrewException {A}.
Arguments ThrewOther {A}.

Section transactions.
Context {U : Type}.

(** A user's [std::function<void(Packet)>], with the state it leaves. *)
Definition user_function : Type := Packet → U → outcome (call unit * U).

(** The captures of the lambda in [reply_error_callback_]. *)
Record error_handler := mkErrorHandler {
  eh_promise : nat;
  eh_transaction_id : Z;
  eh_tx_index : Z;
}.

(** The captures of the lambda in [reply_callback_]. *)
Record reply_handler := mkReplyHandler {
  rh_on_complete : user_function;
  rh_promise : nat;
  rh_transaction_id : Z;
  rh_tx_index : Z;
}.

Record tx := mkTx {
  transaction_id_min_ : Z;
  transaction_id_max_ : Z;
  transaction_timeout_ : Z;      (* milliseconds *)
  available_transaction_ids_ : list bool;
  transaction_last_used_ : list Z;
  reply_callback_ : list (option reply_handler);
  reply_error_callback_ : list (option error_handler);
  promises : list (option (expected unit));
  user : U;
}.

Definition set_available_transaction_ids_ v (t : tx) : tx :=
  mkTx (transaction_id_min_ t) (transaction_id_max_ t) (transaction_timeout_ t) v
    (transaction_last_used_ t) (reply_callback_ t) (reply_error_callback_ t) (promises t) (user t).
Definition set_transaction_last_used_ v (t : tx) : tx :=
  mkTx (transaction_id_min_ t) (transaction_id_max_ t) (transaction_timeout_ t)
    (available_transaction_ids_ t) v (reply_callback_ t) (reply_error_callback_ t) (promises t)
    (user t).
Definition set_reply_callback_ v (t : tx) : tx :=
  mkTx (transaction_id_min_ t) (transaction_id_max_ t) (transaction_timeout_ t)
    (available_transaction_ids_ t) (transaction_last_used_ t) v (reply_error_callback_ t)
    (promises t) (user t).
Definition set_reply_error_callback_ v (t : tx) : tx :=
  mkTx (transaction_id_min_ t) (transaction_id_max_ t) (transaction_timeout_ t)
    (available_transaction_ids_ t) (transaction_last_used_ t) (reply_callback_ t) v
    (promises t) (user t).
Definition set_promises v (t : tx) : tx :=
  mkTx (transaction_id_min_ t) (transaction_id_max_ t) (transaction_timeout_ t)
    (available_transaction_ids_ t) (transaction_last_used_ t) (reply_callback_ t)
    (reply_error_callback_ t) v (user t).
Definition set_user v (t : tx) : tx :=
  mkTx (transaction_id_min_ t) (transaction_id_max_ t) (transaction_timeout_ t)
    (available_transaction_ids_ t) (transaction_last_used_ t) (reply_callback_ t)
    (reply_error_callback_ t) (promises t) v.
Definition set_timeout_ v (t : tx) : tx :=
  mkTx (transaction_id_min_ t) (transaction_id_max_ t) v
    (available_transaction_ids_ t) (transaction_last_used_ t) (reply_callback_ t)
    (reply_error_callback_ t) (promises t) (user t).

(** The loop of the constructor; its bound is computed in [int] and compared
    as [uint32_t]. *)
Definition initial_tx (id_min id_max : Z) (u : U) : tx :=
  let n := Z.to_nat (u32 (id_max - id_min)) in
  mkTx id_min id_max 1000 (replicate n true) (replicate n time_point_min)
    (replicate n None) (replicate n None) [] u.

(** ** Promises *)

(** [std::make_shared<PromiseType>()] and its future. *)
Definition new_promise (t : tx) : nat * tx :=
  (length (promises t), set_promises (promises t ++ [None]) t).

(** [promise->set_value(v)]: a second value throws, in [noexcept] code. *)
Definition set_value (p : nat) (v : expected unit) (t : tx) : outcome tx :=
  match promises t !! p with
  | Some None => Ret (set_promises (<[p := Some v]> (promises t)) t)
  | Some (Some _) => Abort
  | None => UB
  end.

(** ** Assignments to the arrays *)

Definition store_available (i : Z) (v : bool) (t : tx) : outcome tx :=
  l ← wr (available_transaction_ids_ t) i v; Ret (set_available_transaction_ids_ l t).
Definition store_last_used (i : Z) (v : Z) (t : tx) : outcome tx :=
  l ← wr (transaction_last_used_ t) i v; Ret (set_transaction_last_used_ l t).
Definition store_reply (i : Z) (v : option reply_handler) (t : tx) : outcome tx :=
  l ← wr (reply_callback_ t) i v; Ret (set_reply_callback_ l t).
Definition store_error (i : Z) (v : option error_handler) (t : tx) : outcome tx :=
  l ← wr (reply_error_callback_ t) i v; Ret (set_reply_error_callback_ l t).

(** ** The operations *)

Definition releaseTransactionID_ (transaction_id : Z) (t : tx) : outcome tx :=
  if (transaction_id <? transaction_id_min_ t) || (transaction_id_max_ t <=? transaction_id)
  then Abort else
  let index := transaction_id - transaction_id_min_ t in
  t ← store_available index true t;
  store_last_used index time_point_min t.

(** The lambda of [reply_error_callback_]. *)
Definition run_error_handler (h : error_handler) (ec : error_code) (t : tx) : outcome tx :=
  t ← set_value (eh_promise h) (Unexpected ec) t;
  t ← releaseTransactionID_ (eh_transaction_id h) t;
  store_error (eh_tx_index h) None t.

(** The lambda of [reply_callback_]; both [catch] clauses do the same. *)
Definition run_reply_handler (h : reply_handler) (packet : Packet) (t : tx) : outcome tx :=
  '(result, u) ← rh_on_complete h packet (user t);
  let t := set_user u t in
  t ← set_value (rh_promise h)
        match result with
        | Returned _ => Ok tt
        | ThrewException | ThrewOther => Unexpected (generic operation_canceled)
        end t;
  t ← releaseTransactionID_ (rh_transaction_id h) t;
  store_error (rh_tx_index h) None t.

Definition forceReleaseTransaction_ (index : Z) (t : tx) : outcome tx :=
  error_handler ← rd (reply_error_callback_ t) index;
  t ← store_reply index None t;
  t ← store_error index None t;
  match error_handler with
  | Some h => run_error_handler h (generic timed_out) t
  | None => releaseTransactionID_ (u16 (transaction_id_min_ t + u16 index)) t
  end.

(** The [for] loop over the [n] IDs from [i] on: an available one, or the
    first expired one. *)
Fixpoint scan_ids (n : nat) (i now : Z) (expired_index : option Z) (t : tx)
    : outcome (Z + option Z) :=
  match n with
  | O => Ret (inr expired_index)
  | S n =>
      available ← rd (available_transaction_ids_ t) i;
      if (available : bool) then Ret (inl i) else
      expired_index ←
        match expired_index with
        | Some _ => Ret expired_index
        | None =>
            last ← rd (transaction_last_used_ t) i;
            Ret (if transaction_timeout_ t * 1000000 <? now - last then Some i else None)
        end;
      scan_ids n (i + 1) now expired_index t
  end.

(** [while (true)]: [clock] has the time of each round. *)
Fixpoint getAvailableTransactionID_ (clock : list Z) (t : tx) : outcome (expected Z * tx) :=
  match clock with
  | [] => Pending
  | now :: clock =>
      let total_ids := transaction_id_max_ t - transaction_id_min_ t in
      found ← scan_ids (Z.to_nat (u64 total_ids)) 0 now None t;
      match found with
      | inl i =>
          t ← store_available i false t;
          t ← store_last_used i now t;
          Ret (Ok (u32 (transaction_id_min_ t + u32 i)), t)
      | inr None => Ret (Unexpected (generic resource_unavailable_try_again), t)
      | inr (Some i) =>
          t ← forceReleaseTransaction_ i t;
          getAvailableTransactionID_ clock t
      end
  end.

Definition cancelTransaction_ (transaction_id : Z) (t : tx) : outcome tx :=
  if (transaction_id <? transaction_id_min_ t) || (transaction_id_max_ t <=? transaction_id)
  then Ret t else
  let idx := transaction_id - transaction_id_min_ t in
  t ← store_reply idx None t;
  t ← store_error idx None t;
  releaseTransactionID_ transaction_id t.

(** The two assignments at the start of an operation: the lambdas capture the
    promise, the ID and its index. *)
Definition install_callbacks (promise : nat) (transaction_id tx_index : Z)
    (on_complete : user_function) (t : tx) : outcome tx :=
  t ← store_error tx_index (Some (mkErrorHandler promise transaction_id tx_index)) t;
  store_reply tx_index (Some (mkReplyHandler on_complete promise transaction_id tx_index)) t.

(** The end of an operation whose packet could not be sent. *)
Definition abandon (promise : nat) (transaction_id tx_index : Z) (ec : error_code) (t : tx)
    : outcome tx :=
  t ← store_reply tx_index None t;
  t ← store_error tx_index None t;
  t ← set_value promise (Unexpected ec) t;
  releaseTransactionID_ transaction_id t.

(** The case of [poll] for replies. *)
Definition dispatch_reply (packet : Packet) (t : tx) : outcome (expected unit * tx) :=
  if (transactionID packet <? transaction_id_min_ t) ||
     (transaction_id_max_ t <=? transactionID packet)
  then Ret (Unexpected (generic bad_message), t) else
  let idx := transactionID packet - transaction_id_min_ t in
  callback ← rd (reply_callback_ t) idx;
  match callback with
  | Some h =>
      t ← store_reply idx None t;
      t ← store_error idx None t;
      t ← run_reply_handler h packet t;
      Ret (Ok tt, t)
  | None => Ret (Ok tt, t)
  end.
End transactions.
Arguments user_function : clear implicits.
Arguments reply_handler : clear implicits.
Arguments tx : clear implicits.
