(* ===== verification/TransactionSlots.v ===== *)
(** * The transaction table against its specification

    A [slot] is the state of one transaction ID: free, reserved by an operation
    that has not installed its callbacks, or waiting for a reply.  [table] is
    the arrays of a list of slots.  Every operation of [Transactions] on a
    [table] gives the [table] that the specification says. *)

From S2P Require Import Prelude PacketTypes Transactions.
#[local] Open Scope Z_scope.

Lemma wr_nat {A} (l : list A) (i : nat) v : (i < length l)%nat → wr l (Z.of_nat i) v = Ret (<[i := v]> l).
Proof. intros. unfold wr. by rewrite decide_True, Nat2Z.id by (unfold zsize; lia). Qed.

Lemma rd_nat {A} (l : list A) (i : nat) v : l !! i = Some v → rd l (Z.of_nat i) = Ret v.
Proof. intros. apply rd_lookup; [lia|]. by rewrite Nat2Z.id. Qed.

Lemma imap_insert {A B} (f : nat → A → B) l i x :
  imap f (<[i := x]> l) = <[i := f i x]> (imap f l).
Proof.
  apply list_eq. intros j. rewrite list_lookup_imap. destruct (decide (i = j)) as [->|].
  - destruct (decide (j < length l)%nat).
    + by rewrite !list_lookup_insert_eq by (rewrite ?length_imap; done).
    + rewrite !lookup_ge_None_2; [done|rewrite length_insert, ?length_imap; lia..].
  - by rewrite !list_lookup_insert_ne, list_lookup_imap.
Qed.

Lemma insert_same_image {A B} (f : A → B) (l : list A) (i : nat) x y :
  l !! i = Some y → f x = f y → f <$> <[i := x]> l = f <$> l.
Proof.
  intros Hi Hf. rewrite list_fmap_insert. apply list_insert_id. by rewrite list_lookup_fmap, Hi, Hf.
Qed.

Lemma insert_same_imap {A B} (f : nat → A → B) (l : list A) i x y :
  l !! i = Some y → f i x = f i y → imap f (<[i := x]> l) = imap f l.
Proof.
  intros Hi Hf. rewrite imap_insert. apply list_insert_id. by rewrite list_lookup_imap, Hi, Hf.
Qed.

Section slots.
Context {U : Type}.
Implicit Types (t : tx U) (f : user_function U).

Inductive slot :=
| Free
| Reserved (last : Z)
| Waiting (last : Z) (p : nat) (f : user_function U).

Definition slot_available (s : slot) : bool := match s with Free => true | _ => false end.
Definition slot_last (s : slot) : Z :=
  match s with Free => time_point_min | Reserved last => last | Waiting last _ _ => last end.
Definition slot_reply (id_min : Z) (i : nat) (s : slot) : option (reply_handler U) :=
  match s with
  | Waiting _ p f => Some (mkReplyHandler f p (id_min + Z.of_nat i) (Z.of_nat i))
  | _ => None
  end.
Definition slot_error (id_min : Z) (i : nat) (s : slot) : option error_handler :=
  match s with
  | Waiting _ p _ => Some (mkErrorHandler p (id_min + Z.of_nat i) (Z.of_nat i))
  | _ => None
  end.

Context (id_min id_max timeout : Z).

(** The arrays of times and of callbacks may be ahead of each other inside an
    operation; [table] is the state between operations. *)
Definition table2 (A C : list slot) (ps : list (option (expected unit))) (u : U) : tx U :=
  mkTx id_min id_max timeout (slot_available <$> A) (slot_last <$> A)
    (imap (slot_reply id_min) C) (imap (slot_error id_min) C) ps u.
Definition table (S : list slot) := table2 S S.

Lemma promises_table S ps u : promises (table S ps u) = ps.
Proof. done. Qed.

Definition range_ok (S : list slot) : Prop :=
  0 ≤ id_min ∧ id_max < 2 ^ 16 ∧ zsize S = id_max - id_min.

(** Waiting slots have promises of their own, without a value. *)
Definition promises_ok (S : list slot) (ps : list (option (expected unit))) : Prop :=
  (∀ i last p f, S !! i = Some (Waiting last p f) → ps !! p = Some None) ∧
  (∀ i j last last' p f f', S !! i = Some (Waiting last p f) →
     S !! j = Some (Waiting last' p f') → i = j).

Definition table_wf S ps : Prop := range_ok S ∧ promises_ok S ps.

(** The value of the promise once the user's function has been called. *)
Definition completion (r : call unit) : expected unit :=
  match r with Returned _ => Ok tt | _ => Unexpected (generic operation_canceled) end.

(** ** Single assignments *)

Lemma clear_callbacks {R} (k : tx U → outcome R) A C ps u i :
  (i < length C)%nat →
  (t ← store_reply (Z.of_nat i) None (table2 A C ps u);
   t ← store_error (Z.of_nat i) None t; k t) = k (table2 A (<[i := Free]> C) ps u).
Proof.
  intros Hi. unfold store_reply, store_error, table2. cbn [reply_callback_].
  rewrite wr_nat, !bind_ret by by rewrite length_imap. cbn.
  rewrite wr_nat, !bind_ret by by rewrite length_imap. cbn. by rewrite !imap_insert.
Qed.

Lemma clear_error A C ps u i s :
  C !! i = Some s → slot_error id_min i s = None →
  store_error (Z.of_nat i) None (table2 A C ps u) = Ret (table2 A C ps u).
Proof.
  intros Hi Hs. unfold store_error, table2. cbn [reply_error_callback_].
  rewrite wr_nat, bind_ret by (rewrite length_imap; by eapply lookup_lt_Some).
  unfold set_reply_error_callback_. cbn. do 2 f_equal.
  apply list_insert_id. by rewrite list_lookup_imap, Hi, <-Hs.
Qed.

Lemma release_table A C ps u i :
  range_ok A → (i < length A)%nat →
  releaseTransactionID_ (id_min + Z.of_nat i) (table2 A C ps u) =
  Ret (table2 (<[i := Free]> A) C ps u).
Proof.
  intros (H1 & H2 & H3) Hi. unfold releaseTransactionID_. cbn [table2 transaction_id_min_ transaction_id_max_].
  unfold zsize in H3.
  destruct (Z.ltb_spec (id_min + Z.of_nat i) id_min); [lia|].
  destruct (Z.leb_spec id_max (id_min + Z.of_nat i)); [lia|]. cbn [orb].
  replace (id_min + Z.of_nat i - id_min) with (Z.of_nat i) by lia.
  unfold store_available, store_last_used, table2. cbn [available_transaction_ids_].
  rewrite wr_nat, !bind_ret by by rewrite length_fmap. cbn.
  rewrite wr_nat, bind_ret by by rewrite length_fmap. cbn. by rewrite !list_fmap_insert.
Qed.

Lemma set_value_table p v A C ps u :
  ps !! p = Some None → set_value p v (table2 A C ps u) = Ret (table2 A C (<[p := Some v]> ps) u).
Proof. intros Hp. unfold set_value. cbn [promises table2]. by rewrite Hp. Qed.

Lemma range_ok_insert S i s : range_ok S → range_ok (<[i := s]> S).
Proof. unfold range_ok. by rewrite zsize_insert. Qed.

(** ** The callbacks and the operations on one slot *)

Lemma run_error_handler_table A C ps u i s p ec :
  range_ok A → length A = length C → C !! i = Some s → slot_error id_min i s = None →
  ps !! p = Some None →
  run_error_handler (mkErrorHandler p (id_min + Z.of_nat i) (Z.of_nat i)) ec (table2 A C ps u) =
  Ret (table2 (<[i := Free]> A) C (<[p := Some (Unexpected ec)]> ps) u).
Proof.
  intros Hr Hl Hi Hs Hp. apply lookup_lt_Some in Hi as Hlt.
  unfold run_error_handler. cbn [eh_promise eh_transaction_id eh_tx_index].
  rewrite set_value_table, bind_ret, release_table, bind_ret by (done || lia).
  by eapply clear_error.
Qed.

Lemma run_reply_handler_table A C ps u i s p f packet r u' :
  range_ok A → length A = length C → C !! i = Some s → slot_error id_min i s = None →
  ps !! p = Some None → f packet u = Ret (r, u') →
  run_reply_handler (mkReplyHandler f p (id_min + Z.of_nat i) (Z.of_nat i)) packet
    (table2 A C ps u) =
  Ret (table2 (<[i := Free]> A) C
    (<[p := Some (completion r)]> ps) u').
Proof.
  intros Hr Hl Hi Hs Hp Hf. apply lookup_lt_Some in Hi as Hlt.
  unfold run_reply_handler. cbn [rh_promise rh_transaction_id rh_tx_index rh_on_complete user table2].
  rewrite Hf, bind_ret. fold (completion r).
  change (set_user u' (table2 A C ps u)) with (table2 A C ps u').
  rewrite set_value_table, bind_ret, release_table, bind_ret by (done || lia).
  by eapply clear_error.
Qed.

Lemma table2_free S i s ps u :
  S !! i = Some s → slot_error id_min i s = None → slot_reply id_min i s = None →
  table2 (<[i := Free]> S) S ps u = table (<[i := Free]> S) ps u.
Proof.
  intros Hi He Hr. unfold table, table2.
  by rewrite (insert_same_imap (slot_reply id_min) S i Free s),
    (insert_same_imap (slot_error id_min) S i Free s).
Qed.

(** The promises after the operation of a slot ended without a reply. *)
Definition expire (s : slot) (ps : list (option (expected unit))) : list (option (expected unit)) :=
  match s with
  | Waiting _ p _ => <[p := Some (Unexpected (generic timed_out))]> ps
  | _ => ps
  end.

Lemma forceRelease_table S ps u i s :
  table_wf S ps → S !! i = Some s →
  forceReleaseTransaction_ (Z.of_nat i) (table S ps u) =
  Ret (table (<[i := Free]> S) (expire s ps) u).
Proof.
  intros [Hr [Hp _]] Hi. apply lookup_lt_Some in Hi as Hlt. pose proof Hr as (H1 & H2 & H3).
  unfold zsize in H3. unfold forceReleaseTransaction_, table.
  assert (Hrd : rd (reply_error_callback_ (table2 S S ps u)) (Z.of_nat i) =
    Ret (slot_error id_min i s))
    by (apply rd_nat; cbn; by rewrite list_lookup_imap, Hi).
  rewrite Hrd, bind_ret, clear_callbacks by done.
  destruct s as [|last|last p f]; cbn [slot_error expire].
  1,2: cbn [table2 transaction_id_min_]; unfold u16;
    rewrite (Z.mod_small (Z.of_nat i)), Z.mod_small by lia; by rewrite release_table.
  rewrite (run_error_handler_table _ _ _ _ _ Free); try done.
  - by rewrite length_insert.
  - by rewrite list_lookup_insert_eq.
  - by eapply Hp.
Qed.

Lemma cancel_table S ps u i :
  range_ok S → (i < length S)%nat →
  cancelTransaction_ (id_min + Z.of_nat i) (table S ps u) = Ret (table (<[i := Free]> S) ps u).
Proof.
  intros Hr Hi. pose proof Hr as (H1 & H2 & H3). unfold zsize in H3. unfold cancelTransaction_, table.
  cbn [table2 transaction_id_min_ transaction_id_max_].
  destruct (Z.ltb_spec (id_min + Z.of_nat i) id_min); [lia|].
  destruct (Z.leb_spec id_max (id_min + Z.of_nat i)); [lia|]. cbn [orb].
  replace (id_min + Z.of_nat i - id_min) with (Z.of_nat i) by lia.
  fold (table2 S S ps u). rewrite clear_callbacks by done. by apply release_table.
Qed.

(** ** Allocation *)

Definition is_free (s : slot) : Prop := slot_available s = true.
#[global] Instance is_free_dec s : Decision (is_free s).
Proof. unfold is_free. apply _. Defined.

Definition expired (now : Z) (s : slot) : Prop :=
  slot_available s = false ∧ timeout * 1000000 < now - slot_last s.
#[global] Instance expired_dec now s : Decision (expired now s).
Proof. unfold expired. apply _. Defined.

Definition first_free (S : list slot) : option nat := fst <$> list_find is_free S.
Definition first_expired (now : Z) (S : list slot) : option nat := fst <$> list_find (expired now) S.

Lemma first_free_Some S i :
  first_free S = Some i ↔ S !! i = Some Free ∧ ∀ j s, S !! j = Some s → (j < i)%nat → s ≠ Free.
Proof.
  unfold first_free. split.
  - intros ([j s] & (Hl & Hs & Hf)%list_find_Some & ->)%fmap_Some. simpl. split.
    + rewrite Hl. by destruct s.
    + intros j' s' Hj Hlt ->. by apply (Hf j' Free).
  - intros [Hi Hf]. apply fmap_Some. exists (i, Free). split; [|done].
    apply list_find_Some. split_and!; [done..|].
    intros j s Hj Hlt Hs. apply (Hf j s Hj Hlt). by destruct s.
Qed.

Lemma first_free_None S : first_free S = None ↔ Free ∉ S.
Proof.
  unfold first_free. rewrite fmap_None, list_find_None, Forall_forall. split.
  - intros H Hin. by apply (H Free).
  - intros H s Hin Hs. apply H. by destruct s.
Qed.

Lemma scan_ids_table A C ps u now n i exp :
  (n + i = length A)%nat →
  scan_ids n (Z.of_nat i) now (Z.of_nat <$> exp) (table2 A C ps u) =
  Ret (match list_find is_free (drop i A) with
       | Some (j, _) => inl (Z.of_nat (i + j))
       | None => inr (Z.of_nat <$> match exp with
                      | Some e => Some e
                      | None => (λ x, (i + x.1)%nat) <$> list_find (expired now) (drop i A)
                      end)
       end).
Proof.
  revert i exp. induction n as [|n IH]; intros i exp Hn.
  { rewrite drop_ge by lia. simpl. by destruct exp. }
  destruct (lookup_lt_is_Some_2 A i) as [s Hs]; [lia|].
  rewrite (drop_S _ _ _ Hs). cbn [scan_ids].
  assert (E : rd (available_transaction_ids_ (table2 A C ps u)) (Z.of_nat i) = Ret (slot_available s))
    by (apply rd_nat; cbn; by rewrite list_lookup_fmap, Hs).
  rewrite E, bind_ret. cbn [list_find].
  destruct (decide (is_free s)) as [Ea|Ea]; unfold is_free in Ea.
  { rewrite Ea. by rewrite Nat.add_0_r. }
  apply not_true_is_false in Ea. rewrite Ea.
  assert (E' : rd (transaction_last_used_ (table2 A C ps u)) (Z.of_nat i) = Ret (slot_last s))
    by (apply rd_nat; cbn; by rewrite list_lookup_fmap, Hs).
  replace (Z.of_nat i + 1) with (Z.of_nat (S i)) by lia.
  assert (Hnext : ∀ exp' : option nat,
    scan_ids n (Z.of_nat (S i)) now (Z.of_nat <$> exp') (table2 A C ps u) =
    Ret (match prod_map S id <$> list_find is_free (drop (S i) A) with
         | Some (j, _) => inl (Z.of_nat (i + j))
         | None => inr (Z.of_nat <$> match exp' with
                        | Some e => Some e
                        | None => (λ x, (S i + x.1)%nat) <$> list_find (expired now) (drop (S i) A)
                        end)
         end)).
  { intros exp'. rewrite IH by lia. destruct (list_find is_free _) as [[j s']|]; [|done].
    simpl. do 3 f_equal. lia. }
  destruct exp as [e|]; cbn [fmap option_fmap option_map].
  { rewrite bind_ret. apply (Hnext (Some e)). }
  rewrite E', !bind_ret. cbn [transaction_timeout_ table2].
  destruct (decide (expired now s)) as [[_ He]|He].
  - destruct (Z.ltb_spec (timeout * 1000000) (now - slot_last s)); [|lia].
    etrans; [exact (Hnext (Some i))|]. destruct (list_find is_free _) as [[j s']|]; [done|].
    simpl. by rewrite Nat.add_0_r.
  - destruct (Z.ltb_spec (timeout * 1000000) (now - slot_last s)); [by destruct He|].
    etrans; [exact (Hnext None)|].
    destruct (list_find is_free _) as [[j s']|]; [done|]. simpl.
    destruct (list_find (expired now) _) as [[j s']|]; [|done]. simpl. do 4 f_equal. lia.
Qed.

Lemma scan_table S ps u now :
  range_ok S →
  scan_ids (Z.to_nat (u64 (id_max - id_min))) 0 now None (table S ps u) =
  Ret (match first_free S with
       | Some i => inl (Z.of_nat i)
       | None => inr (Z.of_nat <$> first_expired now S)
       end).
Proof.
  intros (H1 & H2 & H3). pose proof (zsize_nonneg S).
  unfold u64. rewrite Z.mod_small by lia. rewrite <-H3, zsize_to_nat.
  pose proof (scan_ids_table S S ps u now (length S) 0 None) as E. cbn in E.
  change (Z.of_nat 0) with 0 in E. rewrite drop_0 in E. unfold table. rewrite E by lia.
  unfold first_free, first_expired. by destruct (list_find is_free S) as [[]|]; [|destruct (list_find _ S) as [[]|]].
Qed.

Lemma take_table S ps u i now :
  S !! i = Some Free → range_ok S →
  (t ← store_available (Z.of_nat i) false (table S ps u);
   t ← store_last_used (Z.of_nat i) now t;
   Ret (Ok (u32 (transaction_id_min_ t + u32 (Z.of_nat i))), t)) =
  Ret (Ok (id_min + Z.of_nat i), table (<[i := Reserved now]> S) ps u).
Proof.
  intros Hi (H1 & H2 & H3). apply lookup_lt_Some in Hi as Hlt. unfold zsize in H3.
  unfold store_available, store_last_used, table, table2. cbn [available_transaction_ids_].
  rewrite wr_nat, !bind_ret by by rewrite length_fmap. cbn.
  rewrite wr_nat, !bind_ret by by rewrite length_fmap. cbn.
  unfold u32. rewrite (Z.mod_small (Z.of_nat i)), Z.mod_small by lia.
  rewrite !list_fmap_insert.
  by rewrite (insert_same_imap (slot_reply id_min) S i (Reserved now) Free),
    (insert_same_imap (slot_error id_min) S i (Reserved now) Free).
Qed.

Lemma expire_other S ps i s :
  promises_ok S ps → S !! i = Some s → promises_ok (<[i := Free]> S) (expire s ps).
Proof.
  intros [Hp Hu] Hi. split.
  - intros j last p f Hj. apply list_lookup_insert_Some in Hj as [(-> & ? & ?)|[Hne Hj]]; [done|].
    specialize (Hp _ _ _ _ Hj) as Hpj. destruct s as [|l0|l0 p0 f0]; [done..|]. cbn.
    rewrite list_lookup_insert_ne; [done|]. intros ->. by eapply Hne, Hu.
  - intros j k l l' p f f' Hj Hk.
    apply list_lookup_insert_Some in Hj as [(-> & ? & ?)|[_ Hj]]; [done|].
    apply list_lookup_insert_Some in Hk as [(-> & ? & ?)|[_ Hk]]; [done|]. by eapply Hu.
Qed.

Lemma expire_wf S ps i s :
  table_wf S ps → S !! i = Some s → table_wf (<[i := Free]> S) (expire s ps).
Proof. intros [Hr Hp] Hi. split; [by apply range_ok_insert|by apply expire_other]. Qed.

(** The specification of an allocation: the first free ID, else the first
    expired one, whose operation ends, else none. *)
Inductive alloc_result := Taken (i : nat) (S : list slot) (ps : list (option (expected unit)))
  | Exhausted.

Definition alloc (now now' : Z) (S : list slot) ps : alloc_result :=
  match first_free S with
  | Some i => Taken i (<[i := Reserved now]> S) ps
  | None =>
      match first_expired now S with
      | Some i =>
          Taken i (<[i := Reserved now']> S)
            (match S !! i with Some s => expire s ps | None => ps end)
      | None => Exhausted
      end
  end.

Lemma getAvailable_table now now' clock S ps u :
  table_wf S ps →
  getAvailableTransactionID_ (now :: now' :: clock) (table S ps u) =
  Ret (match alloc now now' S ps with
       | Taken i S' ps' => (Ok (id_min + Z.of_nat i), table S' ps' u)
       | Exhausted => (Unexpected (generic resource_unavailable_try_again), table S ps u)
       end).
Proof.
  intros Hwf. pose proof Hwf as [Hr Hp]. cbn [getAvailableTransactionID_].
  change (transaction_id_max_ (table S ps u)) with id_max.
  change (transaction_id_min_ (table S ps u)) with id_min.
  rewrite scan_table, bind_ret by done. unfold alloc.
  destruct (first_free S) as [i|] eqn:Ef.
  { apply first_free_Some in Ef as [Hi _]. by apply take_table. }
  destruct (first_expired now S) as [i|] eqn:Ee; [|done]. cbn [fmap option_fmap option_map].
  unfold first_expired in Ee. apply fmap_Some in Ee as ([j s] & Hfind & [= ->]).
  apply list_find_Some in Hfind as (Hi & _ & _). rewrite Hi.
  rewrite (forceRelease_table _ _ _ _ s), bind_ret by done.
  pose proof (expire_wf S ps j s Hwf Hi) as [Hr' _].
  change (transaction_id_max_ (table _ _ u)) with id_max.
  change (transaction_id_min_ (table _ _ u)) with id_min.
  rewrite scan_table, bind_ret by done. apply lookup_lt_Some in Hi as Hlt.
  assert (first_free (<[j := Free]> S) = Some j) as ->.
  { apply first_free_Some. split; [by apply list_lookup_insert_eq|].
    intros k s' Hk Hkj ->. rewrite list_lookup_insert_ne in Hk by lia.
    apply first_free_None in Ef. by apply Ef, (list_elem_of_lookup_2 _ k). }
  rewrite take_table by (done || by apply list_lookup_insert_eq).
  by rewrite list_insert_insert_eq.
Qed.

(** ** An operation from its start to its end *)

Lemma install_table S ps u i last p f :
  S !! i = Some (Reserved last) →
  install_callbacks p (id_min + Z.of_nat i) (Z.of_nat i) f (table S ps u) =
  Ret (table (<[i := Waiting last p f]> S) ps u).
Proof.
  intros Hi. apply lookup_lt_Some in Hi as Hlt.
  unfold install_callbacks, store_error, store_reply, table, table2. cbn [reply_error_callback_].
  rewrite wr_nat, !bind_ret by by rewrite length_imap. cbn.
  rewrite wr_nat, !bind_ret by by rewrite length_imap. cbn.
  rewrite !imap_insert. unfold set_reply_callback_. cbn.
  by rewrite (insert_same_image slot_available S i (Waiting last p f) (Reserved last)),
    (insert_same_image slot_last S i (Waiting last p f) (Reserved last)).
Qed.

Lemma abandon_table S ps u i last p f ec :
  table_wf S ps → S !! i = Some (Waiting last p f) →
  abandon p (id_min + Z.of_nat i) (Z.of_nat i) ec (table S ps u) =
  Ret (table (<[i := Free]> S) (<[p := Some (Unexpected ec)]> ps) u).
Proof.
  intros [Hr [Hp _]] Hi. apply lookup_lt_Some in Hi as Hlt.
  unfold abandon, table. rewrite clear_callbacks by done.
  rewrite set_value_table, bind_ret by by eapply Hp. by rewrite release_table.
Qed.

Lemma dispatch_reply_table S ps u i s packet :
  table_wf S ps → S !! i = Some s → transactionID packet = id_min + Z.of_nat i →
  dispatch_reply packet (table S ps u) =
  match s with
  | Waiting _ p f =>
      '(r, u) ← f packet u;
      Ret (Ok tt, table (<[i := Free]> S) (<[p := Some (completion r)]> ps) u)
  | _ => Ret (Ok tt, table S ps u)
  end.
Proof.
  intros [Hr [Hp _]] Hi Hid. apply lookup_lt_Some in Hi as Hlt.
  pose proof Hr as (H1 & H2 & H3). unfold zsize in H3. unfold dispatch_reply. rewrite Hid.
  change (transaction_id_min_ (table S ps u)) with id_min.
  change (transaction_id_max_ (table S ps u)) with id_max.
  destruct (Z.ltb_spec (id_min + Z.of_nat i) id_min); [lia|].
  destruct (Z.leb_spec id_max (id_min + Z.of_nat i)); [lia|]. cbn [orb].
  replace (id_min + Z.of_nat i - id_min) with (Z.of_nat i) by lia.
  unfold table.
  assert (Hrd : rd (reply_callback_ (table2 S S ps u)) (Z.of_nat i) = Ret (slot_reply id_min i s))
    by (apply rd_nat; cbn; by rewrite list_lookup_imap, Hi).
  rewrite Hrd, bind_ret.
  destruct s as [|last|last p f]; cbn [slot_reply]; [done..|].
  rewrite clear_callbacks by done.
  destruct (f packet u) as [[r u']| | |] eqn:Ef.
  2-4: unfold run_reply_handler; cbn [rh_on_complete user table2]; by rewrite Ef.
  rewrite (run_reply_handler_table _ _ _ _ _ Free _ _ _ r u'); try done.
  - by rewrite length_insert.
  - by rewrite list_lookup_insert_eq.
  - by eapply Hp.
Qed.

Lemma dispatch_reply_out_of_range S ps u packet :
  transactionID packet < id_min ∨ id_max ≤ transactionID packet →
  dispatch_reply packet (table S ps u) = Ret (Unexpected (generic bad_message), table S ps u).
Proof.
  intros H. unfold dispatch_reply. cbn [transaction_id_min_ transaction_id_max_ table table2].
  destruct (Z.ltb_spec (transactionID packet) id_min); [done|].
  by destruct (Z.leb_spec id_max (transactionID packet)); [|lia].
Qed.

(** ** The invariant *)

(** No slot waits for the promise [p]. *)
Definition unused (p : nat) (S : list slot) : Prop :=
  ∀ i last q f, S !! i = Some (Waiting last q f) → q ≠ p.

Lemma table_wf_free S ps i : table_wf S ps → table_wf (<[i := Free]> S) ps.
Proof.
  intros [Hr [Hp Hu]]. split; [by apply range_ok_insert|]. split.
  - intros j last p f Hj. apply list_lookup_insert_Some in Hj as [(-> & ? & ?)|[_ Hj]]; [done|].
    by eapply Hp.
  - intros j k l l' p f f' Hj Hk.
    apply list_lookup_insert_Some in Hj as [(-> & ? & ?)|[_ Hj]]; [done|].
    apply list_lookup_insert_Some in Hk as [(-> & ? & ?)|[_ Hk]]; [done|]. by eapply Hu.
Qed.

Lemma table_wf_resolve S ps p v :
  table_wf S ps → unused p S → table_wf S (<[p := Some v]> ps).
Proof.
  intros [Hr [Hp Hu]] Hun. split; [done|]. split; [|done].
  intros j last q f Hj. rewrite list_lookup_insert_ne; [by eapply Hp|].
  intros ->. by eapply Hun.
Qed.

Lemma unused_free S ps i last p f :
  table_wf S ps → S !! i = Some (Waiting last p f) → unused p (<[i := Free]> S).
Proof.
  intros [_ [_ Hu]] Hi j l q g Hj ->.
  apply list_lookup_insert_Some in Hj as [(-> & ? & ?)|[Hne Hj]]; [done|]. by eapply Hne, Hu.
Qed.

Lemma table_wf_finish S ps i last p f v :
  table_wf S ps → S !! i = Some (Waiting last p f) →
  table_wf (<[i := Free]> S) (<[p := Some v]> ps).
Proof.
  intros Hwf Hi. apply table_wf_resolve; [by apply table_wf_free|by eapply unused_free].
Qed.

Lemma table_wf_reserve S ps i now : table_wf S ps → table_wf (<[i := Reserved now]> S) ps.
Proof.
  intros [Hr [Hp Hu]]. split; [by apply range_ok_insert|]. split.
  - intros j last p f Hj. apply list_lookup_insert_Some in Hj as [(-> & ? & ?)|[_ Hj]]; [done|].
    by eapply Hp.
  - intros j k l l' p f f' Hj Hk.
    apply list_lookup_insert_Some in Hj as [(-> & ? & ?)|[_ Hj]]; [done|].
    apply list_lookup_insert_Some in Hk as [(-> & ? & ?)|[_ Hk]]; [done|]. by eapply Hu.
Qed.

Lemma table_wf_wait S ps i last p f :
  table_wf S ps → unused p S → ps !! p = Some None →
  table_wf (<[i := Waiting last p f]> S) ps.
Proof.
  intros [Hr [Hp Hu]] Hun Hps. split; [by apply range_ok_insert|]. split.
  - intros j l q g Hj. apply list_lookup_insert_Some in Hj as [(-> & [= <- <- <-] & ?)|[_ Hj]]; [done|].
    by eapply Hp.
  - intros j k l l' q g g' Hj Hk.
    apply list_lookup_insert_Some in Hj as [(-> & Ej & ?)|[? Hj]];
      apply list_lookup_insert_Some in Hk as [(-> & Ek & ?)|[? Hk]]; [done| | |by eapply Hu].
    + injection Ej as <- <- <-. by destruct (Hun _ _ _ _ Hk).
    + injection Ek as <- <- <-. by destruct (Hun _ _ _ _ Hj).
Qed.

Lemma table_wf_promise S ps : table_wf S ps → table_wf S (ps ++ [None]) ∧ unused (length ps) S.
Proof.
  intros [Hr [Hp Hu]].
  assert (Hlt : ∀ i last p f, S !! i = Some (Waiting last p f) → (p < length ps)%nat)
    by (intros i last p f Hi; eapply lookup_lt_Some, Hp, Hi).
  split.
  - split; [done|]. split; [|done]. intros i last p f Hi.
    rewrite lookup_app_l by by eapply Hlt. by eapply Hp.
  - intros i last p f Hi ->. apply Hlt in Hi. lia.
Qed.

(** What an allocation gives, and what it keeps. *)
Lemma alloc_taken now now' S ps i S' ps' :
  table_wf S ps → alloc now now' S ps = Taken i S' ps' →
  table_wf S' ps' ∧ (∃ last, S' !! i = Some (Reserved last)) ∧
  (∀ j, j ≠ i → S' !! j = S !! j) ∧
  (∀ p, unused p S → unused p S' ∧ ps' !! p = ps !! p) ∧
  length S' = length S ∧ length ps' = length ps.
Proof.
  intros Hwf. unfold alloc. destruct (first_free S) as [k|] eqn:Ef.
  - intros [= -> <- <-]. apply first_free_Some in Ef as [Hi _]. apply lookup_lt_Some in Hi as Hlt.
    split_and!; [by apply table_wf_reserve|exists now; by apply list_lookup_insert_eq| | | |done].
    + intros j Hj. by rewrite list_lookup_insert_ne.
    + intros p Hp. split; [|done]. intros j l q g Hj.
      apply list_lookup_insert_Some in Hj as [(-> & ? & ?)|[_ Hj]]; [done|]. by eapply Hp.
    + by rewrite length_insert.
  - destruct (first_expired now S) as [k|] eqn:Ee; [|done]. intros [= -> <- <-].
    unfold first_expired in Ee. apply fmap_Some in Ee as ([j s] & Hfind & [= ->]).
    apply list_find_Some in Hfind as (Hi & _ & _). rewrite Hi. apply lookup_lt_Some in Hi as Hlt.
    split_and!; [|exists now'; by apply list_lookup_insert_eq| | | |].
    + rewrite <-(list_insert_insert_eq S j (Reserved now') Free).
      by apply table_wf_reserve, expire_wf.
    + intros k Hk. by rewrite list_lookup_insert_ne.
    + intros p Hp. split.
      * intros k l q g Hk.
        apply list_lookup_insert_Some in Hk as [(-> & ? & ?)|[_ Hk]]; [done|]. by eapply Hp.
      * destruct s as [|l|l q g]; [done..|]. cbn.
        rewrite list_lookup_insert_ne; [done|]. by eapply Hp.
    + by rewrite length_insert.
    + destruct s; cbn; by rewrite ?length_insert.
Qed.
End slots.
