(* ===== verification/Node.v ===== *)
(** * The node (include/spw_rmap/internal/spw_rmap_tcp_node_impl.hh,
    include/spw_rmap/spw_rmap_node_base.hh)

    [SpwRmapTCPNodeImpl]: a link, a transaction table and the callbacks of the
    target side.  The virtual functions of the subclasses are the class
    [NodeVirtuals].

    A thread that waits on a future lets the other threads run: [write] and
    [read] take what the others do during each wait as an argument, and the
    clock readings of each attempt.  A user's function gets the state [U] and
    does not call back into the node. *)

From S2P Require Import Prelude PacketTypes PacketBuilder PacketParser TcpBackend Framing Transactions.
#[local] Open Scope Z_scope.

(** [SpwRmapTCPNodeConfig], as far as the node reads it. *)
Record SpwRmapTCPNodeConfig := mkConfig {
  send_buffer_size : Z;
  recv_buffer_size : Z;
  transaction_id_min : Z;
  transaction_id_max : Z;
  buffer_policy : BufferPolicy;
  send_timeout : Z;
}.

Definition default_config : SpwRmapTCPNodeConfig := mkConfig 4096 4096 0x0020 0x0040 AutoResize 500000.

(** [on_read_callback_]: the bytes to answer with. *)
Definition read_function (U : Type) : Type := Packet → U → outcome (call (list Z) * U).

Record node (B U : Type) := mkNode {
  lnk : link B;
  txs : tx U;
  send_timeout_ : Z;           (* microseconds *)
  running_ : bool;
  shutdowned_ : bool;          (* of the subclasses *)
  on_write_callback_ : option (user_function U);
  on_read_callback_ : option (read_function U);
}.
Arguments mkNode {B U}.
Arguments lnk {B U} _.
Arguments txs {B U} _.
Arguments send_timeout_ {B U} _.
Arguments running_ {B U} _.
Arguments shutdowned_ {B U} _.
Arguments on_write_callback_ {B U} _.
Arguments on_read_callback_ {B U} _.

Definition set_lnk {B U} (v : link B) (n : node B U) : node B U :=
  mkNode v (txs n) (send_timeout_ n) (running_ n) (shutdowned_ n) (on_write_callback_ n)
    (on_read_callback_ n).
Definition set_txs {B U} (v : tx U) (n : node B U) : node B U :=
  mkNode (lnk n) v (send_timeout_ n) (running_ n) (shutdowned_ n) (on_write_callback_ n)
    (on_read_callback_ n).
Definition set_send_timeout_ {B U} (v : Z) (n : node B U) : node B U :=
  mkNode (lnk n) (txs n) v (running_ n) (shutdowned_ n) (on_write_callback_ n)
    (on_read_callback_ n).
Definition set_running_ {B U} (v : bool) (n : node B U) : node B U :=
  mkNode (lnk n) (txs n) (send_timeout_ n) v (shutdowned_ n) (on_write_callback_ n)
    (on_read_callback_ n).
Definition set_shutdowned_ {B U} (v : bool) (n : node B U) : node B U :=
  mkNode (lnk n) (txs n) (send_timeout_ n) (running_ n) v (on_write_callback_ n)
    (on_read_callback_ n).
Definition registerOnWrite {B U} (v : option (user_function U)) (n : node B U) : node B U :=
  mkNode (lnk n) (txs n) (send_timeout_ n) (running_ n) (shutdowned_ n) v (on_read_callback_ n).
Definition registerOnRead {B U} (v : option (read_function U)) (n : node B U) : node B U :=
  mkNode (lnk n) (txs n) (send_timeout_ n) (running_ n) (shutdowned_ n) (on_write_callback_ n) v.

(** The virtual functions [poll] calls. *)
Class NodeVirtuals (B U : Type) := {
  shutdown : node B U → outcome (expected unit * node B U);
  isShutdowned : node B U → bool;
}.

Record AsyncOperation := mkAsyncOperation {
  future : nat;
  transaction_id : option Z;
}.

Section node.
Context {B U : Type} `{TcpBackend B} (alloc_limit : Z).

(** The constructor, given the backend built from address and port. *)
Definition initial_node (config : SpwRmapTCPNodeConfig) (backend : B) (u : U) : node B U :=
  mkNode
    (mkLink (Some backend) (replicate (Z.to_nat (recv_buffer_size config)) 0)
       (replicate (Z.to_nat (send_buffer_size config)) 0) (buffer_policy config) empty_packet
       0xFE true)
    (initial_tx (transaction_id_min config) (transaction_id_max config) u)
    (send_timeout config) false false None None.

(** ** Small setters and getters *)

Definition setInitiatorLogicalAddress (address : Z) (n : node B U) : node B U :=
  set_lnk (set_initiator_logical_address_ address (lnk n)) n.
Definition setVerifyMode (v : bool) (n : node B U) : node B U :=
  set_lnk (set_verify_mode_ v (lnk n)) n.
Definition setTimeout (milliseconds : Z) (n : node B U) : node B U :=
  set_txs (set_timeout_ milliseconds (txs n)) n.

Definition getIpAddress_ (n : node B U) : outcome string :=
  match tcp_backend_ (lnk n) with None => UB | Some b => Ret (getIpAddress b) end.
Definition setIpAddress_ (ip : string) (n : node B U) : outcome (node B U) :=
  match tcp_backend_ (lnk n) with
  | None => UB
  | Some b => Ret (set_lnk (set_tcp_backend_ (Some (setIpAddress ip b)) (lnk n)) n)
  end.
Definition getPort_ (n : node B U) : outcome string :=
  match tcp_backend_ (lnk n) with None => UB | Some b => Ret (getPort b) end.
Definition setPort_ (port : string) (n : node B U) : outcome (node B U) :=
  match tcp_backend_ (lnk n) with
  | None => UB
  | Some b => Ret (set_lnk (set_tcp_backend_ (Some (setPort port b)) (lnk n)) n)
  end.

Definition setSendTimeoutInternal_ (timeout : Z) (n : node B U)
    : outcome (expected unit * node B U) :=
  if timeout <? 0 then Ret (Unexpected (generic invalid_argument), n) else
  let n := set_send_timeout_ timeout n in
  match tcp_backend_ (lnk n) with
  | None => Ret (Ok tt, n)
  | Some b =>
      '(res, b) ← setSendTimeout timeout b;
      Ret (res, set_lnk (set_tcp_backend_ (Some b) (lnk n)) n)
  end.

(** ** The initiator side *)

(** The common text of the two [start...AsyncOperation_]; [send] is the call
    that sends the command with its transaction ID. *)
Definition start_async (clock : list Z) (send : Z → link B → outcome (expected unit * link B))
    (on_complete : user_function U) (n : node B U) : outcome (AsyncOperation * node B U) :=
  let '(promise, t) := new_promise (txs n) in
  '(transaction_id_res, t) ← getAvailableTransactionID_ clock t;
  match transaction_id_res with
  | Unexpected e =>
      t ← set_value promise (Unexpected e) t;
      Ret (mkAsyncOperation promise None, set_txs t n)
  | Ok id =>
      let transaction_id := u16 id in
      let tx_index := transaction_id - transaction_id_min_ t in
      t ← install_callbacks promise transaction_id tx_index on_complete t;
      '(res, l) ← send transaction_id (lnk n);
      let n := set_lnk l n in
      match res with
      | Unexpected e =>
          t ← abandon promise transaction_id tx_index e t;
          Ret (mkAsyncOperation promise None, set_txs t n)
      | Ok _ => Ret (mkAsyncOperation promise (Some transaction_id), set_txs t n)
      end
  end.

Definition startWriteAsyncOperation_ (clock : list Z) (target_node : TargetNodeBase)
    (memory_address : Z) (data : list Z) (on_complete : user_function U) :=
  start_async clock
    (λ tid, sendWritePacket_ alloc_limit target_node tid memory_address data) on_complete.

Definition startReadAsyncOperation_ (clock : list Z) (target_node : TargetNodeBase)
    (memory_address data_length : Z) (on_complete : user_function U) :=
  start_async clock
    (λ tid, sendReadPacket_ alloc_limit target_node tid memory_address data_length) on_complete.

Definition writeAsync (clock : list Z) (target_node : TargetNodeBase) (memory_address : Z)
    (data : list Z) (on_complete : user_function U) (n : node B U) : outcome (nat * node B U) :=
  '(op, n) ← startWriteAsyncOperation_ clock target_node memory_address data on_complete n;
  Ret (future op, n).

Definition readAsync (clock : list Z) (target_node : TargetNodeBase)
    (memory_address data_length : Z) (on_complete : user_function U) (n : node B U)
    : outcome (nat * node B U) :=
  '(op, n) ← startReadAsyncOperation_ clock target_node memory_address data_length on_complete n;
  Ret (future op, n).

(** The loop over the attempts of [write] and [read].  [clock k] and
    [others k] are the clock and the work of the other threads in the wait of
    attempt [k]; the wait ends with a value in the promise or in time-out. *)
Fixpoint attempts (count : nat) (k : nat) (clock : nat → list Z)
    (others : nat → node B U → outcome (node B U))
    (start : list Z → node B U → outcome (AsyncOperation * node B U)) (n : node B U)
    : outcome (expected unit * node B U) :=
  match count with
  | O => Ret (Unexpected (generic timed_out), n)
  | S count =>
      '(op, n) ← start (clock k) n;
      n ← others k n;
      match promises (txs n) !! future op with
      | None => UB
      | Some (Some res) => Ret (res, n)
      | Some None =>
          t ← match transaction_id op with
              | Some tid => cancelTransaction_ tid (txs n)
              | None => Ret (txs n)
              end;
          attempts count (S k) clock others start (set_txs t n)
      end
  end.

Definition write (clock : nat → list Z) (others : nat → node B U → outcome (node B U))
    (target_node : TargetNodeBase) (memory_address : Z) (data : list Z) (retry_count : nat)
    (n : node B U) : outcome (expected unit * node B U) :=
  let retry_count := if decide (retry_count = 0%nat) then 1%nat else retry_count in
  attempts retry_count 0 clock others
    (λ clock, startWriteAsyncOperation_ clock target_node memory_address data
                (λ _ u, Ret (Returned tt, u))) n.

(** The lambda of [read]: [std::copy_n] of as many bytes as the caller's span
    has, whatever the reply holds; [store] puts them where the span is. *)
Definition copy_reply (size : Z) (store : list Z → U → U) : user_function U := λ packet u,
  bs ← subspan (data packet) 0 size;
  Ret (Returned tt, store bs u).

Definition read (clock : nat → list Z) (others : nat → node B U → outcome (node B U))
    (target_node : TargetNodeBase) (memory_address size : Z) (store : list Z → U → U)
    (retry_count : nat) (n : node B U) : outcome (expected unit * node B U) :=
  let retry_count := if decide (retry_count = 0%nat) then 1%nat else retry_count in
  attempts retry_count 0 clock others
    (λ clock, startReadAsyncOperation_ clock target_node memory_address (u32 size)
                (copy_reply size store)) n.

(** ** [poll] *)

(** [case PacketType::Read]. *)
Definition serve_read (packet : Packet) (n : node B U) : outcome (expected bool * node B U) :=
  '(result, u) ←
    match on_read_callback_ n with
    | Some f => f packet (user (txs n))
    | None => Ret (Returned [], user (txs n))
    end;
  let n := set_txs (set_user u (txs n)) n in
  match result with
  | ThrewException => Ret (Unexpected (generic operation_canceled), n)
  | ThrewOther => Abort
  | Returned data =>
      '(res, l) ← send_read_reply alloc_limit packet data (lnk n);
      let n := set_lnk l n in
      match res with
      | Unexpected e => Ret (Unexpected e, n)
      | Ok _ => Ret (Ok true, n)
      end
  end.

(** [case PacketType::Write]. *)
Definition serve_write (packet : Packet) (n : node B U) : outcome (expected bool * node B U) :=
  '(result, u) ←
    match on_write_callback_ n with
    | Some f => f packet (user (txs n))
    | None => Ret (Returned tt, user (txs n))
    end;
  let n := set_txs (set_user u (txs n)) n in
  match result with
  | ThrewException => Ret (Unexpected (generic operation_canceled), n)
  | ThrewOther => Abort
  | Returned _ =>
      '(res, l) ← send_write_reply alloc_limit packet (lnk n);
      let n := set_lnk l n in
      match res with
      | Unexpected e => Ret (Unexpected e, n)
      | Ok _ => Ret (Ok true, n)
      end
  end.

Definition handle_packet (packet : Packet) (n : node B U) : outcome (expected bool * node B U) :=
  match type packet with
  | ReadReply | WriteReply =>
      '(res, t) ← dispatch_reply packet (txs n);
      let n := set_txs t n in
      match res with
      | Unexpected e => Ret (Unexpected e, n)
      | Ok _ => Ret (Ok true, n)
      end
  | Read => serve_read packet n
  | Write => serve_write packet n
  | Undefined => Ret (Ok true, n)
  end.

Context `{NodeVirtuals B U}.

Definition poll (fuel : nat) (n : node B U) : outcome (expected bool * node B U) :=
  '(res, l) ← recvAndParseOnePacket_ alloc_limit fuel (lnk n);
  let n := set_lnk l n in
  match res with
  | Unexpected e =>
      if isShutdowned n then Ret (Ok false, n) else Ret (Unexpected e, n)
  | Ok size =>
      if size =? 0 then
        '(res, n) ← shutdown n;
        match res with
        | Unexpected e => Ret (Unexpected e, n)
        | Ok _ => Ret (Ok false, n)
        end
      else handle_packet (packet_parser_ (lnk n)) n
  end.

(** The loop of [runLoop]; no other code stores to [running_].  [fuel] bounds
    the rounds and the work of each [poll]. *)
Fixpoint run_loop (fuel : nat) (n : node B U) : outcome (expected unit * node B U) :=
  match fuel with
  | O => Pending
  | S fuel =>
      if running_ n then
        '(res, n) ← poll fuel n;
        match res with
        | Unexpected e => Ret (Unexpected e, n)
        | Ok false => Ret (Ok tt, n)
        | Ok true => run_loop fuel n
        end
      else Ret (Ok tt, n)
  end.

Definition runLoop (fuel : nat) (n : node B U) : outcome (expected unit * node B U) :=
  run_loop fuel (set_running_ true n).
End node.
