(* ===== verification/TcpNode.v ===== *)
(** * The TCP nodes (include/spw_rmap/spw_rmap_tcp_node.hh)

    Modules [SpwRmapTCPClient] and [SpwRmapTCPServer]: the node over the TCP
    client and over the TCP server, with their own [connect], [acceptOnce] and
    the virtual functions that [poll] calls.  Each operation holds
    [shutdown_mtx_] and is one step. *)

From S2P Require Import Prelude PacketTypes Posix TcpBackend TcpClient TcpServer Framing Transactions Node.
#[local] Open Scope Z_scope.

(** [getBackend_()]; [None] is the null pointer. *)
Definition getBackend_ {B U} (n : node B U) : option B := tcp_backend_ (lnk n).
Definition set_backend {B U} (b : option B) (n : node B U) : node B U :=
  set_lnk (set_tcp_backend_ b (lnk n)) n.

Module SpwRmapTCPClient.
Section client.
Context {W U : Type} `{Posix W} (retries : nat).
#[local] Existing Instance tcp_client_backend.

Definition t : Type := node (TCPClient.t W) U.

Definition init (ip_address port : string) (config : SpwRmapTCPNodeConfig) (w : W) (u : U) : t :=
  initial_node config (TCPClient.init ip_address port w) u.

(** [getBackend_()->disconnect()] and an error. *)
Definition disconnected (e : error_code) (b : TCPClient.t W) (n : t) : outcome (expected unit * t) :=
  b ← TCPClient.disconnect retries b;
  Ret (Unexpected e, set_backend (Some b) n).

Definition connect (connect_timeout : Z) (n : t) : outcome (expected unit * t) :=
  match getBackend_ n with
  | None => UB
  | Some b =>
      '(res, b) ← TCPClient.connect retries connect_timeout b;
      let n := set_shutdowned_ false n in
      match res with
      | Unexpected e => disconnected e b n
      | Ok _ =>
          '(timeout_res, b) ← TCPClient.setSendTimeout (send_timeout_ n) b;
          match timeout_res with
          | Unexpected e => disconnected e b n
          | Ok _ => Ret (Ok tt, set_backend (Some b) n)
          end
      end
  end.

Definition setSendTimeout (timeout : Z) (n : t) : outcome (expected unit * t) :=
  @setSendTimeoutInternal_ _ U (tcp_client_backend retries) timeout n.

(** [shutdown], and what the system is like after the backend was destroyed. *)
Definition shutdown_os (n : t) : outcome (expected unit * t * option W) :=
  match getBackend_ n with
  | None => Ret (Ok tt, n, None)
  | Some b =>
      '(res, b) ← TCPClient.shutdown b;
      let n := set_shutdowned_ true n in
      match res with
      | Unexpected e => Ret (Unexpected e, set_backend (Some b) n, Some (TCPClient.os b))
      | Ok _ =>
          b ← TCPClient.disconnect retries b;
          Ret (Ok tt, set_backend None n, Some (TCPClient.os b))
      end
  end.

Definition shutdown (n : t) : outcome (expected unit * t) :=
  '(res, n, _) ← shutdown_os n; Ret (res, n).

Definition isShutdowned (n : t) : bool := shutdowned_ n.
End client.
Arguments t W U : clear implicits.
End SpwRmapTCPClient.

#[export] Instance tcp_client_virtuals {W U : Type} `{Posix W} (retries : nat)
    : NodeVirtuals (TCPClient.t W) U := {
  shutdown := SpwRmapTCPClient.shutdown retries;
  isShutdowned := SpwRmapTCPClient.isShutdowned;
}.

Module SpwRmapTCPServer.
Section server.
Context {W U : Type} `{Posix W} (retries : nat).
#[local] Existing Instance tcp_server_backend.

Definition t : Type := node (TCPServer.t W) U.

Definition init (ip_address port : string) (config : SpwRmapTCPNodeConfig) (w : W) (u : U) : t :=
  initial_node config (TCPServer.init ip_address port w) u.

Definition acceptOnce (n : t) : outcome (expected unit * t) :=
  match getBackend_ n with
  | None => UB
  | Some b =>
      '(res, b) ← TCPServer.accept_once retries b;
      match res with
      | Unexpected e => Ret (Unexpected e, set_backend (Some b) n)
      | Ok _ =>
          '(timeout_res, b) ← TCPServer.setSendTimeout (send_timeout_ n) b;
          match timeout_res with
          | Unexpected timeout_error =>
              '(res, b) ← TCPServer.shutdown b;
              match res with
              | Unexpected e => Ret (Unexpected e, set_backend (Some b) n)
              | Ok _ => Ret (Unexpected timeout_error, set_backend (Some b) n)
              end
          | Ok _ => Ret (Ok tt, set_shutdowned_ false (set_backend (Some b) n))
          end
      end
  end.

Definition setSendTimeout (timeout : Z) (n : t) : outcome (expected unit * t) :=
  @setSendTimeoutInternal_ _ U (tcp_server_backend retries) timeout n.

(** The backend stays. *)
Definition shutdown (n : t) : outcome (expected unit * t) :=
  match getBackend_ n with
  | None => Ret (Ok tt, n)
  | Some b =>
      '(res, b) ← TCPServer.shutdown b;
      Ret (res, set_backend (Some b) (set_shutdowned_ true n))
  end.

Definition isShutdowned (n : t) : bool := shutdowned_ n.
End server.
Arguments t W U : clear implicits.
End SpwRmapTCPServer.

#[export] Instance tcp_server_virtuals {W U : Type} `{Posix W}
    : NodeVirtuals (TCPServer.t W) U := {
  shutdown := SpwRmapTCPServer.shutdown;
  isShutdowned := SpwRmapTCPServer.isShutdowned;
}.
