(* ===== verification/TcpNodeTheorems.v ===== *)
(** * Connecting and shutting down

    What [connect] of the TCP client node does to the connection, and what is
    left of the node behind [shutdown]. *)

From S2P Require Import Prelude PacketTypes Posix TcpBackend TcpClient TcpClientTheorems TcpServer Framing Transactions Node TcpNode.
#[local] Open Scope Z_scope.

Section client.
Context {W U : Type} {KP : Posix W} {KV : PosixView W} {KL : PosixLaws W} (retries : nat).
Implicit Types (n : SpwRmapTCPClient.t W U) (b : TCPClient.t W).

(** The descriptors in use without those of the backend. *)
Definition others_open b : gset Z :=
  if 0 <=? TCPClient.fd_ b then open_fds (TCPClient.os b) ∖ {[TCPClient.fd_ b]}
  else open_fds (TCPClient.os b).

Lemma disconnect_spec b :
  (interrupts (TCPClient.os b) < retries)%nat →
  ∃ b', TCPClient.disconnect retries b = Ret b' ∧ TCPClient.fd_ b' = -1 ∧
    open_fds (TCPClient.os b') = others_open b.
Proof.
  intros Hw. unfold TCPClient.disconnect, others_open. destruct (Z.leb_spec 0 (TCPClient.fd_ b)).
  - destruct (close_retry_spec retries (TCPClient.fd_ b) (TCPClient.os b)) as (w & -> & ? & _);
      [done..|]. by eexists.
  - unfold TCPClient.close_retry_. rewrite (proj2 (Z.leb_gt 0 _)) by done. by eexists.
Qed.




(** The node as a backend's owner and as the object [poll] works on. *)
#[local] Existing Instance tcp_client_backend.
#[local] Existing Instance tcp_client_virtuals.

(** C37: A successful SpwRmapTCPClient::shutdown closes the connection's descriptor
    and destroys the backend: shutting down again succeeds, runLoop returns
    success, the write command fails with not_connected, and a further connect
    dereferences the null pointer. *)
Theorem shutdown_outcomes alloc_limit n n' b w fuel timeout target tid addr data :
  getBackend_ n = Some b → (interrupts (TCPClient.os b) < retries)%nat →
  SpwRmapTCPClient.shutdown_os retries n = Ret (Ok tt, n', Some w) →
  0 ≤ TCPClient.fd_ b ∧ open_fds w = others_open b ∧
  SpwRmapTCPClient.isShutdowned n' = true ∧ SpwRmapTCPClient.shutdown retries n' = Ret (Ok tt, n') ∧
  @runLoop _ U (tcp_client_backend retries) alloc_limit (tcp_client_virtuals retries)
    (S (S fuel)) n' = Ret (Ok tt, set_running_ true n') ∧
  @sendWritePacket_ _ (tcp_client_backend retries) alloc_limit target tid addr data (lnk n') =
    Ret (Unexpected (generic not_connected), lnk n') ∧
  SpwRmapTCPClient.connect retries timeout n' = UB.
Proof.
  intros Hb Hw. unfold SpwRmapTCPClient.shutdown_os. rewrite Hb. unfold TCPClient.shutdown.
  destruct (Z.ltb_spec (TCPClient.fd_ b) 0); [done|].
  destruct (sys_shutdown _ _ (TCPClient.os b)) as [r w1] eqn:E.
  apply shutdown_fds in E as (Hf & Hi & _). destruct (r <? 0); [done|].
  cbn [mbind outcome_bind].
  destruct (disconnect_spec (TCPClient.set_os w1 b)) as (b2 & -> & Hfd2 & Ho2); [simpl; lia|].
  cbn [mbind outcome_bind]. intros [= <- <-]. split; [done|]. split.
  { rewrite Ho2. unfold others_open. simpl. by rewrite Hf. }
  split_and!; done.
Qed.
End client.
