(* ===== verification/NodeInterface.v ===== *)
(** * The interface of a node (include/spw_rmap/spw_rmap_node_base.hh)

    [SpwRmapNodeBase] is the abstract class as a type class; a program that
    uses the library is written against it and [SpwRmapClient].  The instances
    are the node of [Node] and the client of [TcpNode].

    A function that waits gets what the other threads do while it waits, and
    the clock; a future is read through [future_value].  [U] is the state that
    the functions of the user act on. *)

From S2P Require Import Prelude PacketTypes Posix TcpBackend TcpClient Framing Transactions Node TcpNode.
#[local] Open Scope Z_scope.

(** What happens around the attempts of a synchronous operation. *)
Record waits (N : Type) := mkWaits {
  clock_of : nat → list Z;
  during : nat → N → outcome N;
}.
Arguments mkWaits {N}.
Arguments clock_of {N} _.
Arguments during {N} _.

Class SpwRmapNodeBase (N U : Type) := {
  nb_poll : nat → N → outcome (expected bool * N);
  nb_runLoop : nat → N → outcome (expected unit * N);
  nb_registerOnWrite : option (user_function U) → N → N;
  nb_registerOnRead : option (read_function U) → N → N;
  nb_write : waits N → TargetNodeBase → Z → list Z → nat → N → outcome (expected unit * N);
  nb_read : waits N → TargetNodeBase → Z → Z → (list Z → U → U) → nat → N →
    outcome (expected unit * N);
  nb_writeAsync : list Z → TargetNodeBase → Z → list Z → user_function U → N → outcome (nat * N);
  nb_readAsync : list Z → TargetNodeBase → Z → Z → user_function U → N → outcome (nat * N);
  nb_emitTimeCode : Z → N → outcome (expected unit * N);
  nb_setVerifyMode : bool → N → N;
  future_value : nat → N → option (option (expected unit));
  user_state : N → U;
  set_user_state : U → N → N;
}.

(** The default of the argument [retry_count]. *)
Definition default_retry_count : nat := 3.

#[export] Instance tcp_node_base {B U : Type} `{TcpBackend B} `{NodeVirtuals B U} (alloc_limit : Z)
    : SpwRmapNodeBase (node B U) U := {
  nb_poll := poll alloc_limit;
  nb_runLoop := runLoop alloc_limit;
  nb_registerOnWrite := registerOnWrite;
  nb_registerOnRead := registerOnRead;
  nb_write w := write alloc_limit (clock_of w) (during w);
  nb_read w := read alloc_limit (clock_of w) (during w);
  nb_writeAsync := writeAsync alloc_limit;
  nb_readAsync := readAsync alloc_limit;
  nb_emitTimeCode tc n :=
    '(res, l) ← emitTimeCode tc (lnk n); Ret (res, set_lnk l n);
  nb_setVerifyMode := setVerifyMode;
  future_value p n := promises (txs n) !! p;
  user_state n := user (txs n);
  set_user_state u n := set_txs (set_user u (txs n)) n;
}.

(** [SpwRmapTCPClient] as the tools use it. *)
Class SpwRmapClient (N U : Type) `{SpwRmapNodeBase N U} := {
  cl_connect : Z → N → outcome (expected unit * N);
  cl_shutdown : N → outcome (expected unit * N);
  cl_setInitiatorLogicalAddress : Z → N → N;
}.

#[export] Instance tcp_client_node {W U : Type} `{Posix W} (retries : nat) (alloc_limit : Z)
    : @SpwRmapClient (SpwRmapTCPClient.t W U) U
        (@tcp_node_base _ _ (tcp_client_backend retries) (tcp_client_virtuals retries) alloc_limit) := {
  cl_connect := SpwRmapTCPClient.connect retries;
  cl_shutdown := SpwRmapTCPClient.shutdown retries;
  cl_setInitiatorLogicalAddress := setInitiatorLogicalAddress;
}.
