(* ===== verification/NodeTheorems.v ===== *)
(** * The node: transactions from start to end

    Every operation of the node keeps the transaction table well formed, so
    that the failures the code leaves to luck do not occur: no promise gets a
    second value, no array is indexed out of range, no ID is leaked. *)

From S2P Require Import Prelude PacketTypes PacketBuilder PacketParser PacketParserFacts PacketTheorems TcpBackend Framing FramingFacts FramingTheorems Transactions TransactionSlots Node.
#[local] Open Scope Z_scope.

Lemma insert_snoc {A} (l : list A) x y : <[length l := y]> (l ++ [x]) = l ++ [y].
Proof. rewrite <-(Nat.add_0_r (length l)). by rewrite insert_app_r. Qed.

Section node_theorems.
Context {B U : Type} `{TcpBackend B} (alloc_limit : Z).
Context (id_min id_max timeout : Z).
Implicit Types (n : node B U) (S : list (@slot U)) (f : user_function U).
Abbreviation tab := (table id_min id_max timeout).
Abbreviation twf := (table_wf id_min id_max).

(** No ID is taken by an operation that is not waiting. *)
Definition no_reserved S : Prop := ∀ i last, S !! i ≠ Some (Reserved last).

Lemma no_reserved_insert S i s :
  no_reserved S → (∀ last, s ≠ Reserved last) → no_reserved (<[i := s]> S).
Proof.
  intros Hn Hs j last Hj. apply list_lookup_insert_Some in Hj as [(-> & -> & ?)|[_ Hj]];
    [by eapply Hs|by eapply Hn].
Qed.

Lemma new_promise_table S ps u :
  new_promise (tab S ps u) = (length ps, tab S (ps ++ [None]) u).
Proof. done. Qed.

Lemma slot_index S ps i s :
  twf S ps → S !! i = Some s →
  u16 (id_min + Z.of_nat i) = id_min + Z.of_nat i ∧
  id_min + Z.of_nat i - id_min = Z.of_nat i ∧ id_min ≤ id_min + Z.of_nat i < id_max.
Proof.
  intros [(H1 & H2 & H3) _] Hi. apply lookup_lt_Some in Hi. unfold zsize in H3.
  unfold u16. rewrite Z.mod_small by lia. lia.
Qed.

(** How an operation starts: with an ID of its own and its promise pending,
    or with an error in the promise and no ID. *)
Inductive started (now now' : Z) (f : user_function U) S ps u :
    (Z → outcome (expected unit * link B)) → outcome (AsyncOperation * tx U * option (link B)) → Prop :=
| started_waiting send i S' ps' last l :
    alloc timeout now now' S (ps ++ [None]) = Taken i S' ps' → S' !! i = Some (Reserved last) →
    send (id_min + Z.of_nat i) = Ret (Ok tt, l) →
    started now now' f S ps u send
      (Ret (mkAsyncOperation (length ps) (Some (id_min + Z.of_nat i)),
            tab (<[i := Waiting last (length ps) f]> S') ps' u, Some l))
| started_unsent send i S' ps' e l :
    alloc timeout now now' S (ps ++ [None]) = Taken i S' ps' →
    send (id_min + Z.of_nat i) = Ret (Unexpected e, l) →
    started now now' f S ps u send
      (Ret (mkAsyncOperation (length ps) None,
            tab (<[i := Free]> S') (<[length ps := Some (Unexpected e)]> ps') u, Some l))
| started_exhausted send :
    alloc timeout now now' S (ps ++ [None]) = Exhausted →
    started now now' f S ps u send
      (Ret (mkAsyncOperation (length ps) None,
            tab S (<[length ps := Some (Unexpected (generic resource_unavailable_try_again))]>
                   (ps ++ [None])) u, None))
| started_stuck send i S' ps' :
    alloc timeout now now' S (ps ++ [None]) = Taken i S' ps' →
    (∀ r, send (id_min + Z.of_nat i) ≠ Ret r) →
    started now now' f S ps u send
      (match send (id_min + Z.of_nat i) with
       | Ret _ => Pending | UB => UB | Abort => Abort | Pending => Pending end).

Lemma start_async_started now now' clock send f n S ps u :
  txs n = tab S ps u → twf S ps →
  ∃ r, started now now' f S ps u (λ tid, send tid (lnk n)) r ∧
    start_async (now :: now' :: clock) send f n =
    ('(op, t, l) ← r; Ret (op, set_txs t (match l with Some l => set_lnk l n | None => n end))).
Proof.
  intros Ht Hwf. unfold start_async. rewrite Ht, new_promise_table.
  destruct (table_wf_promise id_min id_max S ps Hwf) as [Hwf1 Hun].
  rewrite getAvailable_table, bind_ret by done.
  destruct (alloc timeout now now' S (ps ++ [None])) as [i S' ps'|] eqn:Ea.
  - destruct (alloc_taken _ _ _ _ _ _ _ _ _ _ Hwf1 Ea)
      as (Hwf2 & (last & Hi) & _ & Hkeep & Hl & Hlp).
    destruct (Hkeep _ Hun) as [Hun2 Hps]. rewrite list_lookup_middle in Hps by done.
    destruct (slot_index _ _ _ _ Hwf2 Hi) as (E1 & E2 & _).
    change (transaction_id_min_ (tab S' ps' u)) with id_min. cbv zeta. rewrite E1, E2.
    rewrite (install_table id_min id_max timeout S' ps' u i last), bind_ret by done.
    destruct (send (id_min + Z.of_nat i) (lnk n)) as [[[[]|e] l]| | |] eqn:Es.
    + eexists. split; [by eapply started_waiting|]. done.
    + eexists. split; [by eapply started_unsent|].
      apply lookup_lt_Some in Hi as Hlt.
      rewrite bind_ret. erewrite abandon_table; [|by apply table_wf_wait|by apply list_lookup_insert_eq].
      by rewrite list_insert_insert_eq.
    + eexists. split; [eapply started_stuck; [done|by rewrite Es]|]. by rewrite Es.
    + eexists. split; [eapply started_stuck; [done|by rewrite Es]|]. by rewrite Es.
    + eexists. split; [eapply started_stuck; [done|by rewrite Es]|]. by rewrite Es.
  - eexists. split; [by eapply started_exhausted|].
    assert (E : set_value (length ps) (Unexpected (generic resource_unavailable_try_again))
      (tab S (ps ++ [None]) u) = Ret (tab S (<[length ps := Some (Unexpected
        (generic resource_unavailable_try_again))]> (ps ++ [None])) u)).
    { apply set_value_table. by apply list_lookup_middle. }
    by rewrite E, bind_ret.
Qed.

Lemma started_wf now now' f S ps u send op t l :
  twf S ps → no_reserved S → started now now' f S ps u send (Ret (op, t, l)) →
  ∃ S' ps', t = tab S' ps' u ∧ twf S' ps' ∧ no_reserved S'.
Proof.
  intros Hwf Hnr Hs. destruct (table_wf_promise id_min id_max S ps Hwf) as [Hwf1 Hun].
  inversion Hs as [send' i S' ps' last l' Ea Hi Es|send' i S' ps' e l' Ea Es|send' Ea
    |send' i S' ps' Ea Hne Eq]; subst; clear Hs.
  - destruct (alloc_taken _ _ _ _ _ _ _ _ _ _ Hwf1 Ea) as (Hwf2 & _ & Hoth & Hkeep & Hl & Hlp).
    destruct (Hkeep _ Hun) as [Hun2 Hps]. rewrite list_lookup_middle in Hps by done.
    do 2 eexists. split; [done|]. split; [by apply table_wf_wait|].
    intros j last' Hj. apply list_lookup_insert_Some in Hj as [(-> & ? & ?)|[Hne Hj]]; [done|].
    rewrite Hoth in Hj by done. by eapply Hnr.
  - destruct (alloc_taken _ _ _ _ _ _ _ _ _ _ Hwf1 Ea) as (Hwf2 & _ & Hoth & Hkeep & Hl & Hlp).
    destruct (Hkeep _ Hun) as [Hun2 Hps].
    do 2 eexists. split; [done|]. split.
    + apply table_wf_resolve; [by apply table_wf_free|].
      intros j l0 q g Hj. apply list_lookup_insert_Some in Hj as [(-> & ? & ?)|[_ Hj]]; [done|].
      by eapply Hun2.
    + intros j last' Hj. apply list_lookup_insert_Some in Hj as [(-> & ? & ?)|[Hne Hj]]; [done|].
      rewrite Hoth in Hj by done. by eapply Hnr.
  - do 2 eexists. split; [done|]. split; [by apply table_wf_resolve|done].
  - by destruct (send (id_min + Z.of_nat i)).
Qed.
End node_theorems.

(** ** Reachable nodes *)

Section reachable.
Context {B U : Type} `{TcpBackend B} (alloc_limit : Z).
Implicit Types (n : node B U).

(** The state between operations: every ID is free or waits for a reply with
    a pending promise of its own. *)
Definition node_wf (id_min id_max : Z) n : Prop :=
  ∃ timeout S ps u, txs n = table id_min id_max timeout S ps u ∧
    table_wf id_min id_max S ps ∧ no_reserved S.

(** What can happen to a node: an operation starts (any send, any clock), a
    received packet is handled, a transaction is cancelled, the time-out is
    set, bytes move on the link. *)
Inductive node_step : node B U → node B U → Prop :=
| step_start now now' clock send f op n n' :
    start_async (now :: now' :: clock) send f n = Ret (op, n') → node_step n n'
| step_packet packet r n n' : handle_packet alloc_limit packet n = Ret (r, n') → node_step n n'
| step_cancel tid t n : cancelTransaction_ tid (txs n) = Ret t → node_step n (set_txs t n)
| step_timeout ms n : node_step n (setTimeout ms n)
| step_link l n : node_step n (set_lnk l n).

Lemma free_table_wf id_min id_max k :
  0 ≤ id_min → id_max < 2 ^ 16 → Z.of_nat k = id_max - id_min →
  table_wf id_min id_max (replicate k (@Free U)) [].
Proof.
  intros H1 H2 Hk. split; [split_and!; [lia|lia|by zs]|]. split; [intros i last p f Hi|intros i j l l' p f f' Hi];
    by apply lookup_replicate in Hi as [? _].
Qed.

Lemma initial_node_wf config (b : B) (u : U) :
  0 ≤ transaction_id_min config ≤ transaction_id_max config →
  transaction_id_max config < 2 ^ 16 →
  node_wf (transaction_id_min config) (transaction_id_max config) (initial_node config b u).
Proof.
  intros H1 H2. set (k := Z.to_nat (u32 (transaction_id_max config - transaction_id_min config))).
  assert (Hk : Z.of_nat k = transaction_id_max config - transaction_id_min config)
    by (unfold k, u32; rewrite Z.mod_small; lia).
  exists 1000, (replicate k Free), [], u. split; [|split].
  - unfold initial_node, initial_tx, table, table2. cbn [txs]. fold k.
    rewrite !fmap_replicate. f_equal.
    + apply list_eq. intros i. rewrite list_lookup_imap.
      destruct (decide (i < k)%nat).
      * by rewrite !lookup_replicate_2.
      * by rewrite !lookup_ge_None_2 by (rewrite length_replicate; lia).
    + apply list_eq. intros i. rewrite list_lookup_imap.
      destruct (decide (i < k)%nat).
      * by rewrite !lookup_replicate_2.
      * by rewrite !lookup_ge_None_2 by (rewrite length_replicate; lia).
  - by apply free_table_wf; lia.
  - intros i last Hi. by apply lookup_replicate in Hi as [? _].
Qed.

Lemma set_user_wf id_min id_max n v l :
  node_wf id_min id_max n → node_wf id_min id_max (set_lnk l (set_txs (set_user v (txs n)) n)).
Proof.
  intros (timeout & S & ps & u & E & Hwf & Hnr). exists timeout, S, ps, v.
  split; [|done]. cbn. by rewrite E.
Qed.

Lemma dispatch_reply_wf id_min id_max n packet r t :
  node_wf id_min id_max n → dispatch_reply packet (txs n) = Ret (r, t) →
  node_wf id_min id_max (set_txs t n).
Proof.
  intros (timeout & S & ps & u & E & Hwf & Hnr). rewrite E.
  destruct (decide (transactionID packet < id_min ∨ id_max ≤ transactionID packet)) as [Ho|Hin].
  { rewrite dispatch_reply_out_of_range by done. intros [= <- <-]. by exists timeout, S, ps, u. }
  pose proof Hwf as [(H1 & H2 & H3) _]. unfold zsize in H3.
  destruct (lookup_lt_is_Some_2 S (Z.to_nat (transactionID packet - id_min))) as [s Hs]; [lia|].
  rewrite (dispatch_reply_table _ _ _ _ _ _ _ s) with (1 := Hwf) (2 := Hs) by lia.
  destruct s as [|last|last p f].
  - intros [= <- <-]. by exists timeout, S, ps, u.
  - intros [= <- <-]. by exists timeout, S, ps, u.
  - destruct (f packet u) as [[r' u']| | |]; [|done..]. rewrite bind_ret. intros [= <- <-].
    exists timeout. do 3 eexists. split; [done|]. split; [by eapply table_wf_finish|].
    by apply no_reserved_insert.
Qed.

Lemma cancel_wf id_min id_max n tid t :
  node_wf id_min id_max n → cancelTransaction_ tid (txs n) = Ret t →
  node_wf id_min id_max (set_txs t n).
Proof.
  intros (timeout & S & ps & u & E & Hwf & Hnr). rewrite E. pose proof Hwf as [(H1 & H2 & H3) _].
  destruct (decide (tid < id_min ∨ id_max ≤ tid)) as [Ho|Hin].
  { unfold cancelTransaction_. cbn [transaction_id_min_ transaction_id_max_ table table2].
    assert ((tid <? id_min) || (id_max <=? tid) = true) as -> by lia.
    intros [= <-]. by exists timeout, S, ps, u. }
  unfold zsize in H3. pose proof (cancel_table id_min id_max timeout S ps u (Z.to_nat (tid - id_min))) as Ec.
  replace (id_min + Z.of_nat (Z.to_nat (tid - id_min))) with tid in Ec by lia.
  rewrite Ec by (apply Hwf || lia). intros [= <-].
  exists timeout. do 3 eexists. split; [done|]. split; [by apply table_wf_free|].
  by apply no_reserved_insert.
Qed.

Lemma serve_wf id_min id_max n packet r n' :
  node_wf id_min id_max n →
  serve_read alloc_limit packet n = Ret (r, n') ∨ serve_write alloc_limit packet n = Ret (r, n') →
  node_wf id_min id_max n'.
Proof.
  intros Hwf.
  assert (Hu : ∀ v l, node_wf id_min id_max (set_lnk l (set_txs (set_user v (txs n)) n)))
    by (intros; by apply set_user_wf).
  intros [E|E]; [unfold serve_read in E|unfold serve_write in E];
    match type of E with context [match ?c with Some _ => _ | None => _ end] =>
      destruct (match c with Some f => f packet (user (txs n)) | None => _ end) as [[[]]| | |] end;
    try done; cbn [mbind outcome_bind] in E.
  2,4: injection E as <- <-; apply (Hu _ (lnk n)).
  - match type of E with context [send_read_reply ?a ?p ?d ?l] =>
      destruct (send_read_reply a p d l) as [[[] l']| | |] end; try done;
      injection E as <- <-; apply Hu.
  - match type of E with context [send_write_reply ?a ?p ?l] =>
      destruct (send_write_reply a p l) as [[[] l']| | |] end; try done;
      injection E as <- <-; apply Hu.
Qed.

Lemma node_step_wf id_min id_max n n' :
  node_wf id_min id_max n → node_step n n' → node_wf id_min id_max n'.
Proof.
  intros Hwf Hstep. destruct Hstep as [now now' clock send f op n n' E|packet r n n' E|tid t n E|ms n|l n].
  - destruct Hwf as (timeout & S & ps & u & Et & Hwf & Hnr).
    edestruct (start_async_started id_min id_max timeout now now' clock send f n) as (r & Hr & Er);
      [done|done|]. rewrite E in Er. destruct r as [[[op' t] l]| | |]; [|done..].
    injection Er as _ ->. destruct (started_wf _ _ _ _ _ _ _ _ _ _ _ _ _ Hwf Hnr Hr)
      as (S' & ps' & -> & Hwf' & Hnr').
    exists timeout, S', ps', u. by destruct l.
  - unfold handle_packet in E. destruct (type packet).
    + injection E as <- <-. done.
    + eapply serve_wf; [done|by left].
    + eapply serve_wf; [done|by right].
    + destruct (dispatch_reply packet (txs n)) as [[r' t]| | |] eqn:Ed; [|done..].
      pose proof (dispatch_reply_wf _ _ _ _ _ _ Hwf Ed). by destruct r'; injection E as <- <-.
    + destruct (dispatch_reply packet (txs n)) as [[r' t]| | |] eqn:Ed; [|done..].
      pose proof (dispatch_reply_wf _ _ _ _ _ _ Hwf Ed). by destruct r'; injection E as <- <-.
  - by eapply cancel_wf.
  - destruct Hwf as (timeout & S & ps & u & E & Hwf & Hnr). exists ms, S, ps, u.
    split; [|done]. unfold setTimeout. cbn. by rewrite E.
  - by destruct Hwf as (timeout & S & ps & u & E & Hwf & Hnr); exists timeout, S, ps, u.
Qed.

Lemma reachable_node_wf id_min id_max n n' :
  node_wf id_min id_max n → rtc node_step n n' → node_wf id_min id_max n'.
Proof. intros Hwf. induction 1; [done|]. by eauto using node_step_wf. Qed.
End reachable.

(** ** Properties of the transactions of a reachable node *)

Section properties.
Context {B U : Type} `{TcpBackend B} (alloc_limit : Z).
Implicit Types (n : node B U).

(** The arrays of a table, read at an index. *)
Lemma table_reads id_min id_max timeout (S : list (@slot U)) ps u i s :
  S !! Z.to_nat i = Some s → 0 ≤ i →
  let t := table id_min id_max timeout S ps u in
  rd (available_transaction_ids_ t) i = Ret (slot_available s) ∧
  rd (transaction_last_used_ t) i = Ret (slot_last s) ∧
  rd (reply_callback_ t) i = Ret (slot_reply id_min (Z.to_nat i) s) ∧
  rd (reply_error_callback_ t) i = Ret (slot_error id_min (Z.to_nat i) s).
Proof.
  intros Hs Hi. split_and!; (apply rd_lookup; [done|]); cbn [table table2 available_transaction_ids_
    transaction_last_used_ reply_callback_ reply_error_callback_];
    rewrite ?list_lookup_fmap, ?list_lookup_imap, Hs; done.
Qed.

Lemma slot_in_range id_min id_max (S : list (@slot U)) ps i :
  table_wf id_min id_max S ps → 0 ≤ i < id_max - id_min → ∃ s, S !! Z.to_nat i = Some s.
Proof.
  intros [(? & ? & Hz) _] Hi. apply lookup_lt_is_Some_2. unfold zsize in Hz. lia.
Qed.

(** C8: In every state a node can reach by starting operations, handling packets,
    cancelling and waiting, each transaction ID is either available with neither
    callback set, or taken with both callbacks set, which capture this ID, its
    index and one promise without a value that no other ID's callbacks hold. *)
Theorem reachable_consistent config (b : B) (u : U) n i :
  let id_min := transaction_id_min config in
  let id_max := transaction_id_max config in
  let t := txs n in
  0 ≤ id_min ≤ id_max → id_max < 2 ^ 16 →
  rtc (node_step alloc_limit) (initial_node config b u) n → 0 ≤ i < id_max - id_min →
  (rd (available_transaction_ids_ t) i = Ret true ∧
   rd (reply_callback_ t) i = Ret None ∧ rd (reply_error_callback_ t) i = Ret None) ∨
  (∃ h, rd (available_transaction_ids_ t) i = Ret false ∧
     rd (reply_callback_ t) i = Ret (Some h) ∧
     rd (reply_error_callback_ t) i = Ret (Some (mkErrorHandler (rh_promise h) (id_min + i) i)) ∧
     rh_transaction_id h = id_min + i ∧ rh_tx_index h = i ∧
     promises t !! rh_promise h = Some None ∧
     ∀ j h', 0 ≤ j < id_max - id_min → j ≠ i → rd (reply_callback_ t) j = Ret (Some h') →
       rh_promise h' ≠ rh_promise h).
Proof.
  intros id_min id_max t Hmin Hmax Hreach Hi.
  assert (Hwf0 : node_wf id_min id_max (initial_node config b u)) by by apply initial_node_wf.
  clearbody id_min id_max.
  destruct (reachable_node_wf alloc_limit _ _ _ _ Hwf0 Hreach) as (timeout & S & ps & v & E & Hwf & Hnr).
  destruct (slot_in_range _ _ _ _ _ Hwf Hi) as [s Hs]. unfold t. rewrite E.
  destruct (table_reads id_min id_max timeout S ps v i s Hs ltac:(lia)) as (-> & _ & -> & ->).
  destruct s as [|last|last p f]; [by left|by destruct (Hnr _ _ Hs)|right].
  eexists. split_and!; [done..| | | | |]; cbn; try (rewrite Z2Nat.id by lia; done).
  - by eapply Hwf.
  - intros j h' Hj Hne Hr. destruct (slot_in_range _ _ _ _ _ Hwf Hj) as [s' Hs'].
    destruct (table_reads id_min id_max timeout S ps v j s' Hs' ltac:(lia)) as (_ & _ & Hr' & _).
    cbn in Hr, Hr'. rewrite Hr' in Hr. injection Hr as Hr. destruct s' as [| |last' p' f']; [done..|].
    injection Hr as <-. cbn. intros ->. apply Hne.
    destruct Hwf as [_ [_ Hu]]. pose proof (Hu _ _ _ _ _ _ _ Hs Hs'). lia.
Qed.

Lemma busy_slots id_min id_max timeout (S : list (@slot U)) ps u j :
  table_wf id_min id_max S ps → Free ∉ S → 0 ≤ j < id_max - id_min →
  rd (available_transaction_ids_ (table id_min id_max timeout S ps u)) j = Ret false.
Proof.
  intros Hwf Hf Hj. destruct (slot_in_range _ _ _ _ _ Hwf Hj) as [s Hs].
  destruct (table_reads id_min id_max timeout S ps u j s Hs ltac:(lia)) as (-> & _).
  destruct s; [|done..]. destruct Hf. by eapply list_elem_of_lookup_2.
Qed.

(** C22: getAvailableTransactionID_ always returns: an ID of the range whose slot is
    now taken and without callbacks, which was available before, or, when none
    was, belonged to an operation older than the time-out whose promise now
    holds timed_out; or resource_unavailable_try_again, with nothing changed,
    when every ID is taken and none is older than the time-out. *)
Theorem allocation_outcome id_min id_max n now now' clock :
  node_wf id_min id_max n →
  let t := txs n in
  let limit := transaction_timeout_ t * 1000000 in
  ∃ r t', getAvailableTransactionID_ (now :: now' :: clock) t = Ret (r, t') ∧
    match r with
    | Ok id =>
        let i := id - id_min in
        id_min ≤ id < id_max ∧ rd (available_transaction_ids_ t') i = Ret false ∧
        rd (reply_callback_ t') i = Ret None ∧ rd (reply_error_callback_ t') i = Ret None ∧
        (rd (available_transaction_ids_ t) i = Ret true ∧ promises t' = promises t ∨
         (∀ j, 0 ≤ j < id_max - id_min → rd (available_transaction_ids_ t) j = Ret false) ∧
         ∃ h last, rd (reply_callback_ t) i = Ret (Some h) ∧
           rd (transaction_last_used_ t) i = Ret last ∧ limit < now - last ∧
           promises t' = <[rh_promise h := Some (Unexpected (generic timed_out))]> (promises t))
    | Unexpected e =>
        e = generic resource_unavailable_try_again ∧ t' = t ∧
        ∀ j, 0 ≤ j < id_max - id_min → rd (available_transaction_ids_ t) j = Ret false ∧
          ∃ last, rd (transaction_last_used_ t) j = Ret last ∧ now - last ≤ limit
    end.
Proof.
  intros (timeout & S & ps & u & E & Hwf & Hnr) t limit. unfold limit, t. clear t limit. rewrite E.
  rewrite getAvailable_table by done. do 2 eexists.
  split; [by rewrite <-surjective_pairing|]. change (transaction_timeout_ _) with timeout.
  pose proof Hwf as [(H1 & H2 & H3) _]. unfold zsize in H3.
  destruct (alloc timeout now now' S ps) as [i S' ps'|] eqn:Ea; cbn [fst snd].
  - destruct (alloc_taken _ _ _ _ _ _ _ _ _ _ Hwf Ea) as (Hwf' & (last & Hi) & _ & _ & Hl & _).
    apply lookup_lt_Some in Hi as Hlt.
    replace (id_min + Z.of_nat i - id_min) with (Z.of_nat i) by lia.
    assert (Hi' : S' !! Z.to_nat (Z.of_nat i) = Some (Reserved last)) by by rewrite Nat2Z.id.
    destruct (table_reads id_min id_max timeout S' ps' u _ _ Hi' ltac:(lia)) as (-> & _ & -> & ->).
    split_and!; [lia|lia|done..|].
    unfold alloc in Ea. destruct (first_free S) as [k|] eqn:Ef.
    + injection Ea as -> <- <-. apply first_free_Some in Ef as [Hk _]. left. split; [|done].
      rewrite <-(Nat2Z.id i) in Hk.
      by destruct (table_reads id_min id_max timeout S ps u _ _ Hk ltac:(lia)) as (-> & _).
    + destruct (first_expired timeout now S) as [k|] eqn:Ee; [|done]. injection Ea as -> _ <-.
      right. apply first_free_None in Ef. split; [by intros; apply busy_slots|].
      unfold first_expired in Ee. apply fmap_Some in Ee as ([j s] & Hfind & [= ->]).
      apply list_find_Some in Hfind as (Hj & [Hbusy Hexp] & _). rewrite Hj.
      pose proof Hj as Hj'. rewrite <-(Nat2Z.id j) in Hj'.
      destruct (table_reads id_min id_max timeout S ps u _ _ Hj' ltac:(lia)) as (_ & -> & -> & _).
      destruct s as [|l|l p f]; [done|by destruct (Hnr _ _ Hj)|]. by do 2 eexists.
  - split_and!; [done..|]. unfold alloc in Ea.
    destruct (first_free S) as [k|] eqn:Ef; [done|]. apply first_free_None in Ef.
    destruct (first_expired timeout now S) as [k|] eqn:Ee; [done|].
    unfold first_expired in Ee. apply fmap_None, list_find_None in Ee. rewrite Forall_forall in Ee.
    intros j Hj. split; [by apply busy_slots|].
    destruct (slot_in_range _ _ _ _ _ Hwf Hj) as [s Hs].
    destruct (table_reads id_min id_max timeout S ps u j s Hs ltac:(lia)) as (_ & -> & _).
    eexists. split; [done|]. destruct (decide (timeout * 1000000 < now - slot_last s)); [|lia].
    destruct (Ee s); [by eapply list_elem_of_lookup_2|]. split; [|done].
    destruct s; [|done..]. destruct Ef. by eapply list_elem_of_lookup_2.
Qed.

(** When the packet of an operation cannot be sent, the operation's promise gets
    the error, the operation reports no transaction ID, and every array of the
    transaction table is as it was before the operation. *)
Theorem failed_send_leaks_nothing id_min id_max n now now' clock send f e l i :
  node_wf id_min id_max n →
  rd (available_transaction_ids_ (txs n)) i = Ret true →
  (∀ tid, send tid (lnk n) = Ret (Unexpected e, l)) →
  start_async (now :: now' :: clock) send f n =
  Ret (mkAsyncOperation (length (promises (txs n))) None,
       set_txs (set_promises (promises (txs n) ++ [Some (Unexpected e)]) (txs n)) (set_lnk l n)).
Proof.
  intros (timeout & S & ps & u & E & Hwf & Hnr) Ha Hsend.
  edestruct (start_async_started id_min id_max timeout now now' clock send f n) as (r & Hr & ->);
    [done|done|]. rewrite E in *.
  assert (Hfree : ∃ k, first_free S = Some k).
  { destruct (first_free S) as [k|] eqn:Ef; [by exists k|]. apply first_free_None in Ef.
    unfold rd in Ha. case_decide; [|done]. cbn in Ha. rewrite list_lookup_fmap in Ha.
    destruct (S !! Z.to_nat i) as [s|] eqn:Es; [|done]. destruct s; [|done..].
    destruct Ef. by eapply list_elem_of_lookup_2. }
  destruct Hfree as [k Hk].
  assert (Ea : ∀ ps', alloc timeout now now' S ps' = Taken k (<[k := Reserved now]> S) ps')
    by (intros ps'; unfold alloc; by rewrite Hk).
  apply first_free_Some in Hk as [Hk _].
  inversion Hr as [? j S' ps' last l' Ej Hj Es|? j S' ps' e' l' Ej Es|? Ej|? j S' ps' Ej Hne];
    subst; rewrite Ea in Ej; try done; injection Ej as <- <- <-.
  - by rewrite Hsend in Es.
  - rewrite Hsend in Es. injection Es as <- <-. cbn [mbind outcome_bind]. do 3 f_equal.
    rewrite list_insert_insert_eq, list_insert_id by done.
    unfold table, table2, set_promises. cbn. f_equal. by rewrite insert_snoc.
  - by destruct (Hne _ (Hsend _)).
Qed.

(** C21: On a consistent node no operation indexes an array out of range, gives a
    promise a second value or fails the range assertion of
    releaseTransactionID_: starting an operation is safe whenever its sending
    function is, cancelling any ID is safe, and handling any reply is safe
    whenever the registered user functions are. *)
Theorem operations_safe id_min id_max n :
  node_wf id_min id_max n →
  (∀ now now' clock send f, (∀ tid, safe (send tid (lnk n))) →
     safe (start_async (now :: now' :: clock) send f n)) ∧
  (∀ tid, safe (cancelTransaction_ tid (txs n))) ∧
  (∀ packet, (∀ i h, rd (reply_callback_ (txs n)) i = Ret (Some h) →
                safe (rh_on_complete h packet (user (txs n)))) →
     safe (dispatch_reply packet (txs n))).
Proof.
  intros (timeout & S & ps & u & E & Hwf & Hnr). pose proof Hwf as [(H1 & H2 & H3) _].
  unfold zsize in H3. split_and!.
  - intros now now' clock send f Hsend.
    edestruct (start_async_started id_min id_max timeout now now' clock send f n) as (r & Hr & ->);
      [done|done|].
    inversion Hr as [| | |? j S' ps' Ej Hne]; subst; [done..|].
    specialize (Hsend (id_min + Z.of_nat j)).
    destruct (send (id_min + Z.of_nat j) (lnk n)) as [r'| | |];
      [by destruct (Hne r')|by destruct Hsend..].
  - intros tid. rewrite E. destruct (decide (tid < id_min ∨ id_max ≤ tid)) as [Ho|Hin].
    { unfold cancelTransaction_. cbn [transaction_id_min_ transaction_id_max_ table table2].
      by assert ((tid <? id_min) || (id_max <=? tid) = true) as -> by lia. }
    pose proof (cancel_table id_min id_max timeout S ps u (Z.to_nat (tid - id_min))) as Ec.
    replace (id_min + Z.of_nat (Z.to_nat (tid - id_min))) with tid in Ec by lia.
    by rewrite Ec by (apply Hwf || lia).
  - intros packet Hsafe. rewrite E in *.
    destruct (decide (transactionID packet < id_min ∨ id_max ≤ transactionID packet)) as [Ho|Hin].
    { by rewrite dispatch_reply_out_of_range. }
    destruct (slot_in_range _ _ _ _ (transactionID packet - id_min) Hwf ltac:(lia)) as [s Hs].
    rewrite (dispatch_reply_table _ _ _ _ _ _ _ s) with (1 := Hwf) (2 := Hs) by lia.
    destruct s as [|last|last p f]; [done..|].
    destruct (table_reads id_min id_max timeout S ps u _ _ Hs ltac:(lia)) as (_ & _ & Hrd & _).
    specialize (Hsafe _ _ Hrd). cbn in Hsafe.
    destruct (f packet u) as [[]| | |]; [done|by destruct Hsafe..].
Qed.
End properties.
