(* ===== verification/Exchange.v ===== *)
(** * Exchanges between nodes

    What [poll] makes of the packets that arrive, the commands as they reach
    the target side, the replies as they complete the initiator's operation,
    and whole transactions over two nodes. *)

From S2P Require Import Prelude PacketTypes PacketBuilder PacketParser PacketParserFacts PacketTheorems TcpBackend Framing FramingFacts FramingTheorems Transactions TransactionSlots Node NodeTheorems.
#[local] Open Scope Z_scope.

Section exchange.
Context {B U : Type} `{TcpBackendLaws B} `{NodeVirtuals B U} (alloc_limit : Z).
Context (alloc_range : alloc_limit < 2 ^ 64).
Implicit Types (n : node B U) (b : B).

(** The stream [segs], the frame [d], then [tl] wait for [n]; its receive
    buffer can take them, and [fuel] is enough to read them. *)
Definition arriving (fuel : nat) n b segs x y d tl : Prop :=
  tcp_backend_ (lnk n) = Some b ∧ delivering b ∧
  wire_in b = stream segs ++ frame 0x00 x y d ++ tl ∧
  Forall segment_wf segs ∧ d ≠ [] ∧ zsize d < 2 ^ 64 ∧
  room (buffer_cap alloc_limit (buffer_policy_ (lnk n)) (zsize (recv_buf_ (lnk n)))) [] segs d ∧
  zsize (stream segs) + zsize (frame 0x00 x y d) < Z.of_nat fuel.

(** [n] after it has received the packet [q]: only the receive side of the
    link has changed. *)
Definition after_receive n b (tl : list Z) (q : Packet) n' : Prop :=
  ∃ b' buf,
    n' = set_lnk (set_packet_parser_ q (set_recv_buf_ buf (set_tcp_backend_ (Some b') (lnk n)))) n ∧
    wire_in b' = tl ∧ wire_out b' = wire_out b ∧ delivering b' ∧ (accepting b → accepting b').

Lemma poll_receives fuel n b segs x y d tl rsv q :
  arriving fuel n b segs x y d tl →
  fold_left collect segs [] ++ d = wire rsv q → packet_wf q → byte rsv →
  zsize (wire rsv q) < 2 ^ 64 →
  let q' := received (packet_parser_ (lnk n)) q in
  ∃ n', after_receive n b tl q' n' ∧ poll alloc_limit fuel n = handle_packet alloc_limit q' n'.
Proof.
  intros (Hb & Hd & Hw & Hwf & Hne & Hn & Hr & Hf) Hpk Hq Hrsv Hs q'.
  destruct (recv_packet_stream alloc_limit alloc_range segs fuel (lnk n) b x y d tl)
    as (b' & junk & E & Hc & Hi); [done..|]. rewrite Hpk in E.
  rewrite parse_wire, bind_ret, decide_True in E by done.
  destruct Hc as (? & ? & ? & ? & ? & ?).
  eexists. split; [by exists b', (wire rsv q ++ junk)|].
  unfold poll. rewrite E, bind_ret.
  assert (0 < zsize (wire rsv q)).
  { rewrite <-Hpk, zsize_app. pose proof (zsize_pos d Hne).
    pose proof (zsize_nonneg (fold_left collect segs [])). lia. }
  destruct (Z.eqb_spec (zsize (wire rsv q)) 0); [lia|]. done.
Qed.

Lemma after_receive_backend n b tl q n' :
  after_receive n b tl q n' →
  ∃ b', tcp_backend_ (lnk n') = Some b' ∧ wire_in b' = tl ∧ wire_out b' = wire_out b ∧
    delivering b' ∧ (accepting b → accepting b') ∧ txs n' = txs n ∧
    send_buf_ (lnk n') = send_buf_ (lnk n) ∧ buffer_policy_ (lnk n') = buffer_policy_ (lnk n) ∧
    on_write_callback_ n' = on_write_callback_ n ∧ on_read_callback_ n' = on_read_callback_ n.
Proof. intros (b' & buf & -> & ? & ? & ? & ?). exists b'. by split_and!. Qed.

(** ** The target side *)

(** The parts of the node that serving a command leaves alone; [p] is the
    packet last parsed. *)
Definition keeps (p : Packet) n n' : Prop :=
  packet_parser_ (lnk n') = p ∧ buffer_policy_ (lnk n') = buffer_policy_ (lnk n) ∧
  on_write_callback_ n' = on_write_callback_ n ∧ on_read_callback_ n' = on_read_callback_ n ∧
  running_ n' = running_ n.

Lemma send_reply_keeps total build (l : link B) res l' :
  send_reply alloc_limit total build l = Ret (res, l') →
  packet_parser_ l' = packet_parser_ l ∧ buffer_policy_ l' = buffer_policy_ l.
Proof.
  unfold send_reply, ensure_send_buffer, build_into, send_. intros E.
  apply bind_Ret in E as ([l1|] & E1 & E); [|by injection E as <- <-].
  assert (Hl1 : packet_parser_ l1 = packet_parser_ l ∧ buffer_policy_ l1 = buffer_policy_ l).
  { destruct (_ <? _); [|by injection E1 as <-]. destruct (buffer_policy_ l) eqn:Ep; [done|].
    apply bind_Ret in E1 as (buf & _ & [= <-]). by rewrite <-Ep. }
  destruct Hl1 as [<- <-]. clear E1.
  apply bind_Ret in E as ([r l2] & E2 & E). apply bind_Ret in E2 as (out & _ & E2).
  apply bind_Ret in E2 as ([r' out'] & _ & [= <- <-]).
  destruct r'; [|by injection E as <- <-].
  apply bind_Ret in E as (buf & _ & E). apply bind_Ret in E as (fr & _ & E).
  destruct (tcp_backend_ _) as [b|]; [|done]. by apply bind_Ret in E as ([? ?] & _ & [= <- <-]).
Qed.

Lemma serve_keeps packet n n' :
  serve_write alloc_limit packet n = Ret (Ok true, n') ∨
  serve_read alloc_limit packet n = Ret (Ok true, n') →
  keeps (packet_parser_ (lnk n)) n n'.
Proof.
  unfold serve_write, serve_read, send_write_reply, send_read_reply.
  intros [E|E]; apply bind_Ret in E as ([r u] & _ & E); destruct r; try done;
    apply bind_Ret in E as ([[] l] & [Hp Hb]%send_reply_keeps & E); simplify_eq/=; done.
Qed.

(** The target answers: its user state is [u'], its backend has sent the frame
    of [reply] and goes on with [tl]. *)
Definition answered n b (tl reply : list Z) (u' : U) n' : Prop :=
  user (txs n') = u' ∧
  ∃ b', tcp_backend_ (lnk n') = Some b' ∧ wire_in b' = tl ∧
    wire_out b' = wire_out b ++ frame 0 0 0 reply ∧ delivering b' ∧ accepting b'.

Lemma serve_write_answers n b tl packet u' :
  tcp_backend_ (lnk n) = Some b → delivering b → accepting b → wire_in b = tl →
  match on_write_callback_ n with
  | Some f => f packet (user (txs n)) = Ret (Returned tt, u')
  | None => u' = user (txs n)
  end →
  let c := write_reply_config packet in
  WriteReplyPacketBuilder.getTotalSize c ≤ INT_MAX →
  WriteReplyPacketBuilder.getTotalSize c + 12 ≤
    buffer_cap alloc_limit (buffer_policy_ (lnk n)) (zsize (send_buf_ (lnk n))) →
  ∃ n', serve_write alloc_limit packet n = Ret (Ok true, n') ∧
    answered n b tl (encode_write_reply c) u' n'.
Proof.
  intros Hb Hd Ha Htl Hf c Hm Hc. unfold serve_write.
  assert (E : match on_write_callback_ n with
    | Some f => f packet (user (txs n))
    | None => Ret (Returned tt, user (txs n)) end = Ret (Returned tt, u'))
    by (destruct (on_write_callback_ n); congruence).
  rewrite E, bind_ret. unfold send_write_reply. cbv zeta. cbn [lnk set_txs].
  destruct (send_reply_sent alloc_limit (WriteReplyPacketBuilder.getTotalSize c)
    (WriteReplyPacketBuilder.build c) (encode_write_reply c) (lnk n) b)
    as (l' & El & b' & Hb' & Ho & Hi & Ha' & Hd' & _); try done.
  { by apply builds_write_reply. }
  { by rewrite zsize_encode_write_reply. }
  { unfold INT_MAX in *. lia. }
  fold c. rewrite El, bind_ret. eexists. split; [done|]. split; [done|].
  exists b'. split_and!; [done|congruence|done|tauto|done].
Qed.

Lemma serve_read_answers n b tl packet data u' :
  tcp_backend_ (lnk n) = Some b → delivering b → accepting b → wire_in b = tl →
  match on_read_callback_ n with
  | Some f => f packet (user (txs n)) = Ret (Returned data, u')
  | None => data = [] ∧ u' = user (txs n)
  end →
  let c := read_reply_config packet data in
  ReadReplyPacketBuilder.getTotalSize c ≤ INT_MAX →
  ReadReplyPacketBuilder.getTotalSize c + 12 ≤
    buffer_cap alloc_limit (buffer_policy_ (lnk n)) (zsize (send_buf_ (lnk n))) →
  ∃ n', serve_read alloc_limit packet n = Ret (Ok true, n') ∧
    answered n b tl (encode_read_reply c) u' n'.
Proof.
  intros Hb Hd Ha Htl Hf c Hm Hc. unfold serve_read.
  assert (E : match on_read_callback_ n with
    | Some f => f packet (user (txs n))
    | None => Ret (Returned [], user (txs n)) end = Ret (Returned data, u'))
    by (destruct (on_read_callback_ n); [done|by destruct Hf as [-> ->]]).
  rewrite E, bind_ret. unfold send_read_reply. cbv zeta. cbn [lnk set_txs].
  destruct (send_reply_sent alloc_limit (ReadReplyPacketBuilder.getTotalSize c)
    (ReadReplyPacketBuilder.build c) (encode_read_reply c) (lnk n) b)
    as (l' & El & b' & Hb' & Ho & Hi & Ha' & Hd' & _); try done.
  { by apply builds_read_reply. }
  { by rewrite zsize_encode_read_reply. }
  { unfold INT_MAX in *. lia. }
  fold c. rewrite El, bind_ret. eexists. split; [done|]. split; [done|].
  exists b'. split_and!; [done|congruence|done|tauto|done].
Qed.

(** The reply to a command, as the initiator gets it. *)
Lemma write_reply_config_received p c :
  write_reply_config (received p (write_packet c)) = write_reply_config (write_packet c).
Proof. done. Qed.
Lemma read_reply_config_received p c data :
  read_reply_config (received p (read_packet c)) data = read_reply_config (read_packet c) data.
Proof. done. Qed.

(** ** The initiator side *)

(** The state of the table while an operation waits. *)
Definition waiting id_min id_max n (op : AsyncOperation) f : Prop :=
  ∃ timeout S ps i last,
    txs n = table id_min id_max timeout S ps (user (txs n)) ∧ table_wf id_min id_max S ps ∧
    transaction_id op = Some (id_min + Z.of_nat i) ∧ S !! i = Some (Waiting last (future op) f).

Lemma waiting_range id_min id_max n op f tid :
  waiting id_min id_max n op f → transaction_id op = Some tid →
  0 ≤ id_min ∧ id_min ≤ tid < id_max ∧ id_max < 2 ^ 16.
Proof.
  intros (timeout & S & ps & i & last & _ & [(H1' & H2' & H3') _] & -> & Hi) [= <-].
  apply lookup_lt_Some in Hi. unfold zsize in H3'. lia.
Qed.

(** An operation on a node with a free ID, when its packet can be sent. *)
Lemma start_waits id_min id_max n now now' clock send f i (P : Z → link B → Prop) :
  node_wf id_min id_max n → rd (available_transaction_ids_ (txs n)) i = Ret true →
  (∀ tid, id_min ≤ tid < id_max → ∃ l, send tid (lnk n) = Ret (Ok tt, l) ∧ P tid l) →
  ∃ op n' tid, start_async (now :: now' :: clock) send f n = Ret (op, n') ∧
    transaction_id op = Some tid ∧ waiting id_min id_max n' op f ∧
    user (txs n') = user (txs n) ∧ P tid (lnk n').
Proof.
  intros (timeout & S & ps & u & E & Hwf & Hnr) Ha Hsend.
  edestruct (start_async_started id_min id_max timeout now now' clock send f n) as (r & Hr & ->);
    [done|done|]. rewrite E in Ha |- *.
  destruct (table_wf_promise id_min id_max S ps Hwf) as [Hwf1 Hun].
  assert (Hx : ∀ ps', alloc timeout now now' S ps' ≠ Exhausted).
  { intros ps'. unfold alloc. destruct (first_free S) as [k|] eqn:Ef; [done|].
    apply first_free_None in Ef. unfold rd in Ha. case_decide; [|done]. cbn in Ha.
    rewrite list_lookup_fmap in Ha. destruct (S !! Z.to_nat i) as [s|] eqn:Es; [|done].
    destruct s; [|done..]. destruct Ef. by eapply list_elem_of_lookup_2. }
  destruct (alloc timeout now now' S (ps ++ [None])) as [j S' ps'|] eqn:Ea; [|by destruct (Hx _ Ea)].
  destruct (alloc_taken _ _ _ _ _ _ _ _ _ _ Hwf1 Ea) as (Hwf2 & (last & Hi) & _ & Hkeep & _).
  destruct (Hkeep _ Hun) as [Hun2 Hps]. rewrite list_lookup_middle in Hps by done.
  destruct (slot_index _ _ _ _ _ _ Hwf2 Hi) as (_ & _ & Hrange).
  destruct (Hsend _ Hrange) as (l & Hl & HP).
  inversion Hr as [? j' ? ? last' l' Ej Hj Es|? j' ? ? e' l' Ej Es|? Ej|? j' ? ? Ej Hne];
    subst; rewrite Ea in Ej; try done; injection Ej as <- <- <-; rewrite ?Hl in *; try done.
  - injection Es as <-. do 3 eexists. split; [done|]. cbn. split_and!; try done.
    apply lookup_lt_Some in Hj as Hlt.
    do 5 eexists. split; [done|]. split; [by apply table_wf_wait|]. split; [done|].
    by apply list_lookup_insert_eq.
  - by destruct (Hne _ eq_refl).
Qed.

(** A reply with the ID of a waiting operation completes it. *)
Lemma reply_completes_op id_min id_max n n' op f tid packet r u' :
  waiting id_min id_max n op f → transaction_id op = Some tid → transactionID packet = tid →
  type packet = ReadReply ∨ type packet = WriteReply →
  txs n' = txs n → f packet (user (txs n)) = Ret (r, u') →
  ∃ n2, handle_packet alloc_limit packet n' = Ret (Ok true, n2) ∧
    promises (txs n2) !! future op = Some (Some (completion r)) ∧
    rd (available_transaction_ids_ (txs n2)) (tid - id_min) = Ret true ∧ user (txs n2) = u'.
Proof.
  intros (timeout & S & ps & i & last & E & Hwf & Hop & Hi) Htid Hp Hty Htx Hf.
  rewrite Hop in Htid. injection Htid as <-.
  assert (Hd : dispatch_reply packet (txs n') = Ret (Ok tt,
    table id_min id_max timeout (<[i := Free]> S) (<[future op := Some (completion r)]> ps) u')).
  { rewrite Htx, E. erewrite dispatch_reply_table; [|done..]. cbn. by rewrite Hf. }
  apply lookup_lt_Some in Hi as Hlt. destruct Hwf as [_ [Hps _]].
  specialize (Hps _ _ _ _ Hi) as Hpr. apply lookup_lt_Some in Hpr.
  eexists. split; [unfold handle_packet; rewrite Hd; by destruct Hty as [-> | ->]|].
  split_and!; [by apply list_lookup_insert_eq| |done].
  replace (id_min + Z.of_nat i - id_min) with (Z.of_nat i) by lia.
  apply rd_nat. cbn. by rewrite list_lookup_fmap, list_lookup_insert_eq.
Qed.
End exchange.

Lemma is_path_strip r : is_path r → is_path (strip_zeros r).
Proof.
  intros Hr. destruct (strip_zeros_suffix r) as (k & E & _). unfold is_path in *. rewrite E in Hr.
  by apply Forall_app in Hr as [_ ?].
Qed.

Lemma write_reply_config_ok c :
  write_config_wf c → is_path (WritePacketConfig.replyAddress c) →
  write_reply_config_wf (write_reply_config (write_packet c)).
Proof.
  unfold write_config_wf. intros. destruct_and!. unfold write_reply_config_wf. cbn.
  split_and!; try done; try lia. by apply is_path_strip.
Qed.

Lemma read_reply_config_ok c data :
  read_config_wf c → is_path (ReadPacketConfig.replyAddress c) → bytes data → zsize data < 2 ^ 24 →
  read_reply_config_wf (read_reply_config (read_packet c) data).
Proof.
  unfold read_config_wf. intros. destruct_and!. unfold read_reply_config_wf. cbn.
  split_and!; try done; try lia. by apply is_path_strip.
Qed.

(** ** Whole transactions

    The client starts an operation, the target polls, the client polls.  The
    bytes may be cut into fragments and chunks, with time codes in between, on
    either way. *)

Section transactions.
Context {B U B' U' : Type} `{TcpBackendLaws B} `{NodeVirtuals B U}
  `{TcpBackendLaws B'} `{NodeVirtuals B' U'} (alloc alloc' : Z).
Context (alloc_range : alloc < 2 ^ 64) (alloc_range' : alloc' < 2 ^ 64).

Lemma server_writes c fuel (server : node B' U') b segs x y d tl u' :
  write_config_wf c → is_path (WritePacketConfig.replyAddress c) →
  WritePacketBuilder.getTotalSize c ≤ INT_MAX →
  arriving alloc' fuel server b segs x y d tl → accepting b →
  fold_left collect segs [] ++ d = encode_write c →
  match on_write_callback_ server with
  | Some g => g (received (packet_parser_ (lnk server)) (write_packet c)) (user (txs server)) =
              Ret (Returned tt, u')
  | None => u' = user (txs server)
  end →
  let reply := encode_write_reply (write_reply_config (write_packet c)) in
  zsize reply + 12 ≤ buffer_cap alloc' (buffer_policy_ (lnk server)) (zsize (send_buf_ (lnk server))) →
  ∃ server1, poll alloc' fuel server = Ret (Ok true, server1) ∧
    answered server b tl reply u' server1 ∧
    keeps (received (packet_parser_ (lnk server)) (write_packet c)) server server1.
Proof.
  intros Hc Hp Hm Harr Ha Hd Hg reply Hroom.
  edestruct (poll_receives alloc' alloc_range' fuel server b segs x y d tl 0 (write_packet c))
    as (n' & Hr & ->); [done|by rewrite Hd, write_packet_wire|by apply write_packet_wf|done|
      rewrite <-write_packet_wire, zsize_encode_write by done; unfold INT_MAX in *; lia|].
  destruct (after_receive_backend _ _ _ _ _ Hr) as (b' & Hb' & Hi & Ho & Hd' & Ha' & Ht & Hs & Hpol & Hw & _).
  set (q := received (packet_parser_ (lnk server)) (write_packet c)) in *.
  change (handle_packet alloc' q n') with (serve_write alloc' q n').
  assert (Hz : zsize reply ≤ 20).
  { unfold reply. rewrite zsize_encode_write_reply. unfold WriteReplyPacketBuilder.getTotalSize. cbn.
    destruct Hc as (_ & _ & _ & Hr12 & _).
    pose proof (zsize_strip_zeros (WritePacketConfig.replyAddress c)). lia. }
  unfold reply in Hz, Hroom. rewrite zsize_encode_write_reply in Hz, Hroom.
  destruct (serve_write_answers alloc' n' b' tl q u') as (n2 & E & Ha2); try done; try tauto.
  - by rewrite Hw, Ht.
  - unfold INT_MAX. change (write_reply_config q) with (write_reply_config (write_packet c)). lia.
  - by rewrite Hpol, Hs.
  - exists n2. split; [done|]. split.
    + destruct Ha2 as (Hu & b2 & ? & ? & Ho2 & ? & ?).
      split; [done|]. exists b2. rewrite Ho2, Ho. by split_and!.
    + destruct (serve_keeps alloc' q n' n2) as (Hk1 & Hk2 & Hk3 & Hk4 & Hk5); [by left|].
      destruct Hr as (? & ? & -> & _). done.
Qed.

Lemma server_reads c fuel (server : node B' U') b segs x y d tl data u' :
  read_config_wf c → is_path (ReadPacketConfig.replyAddress c) →
  ReadPacketBuilder.getTotalSize c ≤ INT_MAX →
  arriving alloc' fuel server b segs x y d tl → accepting b →
  fold_left collect segs [] ++ d = encode_read c →
  match on_read_callback_ server with
  | Some g => g (received (packet_parser_ (lnk server)) (read_packet c)) (user (txs server)) =
              Ret (Returned data, u')
  | None => data = [] ∧ u' = user (txs server)
  end →
  let reply := encode_read_reply (read_reply_config (read_packet c) data) in
  zsize reply ≤ INT_MAX →
  zsize reply + 12 ≤ buffer_cap alloc' (buffer_policy_ (lnk server)) (zsize (send_buf_ (lnk server))) →
  ∃ server1, poll alloc' fuel server = Ret (Ok true, server1) ∧
    answered server b tl reply u' server1 ∧
    keeps (received (packet_parser_ (lnk server)) (read_packet c)) server server1.
Proof.
  intros Hc Hp Hm Harr Ha Hd Hg reply Hz Hroom.
  edestruct (poll_receives alloc' alloc_range' fuel server b segs x y d tl 0 (read_packet c))
    as (n' & Hr & ->); [done|by rewrite Hd, read_packet_wire|by apply read_packet_wf|done|
      rewrite <-read_packet_wire, zsize_encode_read by done; unfold INT_MAX in *; lia|].
  destruct (after_receive_backend _ _ _ _ _ Hr) as (b' & Hb' & Hi & Ho & Hd' & Ha' & Ht & Hs & Hpol & _ & Hw).
  set (q := received (packet_parser_ (lnk server)) (read_packet c)) in *.
  change (handle_packet alloc' q n') with (serve_read alloc' q n').
  unfold reply in Hz, Hroom. rewrite zsize_encode_read_reply in Hz, Hroom.
  destruct (serve_read_answers alloc' n' b' tl q data u') as (n2 & E & Ha2); try done; try tauto.
  - by rewrite Hw, Ht.
  - by rewrite Hpol, Hs.
  - exists n2. split; [done|]. split.
    + destruct Ha2 as (Hu & b2 & ? & ? & Ho2 & ? & ?).
      split; [done|]. exists b2. rewrite Ho2, Ho. by split_and!.
    + destruct (serve_keeps alloc' q n' n2) as (Hk1 & Hk2 & Hk3 & Hk4 & Hk5); [by right|].
      destruct Hr as (? & ? & -> & _). done.
Qed.

(** The client gets a reply [q] of either type. *)
Lemma client_completes id_min id_max fuel (client1 client2 : node B U) op f tid b segs x y d tl q r u' :
  waiting id_min id_max client1 op f → transaction_id op = Some tid → transactionID q = tid →
  type q = ReadReply ∨ type q = WriteReply → packet_wf q →
  txs client2 = txs client1 → arriving alloc fuel client2 b segs x y d tl →
  fold_left collect segs [] ++ d = wire 0 q → zsize (wire 0 q) < 2 ^ 64 →
  f (received (packet_parser_ (lnk client2)) q) (user (txs client1)) = Ret (r, u') →
  ∃ client3, poll alloc fuel client2 = Ret (Ok true, client3) ∧
    promises (txs client3) !! future op = Some (Some (completion r)) ∧
    rd (available_transaction_ids_ (txs client3)) (tid - id_min) = Ret true ∧
    user (txs client3) = u'.
Proof.
  intros Hwait Hop Hid Hty Hwf Htx Harr Hd Hz Hf.
  edestruct (poll_receives alloc alloc_range fuel client2 b segs x y d tl 0 q)
    as (n' & Hr & ->); [done..|].
  destruct (after_receive_backend _ _ _ _ _ Hr) as (_ & _ & _ & _ & _ & _ & Ht & _).
  eapply reply_completes_op; try done.
  - by destruct Hty as [E|E]; unfold received; rewrite E.
  - unfold received. by destruct Hty as [E|E]; rewrite E; [left|right].
  - by rewrite Ht.
Qed.

(** C1: A whole write over two nodes. On a connected client with a free transaction
    ID and room for the packet, startWriteAsyncOperation_ takes an ID, sends
    exactly the frame of the encoded command and leaves the operation waiting. A
    target node that receives this command, however the connection cuts it into
    fragments and chunks, calls its on_write function with the fields of the
    command and sends exactly one frame with the write reply. When the client
    polls a stream with that reply, the on_complete function is called with it,
    the promise gets the value that follows from its outcome, and the ID is free
    again. *)
Theorem write_transaction id_min id_max (client : node B U) b i now now' clock t addr data f :
  node_wf id_min id_max client →
  rd (available_transaction_ids_ (txs client)) i = Ret true →
  tcp_backend_ (lnk client) = Some b → accepting b →
  write_config_wf (write_config t id_min addr data (lnk client)) → is_path (getReplyAddress t) →
  write_size t data ≤ INT_MAX →
  write_size t data + 12 ≤
    buffer_cap alloc (buffer_policy_ (lnk client)) (zsize (send_buf_ (lnk client))) →
  ∃ op client1 tid,
    startWriteAsyncOperation_ alloc (now :: now' :: clock) t addr data f client = Ret (op, client1) ∧
    transaction_id op = Some tid ∧
    let c := write_config t tid addr data (lnk client) in
    let q := write_reply_config (write_packet c) in
    (PacketTypes.data (write_packet c) = data ∧ address (write_packet c) = addr ∧
     dataLength (write_packet c) = zsize data ∧ type (write_packet c) = Write ∧
     transactionID (write_packet c) = tid ∧ transactionID (write_reply_packet q) = tid ∧
     status (write_reply_packet q) = 0 ∧ type (write_reply_packet q) = WriteReply) ∧
    sent_frame (encode_write c) b (lnk client) (lnk client1) ∧
    (∀ fuel (server : node B' U') b2 segs x y d tl u2,
       arriving alloc' fuel server b2 segs x y d tl → accepting b2 →
       fold_left collect segs [] ++ d = encode_write c →
       match on_write_callback_ server with
       | Some g => g (received (packet_parser_ (lnk server)) (write_packet c)) (user (txs server)) =
                   Ret (Returned tt, u2)
       | None => u2 = user (txs server)
       end →
       zsize (encode_write_reply q) + 12 ≤
         buffer_cap alloc' (buffer_policy_ (lnk server)) (zsize (send_buf_ (lnk server))) →
       ∃ server1, poll alloc' fuel server = Ret (Ok true, server1) ∧
         answered server b2 tl (encode_write_reply q) u2 server1) ∧
    (∀ fuel client2 b3 segs x y d tl r u3,
       txs client2 = txs client1 → arriving alloc fuel client2 b3 segs x y d tl →
       fold_left collect segs [] ++ d = encode_write_reply q →
       f (received (packet_parser_ (lnk client2)) (write_reply_packet q)) (user (txs client)) =
         Ret (r, u3) →
       ∃ client3, poll alloc fuel client2 = Ret (Ok true, client3) ∧
         promises (txs client3) !! future op = Some (Some (completion r)) ∧
         rd (available_transaction_ids_ (txs client3)) (tid - id_min) = Ret true ∧
         user (txs client3) = u3).
Proof.
  intros Hwf Hav Hb Ha Hc Hp Hm Hroom.
  destruct (start_waits id_min id_max client now now' clock
    (λ tid, sendWritePacket_ alloc t tid addr data) f i
    (λ tid l, sent_frame (encode_write (write_config t tid addr data (lnk client))) b (lnk client) l))
    as (op & client1 & tid & E & Hop & Hwait & Hu & Hsent); [done|done| |].
  { intros tid _. apply sendWritePacket_sent; try done. apply Hc. }
  destruct (waiting_range _ _ _ _ _ _ Hwait Hop) as (H1' & H2' & H3').
  assert (Hc' : write_config_wf (write_config t tid addr data (lnk client))).
  { unfold write_config_wf in *. cbn in *. destruct_and!. split_and!; done || lia. }
  exists op, client1, tid. split; [done|]. split; [done|]. intros c q. split; [done|]. split; [done|].
  assert (Hq : write_reply_config_wf q) by by apply write_reply_config_ok.
  split.
  - intros fuel server b2 segs x y d tl u2 Harr Ha2 Hd Hg Hroom2.
    destruct (server_writes c fuel server b2 segs x y d tl u2) as (s1 & ? & ? & _);
      try done; by exists s1.
  - intros fuel client2 b3 segs x y d tl r u3 Htx Harr Hd Hf.
    eapply (client_completes id_min id_max fuel client1 client2 op f tid b3 segs x y d tl
      (write_reply_packet q));
      try done.
    + by right.
    + by apply write_reply_packet_wf.
    + rewrite <-write_reply_packet_wire, zsize_encode_write_reply.
      unfold WriteReplyPacketBuilder.getTotalSize. cbn.
      pose proof (zsize_strip_zeros (getReplyAddress t)).
      destruct Hc as (_ & _ & _ & Hr12 & _). cbn in Hr12. lia.
    + by rewrite Hu.
Qed.

(** C2: A whole read over two nodes: the command sent by startReadAsyncOperation_
    makes the target call its on_read function with the command's fields and
    send one frame with the bytes the function returned; the client's poll of
    that reply calls on_complete with these bytes, fulfils the promise and frees
    the ID. *)
Theorem read_transaction id_min id_max (client : node B U) b i now now' clock t addr len f :
  node_wf id_min id_max client →
  rd (available_transaction_ids_ (txs client)) i = Ret true →
  tcp_backend_ (lnk client) = Some b → accepting b →
  read_config_wf (read_config t id_min addr len (lnk client)) → is_path (getReplyAddress t) →
  read_size t ≤ INT_MAX → read_size t + 12 ≤ zsize (send_buf_ (lnk client)) →
  ∃ op client1 tid,
    startReadAsyncOperation_ alloc (now :: now' :: clock) t addr len f client = Ret (op, client1) ∧
    transaction_id op = Some tid ∧
    let c := read_config t tid addr len (lnk client) in
    (address (read_packet c) = addr ∧ dataLength (read_packet c) = len mod 2 ^ 24 ∧
     transactionID (read_packet c) = tid ∧ type (read_packet c) = Read) ∧
    sent_frame (encode_read c) b (lnk client) (lnk client1) ∧
    ∀ data, bytes data → zsize data < 2 ^ 24 →
    let q := read_reply_config (read_packet c) data in
    (PacketTypes.data (read_reply_packet q) = data ∧ transactionID (read_reply_packet q) = tid ∧
     status (read_reply_packet q) = 0 ∧ type (read_reply_packet q) = ReadReply) ∧
    (∀ fuel (server : node B' U') b2 segs x y d tl u2,
       arriving alloc' fuel server b2 segs x y d tl → accepting b2 →
       fold_left collect segs [] ++ d = encode_read c →
       match on_read_callback_ server with
       | Some g => g (received (packet_parser_ (lnk server)) (read_packet c)) (user (txs server)) =
                   Ret (Returned data, u2)
       | None => data = [] ∧ u2 = user (txs server)
       end →
       zsize (encode_read_reply q) + 12 ≤
         buffer_cap alloc' (buffer_policy_ (lnk server)) (zsize (send_buf_ (lnk server))) →
       ∃ server1, poll alloc' fuel server = Ret (Ok true, server1) ∧
         answered server b2 tl (encode_read_reply q) u2 server1) ∧
    (∀ fuel client2 b3 segs x y d tl r u3,
       txs client2 = txs client1 → arriving alloc fuel client2 b3 segs x y d tl →
       fold_left collect segs [] ++ d = encode_read_reply q →
       f (received (packet_parser_ (lnk client2)) (read_reply_packet q)) (user (txs client)) =
         Ret (r, u3) →
       ∃ client3, poll alloc fuel client2 = Ret (Ok true, client3) ∧
         promises (txs client3) !! future op = Some (Some (completion r)) ∧
         rd (available_transaction_ids_ (txs client3)) (tid - id_min) = Ret true ∧
         user (txs client3) = u3).
Proof.
  intros Hwf Hav Hb Ha Hc Hp Hm Hroom.
  destruct (start_waits id_min id_max client now now' clock
    (λ tid, sendReadPacket_ alloc t tid addr len) f i
    (λ tid l, sent_frame (encode_read (read_config t tid addr len (lnk client))) b (lnk client) l))
    as (op & client1 & tid & E & Hop & Hwait & Hu & Hsent); [done|done| |].
  { intros tid _. apply sendReadPacket_sent; try done. apply Hc. }
  destruct (waiting_range _ _ _ _ _ _ Hwait Hop) as (H1' & H2' & H3').
  assert (Hc' : read_config_wf (read_config t tid addr len (lnk client))).
  { unfold read_config_wf in *. cbn in *. destruct_and!. split_and!; done || lia. }
  exists op, client1, tid. split; [done|]. split; [done|]. intros c. split; [done|]. split; [done|].
  intros data Hdata Hlen q. split; [done|].
  assert (Hq : read_reply_config_wf q) by by apply read_reply_config_ok.
  assert (Hz : zsize (encode_read_reply q) < 2 ^ 25).
  { rewrite zsize_encode_read_reply. unfold ReadReplyPacketBuilder.getTotalSize. cbn.
    pose proof (zsize_strip_zeros (getReplyAddress t)).
    destruct Hc as (_ & _ & _ & Hr12 & _). cbn in Hr12. lia. }
  split.
  - intros fuel server b2 segs x y d tl u2 Harr Ha2 Hd Hg Hroom2.
    destruct (server_reads c fuel server b2 segs x y d tl data u2) as (s1 & ? & ? & _);
      try done; [|by exists s1]. fold q. unfold INT_MAX. lia.
  - intros fuel client2 b3 segs x y d tl r u3 Htx Harr Hd Hf.
    eapply (client_completes id_min id_max fuel client1 client2 op f tid b3 segs x y d tl
      (read_reply_packet q));
      try done.
    + by left.
    + by apply read_reply_packet_wf.
    + rewrite <-read_reply_packet_wire. lia.
    + by rewrite Hu.
Qed.
End transactions.

(** ** Time-out, retries, and replies that come late *)

Section retries.
Context {B U : Type} `{TcpBackend B} (alloc_limit : Z).
Implicit Types (n : node B U).

(** One attempt on a node whose first free ID is that of index [i]: the ID is
    taken and, when the packet is out, its slot waits. *)
Lemma start_first_free id_min id_max timeout S ps u i n now now' clock send f l :
  txs n = table id_min id_max timeout S ps u → table_wf id_min id_max S ps →
  first_free S = Some i → send (id_min + Z.of_nat i) (lnk n) = Ret (Ok tt, l) →
  start_async (now :: now' :: clock) send f n =
  Ret (mkAsyncOperation (length ps) (Some (id_min + Z.of_nat i)),
       set_txs (table id_min id_max timeout (<[i := Waiting now (length ps) f]> S) (ps ++ [None]) u)
         (set_lnk l n)).
Proof.
  intros E Hwf Hi Hs.
  edestruct (start_async_started id_min id_max timeout now now' clock send f n) as (r & Hr & ->);
    [done|done|].
  assert (Ea : alloc timeout now now' S (ps ++ [None]) = Taken i (<[i := Reserved now]> S) (ps ++ [None]))
    by (unfold alloc; by rewrite Hi).
  inversion Hr as [? j' ? ? last' l' Ej Hj Es|? j' ? ? e' l' Ej Es|? Ej|? j' ? ? Ej Hne];
    subst; rewrite Ea in Ej; try done; injection Ej as <- <- <-; rewrite ?Hs in *; try done.
  - injection Es as <-. apply first_free_Some in Hi as [Hi _].
    rewrite list_lookup_insert_eq in Hj by (by eapply lookup_lt_Some). injection Hj as <-.
    cbn [mbind outcome_bind]. by rewrite list_insert_insert_eq.
  - by destruct (Hne _ eq_refl).
Qed.

Lemma waiting_wf id_min id_max (S : list (@slot U)) ps i now f :
  table_wf id_min id_max S ps →
  table_wf id_min id_max (<[i := Waiting now (length ps) f]> S) (ps ++ [None]).
Proof.
  intros Hwf. destruct (table_wf_promise _ _ _ _ Hwf) as [? ?].
  apply table_wf_wait; [done|done|by apply list_lookup_middle].
Qed.

Lemma cancel_waiting id_min id_max timeout (S : list (@slot U)) ps u i now f :
  table_wf id_min id_max S ps → S !! i = Some Free →
  cancelTransaction_ (id_min + Z.of_nat i)
    (table id_min id_max timeout (<[i := Waiting now (length ps) f]> S) (ps ++ [None]) u) =
  Ret (table id_min id_max timeout S (ps ++ [None]) u).
Proof.
  intros Hwf Hi. apply lookup_lt_Some in Hi as Hlt.
  rewrite cancel_table; [|by apply range_ok_insert, Hwf|by rewrite length_insert].
  by rewrite list_insert_insert_eq, list_insert_id.
Qed.

(** [count] attempts without a reply. *)
Lemma attempts_time_out id_min id_max timeout S u i clock send f (P : nat → link B → Prop) count k n ps :
  table_wf id_min id_max S ps → first_free S = Some i →
  txs n = table id_min id_max timeout S ps u →
  (∀ j, 2 ≤ length (clock j))%nat → P k (lnk n) →
  (∀ j l, P j l → ∃ l', send (id_min + Z.of_nat i) l = Ret (Ok tt, l') ∧ P (Datatypes.S j) l') →
  ∃ n', attempts count k clock (λ _ n, Ret n) (λ c, start_async c send f) n =
      Ret (Unexpected (generic timed_out), n') ∧
    txs n' = table id_min id_max timeout S (ps ++ replicate count None) u ∧
    P (k + count)%nat (lnk n').
Proof.
  intros Hwf Hi E Hclock HP Hsend. revert k n ps Hwf E HP.
  induction count as [|count IH]; intros k n ps Hwf E HP.
  { exists n. rewrite app_nil_r, Nat.add_0_r. done. }
  cbn [attempts]. destruct (clock k) as [|now [|now' cl]] eqn:Ec;
    [specialize (Hclock k); rewrite Ec in Hclock; simpl in Hclock; lia..|].
  destruct (Hsend k (lnk n) HP) as (l & El & HP').
  rewrite (start_first_free _ _ _ _ _ _ _ _ _ _ _ _ _ _ E Hwf Hi El), !bind_ret.
  cbn [txs set_txs future transaction_id].
  rewrite promises_table, list_lookup_middle by done.
  pose proof (proj1 (first_free_Some _ _) Hi) as [Hfree _].
  rewrite (cancel_waiting id_min id_max timeout S ps u i now f Hwf Hfree), bind_ret.
  destruct (IH (Datatypes.S k) (set_txs (table id_min id_max timeout S (ps ++ [None]) u)
    (set_txs (table id_min id_max timeout (<[i := Waiting now (length ps) f]> S) (ps ++ [None]) u)
      (set_lnk l n))) (ps ++ [None])) as (n' & E' & Ht & HPn); [|done|done|].
  { by apply table_wf_promise. }
  exists n'. split; [exact E'|]. rewrite Ht, <-app_assoc. split; [done|].
  by replace (k + Datatypes.S count)%nat with (Datatypes.S k + count)%nat by lia.
Qed.

Lemma available_first_free id_min id_max timeout (S : list (@slot U)) ps u i :
  0 ≤ i → (∀ j, 0 ≤ j < i → rd (available_transaction_ids_ (table id_min id_max timeout S ps u)) j = Ret false) →
  rd (available_transaction_ids_ (table id_min id_max timeout S ps u)) i = Ret true →
  first_free S = Some (Z.to_nat i).
Proof.
  intros Hi Hlow Hav. apply first_free_Some. split.
  - unfold rd in Hav. rewrite decide_True in Hav by done. cbn in Hav. rewrite list_lookup_fmap in Hav.
    destruct (S !! Z.to_nat i) as [s|]; [|done]. by destruct s.
  - intros j s Hj Hlt ->. specialize (Hlow (Z.of_nat j) ltac:(lia)).
    pose proof Hj as Hj'. rewrite <-(Nat2Z.id j) in Hj'.
    destruct (table_reads id_min id_max timeout S ps u _ _ Hj' ltac:(lia)) as (Hr & _).
    by rewrite Hr in Hlow.
Qed.

(** [retry_count == 0 ? 1 : retry_count]. *)
Definition attempt_count (retry_count : nat) : nat :=
  if decide (retry_count = 0%nat) then 1%nat else retry_count.

(** C29: Without any reply, write sends the same command once per attempt (at least
    once), always under the same transaction ID, then returns timed_out; the
    transaction table is as before the call but for the abandoned promises. *)
Theorem write_times_out `{!TcpBackendLaws B} id_min id_max n b i clock t addr data retry_count :
  node_wf id_min id_max n → tcp_backend_ (lnk n) = Some b → accepting b → 0 ≤ i →
  rd (available_transaction_ids_ (txs n)) i = Ret true →
  (∀ j, 0 ≤ j < i → rd (available_transaction_ids_ (txs n)) j = Ret false) →
  (∀ j, 2 ≤ length (clock j))%nat → zsize (getReplyAddress t) ≤ 12 → write_size t data ≤ INT_MAX →
  write_size t data + 12 ≤
    buffer_cap alloc_limit (buffer_policy_ (lnk n)) (zsize (send_buf_ (lnk n))) →
  let count := attempt_count retry_count in
  let command := encode_write (write_config t (id_min + i) addr data (lnk n)) in
  ∃ n' b', write alloc_limit clock (λ _ n, Ret n) t addr data retry_count n =
      Ret (Unexpected (generic timed_out), n') ∧
    txs n' = set_promises (promises (txs n) ++ replicate count None) (txs n) ∧
    tcp_backend_ (lnk n') = Some b' ∧
    wire_out b' = wire_out b ++ mjoin (replicate count (frame 0 0 0 command)).
Proof.
  intros (timeout & S & ps & u & E & Hwf & Hnr) Hb Ha Hi0 Hav Hlow Hclock Hr12 Hm Hroom count command.
  rewrite E in Hav, Hlow. pose proof (available_first_free _ _ _ _ _ _ _ Hi0 Hlow Hav) as Hff.
  set (P (k : nat) (l : link B) := ∃ b' buf, l = set_tcp_backend_ (Some b') (set_send_buf_ buf (lnk n)) ∧
    accepting b' ∧ zsize (send_buf_ (lnk n)) ≤ zsize buf ∧
    wire_out b' = wire_out b ++ mjoin (replicate k (frame 0 0 0 command))).
  unfold write. fold (attempt_count retry_count). fold count.
  destruct (attempts_time_out id_min id_max timeout S u (Z.to_nat i) clock
    (λ tid, sendWritePacket_ alloc_limit t tid addr data) (λ _ u, Ret (Returned tt, u)) P count 0 n ps)
    as (n' & E' & Ht & b' & buf & El & _ & _ & Ho); try done.
  - exists b, (send_buf_ (lnk n)). split_and!; [|done|done|by rewrite app_nil_r].
    clear -Hb. destruct n as [l]. destruct l; cbn in *; by subst.
  - intros j l (b1 & buf1 & -> & Ha1 & Hz1 & Ho1).
    destruct (sendWritePacket_sent alloc_limit t (id_min + Z.of_nat (Z.to_nat i)) addr data
      (set_tcp_backend_ (Some b1) (set_send_buf_ buf1 (lnk n))) b1)
      as (l' & El' & b2 & Hb2 & Ho2 & _ & Ha2 & _ & Hz2 & Hl2); try done.
    { cbn [buffer_policy_ send_buf_ set_tcp_backend_ set_send_buf_]. unfold buffer_cap in *.
      destruct (buffer_policy_ (lnk n)); lia. }
    exists l'. split; [done|]. cbn in Hz2. exists b2, (send_buf_ l'). split_and!; [|done|lia|].
    + rewrite Hl2 at 1. done.
    + rewrite Ho2, Ho1, <-app_assoc. f_equal.
      rewrite replicate_S_end, join_app. cbn. rewrite app_nil_r. unfold command.
      by rewrite Z2Nat.id by lia.
  - exists n', b'. split; [exact E'|]. split; [by rewrite Ht, E|]. by rewrite El.
Qed.

(** A transaction ID is reused at once: after an operation has been cancelled,
    the next operation takes over its ID, and a reply to the first one that
    comes late completes the promise of the second. *)
Theorem late_reply_completes_next id_min id_max n op1 f1 tid now now' clock send g l :
  waiting id_min id_max n op1 f1 → transaction_id op1 = Some tid →
  (∀ j, 0 ≤ j < tid - id_min → rd (available_transaction_ids_ (txs n)) j = Ret false) →
  send tid (lnk n) = Ret (Ok tt, l) →
  ∃ t op2 n2, cancelTransaction_ tid (txs n) = Ret t ∧
    start_async (now :: now' :: clock) send g (set_txs t n) = Ret (op2, n2) ∧
    transaction_id op2 = Some tid ∧ future op2 ≠ future op1 ∧
    ∀ q r u, type q = ReadReply ∨ type q = WriteReply → transactionID q = tid →
      g q (user (txs n)) = Ret (r, u) →
      ∃ n3, handle_packet alloc_limit q n2 = Ret (Ok true, n3) ∧
        promises (txs n3) !! future op2 = Some (Some (completion r)).
Proof.
  intros (timeout & S & ps & i & last & E & Hwf & Hop & Hi) Htid Hlow Hsend.
  rewrite Hop in Htid. injection Htid as <-. apply lookup_lt_Some in Hi as Hlt.
  replace (id_min + Z.of_nat i - id_min) with (Z.of_nat i) in Hlow by lia.
  pose proof (cancel_table id_min id_max timeout S ps (user (txs n)) i) as Ec.
  rewrite <-E in Ec. specialize (Ec (proj1 Hwf) Hlt).
  set (S1 := <[i := Free]> S) in *.
  assert (Hwf1 : table_wf id_min id_max S1 ps) by by apply table_wf_free.
  assert (Hff : first_free S1 = Some i).
  { apply first_free_Some. split; [by apply list_lookup_insert_eq|].
    intros j s Hj Hlt' ->. unfold S1 in Hj. rewrite list_lookup_insert_ne in Hj by lia.
    specialize (Hlow (Z.of_nat j) ltac:(lia)). rewrite E in Hlow.
    rewrite <-(Nat2Z.id j) in Hj.
    destruct (table_reads id_min id_max timeout S ps (user (txs n)) _ _ Hj ltac:(lia)) as (Hr & _).
    by rewrite Hr in Hlow. }
  do 3 eexists. split; [exact Ec|]. split.
  { eapply start_first_free; [done|done|done|exact Hsend]. }
  split; [done|]. destruct Hwf as [Hr [Hp Hu]]. specialize (Hp _ _ _ _ Hi) as Hpi.
  apply lookup_lt_Some in Hpi as Hpl. split; [cbn; lia|].
  intros q r u Hty Hid Hg.
  destruct (reply_completes_op alloc_limit id_min id_max
    (set_txs (table id_min id_max timeout (<[i := Waiting now (length ps) g]> S1) (ps ++ [None])
      (user (txs n))) (set_lnk l (set_txs (table id_min id_max timeout S1 ps (user (txs n))) n)))
    (set_txs (table id_min id_max timeout (<[i := Waiting now (length ps) g]> S1) (ps ++ [None])
      (user (txs n))) (set_lnk l (set_txs (table id_min id_max timeout S1 ps (user (txs n))) n)))
    (mkAsyncOperation (length ps) (Some (id_min + Z.of_nat i))) g (id_min + Z.of_nat i) q r u)
    as (n3 & E3 & Hpr & _); try done; [|by exists n3].
  exists timeout, (<[i := Waiting now (length ps) g]> S1), (ps ++ [None]), i, now.
  split_and!; [done|by apply waiting_wf|done|].
  apply list_lookup_insert_eq. unfold S1. by rewrite length_insert.
Qed.

Lemma error_reply_succeeds id_min id_max n op tid q s :
  waiting id_min id_max n op (λ _ u, Ret (Returned tt, u)) → transaction_id op = Some tid →
  type q = WriteReply → transactionID q = tid →
  ∃ n', handle_packet alloc_limit (set_status s q) n = Ret (Ok true, n') ∧
    promises (txs n') !! future op = Some (Some (Ok tt)).
Proof.
  intros Hw Hop Hty Hid.
  destruct (reply_completes_op alloc_limit id_min id_max n n op _ tid (set_status s q)
    (Returned tt) (user (txs n)) Hw Hop) as (n' & E & Hp & _); try done; [by right|].
  by exists n'.
Qed.

Lemma short_reply_reads_out_of_range id_min id_max n op tid q size store :
  waiting id_min id_max n op (copy_reply size store) → transaction_id op = Some tid →
  type q = ReadReply → transactionID q = tid → zsize (data q) < size →
  handle_packet alloc_limit q n = UB.
Proof.
  intros (timeout & S & ps & i & last & E & Hwf & Hop & Hi) Htid Hty Hid Hs.
  rewrite Hop in Htid. injection Htid as <-. unfold handle_packet. rewrite Hty, E.
  erewrite dispatch_reply_table; [|done|done|done]. cbn -[subspan]. unfold copy_reply, subspan.
  rewrite decide_False; [done|]. lia.
Qed.

(** C39: What a reply carries is not checked: a write reply with any status byte
    completes the waiting write with success, and on a read reply with fewer
    data bytes than the caller asked for, poll reads out of the range of the
    packet's data. *)
Theorem replies_unchecked id_min id_max n op tid q :
  transaction_id op = Some tid → transactionID q = tid →
  (waiting id_min id_max n op (λ _ u, Ret (Returned tt, u)) → type q = WriteReply → ∀ s,
     ∃ n', handle_packet alloc_limit (set_status s q) n = Ret (Ok true, n') ∧
       promises (txs n') !! future op = Some (Some (Ok tt))) ∧
  (∀ size store, waiting id_min id_max n op (copy_reply size store) → type q = ReadReply →
     zsize (data q) < size → handle_packet alloc_limit q n = UB).
Proof.
  intros Hop Hid. split; intros; [by eapply error_reply_succeeds|by eapply short_reply_reads_out_of_range].
Qed.
End retries.
