(* ===== verification/Concurrency.v ===== *)
(** * Threads on the transaction table
    (include/spw_rmap/internal/spw_rmap_tcp_node_impl.hh)

    [Transactions] has each operation as one step.  Here an operation is the
    sequence of its critical sections: the threads of a program share the
    table [tx] and the mutexes [reply_callback_mtx_], and a schedule says which
    thread moves next.  A value of [pc] is the place in the code that a thread
    has reached, with the local variables that are still used.

    [transaction_ids_mtx_] is held for one step at a time and needs no state.
    [poll] holds the mutex of a slot while it runs the callback, so
    [reply_callback_mtx_] is the set of the indexes whose mutex is locked.  The
    assignments that end the callbacks are steps of their own:
    [forceReleaseTransaction_] runs the callback without the mutex. *)

From S2P Require Import Prelude PacketTypes Transactions.
#[local] Open Scope Z_scope.

Section threads.
Context {U : Type}.

(** What a caller asks for.  [op_sends] is what [sendWritePacket_] or
    [sendReadPacket_] returns in each attempt that is left; [op_waits] tells
    [write] and [read], which wait and retry, from [writeAsync] and
    [readAsync]. *)
Record operation := mkOperation {
  op_on_complete : user_function U;
  op_sends : list (expected unit);
  op_waits : bool;
}.

Inductive pc :=
(* [start...AsyncOperation_] *)
| Start (o : operation)
| Scan (o : operation) (p : nat)                      (* [getAvailableTransactionID_] *)
| Refused (o : operation) (p : nat) (e : error_code)
| Install (o : operation) (p : nat) (tid : Z)
| Sending (o : operation) (p : nat) (tid : Z)
| UnsentClear (o : operation) (p : nat) (tid : Z) (e : error_code)
| UnsentSet (o : operation) (p : nat) (tid : Z) (e : error_code)
| UnsentRelease (o : operation) (p : nat) (tid : Z)
(* [forceReleaseTransaction_] *)
| Force (o : operation) (p : nat) (i : Z)
| TimeOutSet (o : operation) (p : nat) (h : error_handler)
| TimeOutRelease (o : operation) (p : nat) (h : error_handler)
| TimeOutNull (o : operation) (p : nat) (h : error_handler)
| ForceRelease (o : operation) (p : nat) (i : Z)
(* [write] and [read] after the start *)
| Wait (o : operation) (p : nat) (tid : option Z)
| CancelClear (o : operation) (tid : Z)
| CancelRelease (o : operation) (tid : Z)
(* [runLoop], with the replies it receives *)
| Poll (packets : list Packet)
| ReplyRun (h : reply_handler U) (packet : Packet) (packets : list Packet)
| ReplyRelease (h : reply_handler U) (packets : list Packet)
| ReplyNull (h : reply_handler U) (packets : list Packet)
| Done (result : option (expected unit)).

Record shared := mkShared {
  table_ : tx U;
  reply_callback_mtx_ : gset Z;
}.

(** A section under the mutex of a slot that does not keep it. *)
Definition with_lock (i : Z) (s : shared) (section : tx U → outcome (pc * tx U))
    : outcome (pc * shared) :=
  if decide (i ∈ reply_callback_mtx_ s) then Pending else
  '(c, t) ← section (table_ s);
  Ret (c, mkShared t (reply_callback_mtx_ s)).

(** A step outside these mutexes. *)
Definition unlocked (s : shared) (section : tx U → outcome (pc * tx U)) : outcome (pc * shared) :=
  '(c, t) ← section (table_ s);
  Ret (c, mkShared t (reply_callback_mtx_ s)).

(** One round of [getAvailableTransactionID_], under [transaction_ids_mtx_]. *)
Definition scan_round (now : Z) (o : operation) (p : nat) (t : tx U) : outcome (pc * tx U) :=
  let total_ids := transaction_id_max_ t - transaction_id_min_ t in
  found ← scan_ids (Z.to_nat (u64 total_ids)) 0 now None t;
  match found with
  | inl i =>
      t ← store_available i false t;
      t ← store_last_used i now t;
      Ret (Install o p (u16 (u32 (transaction_id_min_ t + u32 i))), t)
  | inr None => Ret (Refused o p (generic resource_unavailable_try_again), t)
  | inr (Some i) => Ret (Force o p i, t)
  end.

Definition clear_callbacks_of (i : Z) (t : tx U) : outcome (tx U) :=
  t ← store_reply i None t; store_error i None t.

(** The callback of a reply up to the value of the promise. *)
Definition complete (h : reply_handler U) (packet : Packet) (t : tx U) : outcome (tx U) :=
  '(result, u) ← rh_on_complete h packet (user t);
  set_value (rh_promise h)
    match result with
    | Returned _ => Ok tt
    | ThrewException | ThrewOther => Unexpected (generic operation_canceled)
    end (set_user u t).

(** What follows [start...AsyncOperation_]: the wait on the future, or the
    return of [writeAsync] and [readAsync]. *)
Definition started_pc (o : operation) (p : nat) (tid : option Z) : pc :=
  if op_waits o then Wait o p tid else Done None.

(** The next step of a thread.  [now] is the clock, [wait_over] says that the
    wait of [write] or [read] is over, [broken] that the promise it waits for
    has been destroyed without a value, in which case [future.get()] throws. *)
Definition thread_step (now : Z) (wait_over broken : bool) (c : pc) (s : shared)
    : outcome (pc * shared) :=
  match c with
  | Start o =>
      match op_sends o with
      | [] => Ret (Done (Some (Unexpected (generic timed_out))), s)
      | _ => unlocked s (λ t, let '(p, t) := new_promise t in Ret (Scan o p, t))
      end
  | Scan o p => unlocked s (scan_round now o p)
  | Refused o p e =>
      unlocked s (λ t, t ← set_value p (Unexpected e) t;
        Ret (started_pc (mkOperation (op_on_complete o) (tail (op_sends o)) (op_waits o)) p None, t))
  | Install o p tid =>
      let i := tid - transaction_id_min_ (table_ s) in
      with_lock i s (λ t, t ← install_callbacks p tid i (op_on_complete o) t; Ret (Sending o p tid, t))
  | Sending o p tid =>
      let o' := mkOperation (op_on_complete o) (tail (op_sends o)) (op_waits o) in
      match op_sends o with
      | Unexpected e :: _ => Ret (UnsentClear o' p tid e, s)
      | _ => Ret (started_pc o' p (Some tid), s)
      end
  | UnsentClear o p tid e =>
      let i := tid - transaction_id_min_ (table_ s) in
      with_lock i s (λ t, t ← clear_callbacks_of i t; Ret (UnsentSet o p tid e, t))
  | UnsentSet o p tid e =>
      unlocked s (λ t, t ← set_value p (Unexpected e) t; Ret (UnsentRelease o p tid, t))
  | UnsentRelease o p tid =>
      unlocked s (λ t, t ← releaseTransactionID_ tid t; Ret (started_pc o p None, t))
  | Force o p i =>
      with_lock i s (λ t,
        error_handler ← rd (reply_error_callback_ t) i;
        t ← clear_callbacks_of i t;
        Ret (match error_handler with
             | Some h => TimeOutSet o p h
             | None => ForceRelease o p i
             end, t))
  | TimeOutSet o p h =>
      unlocked s (λ t, t ← set_value (eh_promise h) (Unexpected (generic timed_out)) t;
        Ret (TimeOutRelease o p h, t))
  | TimeOutRelease o p h =>
      unlocked s (λ t, t ← releaseTransactionID_ (eh_transaction_id h) t; Ret (TimeOutNull o p h, t))
  | TimeOutNull o p h =>
      unlocked s (λ t, t ← store_error (eh_tx_index h) None t; Ret (Scan o p, t))
  | ForceRelease o p i =>
      unlocked s (λ t, t ← releaseTransactionID_ (u16 (transaction_id_min_ t + u16 i)) t;
        Ret (Scan o p, t))
  | Wait o p tid =>
      match promises (table_ s) !! p with
      | None => UB
      | Some (Some res) => Ret (Done (Some res), s)
      | Some None =>
          if broken then Abort else
          if wait_over then
            Ret (match tid with Some tid => CancelClear o tid | None => Start o end, s)
          else Pending
      end
  | CancelClear o tid =>
      let t := table_ s in
      if (tid <? transaction_id_min_ t) || (transaction_id_max_ t <=? tid) then Ret (Start o, s) else
      let i := tid - transaction_id_min_ t in
      with_lock i s (λ t, t ← clear_callbacks_of i t; Ret (CancelRelease o tid, t))
  | CancelRelease o tid =>
      unlocked s (λ t, t ← releaseTransactionID_ tid t; Ret (Start o, t))
  | Poll [] => Pending
  | Poll (packet :: packets) =>
      let t := table_ s in
      let tid := transactionID packet in
      if (tid <? transaction_id_min_ t) || (transaction_id_max_ t <=? tid)
      then Ret (Done (Some (Unexpected (generic bad_message))), s) else
      let i := tid - transaction_id_min_ t in
      if decide (i ∈ reply_callback_mtx_ s) then Pending else
      callback ← rd (reply_callback_ t) i;
      match callback with
      | Some h =>
          t ← clear_callbacks_of i t;
          Ret (ReplyRun h packet packets, mkShared t ({[i]} ∪ reply_callback_mtx_ s))
      | None => Ret (Poll packets, s)
      end
  | ReplyRun h packet packets =>
      unlocked s (λ t, t ← complete h packet t; Ret (ReplyRelease h packets, t))
  | ReplyRelease h packets =>
      unlocked s (λ t, t ← releaseTransactionID_ (rh_transaction_id h) t; Ret (ReplyNull h packets, t))
  | ReplyNull h packets =>
      t ← store_error (rh_tx_index h) None (table_ s);
      Ret (Poll packets, mkShared t (reply_callback_mtx_ s ∖ {[rh_tx_index h]}))
  | Done _ => Pending
  end.

(** ** The system *)

Record system := mkSystem {
  threads : list pc;
  shared_state : shared;
}.

(** Whether a thread holds a reference to the promise: as a local variable of
    [start...AsyncOperation_], or through a callback it is running. *)
Definition holds (p : nat) (c : pc) : bool :=
  match c with
  | Scan _ q | Refused _ q _ | Install _ q _ | Sending _ q _ | UnsentClear _ q _ _
  | UnsentSet _ q _ _ | UnsentRelease _ q _ | Force _ q _ | ForceRelease _ q _ => bool_decide (q = p)
  | TimeOutSet _ q h | TimeOutRelease _ q h | TimeOutNull _ q h =>
      bool_decide (q = p) || bool_decide (eh_promise h = p)
  | ReplyRun h _ _ | ReplyRelease h _ | ReplyNull h _ => bool_decide (rh_promise h = p)
  | _ => false
  end.

(** No reference to the promise is left. *)
Definition destroyed (p : nat) (s : system) : bool :=
  let t := table_ (shared_state s) in
  forallb (λ c, negb (holds p c)) (threads s) &&
  forallb (λ h, match h with Some h => negb (bool_decide (rh_promise h = p)) | None => true end)
    (reply_callback_ t) &&
  forallb (λ h, match h with Some h => negb (bool_decide (eh_promise h = p)) | None => true end)
    (reply_error_callback_ t).

Definition waits_for (c : pc) : option nat := match c with Wait _ p _ => Some p | _ => None end.

(** Thread [k] moves; it is blocked, or there is none, when the result is
    [Pending]. *)
Definition system_step (k : nat) (now : Z) (wait_over : bool) (s : system) : outcome system :=
  match threads s !! k with
  | None => Pending
  | Some c =>
      let broken := match waits_for c with Some p => destroyed p s | None => false end in
      '(c, sh) ← thread_step now wait_over broken c (shared_state s);
      Ret (mkSystem (<[k := c]> (threads s)) sh)
  end.

(** A schedule: which thread moves, the clock, whether its wait is over. *)
Fixpoint run_schedule (schedule : list (nat * Z * bool)) (s : system) : outcome system :=
  match schedule with
  | [] => Ret s
  | (k, now, wait_over) :: schedule => s ← system_step k now wait_over s; run_schedule schedule s
  end.

(** One thread while the others do not move. *)
Fixpoint run_alone (ticks : list Z) (c : pc) (s : shared) : outcome (pc * shared) :=
  match ticks with
  | [] => Ret (c, s)
  | now :: ticks => '(c, s) ← thread_step now false false c s; run_alone ticks c s
  end.
End threads.
Arguments operation : clear implicits.
Arguments pc : clear implicits.
Arguments shared : clear implicits.
Arguments system : clear implicits.
