(* ===== verification/ConcurrencyFacts.v ===== *)
(** * What one step of a thread does

    [table_ok] and [pc_ok] are the well-formedness of the shared table and of
    the place a thread has reached.  [effect] is the step relation of the
    threads: which place follows which, and what becomes of the table and of
    the locked mutexes.  On well-formed states [thread_step] is [effect], its
    indexes are in range, and it can only abort where a promise gets a second
    value or a destroyed one is waited for. *)

From S2P Require Import Prelude PacketTypes Transactions Concurrency.
#[local] Open Scope Z_scope.

Lemma u16_small z : 0 ≤ z < 2 ^ 16 → u16 z = z.
Proof. apply Z.mod_small. Qed.

Lemma u32_small z : 0 ≤ z < 2 ^ 16 → u32 z = z.
Proof. intros. apply Z.mod_small. lia. Qed.

Section facts.
Context {U : Type} (id_min id_max : Z).
Implicit Types (t : tx U) (c : pc U) (L : gset Z) (o : operation U).

(** A user's function that comes back. *)
Definition total_function (f : user_function U) : Prop :=
  ∀ packet u, ∃ r u', f packet u = Ret (r, u').

(** ** Well-formedness *)

Definition index_ok (i : nat) : Prop := Z.of_nat i < id_max - id_min.

Definition error_ok (n : nat) (i : nat) (h : error_handler) : Prop :=
  (eh_promise h < n)%nat ∧ eh_transaction_id h = id_min + Z.of_nat i ∧ eh_tx_index h = Z.of_nat i.

Definition reply_ok (n : nat) (i : nat) (h : reply_handler U) : Prop :=
  (rh_promise h < n)%nat ∧ rh_transaction_id h = id_min + Z.of_nat i ∧
  rh_tx_index h = Z.of_nat i ∧ total_function (rh_on_complete h).

Record table_ok t : Prop := mkTableOk {
  ok_min : transaction_id_min_ t = id_min;
  ok_max : transaction_id_max_ t = id_max;
  ok_range : 0 ≤ id_min ≤ id_max ∧ id_max < 2 ^ 16;
  ok_available : zsize (available_transaction_ids_ t) = id_max - id_min;
  ok_last_used : zsize (transaction_last_used_ t) = id_max - id_min;
  ok_reply : zsize (reply_callback_ t) = id_max - id_min;
  ok_error : zsize (reply_error_callback_ t) = id_max - id_min;
  ok_replies : ∀ i h, reply_callback_ t !! i = Some (Some h) → reply_ok (length (promises t)) i h;
  ok_errors : ∀ i h, reply_error_callback_ t !! i = Some (Some h) → error_ok (length (promises t)) i h;
}.

Definition operation_ok o : Prop := total_function (op_on_complete o).

(** A transaction ID of the table. *)
Definition tid_ok (tid : Z) : Prop := ∃ i, index_ok i ∧ tid = id_min + Z.of_nat i.

Definition pc_ok (n : nat) c : Prop :=
  match c with
  | Start o | CancelClear o _ => operation_ok o
  | Scan o p | Refused o p _ | Wait o p _ => operation_ok o ∧ (p < n)%nat
  | Install o p tid | Sending o p tid | UnsentClear o p tid _ | UnsentSet o p tid _
  | UnsentRelease o p tid => operation_ok o ∧ (p < n)%nat ∧ tid_ok tid
  | Force o p i | ForceRelease o p i =>
      operation_ok o ∧ (p < n)%nat ∧ ∃ j, index_ok j ∧ i = Z.of_nat j
  | TimeOutSet o p h | TimeOutRelease o p h | TimeOutNull o p h =>
      operation_ok o ∧ (p < n)%nat ∧ ∃ j, index_ok j ∧ error_ok n j h
  | CancelRelease o tid => operation_ok o ∧ tid_ok tid
  | Poll _ | Done _ => True
  | ReplyRun h _ _ | ReplyRelease h _ | ReplyNull h _ => ∃ j, index_ok j ∧ reply_ok n j h
  end.

(** ** Effects on the table *)

Definition released (i : nat) t : tx U :=
  set_transaction_last_used_ (<[i := time_point_min]> (transaction_last_used_ t))
    (set_available_transaction_ids_ (<[i := true]> (available_transaction_ids_ t)) t).
Definition taken (i : nat) (now : Z) t : tx U :=
  set_transaction_last_used_ (<[i := now]> (transaction_last_used_ t))
    (set_available_transaction_ids_ (<[i := false]> (available_transaction_ids_ t)) t).
Definition error_set (i : nat) v t : tx U :=
  set_reply_error_callback_ (<[i := v]> (reply_error_callback_ t)) t.
Definition reply_set (i : nat) v t : tx U :=
  set_reply_callback_ (<[i := v]> (reply_callback_ t)) t.
Definition cleared (i : nat) t : tx U := error_set i None (reply_set i None t).
Definition installed (i : nat) (p : nat) (f : user_function U) t : tx U :=
  let tid := id_min + Z.of_nat i in
  reply_set i (Some (mkReplyHandler f p tid (Z.of_nat i)))
    (error_set i (Some (mkErrorHandler p tid (Z.of_nat i))) t).
Definition valued (p : nat) v t : tx U := set_promises (<[p := Some v]> (promises t)) t.
Definition created t : tx U := set_promises (promises t ++ [None]) t.

Definition rest o : operation U :=
  mkOperation (op_on_complete o) (tail (op_sends o)) (op_waits o).

Definition send_fails o : option error_code :=
  match op_sends o with Unexpected e :: _ => Some e | _ => None end.

Inductive effect : pc U → tx U → gset Z → pc U → tx U → gset Z → Prop :=
| e_attempts_over o t L r : effect (Start o) t L (Done r) t L
| e_start o t L : op_sends o ≠ [] →
    effect (Start o) t L (Scan o (length (promises t))) (created t) L
| e_take o p i now t L : available_transaction_ids_ t !! i = Some true →
    effect (Scan o p) t L (Install o p (id_min + Z.of_nat i)) (taken i now t) L
| e_exhausted o p e t L : effect (Scan o p) t L (Refused o p e) t L
| e_expired o p i t L : index_ok i → effect (Scan o p) t L (Force o p (Z.of_nat i)) t L
| e_refused o p e t L : promises t !! p = Some None →
    effect (Refused o p e) t L (started_pc (rest o) p None) (valued p (Unexpected e) t) L
| e_install o p i t L : Z.of_nat i ∉ L → index_ok i →
    effect (Install o p (id_min + Z.of_nat i)) t L (Sending o p (id_min + Z.of_nat i))
      (installed i p (op_on_complete o) t) L
| e_sent o p tid t L : send_fails o = None →
    effect (Sending o p tid) t L (started_pc (rest o) p (Some tid)) t L
| e_unsent o p tid e t L : send_fails o = Some e →
    effect (Sending o p tid) t L (UnsentClear (rest o) p tid e) t L
| e_unsent_clear o p i e t L : Z.of_nat i ∉ L → index_ok i →
    effect (UnsentClear o p (id_min + Z.of_nat i) e) t L
      (UnsentSet o p (id_min + Z.of_nat i) e) (cleared i t) L
| e_unsent_set o p tid e t L : promises t !! p = Some None →
    effect (UnsentSet o p tid e) t L (UnsentRelease o p tid) (valued p (Unexpected e) t) L
| e_unsent_release o p i t L : index_ok i →
    effect (UnsentRelease o p (id_min + Z.of_nat i)) t L (started_pc o p None) (released i t) L
| e_force_some o p i h t L : Z.of_nat i ∉ L → reply_error_callback_ t !! i = Some (Some h) →
    effect (Force o p (Z.of_nat i)) t L (TimeOutSet o p h) (cleared i t) L
| e_force_none o p i t L : Z.of_nat i ∉ L → reply_error_callback_ t !! i = Some None →
    effect (Force o p (Z.of_nat i)) t L (ForceRelease o p (Z.of_nat i)) (cleared i t) L
| e_timeout_set o p h v t L : promises t !! eh_promise h = Some None →
    effect (TimeOutSet o p h) t L (TimeOutRelease o p h) (valued (eh_promise h) v t) L
| e_timeout_release o p h i t L : index_ok i → eh_transaction_id h = id_min + Z.of_nat i →
    effect (TimeOutRelease o p h) t L (TimeOutNull o p h) (released i t) L
| e_timeout_null o p h i t L : index_ok i → eh_tx_index h = Z.of_nat i →
    effect (TimeOutNull o p h) t L (Scan o p) (error_set i None t) L
| e_force_release o p i t L : index_ok i →
    effect (ForceRelease o p (Z.of_nat i)) t L (Scan o p) (released i t) L
| e_wait_ready o p tid v t L : promises t !! p = Some (Some v) →
    effect (Wait o p tid) t L (Done (Some v)) t L
| e_wait_cancel o p tid t L : effect (Wait o p (Some tid)) t L (CancelClear o tid) t L
| e_wait_again o p t L : promises t !! p = Some None → effect (Wait o p None) t L (Start o) t L
| e_cancel_outside o tid t L : effect (CancelClear o tid) t L (Start o) t L
| e_cancel_clear o i t L : Z.of_nat i ∉ L → index_ok i →
    effect (CancelClear o (id_min + Z.of_nat i)) t L (CancelRelease o (id_min + Z.of_nat i))
      (cleared i t) L
| e_cancel_release o i t L : index_ok i →
    effect (CancelRelease o (id_min + Z.of_nat i)) t L (Start o) (released i t) L
| e_poll_outside packet packets r t L : effect (Poll (packet :: packets)) t L (Done r) t L
| e_poll_none packet packets t L : effect (Poll (packet :: packets)) t L (Poll packets) t L
| e_poll_take packet packets i h t L : Z.of_nat i ∉ L →
    transactionID packet = id_min + Z.of_nat i → reply_callback_ t !! i = Some (Some h) →
    effect (Poll (packet :: packets)) t L (ReplyRun h packet packets) (cleared i t)
      ({[Z.of_nat i]} ∪ L)
| e_reply_run h packet packets v u t L : promises t !! rh_promise h = Some None →
    effect (ReplyRun h packet packets) t L (ReplyRelease h packets)
      (valued (rh_promise h) v (set_user u t)) L
| e_reply_release h packets i t L : index_ok i → rh_transaction_id h = id_min + Z.of_nat i →
    effect (ReplyRelease h packets) t L (ReplyNull h packets) (released i t) L
| e_reply_null h packets i t L : index_ok i → rh_tx_index h = Z.of_nat i →
    effect (ReplyNull h packets) t L (Poll packets) (error_set i None t) (L ∖ {[Z.of_nat i]}).

(** ** The assignments in range *)

Section in_range.
Context (t : tx U) (i : nat) (Ht : table_ok t) (Hi : index_ok i).

Lemma wr_index {A} (l : list A) v :
  zsize l = id_max - id_min → wr l (Z.of_nat i) v = Ret (<[i := v]> l).
Proof. intros Hl. unfold wr, index_ok in *. rewrite decide_True by lia. by rewrite Nat2Z.id. Qed.

Lemma rd_index {A} (l : list A) :
  zsize l = id_max - id_min → ∃ x, l !! i = Some x ∧ rd l (Z.of_nat i) = Ret x.
Proof.
  intros Hl. unfold index_ok, zsize in *. destruct (lookup_lt_is_Some_2 l i) as [x Hx]; [lia|].
  exists x. split; [done|]. apply rd_lookup; [lia|]. by rewrite Nat2Z.id.
Qed.

Lemma store_reply_index v : store_reply (Z.of_nat i) v t = Ret (reply_set i v t).
Proof. unfold store_reply. by rewrite wr_index by apply Ht. Qed.

Lemma store_error_index v : store_error (Z.of_nat i) v t = Ret (error_set i v t).
Proof. unfold store_error. by rewrite wr_index by apply Ht. Qed.

Lemma release_index : releaseTransactionID_ (id_min + Z.of_nat i) t = Ret (released i t).
Proof.
  unfold releaseTransactionID_. rewrite (ok_min t Ht), (ok_max t Ht). unfold index_ok in Hi.
  destruct (Z.ltb_spec (id_min + Z.of_nat i) id_min); [lia|].
  destruct (Z.leb_spec id_max (id_min + Z.of_nat i)); [lia|]. cbn [orb].
  replace (id_min + Z.of_nat i - id_min) with (Z.of_nat i) by lia.
  unfold store_available. rewrite wr_index, !bind_ret by apply Ht.
  unfold store_last_used. cbn. by rewrite wr_index, bind_ret by apply Ht.
Qed.
End in_range.

Lemma table_ok_reply_set t i v :
  table_ok t → (∀ h, v = Some h → reply_ok (length (promises t)) i h) → table_ok (reply_set i v t).
Proof.
  intros [] Hv. constructor; cbn; rewrite ?zsize_insert; try done.
  intros j h [(-> & -> & ?)|[? Hj]]%list_lookup_insert_Some; eauto.
Qed.

Lemma table_ok_error_set t i v :
  table_ok t → (∀ h, v = Some h → error_ok (length (promises t)) i h) → table_ok (error_set i v t).
Proof.
  intros [] Hv. constructor; cbn; rewrite ?zsize_insert; try done.
  intros j h [(-> & -> & ?)|[? Hj]]%list_lookup_insert_Some; eauto.
Qed.

Lemma table_ok_error_none t i : table_ok t → table_ok (error_set i None t).
Proof. intros. by apply table_ok_error_set. Qed.

Lemma table_ok_reply_none t i : table_ok t → table_ok (reply_set i None t).
Proof. intros. by apply table_ok_reply_set. Qed.

Lemma table_ok_released t i : table_ok t → table_ok (released i t).
Proof. intros []. by constructor; cbn; rewrite ?zsize_insert. Qed.

Lemma table_ok_taken t i now : table_ok t → table_ok (taken i now t).
Proof. intros []. by constructor; cbn; rewrite ?zsize_insert. Qed.

Lemma table_ok_user t u : table_ok t → table_ok (set_user u t).
Proof. intros []. by constructor. Qed.

Lemma table_ok_valued t p v : table_ok t → table_ok (valued p v t).
Proof. intros []. constructor; cbn; rewrite ?length_insert; done. Qed.

Lemma reply_ok_mono n n' i h : (n ≤ n')%nat → reply_ok n i h → reply_ok n' i h.
Proof. intros ? (? & ? & ? & ?). repeat split; [lia|done..]. Qed.

Lemma error_ok_mono n n' i h : (n ≤ n')%nat → error_ok n i h → error_ok n' i h.
Proof. intros ? (? & ? & ?). repeat split; [lia|done..]. Qed.

Lemma table_ok_created t : table_ok t → table_ok (created t).
Proof.
  intros []. constructor; cbn; try done; intros j h Hj; rewrite length_app.
  - eapply reply_ok_mono; [|by eauto]. lia.
  - eapply error_ok_mono; [|by eauto]. lia.
Qed.

Lemma table_ok_cleared t i : table_ok t → table_ok (cleared i t).
Proof. intros. by apply table_ok_error_none, table_ok_reply_none. Qed.

Lemma table_ok_installed t i p f :
  table_ok t → (p < length (promises t))%nat → total_function f → table_ok (installed i p f t).
Proof.
  intros Ht Hp Hf. apply table_ok_reply_set; [apply table_ok_error_set; [done|]|].
  - by intros h [= <-].
  - by intros h [= <-].
Qed.

Lemma pc_ok_mono n n' c : (n ≤ n')%nat → pc_ok n c → pc_ok n' c.
Proof.
  intros Hn. destruct c; cbn; try done; try (intros (? & ? & ?)); try (intros (? & ?));
    try (split_and!; [done|lia|done]); try (split_and!; [done|lia]).
  all: try (match goal with H : ∃ _, _ |- _ => destruct H as (j & ? & ?) end; split_and!; [done|lia|]).
  all: eexists; (split; [eassumption|]); by (eapply error_ok_mono || eapply reply_ok_mono).
Qed.

Lemma tid_ok_index i : index_ok i → tid_ok (id_min + Z.of_nat i).
Proof. by eexists. Qed.

Lemma started_pc_ok n o p tid :
  operation_ok o → (p < n)%nat → pc_ok n (started_pc o p tid).
Proof. intros. unfold started_pc. by destruct (op_waits o). Qed.
#[local] Hint Resolve table_ok_error_none table_ok_released table_ok_taken
  table_ok_user table_ok_valued table_ok_created table_ok_cleared table_ok_installed
  tid_ok_index started_pc_ok : core.

Lemma index_of_lookup {A} (l : list A) i x :
  zsize l = id_max - id_min → l !! i = Some x → index_ok i.
Proof. intros Hl Hx%lookup_lt_Some. unfold index_ok, zsize in *. lia. Qed.

(** Every step keeps the table and the places of the code well formed. *)
Lemma effect_ok c t L c' t' L' :
  effect c t L c' t' L' → table_ok t → pc_ok (length (promises t)) c →
  table_ok t' ∧ pc_ok (length (promises t')) c' ∧ (length (promises t) ≤ length (promises t'))%nat.
Proof.
  intros He Ht Hc. destruct He; cbn in Hc; destruct_and?; split_and?; cbn;
    rewrite ?length_insert, ?length_app; cbn; eauto; try lia.
  all: try (split_and!; eauto; cbn; lia).
  - split_and!; eauto using index_of_lookup, ok_available.
  - split_and!; eauto. exists i. split; [eauto using index_of_lookup, ok_error|].
    eapply ok_errors; eassumption.
  - exists i. split; [eauto using index_of_lookup, ok_reply|]. eapply ok_replies; eassumption.
Qed.

(** ** [thread_step] is [effect] *)

Lemma scan_ids_result t now n (i : nat) e :
  table_ok t → Z.of_nat i + Z.of_nat n ≤ id_max - id_min →
  (∀ j, e = Some j → ∃ k, index_ok k ∧ j = Z.of_nat k) →
  (∃ j, scan_ids n (Z.of_nat i) now e t = Ret (inl (Z.of_nat j)) ∧
        available_transaction_ids_ t !! j = Some true) ∨
  (∃ e', scan_ids n (Z.of_nat i) now e t = Ret (inr e') ∧
        ∀ j, e' = Some j → ∃ k, index_ok k ∧ j = Z.of_nat k).
Proof.
  intros Ht. revert i e. induction n as [|n IH]; intros i e Hn He; [right; by exists e|].
  assert (Hi : index_ok i) by (unfold index_ok; lia). cbn [scan_ids].
  destruct (rd_index i Hi _ (ok_available t Ht)) as (av & Hav & ->). rewrite bind_ret.
  destruct av; [left; by exists i|].
  replace (Z.of_nat i + 1) with (Z.of_nat (S i)) by lia.
  destruct e as [j|].
  - rewrite bind_ret. by apply IH; [lia|].
  - destruct (rd_index i Hi _ (ok_last_used t Ht)) as (last & _ & ->). rewrite !bind_ret.
    apply IH; [lia|]. intros j. case_match; [|done]. intros [= <-]. by exists i.
Qed.

(** Where a thread may stop: it has ended, it waits for the network or for a
    future, or a mutex it needs is locked. *)
Definition may_block (wait_over : bool) (L : gset Z) c : Prop :=
  match c with
  | Done _ | Poll [] => True
  | Wait _ _ _ => wait_over = false
  | _ => ∃ i, i ∈ L
  end.

(** The promise a step gives a value to. *)
Definition sets c : option nat :=
  match c with
  | Refused _ p _ | UnsentSet _ p _ _ => Some p
  | TimeOutSet _ _ h => Some (eh_promise h)
  | ReplyRun h _ _ => Some (rh_promise h)
  | _ => None
  end.

(** Where a thread may end the process. *)
Definition may_abort (broken : bool) c t : Prop :=
  match c with
  | Wait _ p _ => promises t !! p = Some None ∧ broken = true
  | _ => ∃ p v, sets c = Some p ∧ promises t !! p = Some (Some v)
  end.

Definition step_result (wait_over broken : bool) c t L (m : outcome (pc U * shared U)) : Prop :=
  match m with
  | Ret (c', s') => effect c t L c' (table_ s') (reply_callback_mtx_ s')
  | UB => False
  | Abort => may_abort broken c t
  | Pending => may_block wait_over L c
  end.

Lemma set_value_cases (p : nat) v t :
  (p < length (promises t))%nat →
  (promises t !! p = Some None ∧ set_value p v t = Ret (valued p v t)) ∨
  (∃ w, promises t !! p = Some (Some w) ∧ set_value p v t = Abort).
Proof.
  intros Hp. unfold set_value. destruct (lookup_lt_is_Some_2 _ _ Hp) as [[w|] ->]; [right|left]; by eauto.
Qed.

Lemma clear_index t i : table_ok t → index_ok i → clear_callbacks_of (Z.of_nat i) t = Ret (cleared i t).
Proof.
  intros Ht Hi. unfold clear_callbacks_of. rewrite (store_reply_index t i Ht Hi), bind_ret.
  by rewrite store_error_index by eauto using table_ok_reply_none.
Qed.

Lemma install_index t i p f :
  table_ok t → index_ok i → (p < length (promises t))%nat →
  install_callbacks p (id_min + Z.of_nat i) (Z.of_nat i) f t = Ret (installed i p f t).
Proof.
  intros Ht Hi Hp. unfold install_callbacks. rewrite (store_error_index t i Ht Hi), bind_ret.
  rewrite store_reply_index; [done| |done]. apply table_ok_error_set; [done|]. by intros h [= <-].
Qed.

Lemma index_of_tid t i :
  table_ok t → id_min + Z.of_nat i - transaction_id_min_ t = Z.of_nat i.
Proof. intros Ht. rewrite (ok_min t Ht). lia. Qed.

Lemma tid_inside t tid :
  table_ok t →
  (tid <? transaction_id_min_ t) || (transaction_id_max_ t <=? tid) = false →
  ∃ i, index_ok i ∧ tid = id_min + Z.of_nat i.
Proof.
  intros Ht Hr. rewrite (ok_min t Ht), (ok_max t Ht) in Hr.
  destruct (Z.ltb_spec tid id_min); [done|]. destruct (Z.leb_spec id_max tid); [done|].
  exists (Z.to_nat (tid - id_min)). unfold index_ok. lia.
Qed.

Lemma scan_round_result now w b o p t L :
  table_ok t →
  step_result w b (Scan o p) t L (unlocked (mkShared t L) (scan_round now o p)).
Proof.
  intros Ht. unfold unlocked, scan_round. cbn [table_].
  pose proof (ok_range t Ht) as [Hr1 Hr2]. rewrite (ok_min t Ht), (ok_max t Ht).
  assert (Hu : u64 (id_max - id_min) = id_max - id_min) by (unfold u64; rewrite Z.mod_small; lia).
  rewrite Hu. change 0 with (Z.of_nat 0).
  destruct (scan_ids_result t now (Z.to_nat (id_max - id_min)) 0 None Ht ltac:(lia) ltac:(done))
    as [(i & -> & Hi)|([j|] & -> & Hj)]; rewrite bind_ret.
  - assert (Hii : index_ok i) by eauto using index_of_lookup, ok_available.
    unfold store_available. rewrite wr_index, !bind_ret by (done || apply Ht).
    unfold store_last_used. cbn [transaction_last_used_ set_available_transaction_ids_].
    rewrite wr_index, !bind_ret by (done || apply Ht). cbn. rewrite (ok_min t Ht).
    rewrite (u32_small (Z.of_nat i)), u32_small, u16_small by (unfold index_ok in Hii; lia).
    by apply e_take.
  - destruct (Hj j) as (k & Hk & ->); [done|]. cbn. by apply e_expired.
  - cbn. apply e_exhausted.
Qed.

Ltac step_set_value Hp :=
  match goal with |- context [set_value ?p ?v ?t] =>
    let Hn := fresh "Hn" in
    destruct (set_value_cases p v t Hp) as [[Hn ->]|(? & Hn & ->)] end.

Definition polls c : Prop :=
  match c with Poll _ | ReplyRun _ _ _ | ReplyRelease _ _ | ReplyNull _ _ => True | _ => False end.

Lemma poll_step_result now w b c t L :
  table_ok t → pc_ok (length (promises t)) c → polls c →
  step_result w b c t L (thread_step now w b c (mkShared t L)).
Proof.
  intros Ht Hc. destruct c; try done; intros _; cbn [pc_ok] in Hc; cbn [thread_step];
    unfold unlocked; cbn [table_ reply_callback_mtx_].
  - destruct packets as [|packet packets]; [done|]. destruct (_ || _) eqn:E; [apply e_poll_outside|].
    destruct (tid_inside t _ Ht E) as (i & Hi & Hid). rewrite !Hid, !index_of_tid by done.
    case_decide; [cbn; eauto|].
    destruct (rd_index i Hi _ (ok_reply t Ht)) as ([h|] & Hh & ->); rewrite bind_ret; [|apply e_poll_none].
    rewrite clear_index by done. by eapply e_poll_take.
  - destruct Hc as (i & Hi & Hp & _ & _ & Hf). unfold complete.
    destruct (Hf packet (user t)) as (r & u & ->). rewrite bind_ret.
    assert (Hp' : (rh_promise h < length (promises (set_user u t)))%nat) by done.
    step_set_value Hp'; [by apply e_reply_run|cbn; eauto].
  - destruct Hc as (i & Hi & _ & Hh & _). rewrite Hh, release_index by done. by apply e_reply_release.
  - destruct Hc as (i & Hi & _ & _ & Hh & _). rewrite Hh, store_error_index by done. rewrite bind_ret.
    rewrite <-Hh at 1. rewrite Hh. by apply e_reply_null.
Qed.

Lemma thread_step_result now w b c t L :
  table_ok t → pc_ok (length (promises t)) c →
  step_result w b c t L (thread_step now w b c (mkShared t L)).
Proof.
  intros Ht Hc. destruct c; try by apply poll_step_result.
  all: cbn [pc_ok] in Hc; cbn [thread_step]; unfold with_lock, unlocked; cbn [table_ reply_callback_mtx_].
  - destruct (op_sends o) eqn:E; [apply e_attempts_over|apply e_start; by rewrite E].
  - by apply scan_round_result.
  - destruct Hc as [_ Hp]. step_set_value Hp; [by apply e_refused|cbn; eauto].
  - destruct Hc as (_ & Hp & i & Hi & ->). rewrite !index_of_tid by done. case_decide; [cbn; eauto|].
    rewrite install_index by done. by apply e_install.
  - fold (rest o). destruct (op_sends o) as [|[]] eqn:E; cbn; [apply e_sent|apply e_sent|apply e_unsent];
      unfold send_fails; by rewrite E.
  - destruct Hc as (_ & Hp & i & Hi & ->). rewrite !index_of_tid by done. case_decide; [cbn; eauto|].
    rewrite clear_index by done. by apply e_unsent_clear.
  - destruct Hc as (_ & Hp & _). step_set_value Hp; [by apply e_unsent_set|cbn; eauto].
  - destruct Hc as (_ & _ & i & Hi & ->). rewrite release_index by done. by apply e_unsent_release.
  - destruct Hc as (_ & _ & k & Hi & ->). case_decide; [cbn; eauto|].
    destruct (rd_index k Hi _ (ok_error t Ht)) as ([h|] & Hh & ->); rewrite bind_ret, clear_index by done;
      [by apply e_force_some|by apply e_force_none].
  - destruct Hc as (_ & _ & i & Hi & Hh). pose proof Hh as (Hp & _).
    step_set_value Hp; [by apply e_timeout_set|cbn; eauto].
  - destruct Hc as (_ & _ & i & Hi & _ & Hh & _). rewrite Hh, release_index by done. by apply e_timeout_release.
  - destruct Hc as (_ & _ & i & Hi & _ & _ & Hh). rewrite Hh, store_error_index by done. by apply e_timeout_null.
  - destruct Hc as (_ & _ & k & Hi & ->). pose proof (ok_range t Ht). rewrite (ok_min t Ht).
    rewrite (u16_small (Z.of_nat k)), u16_small by (unfold index_ok in Hi; lia).
    rewrite release_index by done. by apply e_force_release.
  - destruct Hc as [_ Hp]. destruct (lookup_lt_is_Some_2 _ _ Hp) as [[v|] Hv]; rewrite Hv; [by apply e_wait_ready|].
    destruct b; [done|]. destruct w; [|done]. destruct tid; [apply e_wait_cancel|by apply e_wait_again].
  - destruct (_ || _) eqn:E; [apply e_cancel_outside|].
    destruct (tid_inside t tid Ht E) as (i & Hi & ->). rewrite !index_of_tid by done.
    case_decide; [cbn; eauto|]. rewrite clear_index by done. by apply e_cancel_clear.
  - destruct Hc as (_ & i & Hi & ->). rewrite release_index by done. by apply e_cancel_release.
  - done.
Qed.
End facts.
