(* ===== verification/ConcurrencyTokens.v ===== *)
(** * Tokens of the threads and of the table

    A transaction ID is a token: the array of available IDs has it, or a slot
    with callbacks, or one thread.  A promise is one too: it has not been made,
    has its value, is in a slot, or one thread is to set it.  So is the mutex of
    a slot.  A step of a thread conserves the tokens that it and the table have
    together, as long as it is not in the course of reclaiming an ID by time-out
    or by cancellation. *)

From S2P Require Import Prelude PacketTypes Transactions Concurrency ConcurrencyFacts.
#[local] Open Scope Z_scope.

Definition one (P : Prop) `{Decision P} : nat := if decide P then 1 else 0.

Lemma one_true (P : Prop) `{Decision P} : P → one P = 1%nat.
Proof. intros. unfold one. by rewrite decide_True. Qed.
Lemma one_false (P : Prop) `{Decision P} : ¬ P → one P = 0%nat.
Proof. intros. unfold one. by rewrite decide_False. Qed.

Section tokens.
Context {U : Type} (id_min id_max : Z).
Implicit Types (t : tx U) (c : pc U) (L : gset Z).
Abbreviation table_ok := (table_ok id_min id_max).
Abbreviation pc_ok := (pc_ok id_min id_max).
Abbreviation effect := (effect id_min id_max).

(** ** Mutexes *)

Definition lock_of (i : Z) c : nat :=
  match c with
  | ReplyRun h _ _ | ReplyRelease h _ | ReplyNull h _ => one (rh_tx_index h = i)
  | _ => 0
  end.
Definition lock_free (i : Z) L : nat := one (i ∉ L).

Lemma lock_step i c t L c' t' L' :
  effect c t L c' t' L' → table_ok t → pc_ok (length (promises t)) c →
  (lock_free i L + lock_of i c ≤ 1)%nat →
  (lock_free i L' + lock_of i c' = lock_free i L + lock_of i c)%nat.
Proof.
  intros He Ht Hc. unfold lock_free.
  destruct He; cbn; unfold started_pc; try (destruct (op_waits _)); cbn; try done.
  - intros _. select (reply_callback_ _ !! _ = _) (fun H =>
      destruct (ok_replies _ _ _ Ht _ _ H) as (_ & _ & -> & _)).
    unfold one. repeat case_decide; try lia; set_solver.
  - select (rh_tx_index _ = _) (fun H => rewrite H). unfold one.
    repeat case_decide; try lia; set_solver.
Qed.

(** ** Transaction IDs *)

Definition id_of (i : nat) c : nat :=
  match c with
  | Install _ _ tid | UnsentSet _ _ tid _ | UnsentRelease _ _ tid => one (tid = id_min + Z.of_nat i)
  | ReplyRun h _ _ | ReplyRelease h _ => one (rh_tx_index h = Z.of_nat i)
  | _ => 0
  end.
Definition id_free (i : nat) (available : list bool) : nat :=
  match available !! i with Some false => 0 | _ => 1 end.
Definition id_waiting (i : nat) (callbacks : list (option (reply_handler U))) : nat :=
  match callbacks !! i with Some (Some _) => 1 | _ => 0 end.

(** ** Promises *)

Definition promise_of (p : nat) c : nat :=
  match c with
  | Scan _ q | Refused _ q _ | Install _ q _ | UnsentSet _ q _ _ => one (q = p)
  | ReplyRun h _ _ => one (rh_promise h = p)
  | _ => 0
  end.
Definition promise_spent (p : nat) (ps : list (option (expected unit))) : nat :=
  match ps !! p with Some None => 0 | _ => 1 end.
Definition promise_in (p : nat) (h : option (reply_handler U)) : nat :=
  match h with Some h => one (rh_promise h = p) | None => 0 end.
Definition promise_waiting (p : nat) (callbacks : list (option (reply_handler U))) : nat :=
  sum_list_with (promise_in p) callbacks.
#[local] Arguments promise_waiting _ _ : simpl never.

(** ** The restriction to calm runs *)

(** Not in the course of a time-out or of a cancellation. *)
Definition calm c : Prop :=
  match c with
  | Force _ _ _ | ForceRelease _ _ _ | TimeOutSet _ _ _ | TimeOutRelease _ _ _
  | TimeOutNull _ _ _ | CancelClear _ _ | CancelRelease _ _ => False
  | _ => True
  end.

(** An operation that waits for the end of a send that fails. *)
Definition unsent c : option (nat * Z) :=
  match c with
  | Sending o p tid => match send_fails o with Some _ => Some (p, tid) | None => None end
  | UnsentClear _ p tid _ => Some (p, tid)
  | _ => None
  end.

(** Its callbacks are still in its slot. *)
Definition unsent_ok c t : Prop :=
  ∀ p tid, unsent c = Some (p, tid) →
    ∃ i h, tid = id_min + Z.of_nat i ∧ reply_callback_ t !! i = Some (Some h) ∧ rh_promise h = p.

(** *** What the assignments do to the tokens *)

Lemma id_free_insert i j (v : bool) l x :
  l !! j = Some x →
  id_free i (<[j := v]> l) = if decide (i = j) then if v then 1%nat else 0%nat else id_free i l.
Proof.
  intros Hj%lookup_lt_Some. unfold id_free. case_decide; subst.
  - rewrite list_lookup_insert_eq by done. by destruct v.
  - by rewrite list_lookup_insert_ne.
Qed.

Lemma id_waiting_insert i j v l x :
  l !! j = Some x →
  id_waiting i (<[j := v]> l) = if decide (i = j) then match v with Some _ => 1%nat | None => 0%nat end else id_waiting i l.
Proof.
  intros Hj%lookup_lt_Some. unfold id_waiting. case_decide; subst.
  - rewrite list_lookup_insert_eq by done. by destruct v.
  - by rewrite list_lookup_insert_ne.
Qed.

Lemma promise_spent_insert p q v ps :
  ps !! q = Some None →
  promise_spent p (<[q := Some v]> ps) = (promise_spent p ps + one (q = p))%nat.
Proof.
  intros Hq. unfold promise_spent, one. case_decide; subst.
  - rewrite list_lookup_insert_eq by by eapply lookup_lt_Some. by rewrite Hq.
  - rewrite list_lookup_insert_ne by done. lia.
Qed.

Lemma promise_spent_new p ps :
  (promise_spent p (ps ++ [None]) + one (length ps = p) = promise_spent p ps)%nat.
Proof.
  unfold promise_spent, one. case_decide; subst.
  - rewrite list_lookup_middle by done. by rewrite lookup_ge_None_2 by done.
  - destruct (decide (p < length ps)%nat); [by rewrite lookup_app_l by done|].
    rewrite !lookup_ge_None_2; rewrite ?length_app; cbn; lia.
Qed.

Lemma promise_waiting_insert p j v l h :
  l !! j = Some h →
  (promise_waiting p (<[j := v]> l) + promise_in p h = promise_waiting p l + promise_in p v)%nat.
Proof. apply sum_insert. Qed.

Lemma id_of_tid i j : one (id_min + Z.of_nat j = id_min + Z.of_nat i) = one (i = j).
Proof. unfold one. repeat case_decide; lia. Qed.

Lemma id_of_index i j : one (Z.of_nat j = Z.of_nat i) = one (i = j).
Proof. unfold one. repeat case_decide; lia. Qed.

(** An operation that has been started has given its tokens away. *)
Lemma started_tokens (i p q : nat) o (tid : option Z) :
  id_of i (started_pc o q tid) = 0%nat ∧ promise_of p (started_pc (U := U) o q tid) = 0%nat.
Proof. unfold started_pc. by destruct (op_waits o). Qed.

(** A thread and the table do not have the same ID. *)
Definition id_apart c t : Prop :=
  ∀ i, (id_free i (available_transaction_ids_ t) + id_waiting i (reply_callback_ t) + id_of i c ≤ 1)%nat.

(** The slot of an installing thread is empty. *)
Lemma slot_empty o p j t :
  table_ok t → index_ok id_min id_max j → id_apart (Install o p (id_min + Z.of_nat j)) t →
  reply_callback_ t !! j = Some None.
Proof.
  intros Ht Hj Hap. specialize (Hap j). cbn in Hap. rewrite one_true in Hap by done.
  unfold id_waiting in Hap.
  destruct (rd_index id_min id_max j Hj _ (ok_reply _ _ _ Ht)) as ([h|] & E & _); rewrite E in *; [lia|done].
Qed.

Lemma available_index t j :
  table_ok t → index_ok id_min id_max j → ∃ v, available_transaction_ids_ t !! j = Some v.
Proof. intros Ht Hj. destruct (rd_index _ _ j Hj _ (ok_available _ _ _ Ht)) as (v & ? & _). by exists v. Qed.

Lemma unsent_callback o p j e t :
  unsent_ok (UnsentClear o p (id_min + Z.of_nat j) e) t →
  ∃ h, reply_callback_ t !! j = Some (Some h) ∧ rh_promise h = p.
Proof.
  intros Hu. destruct (Hu _ _ eq_refl) as (i & h & Hi & Hh & Hp).
  replace j with i by lia. by exists h.
Qed.

Lemma id_waiting_some i j l (h : reply_handler U) :
  l !! j = Some (Some h) → i = j → id_waiting i l = 1%nat.
Proof. intros Hi ->. unfold id_waiting. by rewrite Hi. Qed.

Lemma id_waiting_none i j l : l !! j = Some None → i = j → id_waiting i l = 0%nat.
Proof. intros Hi ->. unfold id_waiting. by rewrite Hi. Qed.

Lemma id_step i c t L c' t' L' :
  effect c t L c' t' L' → table_ok t → pc_ok (length (promises t)) c →
  calm c → calm c' → unsent_ok c t → id_apart c t →
  (id_free i (available_transaction_ids_ t') + id_waiting i (reply_callback_ t') + id_of i c' =
   id_free i (available_transaction_ids_ t) + id_waiting i (reply_callback_ t) + id_of i c)%nat.
Proof.
  intros He Ht Hc Hq Hq' Hu Hap. pose proof (Hap i) as Hi.
  destruct He as [ | |o p j now t L Hj| | | |o p j t L HL Hj| | |o p j e t L HL Hj| |o p j t L Hj| | | | | | |
    | | | | | | | |pk pks j h t L HL Hid Hh| |h pks j t L Hj Hid| ];
    try done; rewrite ?(proj1 (started_tokens _ 0 _ _ _)); cbn in *; rewrite ?id_of_tid in *; try lia.
  - rewrite (id_free_insert _ _ _ _ _ Hj). unfold one, id_free in *. case_decide; [subst; rewrite Hj in *|]; lia.
  - pose proof (slot_empty _ _ _ _ Ht Hj Hap) as Hn. rewrite (id_waiting_insert _ _ _ _ _ Hn).
    unfold one in *. case_decide; [rewrite (id_waiting_none i j) by done|]; lia.
  - destruct (unsent_callback _ _ _ _ _ Hu) as (h & Hh & _). rewrite (id_waiting_insert _ _ _ _ _ Hh).
    unfold one in *. case_decide; [rewrite (id_waiting_some i j _ h) by done|]; lia.
  - destruct (available_index t j Ht Hj) as [v Hv]. rewrite (id_free_insert _ _ _ _ _ Hv).
    unfold one in *. case_decide; lia.
  - destruct (ok_replies _ _ _ Ht _ _ Hh) as (_ & _ & -> & _). rewrite id_of_index.
    rewrite (id_waiting_insert _ _ _ _ _ Hh).
    unfold one in *. case_decide; [rewrite (id_waiting_some i j _ h) by done|]; lia.
  - destruct Hc as (k & Hk & _ & Hid' & Hix & _). assert (k = j) as -> by lia. rewrite Hix, id_of_index in *.
    destruct (available_index t j Ht Hj) as [v Hv]. rewrite (id_free_insert _ _ _ _ _ Hv).
    unfold one in *. case_decide; lia.
Qed.

Lemma promise_step p c t L c' t' L' :
  effect c t L c' t' L' → table_ok t → calm c → calm c' → unsent_ok c t → id_apart c t →
  (promise_spent p (promises t') + promise_waiting p (reply_callback_ t') + promise_of p c' =
   promise_spent p (promises t) + promise_waiting p (reply_callback_ t) + promise_of p c)%nat.
Proof.
  intros He Ht Hq Hq' Hu Hap.
  destruct He as [ | | | | |o q e t L Hp|o q j t L HL Hj| | |o q j e t L HL Hj|o q tid e t L Hp| | | | | | | |
    | | | | | | | |pk pks j h t L HL Hid Hh|h pk pks v u t L Hp| | ];
    try done; rewrite ?(proj2 (started_tokens 0 _ _ _ _)); cbn in *; try lia.
  - pose proof (promise_spent_new p (promises t)). lia.
  - rewrite (promise_spent_insert _ _ _ _ Hp). lia.
  - pose proof (slot_empty _ _ _ _ Ht Hj Hap) as Hn.
    match goal with |- context [promise_waiting p (<[j := ?v]> _)] =>
      pose proof (promise_waiting_insert p j v _ _ Hn) as E end. cbn in E. lia.
  - destruct (unsent_callback _ _ _ _ _ Hu) as (h & Hh & <-).
    pose proof (promise_waiting_insert p j None _ _ Hh) as E. cbn in E. lia.
  - rewrite (promise_spent_insert _ _ _ _ Hp). lia.
  - pose proof (promise_waiting_insert p j None _ _ Hh) as E. cbn in E. lia.
  - rewrite (promise_spent_insert _ _ _ _ Hp). lia.
Qed.

(** ** Names

    Before its send has ended, an operation is known by its promise. *)

Definition name_of (p : nat) c : nat :=
  match c with
  | Scan _ q | Install _ q _ | Sending _ q _ | UnsentClear _ q _ _ => one (q = p)
  | _ => 0
  end.

Lemma name_step p c t L c' t' L' :
  effect c t L c' t' L' → calm c → calm c' →
  (one (length (promises t') ≤ p) + name_of p c' ≤ one (length (promises t) ≤ p) + name_of p c)%nat.
Proof.
  assert (Hs : ∀ o q tid, name_of p (started_pc o q tid) = 0%nat).
  { intros o q tid. unfold started_pc. by destruct (op_waits o). }
  intros He Hq Hq'. destruct He; try done; rewrite ?Hs; cbn; rewrite ?length_insert, ?length_app; cbn;
    unfold one; repeat case_decide; lia.
Qed.

Lemma unsent_name c p tid : unsent c = Some (p, tid) → name_of p c = 1%nat.
Proof.
  destruct c; cbn; try done; [case_match; [|done]|]; intros [= <- <-]; by rewrite one_true.
Qed.

(** A reply to a command that was not sent, or not yet in full, is not
    expected. *)
Definition honest (cs : list (pc U)) c : Prop :=
  match c with
  | Poll (packet :: _) => ∀ k c' p, cs !! k = Some c' → unsent c' ≠ Some (p, transactionID packet)
  | _ => True
  end.

(** The callbacks of an unsent operation stay in their slot when another
    thread moves. *)
Lemma unsent_step cs k c2 c t L c' t' L' :
  effect c t L c' t' L' → table_ok t → calm c → calm c' → honest cs c → cs !! k = Some c2 →
  unsent_ok c t → id_apart c t → (∀ p, name_of p c + name_of p c2 ≤ 1)%nat →
  unsent_ok c2 t → unsent_ok c2 t'.
Proof.
  intros He Ht Hq Hq' Hh Hk Hu Hap Hn Hu2 p tid Hun.
  destruct (Hu2 p tid Hun) as (i & g & -> & Hg & Hgp). exists i, g. split_and!; [done| |done].
  destruct He as [ | | | | | |o q j t L HL Hj| | |o q j e t L HL Hj| | | | | | | | |
    | | | | | | | |pk pks j h t L HL Hid Hh'| | | ]; try done; cbn; rewrite list_lookup_insert_ne; try done.
  - intros ->. pose proof (slot_empty _ _ _ _ Ht Hj Hap). congruence.
  - intros ->. destruct (unsent_callback _ _ _ _ _ Hu) as (h & Hh' & Hq2).
    assert (p = q) as -> by congruence. pose proof (Hn q) as Hn'.
    rewrite (unsent_name c2 _ _ Hun) in Hn'. cbn in Hn'. rewrite one_true in Hn' by done. lia.
  - intros ->. cbn in Hh. eapply Hh; [done|]. by rewrite Hid.
Qed.

Lemma unsent_own c t L c' t' L' :
  effect c t L c' t' L' → table_ok t → unsent_ok c t → unsent_ok c' t'.
Proof.
  intros He Ht Hu p tid Hun. destruct He; unfold started_pc in *; try (destruct (op_waits _)); try done.
  - cbn in Hun. case_match; [|done]. simplify_eq. do 2 eexists. split_and!; [done| |].
    + cbn. apply list_lookup_insert_eq. pose proof (ok_reply _ _ _ Ht). unfold index_ok, zsize in *. lia.
    + done.
  - cbn in Hun. simplify_eq. apply Hu. cbn. by case_match.
Qed.

(** ** The slots between their assignments *)

Definition paired (r : option (option (reply_handler U))) (e : option (option error_handler)) : Prop :=
  match r, e with
  | Some (Some h), Some (Some g) => rh_promise h = eh_promise g
  | Some None, Some None | None, None => True
  | _, _ => False
  end.

Record slots_ok t L : Prop := mkSlotsOk {
  so_paired : ∀ i, paired (reply_callback_ t !! i) (reply_error_callback_ t !! i);
  so_locked : ∀ i, Z.of_nat i ∈ L → id_waiting i (reply_callback_ t) = 0%nat;
  so_times : ∀ i, available_transaction_ids_ t !! i = Some true →
    transaction_last_used_ t !! i = Some time_point_min;
}.

Lemma paired_insert R E j r e :
  length R = length E → paired (Some r) (Some e) → (∀ i, paired (R !! i) (E !! i)) →
  ∀ i, paired (<[j := r]> R !! i) (<[j := e]> E !! i).
Proof.
  intros Hl Hj HRE i. destruct (decide (i = j)) as [->|]; [|by rewrite !list_lookup_insert_ne].
  destruct (decide (j < length R)%nat); [by rewrite !list_lookup_insert_eq by lia|].
  rewrite !lookup_ge_None_2; [done|rewrite length_insert; lia..].
Qed.

Lemma callbacks_length t :
  table_ok t → length (reply_callback_ t) = length (reply_error_callback_ t).
Proof. intros Ht. pose proof (ok_reply _ _ _ Ht). pose proof (ok_error _ _ _ Ht). unfold zsize in *. lia. Qed.

Lemma slots_ok_cleared t L L' j :
  table_ok t → index_ok id_min id_max j → slots_ok t L → L' ⊆ {[Z.of_nat j]} ∪ L →
  slots_ok (cleared j t) L'.
Proof.
  intros Ht Hj [Hp Hl Hf] HL. constructor; [|intros i Hi|done].
  - cbn; by apply paired_insert; [apply callbacks_length| |].
  - destruct (rd_index _ _ j Hj _ (ok_reply _ _ _ Ht)) as (x & Hx & _). cbn.
    rewrite (id_waiting_insert _ _ _ _ _ Hx). case_decide; [done|]. apply Hl. set_solver by lia.
Qed.

Lemma slots_ok_released t L j :
  table_ok t → index_ok id_min id_max j → slots_ok t L → slots_ok (released j t) L.
Proof.
  intros Ht Hj [Hp Hl Hf]. constructor; [done..|]. intros i. cbn.
  destruct (decide (i = j)) as [->|]; [|by rewrite !list_lookup_insert_ne; auto].
  rewrite !list_lookup_insert_eq; [done| |];
    pose proof (ok_last_used _ _ _ Ht); pose proof (ok_available _ _ _ Ht);
    unfold index_ok, zsize in *; lia.
Qed.

Lemma slots_ok_taken t L j now : slots_ok t L → slots_ok (taken j now t) L.
Proof.
  intros [Hp Hl Hf]. constructor; [done..|]. intros i. cbn.
  intros [(-> & ? & ?)|[? Hi]]%list_lookup_insert_Some; [done|].
  rewrite list_lookup_insert_ne by done. by apply Hf.
Qed.

Lemma slots_step c t L c' t' L' :
  effect c t L c' t' L' → table_ok t → pc_ok (length (promises t)) c → calm c → calm c' →
  (∀ i, lock_free i L + lock_of i c ≤ 1)%nat → slots_ok t L → slots_ok t' L'.
Proof.
  intros He Ht Hc Hq Hq' Hlock Hs.
  destruct He as [ | | | | | |o q j t L HL Hj| | |o q j e t L HL Hj| |o q j t L Hj| | | | | | |
    | | | | | | | |pk pks j h t L HL Hid Hh| |h pks j t L Hj Hid|h pks j t L Hj Hid];
    try done; try by destruct Hs.
  - by apply slots_ok_taken.
  - destruct Hs as [Hp Hl Hf]. constructor; [|intros i Hi|done].
    + cbn; by apply paired_insert; [apply callbacks_length| |].
    + destruct (rd_index _ _ j Hj _ (ok_reply _ _ _ Ht)) as (x & Hx & _). cbn.
      rewrite (id_waiting_insert _ _ _ _ _ Hx). case_decide; [by subst|by apply Hl].
  - apply (slots_ok_cleared t L); [done..|set_solver].
  - by apply slots_ok_released.
  - apply (slots_ok_cleared t L); [done| |done|set_solver]. eauto using index_of_lookup, ok_reply.
  - by apply slots_ok_released.
  - destruct Hs as [Hp Hl Hf]. constructor; [|intros i Hi; apply Hl; set_solver|done].
    assert (Hin : Z.of_nat j ∈ L).
    { specialize (Hlock (Z.of_nat j)). cbn in Hlock. rewrite Hid, (one_true (_ = _)) in Hlock by done.
      unfold lock_free, one in Hlock. case_decide; [lia|done]. }
    pose proof (Hl j Hin) as Hw. intros i. specialize (Hp i). cbn.
    destruct (decide (i = j)) as [->|]; [|by rewrite list_lookup_insert_ne].
    unfold id_waiting in Hw. destruct (reply_callback_ t !! j) as [[]|] eqn:Er; [done| |];
      (destruct (reply_error_callback_ t !! j) as [[]|] eqn:Ee; try done).
    + rewrite list_lookup_insert_eq; [done|]. by eapply lookup_lt_Some.
    + rewrite lookup_ge_None_2; [done|]. rewrite length_insert. by apply lookup_ge_None_1.
Qed.
End tokens.

