(* ===== verification/Interleavings.v ===== *)
(** * Every interleaving of the threads

    The first part holds for all schedules: no index is out of range, a locked
    mutex has one owner, and there is no deadlock.

    The second part is about calm runs: no ID is reclaimed by time-out or by
    cancellation, and replies come only to commands that were sent.  Then the
    tokens are conserved, no promise gets a second value, none is lost, and when
    the threads rest the table is one of the sequential model. *)

From S2P Require Import Prelude PacketTypes Transactions TransactionSlots Node NodeTheorems Concurrency ConcurrencyFacts ConcurrencyTokens.
#[local] Open Scope Z_scope.

(** ** Systems *)

Section systems.
Context {U : Type} (id_min id_max : Z).
Implicit Types (s : system U) (c : pc U) (u : U).
Abbreviation tab s := (table_ (shared_state s)).
Abbreviation held s := (reply_callback_mtx_ (shared_state s)).

Inductive step_to s : system U → Prop :=
| step_to_intro k now wait_over s' : system_step k now wait_over s = Ret s' → step_to s s'.

(** The invariant of all schedules. *)
Record system_ok s : Prop := mkSystemOk {
  sy_table : table_ok id_min id_max (tab s);
  sy_threads : ∀ k c, threads s !! k = Some c → pc_ok id_min id_max (length (promises (tab s))) c;
  sy_locks : ∀ i, (lock_free i (held s) + sum_list_with (lock_of i) (threads s) = 1)%nat;
}.

(** The start: a new table, no mutex locked, and threads that begin their
    operations or poll. *)
Definition begins c : Prop :=
  match c with Start o => operation_ok o | Poll _ => True | _ => False end.
Definition initial_system (u : U) (cs : list (pc U)) : system U :=
  mkSystem cs (mkShared (initial_tx id_min id_max u) ∅).

Lemma initial_table_ok u :
  0 ≤ id_min ≤ id_max → id_max < 2 ^ 16 → table_ok id_min id_max (initial_tx id_min id_max u).
Proof.
  intros. assert (Hu : u32 (id_max - id_min) = id_max - id_min) by (unfold u32; rewrite Z.mod_small; lia).
  unfold initial_tx. constructor; cbn; rewrite ?Hu, ?zsize_replicate, ?Z2Nat.id by lia; try done.
  - by intros i h [? ?]%lookup_replicate.
  - by intros i h [? ?]%lookup_replicate.
Qed.

Lemma initial_system_ok u cs :
  0 ≤ id_min ≤ id_max → id_max < 2 ^ 16 → Forall begins cs → system_ok (initial_system u cs).
Proof.
  intros H1 H2 Hcs. constructor; cbn [initial_system shared_state table_ threads reply_callback_mtx_].
  - by apply initial_table_ok.
  - intros k c Hk. eapply Forall_lookup_1 in Hcs; [|done]. by destruct c.
  - intros i. rewrite (sum_zero (lock_of i)); [unfold lock_free; by rewrite one_true by set_solver|].
    intros k c Hk. eapply Forall_lookup_1 in Hcs; [|done]. by destruct c.
Qed.

(** A step of the system is an [effect] of the thread that moves. *)
Lemma system_step_effect k now w s s' :
  system_ok s → system_step k now w s = Ret s' →
  ∃ c c', threads s !! k = Some c ∧ threads s' = <[k := c']> (threads s) ∧
    effect id_min id_max c (tab s) (held s) c' (tab s') (held s').
Proof.
  intros [Ht Hc Hl] Hs. unfold system_step in Hs. destruct (threads s !! k) as [c|] eqn:Hk; [|done].
  apply bind_Ret in Hs as ([c' sh'] & Hs & [= <-]). exists c, c'. split_and!; [done..|]. cbn.
  destruct s as [cs [t L]]. cbn in *.
  match type of Hs with thread_step _ _ ?b _ _ = _ =>
    pose proof (thread_step_result id_min id_max now w b c t L Ht (Hc k c Hk)) as Hr end.
  by rewrite Hs in Hr.
Qed.

Lemma own_lock s k c i :
  system_ok s → threads s !! k = Some c → (lock_free i (held s) + lock_of i c ≤ 1)%nat.
Proof. intros Hs Hk. pose proof (sy_locks s Hs i). pose proof (sum_ge (lock_of i) _ _ _ Hk). lia. Qed.

Lemma step_ok s s' : system_ok s → step_to s s' → system_ok s'.
Proof.
  intros Hok [k now w s'' Hs]. destruct (system_step_effect _ _ _ _ _ Hok Hs) as (c & c' & Hk & Hcs & He).
  pose proof Hok as [Ht Hc _]. destruct (effect_ok _ _ _ _ _ _ _ _ He Ht (Hc k c Hk)) as (Ht' & Hc' & Hn).
  constructor; [done| |].
  - intros j d. rewrite Hcs. intros [(-> & <- & ?)|[? Hj]]%list_lookup_insert_Some; [done|].
    eapply pc_ok_mono; [exact Hn|by eapply Hc].
  - intros i. rewrite Hcs, (sum_conserved (lock_of i) _ k c' c (lock_free i (held s))); [|done|].
    + by apply (sy_locks s Hok).
    + eapply lock_step; eauto using own_lock.
Qed.

Lemma reachable_ok s s' : system_ok s → rtc step_to s s' → system_ok s'.
Proof. intros Hs Hr. induction Hr; eauto using step_ok. Qed.

(** The result of any step of a well-formed system. *)
Lemma system_step_cases k now w s :
  system_ok s →
  match system_step k now w s with
  | Ret _ => True
  | UB => False
  | Abort => ∃ c, threads s !! k = Some c ∧
      may_abort (match waits_for c with Some p => destroyed p s | None => false end) c (tab s)
  | Pending => ∀ c, threads s !! k = Some c → may_block w (held s) c
  end.
Proof.
  intros [Ht Hc Hl]. unfold system_step. destruct (threads s !! k) as [c|] eqn:Hk; [|done].
  set (b := match waits_for c with Some p => destroyed p s | None => false end).
  pose proof (thread_step_result id_min id_max now w b c (tab s) (held s) Ht (Hc k c Hk)) as Hr.
  replace (mkShared (tab s) (held s)) with (shared_state s) in Hr by by destruct s as [? []].
  destruct (thread_step now w b c (shared_state s)) as [[]| | |]; cbn in *; [done..|by exists c|].
  by intros ? [= <-].
Qed.

(** A thread that has not ended and does not wait for the network. *)
Definition unfinished c : Prop :=
  match c with Done _ | Poll [] => False | _ => True end.

Lemma holder_moves now w b c t L i :
  table_ok id_min id_max t → pc_ok id_min id_max (length (promises t)) c →
  (0 < lock_of i c)%nat → thread_step now w b c (mkShared t L) ≠ Pending.
Proof.
  intros Ht Hc Hl. destruct c; cbn in Hl; try lia; destruct Hc as (j & Hj & Hp & Hid & Hix & Hf);
    cbn [thread_step]; unfold unlocked; cbn [table_].
  - unfold complete. destruct (Hf packet (user t)) as (r & u & ->). rewrite bind_ret.
    unfold set_value. cbn. repeat case_match; done.
  - by rewrite Hid, (release_index id_min id_max) by done.
  - by rewrite Hix, (store_error_index id_min id_max) by done.
Qed.

(** ** Calm runs *)

Record conserved s : Prop := mkConserved {
  co_ids : ∀ i, (id_free i (available_transaction_ids_ (tab s)) + id_waiting i (reply_callback_ (tab s)) +
    sum_list_with (id_of id_min i) (threads s) = 1)%nat;
  co_promises : ∀ p, (promise_spent p (promises (tab s)) + promise_waiting p (reply_callback_ (tab s)) +
    sum_list_with (promise_of p) (threads s) = 1)%nat;
  co_names : ∀ p, (one (length (promises (tab s)) ≤ p)%nat + sum_list_with (name_of p) (threads s) ≤ 1)%nat;
  co_slots : slots_ok (tab s) (held s);
  co_unsent : ∀ k c, threads s !! k = Some c → unsent_ok id_min c (tab s);
  co_calm : ∀ k c, threads s !! k = Some c → calm c;
}.

(** A thread moves without starting to reclaim an ID, and only expected
    replies are received. *)
Inductive calm_step s : system U → Prop :=
| calm_step_intro k now wait_over c c' s' :
    threads s !! k = Some c → honest (threads s) c →
    system_step k now wait_over s = Ret s' → threads s' !! k = Some c' → calm c' → calm_step s s'.

Lemma initial_conserved u cs :
  0 ≤ id_min ≤ id_max → Forall begins cs → conserved (initial_system u cs).
Proof.
  intros Hr Hcs.
  assert (Hb : ∀ k c, cs !! k = Some c → begins c) by (intros; by eapply Forall_lookup_1).
  set (n := Z.to_nat (u32 (id_max - id_min))).
  assert (Hno : ∀ k h, replicate n (@None (reply_handler U)) !! k = Some h → h = None)
    by by intros k h [? _]%lookup_replicate.
  constructor; cbn [initial_system threads shared_state table_ reply_callback_mtx_]; unfold initial_tx;
    cbn [available_transaction_ids_ reply_callback_ promises]; fold n.
  - intros i. rewrite sum_zero by (intros k c Hk%Hb; by destruct c).
    unfold id_free, id_waiting. destruct (replicate n true !! i) eqn:E;
      [apply lookup_replicate in E as [-> _]|]; (destruct (replicate n None !! i) eqn:E';
      [apply Hno in E' as ->|]; done).
  - intros p. rewrite sum_zero by (intros k c Hk%Hb; by destruct c).
    unfold promise_waiting. rewrite sum_zero by (by intros k h ->%Hno). done.
  - intros p. rewrite sum_zero by (intros k c Hk%Hb; by destruct c). unfold one. case_decide; lia.
  - constructor; cbn; fold n.
    + intros i. destruct (decide (i < n)%nat).
      * by rewrite !lookup_replicate_2.
      * rewrite !lookup_ge_None_2; [done|rewrite length_replicate; lia..].
    + set_solver.
    + intros i [_ ?]%lookup_replicate. by apply lookup_replicate_2.
  - intros k c Hk%Hb p tid. by destruct c.
  - intros k c Hk%Hb. by destruct c.
Qed.

Lemma own_id s k c : conserved s → threads s !! k = Some c → id_apart id_min c (tab s).
Proof. intros Hs Hk i. pose proof (co_ids s Hs i). pose proof (sum_ge (id_of id_min i) _ _ _ Hk). lia. Qed.

Lemma calm_step_conserved s s' : system_ok s → conserved s → calm_step s s' → conserved s'.
Proof.
  intros Hok Hco [k now w c c' s'' Hk Hh Hs Hk' Hq'].
  destruct (system_step_effect _ _ _ _ _ Hok Hs) as (c1 & c2 & Hk1 & Hcs & He). simplify_eq.
  assert (c2 = c') as ->.
  { rewrite Hcs, list_lookup_insert_eq in Hk' by by eapply lookup_lt_Some. congruence. }
  pose proof Hok as [Ht Hc _]. specialize (Hc k c Hk).
  pose proof Hco as [Hids Hps Hns Hso Hun Hcalm]. pose proof (own_id s k c Hco Hk) as Hap.
  pose proof (Hun k c Hk) as Hu. pose proof (Hcalm k c Hk) as Hq. constructor; rewrite ?Hcs.
  - intros i. erewrite (sum_conserved (id_of id_min i)); [apply (Hids i)|done|by eapply id_step].
  - intros p. erewrite (sum_conserved (promise_of p)); [apply (Hps p)|done|by eapply promise_step].
  - intros p. pose proof (name_step _ _ p _ _ _ _ _ _ He Hq Hq').
    pose proof (sum_insert (name_of p) _ k c' c Hk). specialize (Hns p). lia.
  - eapply slots_step; eauto using own_lock.
  - intros j d [(-> & <- & ?)|[Hne Hj]]%list_lookup_insert_Some; [by eapply unsent_own|].
    eapply unsent_step; eauto. intros p. pose proof (sum_two (name_of p) _ _ _ _ _ Hk Hj Hne).
    specialize (Hns p). lia.
  - intros j d [(-> & <- & ?)|[Hne Hj]]%list_lookup_insert_Some; eauto.
Qed.




(** ** The table of a system at rest *)




Section at_rest.
Context (t : tx U) (L : gset Z).
Context (Ht : table_ok id_min id_max t) (Hs : slots_ok t L).
Context (Hid : ∀ i, (id_free i (available_transaction_ids_ t) + id_waiting i (reply_callback_ t) = 1)%nat).







Context (Hps : ∀ p, (promise_spent p (promises t) + promise_waiting p (reply_callback_ t) = 1)%nat).



End at_rest.


(** ** The theorems *)


(** C11: In every state that any schedule reaches, as long as a thread has not ended
    and does not wait for the network, some thread can move: the mutexes of the
    slots and of the IDs cannot block each other. *)
Theorem no_deadlock u cs s k c :
  0 ≤ id_min ≤ id_max → id_max < 2 ^ 16 → Forall begins cs →
  rtc step_to (initial_system u cs) s → threads s !! k = Some c → unfinished c →
  ∃ j, ∀ now, system_step j now true s ≠ Pending.
Proof.
  intros H1 H2 Hcs Hr Hk Hu. assert (Hok : system_ok s) by (eapply reachable_ok; [by apply initial_system_ok|done]).
  destruct (decide (held s = ∅)) as [HL|HL].
  - exists k. intros now E. pose proof (system_step_cases k now true s Hok) as Hst. rewrite E in Hst.
    specialize (Hst c Hk). destruct c as [| | | | | | | | | | | | | | | |[]| | | | ]; cbn in Hst; try done;
      destruct Hst as [x Hx]; set_solver.
  - apply set_choose_L in HL as [i Hi]. pose proof (sy_locks s Hok i) as Hs.
    unfold lock_free in Hs. rewrite one_false in Hs by (intros Hn; done).
    destruct (sum_pos (lock_of i) (threads s)) as (j & d & Hj & Hd); [lia|]. exists j. intros now.
    unfold system_step. rewrite Hj. cbv zeta.
    match goal with |- context [thread_step now true ?b d _] =>
      pose proof (holder_moves now true b d (tab s) (held s) i (sy_table s Hok) (sy_threads s Hok j d Hj) Hd) as Hm end.
    replace (mkShared (tab s) (held s)) with (shared_state s) in Hm by by destruct s as [? []].
    by destruct (thread_step now true _ d (shared_state s)) as [[]| | |].
Qed.


(** ** Calm runs end *)

(** A bound on the steps a thread has left while no ID is reclaimed: twelve
    for each attempt that is left, four for each reply. *)
Definition steps_left c : nat :=
  match c with
  | Start o => 12 * length (op_sends o) + 12
  | Scan o _ => 12 * length (tail (op_sends o)) + 20
  | Refused o _ _ | Install o _ _ => 12 * length (tail (op_sends o)) + 19
  | Sending o _ _ => 12 * length (tail (op_sends o)) + 18
  | UnsentClear o _ _ _ => 12 * length (op_sends o) + 16
  | UnsentSet o _ _ _ => 12 * length (op_sends o) + 15
  | UnsentRelease o _ _ => 12 * length (op_sends o) + 14
  | Wait o _ _ => 12 * length (op_sends o) + 13
  | Poll packets => 4 * length packets + 1
  | ReplyRun _ _ packets => 4 * length packets + 4
  | ReplyRelease _ packets => 4 * length packets + 3
  | ReplyNull _ packets => 4 * length packets + 2
  | _ => 0
  end.

Lemma effect_decreases c t L c' t' L' :
  effect id_min id_max c t L c' t' L' → calm c → calm c' → (steps_left c' < steps_left c)%nat.
Proof.
  intros He Hq Hq'. destruct He; try done; unfold started_pc; try (destruct (op_waits _)); cbn; try lia.
  destruct (op_sends o); [done|]. cbn. lia.
Qed.

(** C12: A run of the threads in which no ID is reclaimed makes at most twelve steps
    for each attempt of an operation, and a start, and four for each reply and
    one. *)
Theorem calm_runs_end u cs s n :
  0 ≤ id_min ≤ id_max → id_max < 2 ^ 16 → Forall begins cs →
  nsteps calm_step n (initial_system u cs) s → (n ≤ sum_list_with steps_left cs)%nat.
Proof.
  intros H1 H2 Hcs. change cs with (threads (initial_system u cs)) at 2.
  assert (Hok : system_ok (initial_system u cs)) by by apply initial_system_ok.
  assert (Hco : conserved (initial_system u cs)) by by apply initial_conserved.
  clear -Hok Hco. induction 1 as [|n x y z Hs Hr IH]; [lia|].
  pose proof (calm_step_conserved _ _ Hok Hco Hs) as Hco'. destruct Hs as [k now w c c' y Hk Hh Hs Hk' Hq'].
  specialize (IH (step_ok _ _ Hok (step_to_intro _ _ _ _ _ Hs)) Hco').
  destruct (system_step_effect _ _ _ _ _ Hok Hs) as (c1 & c2 & Hk1 & Hcs & He). simplify_eq.
  rewrite Hcs in IH, Hk'. rewrite list_lookup_insert_eq in Hk' by by eapply lookup_lt_Some. simplify_eq.
  pose proof (effect_decreases _ _ _ _ _ _ He (co_calm _ Hco _ _ Hk) Hq').
  pose proof (sum_insert steps_left _ k c' c Hk). lia.
Qed.
End systems.
