(* ===== verification/ThreadsAlone.v ===== *)
(** * A thread that is not interrupted

    The threads of [Concurrency] refine the operations of [Transactions] and
    [Node]: when no other thread moves and no mutex is locked, the sections of
    an operation, one after the other, have the effect of the operation. *)

From S2P Require Import Prelude PacketTypes TcpBackend Framing Transactions Node Concurrency ConcurrencyFacts.
#[local] Open Scope Z_scope.

Section alone.
Context {U : Type}.
Implicit Types (t : tx U) (c : pc U) (o : operation U).

(** From [c] and the table [t], the thread alone gets to [c'] and [t']. *)
Definition alone c t c' t' : Prop :=
  ∃ ticks, run_alone ticks c (mkShared t ∅) = Ret (c', mkShared t' ∅).

Lemma run_alone_app a b c (s : shared U) :
  run_alone (a ++ b) c s = ('(c, s) ← run_alone a c s; run_alone b c s).
Proof.
  revert c s. induction a as [|now a IH]; intros c s; [done|]. cbn.
  destruct (thread_step now false false c s) as [[]| | |]; cbn; by rewrite ?IH.
Qed.

Lemma alone_step now c t c' t' c'' t'' :
  thread_step now false false c (mkShared t ∅) = Ret (c', mkShared t' ∅) →
  alone c' t' c'' t'' → alone c t c'' t''.
Proof. intros Hs [ticks Hr]. exists (now :: ticks). cbn. by rewrite Hs. Qed.

Lemma alone_refl c t : alone c t c t.
Proof. by exists []. Qed.

Lemma alone_trans c t c' t' c'' t'' : alone c t c' t' → alone c' t' c'' t'' → alone c t c'' t''.
Proof. intros [a Ha] [b Hb]. exists (a ++ b). by rewrite run_alone_app, Ha. Qed.

(** Inversion of the sequential operation, section by section. *)
Ltac section :=
  match goal with H : mbind _ _ = Ret _ |- _ =>
    let t := fresh "t" in let E := fresh "E" in apply bind_Ret in H as (t & E & H) end.

(** One step of the thread, whose section is known. *)
Ltac advance E :=
  cbn [thread_step]; unfold unlocked, complete; cbn [table_ reply_callback_mtx_]; rewrite E;
  cbn [mbind outcome_bind].

Lemma clear_section i t t1 t2 :
  store_reply i None t = Ret t1 → store_error i None t1 = Ret t2 → clear_callbacks_of i t = Ret t2.
Proof. intros H1 H2. unfold clear_callbacks_of. by rewrite H1. Qed.

Lemma alone_force o p i t t' :
  forceReleaseTransaction_ i t = Ret t' → alone (Force o p i) t (Scan o p) t'.
Proof.
  intros H. unfold forceReleaseTransaction_ in H. section. section. section.
  pose proof (clear_section _ _ _ _ E0 E1) as Hc.
  eapply (alone_step 0); [cbn; unfold with_lock; cbn; by rewrite E, bind_ret, Hc|].
  destruct t0 as [h|].
  - unfold run_error_handler in H. section. section.
    eapply (alone_step 0); [cbn; unfold unlocked; cbn; by rewrite E2|].
    eapply (alone_step 0); [cbn; unfold unlocked; cbn; by rewrite E3|].
    eapply (alone_step 0); [cbn; unfold unlocked; cbn; by rewrite H|]. apply alone_refl.
  - eapply (alone_step 0); [cbn; unfold unlocked; cbn|apply alone_refl].
    by rewrite H.
Qed.

Lemma alone_available clock o p t r t' :
  getAvailableTransactionID_ clock t = Ret (r, t') →
  alone (Scan o p) t match r with Ok id => Install o p (u16 id) | Unexpected e => Refused o p e end t'.
Proof.
  revert t. induction clock as [|now clock IH]; intros t H; [done|]. cbn in H. section.
  destruct t0 as [i|[i|]].
  - section. section. simplify_eq. eapply (alone_step now); [|apply alone_refl].
    cbn. unfold unlocked, scan_round. cbn. by rewrite E, bind_ret, E0, bind_ret, E1.
  - section. eapply (alone_step now); [cbn; unfold unlocked, scan_round; cbn; by rewrite E|].
    eapply alone_trans; [by apply alone_force|]. by apply IH.
  - simplify_eq. eapply (alone_step now); [|apply alone_refl].
    cbn. unfold unlocked, scan_round. cbn. by rewrite E.
Qed.

Lemma alone_cancel o tid t t' :
  cancelTransaction_ tid t = Ret t' → alone (CancelClear o tid) t (Start o) t'.
Proof.
  intros H. unfold cancelTransaction_ in H. destruct (_ || _) eqn:Er.
  - simplify_eq. eapply (alone_step 0); [cbn; by rewrite Er|apply alone_refl].
  - section. section. pose proof (clear_section _ _ _ _ E E0) as Hc.
    eapply (alone_step 0); [cbn; rewrite Er; unfold with_lock; cbn; by rewrite Hc|].
    eapply (alone_step 0); [cbn; unfold unlocked; cbn; by rewrite H|apply alone_refl].
Qed.

Lemma alone_abandon o p tid e t t' :
  abandon p tid (tid - transaction_id_min_ t) e t = Ret t' →
  alone (UnsentClear o p tid e) t (started_pc o p None) t'.
Proof.
  intros H. unfold abandon in H. section. section. section.
  pose proof (clear_section _ _ _ _ E E0) as Hc.
  eapply (alone_step 0); [cbn; unfold with_lock; cbn; by rewrite Hc|].
  eapply (alone_step 0); [cbn; unfold unlocked; cbn; by rewrite E1|].
  eapply (alone_step 0); [cbn; unfold unlocked; cbn; by rewrite H|apply alone_refl].
Qed.

Lemma alone_reply id_min id_max packet packets t res t' :
  table_ok id_min id_max t → dispatch_reply packet t = Ret (res, t') →
  alone (Poll (packet :: packets)) t
    match res with Ok _ => Poll packets | Unexpected e => Done (Some (Unexpected e)) end t'.
Proof.
  intros Ht H. unfold dispatch_reply in H. destruct (_ || _) eqn:Er.
  - simplify_eq. eapply (alone_step 0); [cbn; by rewrite Er|apply alone_refl].
  - section. destruct (tid_inside _ _ _ _ Ht Er) as (i & Hi & Hid).
    destruct t0 as [h|].
    + section. section. section. simplify_eq. unfold run_reply_handler in E2.
      apply bind_Ret in E2 as ([result u] & Ef & E2).
      apply bind_Ret in E2 as (t3 & Ev & E2). apply bind_Ret in E2 as (t4 & Erel & Enull).
      assert (Hx : rh_tx_index h = transactionID packet - transaction_id_min_ t).
      { rewrite Hid, (index_of_tid id_min id_max) in * by done.
        destruct (rd_index _ _ i Hi _ (ok_reply _ _ _ Ht)) as (x & Hx & Hrd). rewrite Hrd in E. simplify_eq.
        by destruct (ok_replies _ _ _ Ht _ _ Hx) as (_ & _ & ? & _). }
      pose proof (clear_section _ _ _ _ E0 E1) as Hc.
      exists [0; 0; 0; 0]. cbn [run_alone thread_step table_ reply_callback_mtx_].
      rewrite Er, decide_False, E, bind_ret, Hc by set_solver. cbn [mbind outcome_bind].
      advance Ef. rewrite Ev. cbn [mbind outcome_bind]. advance Erel. advance Enull.
      rewrite Hx. do 3 f_equal. set_solver.
    + simplify_eq. eapply (alone_step 0); [|apply alone_refl]. cbn. rewrite Er.
      rewrite decide_False by set_solver. by rewrite E.
Qed.
End alone.

Section start.
Context {B U : Type} `{TcpBackend B}.
Implicit Types (n : node B U) (o : operation U).

Lemma alone_start clock o r l n op n' :
  op_sends o = r :: l →
  start_async clock (λ _ l, Ret (r, l)) (op_on_complete o) n = Ret (op, n') →
  alone (Start o) (txs n) (started_pc (rest o) (future op) (transaction_id op)) (txs n').
Proof.
  intros Ho Hst. unfold start_async, new_promise in Hst.
  apply bind_Ret in Hst as ([res t1] & Ea & Hst).
  eapply (alone_step 0); [cbn; by rewrite Ho|].
  eapply alone_trans; [by apply (alone_available clock o)|]. destruct res as [id|e].
  - apply bind_Ret in Hst as (t2 & Ei & Hst). rewrite bind_ret in Hst.
    eapply (alone_step 0); [cbn; unfold with_lock; cbn; by rewrite Ei|].
    destruct r as [[]|e].
    + simplify_eq. eapply (alone_step 0); [cbn; by rewrite Ho|]. unfold rest. rewrite Ho. apply alone_refl.
    + apply bind_Ret in Hst as (t3 & Eab & Hst). simplify_eq. cbn.
      eapply (alone_step 0); [cbn; by rewrite Ho|]. unfold rest. rewrite Ho. apply alone_abandon.
      replace (transaction_id_min_ t2) with (transaction_id_min_ t1); [done|].
      unfold install_callbacks in Ei. apply bind_Ret in Ei as (t4 & E1 & E2).
      unfold store_error in E1. unfold store_reply in E2.
      apply bind_Ret in E1 as (? & _ & [= <-]). by apply bind_Ret in E2 as (? & _ & [= <-]).
  - apply bind_Ret in Hst as (t2 & Ev & Hst). simplify_eq. cbn.
    eapply (alone_step 0); [cbn; unfold unlocked; cbn; by rewrite Ev|apply alone_refl].
Qed.

(** C20: A thread that is not interrupted has the effect of the sequential operation:
    the sections of startWriteAsyncOperation_ and startReadAsyncOperation_ that
    of start_async, with every ID it reclaims, those of cancelTransaction_ and
    of the reply case of poll that of cancelTransaction_ and dispatch_reply. *)
Theorem threads_alone_refine id_min id_max n :
  table_ok id_min id_max (txs n) →
  (∀ clock o r l op n', op_sends o = r :: l →
     start_async clock (λ _ l, Ret (r, l)) (op_on_complete o) n = Ret (op, n') →
     alone (Start o) (txs n) (started_pc (rest o) (future op) (transaction_id op)) (txs n')) ∧
  (∀ o tid t', cancelTransaction_ tid (txs n) = Ret t' → alone (CancelClear o tid) (txs n) (Start o) t') ∧
  (∀ packet packets res t', dispatch_reply packet (txs n) = Ret (res, t') →
     alone (Poll (packet :: packets)) (txs n)
       match res with Ok _ => Poll packets | Unexpected e => Done (Some (Unexpected e)) end t').
Proof.
  intros Ht. split_and!; [intros; by eapply alone_start|intros; by apply alone_cancel|].
  intros. by eapply alone_reply.
Qed.
End start.
