(* ===== verification/Races.v ===== *)
(** * Interleavings that end the process

    [Interleavings] leaves two ways out: the process ends where a promise gets
    a second value, and where a thread waits for a promise that was destroyed.
    Here are the states from which this happens, for any reachable state, any
    IDs and callbacks and at any time: a thread that reclaims an ID by time-out
    or by cancellation names it by its index, and the ID can have a new owner by
    the time it acts; a reply can come before the send of its command fails.
    And what the mutex of a slot does not protect: its error callback.

    The schedules at the end reach these states on a node with one ID. *)

From S2P Require Import Prelude PacketTypes Transactions Concurrency ConcurrencyFacts ConcurrencyTokens Interleavings.
#[local] Open Scope Z_scope.

Section races.
Context {U : Type} (id_min id_max : Z).
Implicit Types (s : system U) (c : pc U) (t : tx U).
Abbreviation tab s := (table_ (shared_state s)).
Abbreviation held s := (reply_callback_mtx_ (shared_state s)).
Abbreviation system_ok := (system_ok id_min id_max).

(** When the threads [ks] move, in this order, whatever the clock says and
    whether waits are over or not, the result is [r]. *)
Definition always (ks : list nat) s (r : outcome (system U)) : Prop :=
  ∀ schedule, (λ m, m.1.1) <$> schedule = ks → run_schedule schedule s = r.

Lemma always_done s : always [] s (Ret s).
Proof. by intros []. Qed.

Lemma always_step k ks s r c c' sh :
  threads s !! k = Some c → waits_for c = None → (∀ now w, thread_step now w false c (shared_state s) = Ret (c', sh)) →
  always ks (mkSystem (<[k := c']> (threads s)) sh) r → always (k :: ks) s r.
Proof.
  intros Hk Hw Hs Hr [|[[j now] w] schedule]; [done|]. intros [= -> Hm]. cbn [run_schedule]. unfold system_step.
  rewrite Hk. cbv zeta. rewrite Hw, Hs. by apply Hr.
Qed.

Lemma always_abort k s c :
  threads s !! k = Some c → waits_for c = None → (∀ now w, thread_step now w false c (shared_state s) = Abort) →
  always [k] s Abort.
Proof.
  intros Hk Hw Hs [|[[j now] w] schedule]; [done|]. intros [= -> Hm]. cbn [run_schedule]. unfold system_step.
  rewrite Hk. cbv zeta. by rewrite Hw, Hs.
Qed.

(** A thread that waits for a destroyed promise, and for one that has a value. *)
Lemma always_broken k s o p tid :
  threads s !! k = Some (Wait o p tid) → promises (tab s) !! p = Some None → destroyed p s = true →
  always [k] s Abort.
Proof.
  intros Hk Hp Hd [|[[j now] w] schedule]; [done|]. intros [= -> Hm]. cbn [run_schedule]. unfold system_step.
  rewrite Hk. cbn [waits_for]. rewrite Hd. cbn [thread_step]. by rewrite Hp.
Qed.

Lemma always_ready k ks s r o p tid v :
  threads s !! k = Some (Wait o p tid) → promises (tab s) !! p = Some (Some v) →
  always ks (mkSystem (<[k := Done (Some v)]> (threads s)) (shared_state s)) r → always (k :: ks) s r.
Proof.
  intros Hk Hp Hr [|[[j now] w] schedule]; [done|]. intros [= -> Hm]. cbn [run_schedule]. unfold system_step.
  rewrite Hk. cbn [waits_for thread_step]. rewrite Hp. by apply Hr.
Qed.

(** ** The sections *)

Lemma reply_taken b ks s r packet packets i h :
  system_ok s → threads s !! b = Some (Poll (packet :: packets)) → transactionID packet = id_min + Z.of_nat i →
  reply_callback_ (tab s) !! i = Some (Some h) → Z.of_nat i ∉ held s →
  always ks (mkSystem (<[b := ReplyRun h packet packets]> (threads s))
    (mkShared (cleared i (tab s)) ({[Z.of_nat i]} ∪ held s))) r →
  always (b :: ks) s r.
Proof.
  intros [Ht Hc Hl] Hb Hid Hh Hi Hr. assert (Hx : index_ok id_min id_max i).
  { apply lookup_lt_Some in Hh. pose proof (ok_reply _ _ _ Ht). unfold index_ok, zsize in *. lia. }
  eapply always_step; [done|done| |exact Hr]. intros now w. cbn [thread_step].
  rewrite (ok_min _ _ _ Ht), (ok_max _ _ _ Ht), Hid. unfold index_ok in Hx.
  destruct (Z.ltb_spec (id_min + Z.of_nat i) id_min); [lia|].
  destruct (Z.leb_spec id_max (id_min + Z.of_nat i)); [lia|]. cbn [orb].
  replace (id_min + Z.of_nat i - id_min) with (Z.of_nat i) by lia. rewrite decide_False by done.
  rewrite (rd_lookup _ _ (Some h)), bind_ret by (lia || by rewrite Nat2Z.id).
  by rewrite (clear_index id_min id_max), bind_ret.
Qed.

(** The reply to an operation, to its end: the promise has its value. *)
Lemma reply_handled b ks s r packet packets i h :
  system_ok s → threads s !! b = Some (Poll (packet :: packets)) → transactionID packet = id_min + Z.of_nat i →
  reply_callback_ (tab s) !! i = Some (Some h) → Z.of_nat i ∉ held s → promises (tab s) !! rh_promise h = Some None →
  (∀ v t, table_ok id_min id_max t → promises t !! rh_promise h = Some (Some v) →
     always ks (mkSystem (<[b := Poll packets]> (threads s)) (mkShared t (held s))) r) →
  always (b :: b :: b :: b :: ks) s r.
Proof.
  intros Hs Hb Hid Hh Hi Hp Hr. pose proof (sy_table _ _ _ Hs) as Ht. eapply reply_taken; [done..|].
  destruct (ok_replies _ _ _ Ht _ _ Hh) as (_ & Htid & Hix & Hf). destruct (Hf packet (user (cleared i (tab s)))) as (res & u & Ef).
  assert (Hx : index_ok id_min id_max i).
  { apply lookup_lt_Some in Hh. pose proof (ok_reply _ _ _ Ht). unfold index_ok, zsize in *. lia. }
  set (v := match res with Returned _ => Ok tt | _ => Unexpected (generic operation_canceled) end).
  set (t1 := valued (rh_promise h) v (set_user u (cleared i (tab s)))).
  assert (Ht1 : table_ok id_min id_max t1) by by apply table_ok_valued, table_ok_user, table_ok_cleared.
  assert (Hlt : (b < length (threads s))%nat) by by eapply lookup_lt_Some.
  eapply always_step; [by apply list_lookup_insert_eq|done| |].
  { intros now w. cbn [thread_step]. unfold unlocked, complete. cbn [table_ reply_callback_mtx_ shared_state].
    rewrite Ef, bind_ret. unfold set_value. cbn [promises set_user cleared error_set reply_set set_reply_error_callback_ set_reply_callback_].
    rewrite Hp, !bind_ret. reflexivity. }
  cbn [threads]. rewrite list_insert_insert_eq. eapply always_step; [by apply list_lookup_insert_eq|done| |].
  { intros now w. cbn [thread_step]. unfold unlocked. cbn [table_ reply_callback_mtx_ shared_state].
    rewrite Htid, (release_index id_min id_max t1) by done. reflexivity. }
  cbn [threads]. rewrite list_insert_insert_eq. eapply always_step; [by apply list_lookup_insert_eq|done| |].
  { intros now w. cbn [thread_step table_ shared_state]. rewrite Hix, (store_error_index id_min id_max) by (done || by apply table_ok_released).
    reflexivity. }
  cbn [threads shared_state reply_callback_mtx_ rh_tx_index]. rewrite list_insert_insert_eq.
  replace (({[Z.of_nat i]} ∪ held s) ∖ {[Z.of_nat i]}) with (held s) by set_solver.
  apply (Hr v); [by apply table_ok_error_none, table_ok_released|]. cbn.
  apply list_lookup_insert_eq. by eapply lookup_lt_Some.
Qed.

(** The only references to the promise are the callbacks of slot [i]. *)
Definition only_in_slot (p i : nat) s : Prop :=
  (∀ k c, threads s !! k = Some c → holds p c = false) ∧
  (∀ j h, reply_callback_ (tab s) !! j = Some (Some h) → rh_promise h = p → j = i) ∧
  (∀ j h, reply_error_callback_ (tab s) !! j = Some (Some h) → eh_promise h = p → j = i).

Lemma destroyed_cleared p i s cs L t :
  only_in_slot p i s → (∀ k c, cs !! k = Some c → holds p c = false) →
  reply_callback_ t = <[i := None]> (reply_callback_ (tab s)) →
  reply_error_callback_ t = <[i := None]> (reply_error_callback_ (tab s)) →
  destroyed p (mkSystem cs (mkShared t L)) = true.
Proof.
  intros (_ & Hr & He) Hc Er Ee. unfold destroyed. cbn [threads shared_state table_]. rewrite Er, Ee.
  rewrite !andb_true_iff, !forallb_forall. split_and!.
  - intros c [k Hk]%list_elem_of_In%list_elem_of_lookup_1. by rewrite (Hc k c Hk).
  - intros [h|] [k Hk]%list_elem_of_In%list_elem_of_lookup_1; [|done].
    apply list_lookup_insert_Some in Hk as [(_ & ? & _)|[Hne Hk]]; [done|].
    rewrite bool_decide_false; [done|]. intros Hp. by specialize (Hr k h Hk Hp).
  - intros [h|] [k Hk]%list_elem_of_In%list_elem_of_lookup_1; [|done].
    apply list_lookup_insert_Some in Hk as [(_ & ? & _)|[Hne Hk]]; [done|].
    rewrite bool_decide_false; [done|]. intros Hp. by specialize (He k h Hk Hp).
Qed.

(** A thread moves to a place that refers to the promise no more than before. *)
Lemma holds_insert p (cs : list (pc U)) a c c' :
  (∀ k d, cs !! k = Some d → holds p d = false) → cs !! a = Some c → (holds p c = false → holds p c' = false) →
  ∀ k d, <[a := c']> cs !! k = Some d → holds p d = false.
Proof. intros H Ha Hc k d [(-> & <- & _)|[_ Hk]]%list_lookup_insert_Some; [by apply Hc, (H k)|by apply (H k)]. Qed.

(** ** The states *)

Section state.
Context (s : system U) (Hs : system_ok s) (i : nat) (Hi : index_ok id_min id_max i) (Hfree : Z.of_nat i ∉ held s).

Lemma early_reply_ends a b o p e packet packets h :
  threads s !! a = Some (Sending o p (id_min + Z.of_nat i)) → send_fails o = Some e →
  threads s !! b = Some (Poll (packet :: packets)) → transactionID packet = id_min + Z.of_nat i →
  reply_callback_ (tab s) !! i = Some (Some h) → rh_promise h = p → promises (tab s) !! p = Some None →
  always [b; b; b; b; a; a; a] s Abort.
Proof.
  intros Ha He Hb Hid Hh <- Hp. eapply reply_handled; [done..|]. intros v t Ht Hv.
  assert (Hab : b ≠ a) by (intros ->; by rewrite Ha in Hb).
  assert (∃ l, op_sends o = Unexpected e :: l) as [l El].
  { unfold send_fails in He. destruct (op_sends o) as [|[|e'] l]; [done..|]. exists l. by injection He as ->. }
  assert (Ha' : (a < length (<[b := Poll packets]> (threads s)))%nat) by (rewrite length_insert; by eapply lookup_lt_Some).
  eapply always_step; [cbn [threads]; by rewrite list_lookup_insert_ne|done| |].
  { intros now w. cbn [thread_step]. rewrite El. reflexivity. }
  eapply always_step; [by apply list_lookup_insert_eq|done| |].
  { intros now w. cbn [thread_step shared_state table_]. unfold with_lock. cbn [table_ reply_callback_mtx_].
    rewrite (ok_min _ _ _ Ht). replace (id_min + Z.of_nat i - id_min) with (Z.of_nat i) by lia.
    rewrite decide_False by done. rewrite (clear_index id_min id_max), !bind_ret by done. reflexivity. }
  cbn [threads]. rewrite list_insert_insert_eq. eapply always_abort; [by apply list_lookup_insert_eq|done|].
  intros now w. cbn [thread_step shared_state]. unfold unlocked, set_value. cbn. by rewrite Hv.
Qed.

Lemma late_cancel_ends a (c : nat) o o' p tid :
  threads s !! a = Some (CancelClear o (id_min + Z.of_nat i)) → threads s !! c = Some (Wait o' p tid) →
  only_in_slot p i s → promises (tab s) !! p = Some None →
  always [a; c] s Abort.
Proof.
  intros Ha Hc Ho Hp. pose proof (sy_table _ _ _ Hs) as Ht. assert (Hac : a ≠ c) by (intros ->; by rewrite Ha in Hc).
  eapply always_step; [done|done| |].
  { intros now w. cbn [thread_step shared_state table_]. rewrite (ok_min _ _ _ Ht), (ok_max _ _ _ Ht).
    pose proof Hi as Hx. unfold index_ok in Hx. destruct (Z.ltb_spec (id_min + Z.of_nat i) id_min); [lia|].
    destruct (Z.leb_spec id_max (id_min + Z.of_nat i)); [lia|]. cbn [orb].
    replace (id_min + Z.of_nat i - id_min) with (Z.of_nat i) by lia. unfold with_lock.
    rewrite decide_False by done. rewrite (clear_index id_min id_max), !bind_ret by done. reflexivity. }
  eapply always_broken; [cbn [threads]; by rewrite list_lookup_insert_ne|done|].
  eapply destroyed_cleared; [done| |done|done]. eapply holds_insert; [apply Ho|done|done].
Qed.

Lemma late_null_ends a b (c : nat) o p0 h0 o2 q o' p tid :
  threads s !! a = Some (TimeOutNull o p0 h0) → eh_tx_index h0 = Z.of_nat i →
  threads s !! b = Some (Force o2 q (Z.of_nat i)) → threads s !! c = Some (Wait o' p tid) →
  only_in_slot p i s → promises (tab s) !! p = Some None →
  always [a; b; c] s Abort.
Proof.
  intros Ha Hix Hb Hc Ho Hp. pose proof (sy_table _ _ _ Hs) as Ht.
  assert (a ≠ b ∧ a ≠ c ∧ b ≠ c) as (Hab & Hac & Hbc) by (split_and!; intros ->; congruence).
  eapply always_step; [done|done| |].
  { intros now w. cbn [thread_step]. unfold unlocked. rewrite Hix, (store_error_index id_min id_max) by done. reflexivity. }
  assert (Hlt : (i < length (reply_error_callback_ (tab s)))%nat).
  { pose proof (ok_error _ _ _ Ht). unfold index_ok, zsize in *. lia. }
  eapply always_step; [cbn [threads]; by rewrite list_lookup_insert_ne|done| |].
  { intros now w. cbn [thread_step shared_state]. unfold with_lock. cbn [table_ reply_callback_mtx_]. rewrite decide_False by done.
    rewrite (rd_lookup _ _ None), bind_ret; [|lia|by rewrite Nat2Z.id; apply list_lookup_insert_eq].
    rewrite (clear_index id_min id_max), !bind_ret by (done || by apply table_ok_error_none). reflexivity. }
  eapply always_broken; [cbn [threads]; by rewrite !list_lookup_insert_ne|done|].
  eapply destroyed_cleared; [done| |done|by cbn; rewrite list_insert_insert_eq].
  eapply holds_insert; [eapply holds_insert; [apply Ho|done|]|cbn [threads]; by rewrite list_lookup_insert_ne|done].
  cbn. by intros [? _]%orb_false_iff.
Qed.

Lemma forced_twice_ends b (c : nat) o2 q o' p tid h :
  threads s !! b = Some (Force o2 q (Z.of_nat i)) → threads s !! c = Some (Wait o' p tid) →
  reply_error_callback_ (tab s) !! i = Some (Some h) → eh_promise h = p → promises (tab s) !! p = Some None →
  ∃ s', always [b; b; c] s (Ret s') ∧ threads s' !! c = Some (Done (Some (Unexpected (generic timed_out)))).
Proof.
  intros Hb Hc Hh <- Hp. pose proof (sy_table _ _ _ Hs) as Ht. assert (Hbc : b ≠ c) by (intros ->; congruence).
  assert (Hl : (b < length (threads s))%nat) by by eapply lookup_lt_Some.
  eexists. split.
  - eapply always_step; [done|done| |].
    { intros now w. cbn [thread_step]. unfold with_lock. rewrite decide_False by done.
      rewrite (rd_lookup _ _ (Some h)), bind_ret by (lia || by rewrite Nat2Z.id).
      rewrite (clear_index id_min id_max), !bind_ret by done. reflexivity. }
    eapply always_step; [by apply list_lookup_insert_eq|done| |].
    { intros now w. cbn [thread_step]. unfold unlocked, set_value. cbn [shared_state table_ promises cleared error_set reply_set
        set_reply_error_callback_ set_reply_callback_ reply_callback_mtx_]. rewrite Hp, !bind_ret. reflexivity. }
    eapply always_ready; [cbn [threads]; by rewrite !list_lookup_insert_ne| |apply always_done].
    cbn. apply list_lookup_insert_eq. by eapply lookup_lt_Some.
  - cbn [threads]. apply list_lookup_insert_eq. rewrite !length_insert. by eapply lookup_lt_Some.
Qed.

(** A thread that runs the error callback of slot [i]. *)
Definition runs_error_callback c : Prop :=
  match c with
  | TimeOutSet _ _ h | TimeOutRelease _ _ h | TimeOutNull _ _ h => eh_tx_index h = Z.of_nat i
  | _ => False
  end.

Lemma callbacks_overlap a b c packet packets h :
  threads s !! a = Some c → runs_error_callback c →
  threads s !! b = Some (Poll (packet :: packets)) → transactionID packet = id_min + Z.of_nat i →
  reply_callback_ (tab s) !! i = Some (Some h) →
  ∃ s', always [b] s (Ret s') ∧ threads s' !! a = Some c ∧ threads s' !! b = Some (ReplyRun h packet packets) ∧
    rh_tx_index h = Z.of_nat i.
Proof.
  intros Ha Hc Hb Hid Hh. assert (Hab : b ≠ a) by (intros ->; rewrite Ha in Hb; by injection Hb as ->).
  eexists. split; [eapply reply_taken; [done..|apply always_done]|]. cbn [threads]. split_and!.
  - by rewrite list_lookup_insert_ne.
  - apply list_lookup_insert_eq. by eapply lookup_lt_Some.
  - by destruct (ok_replies _ _ _ (sy_table _ _ _ Hs) _ _ Hh) as (_ & _ & ? & _).
Qed.
End state.

(** C31: Races of threads that write, read and receive replies, from every state that
    some schedule reaches in which the threads are at the places named, the
    slot's mutex is free, and whatever the clock and the other threads. A reply
    handled before the failure of its command's send gives the promise a second
    value; a write that cancels after its ID has gone to another operation
    destroys that one's promise; a thread that has reclaimed an expired ID and
    then clears the error callback of the next owner leaves it without one, so
    that the next reclaim destroys its promise: each ends the process by an
    exception in a noexcept function. Of two threads that have found the same ID
    expired, the second ends the operation that has got the ID in between with
    timed_out. And while a thread is in the error callback of a slot, another
    can enter the reply callback of the same slot. *)
Theorem races_end_badly u cs s i :
  0 ≤ id_min ≤ id_max → id_max < 2 ^ 16 → Forall begins cs → rtc step_to (initial_system id_min id_max u cs) s →
  index_ok id_min id_max i → Z.of_nat i ∉ held s →
  let tid := id_min + Z.of_nat i in
  (∀ a b o p e packet packets h,
     threads s !! a = Some (Sending o p tid) → send_fails o = Some e →
     threads s !! b = Some (Poll (packet :: packets)) → transactionID packet = tid →
     reply_callback_ (tab s) !! i = Some (Some h) → rh_promise h = p → promises (tab s) !! p = Some None →
     always [b; b; b; b; a; a; a] s Abort) ∧
  (∀ (a c : nat) o o' p tid',
     threads s !! a = Some (CancelClear o tid) → threads s !! c = Some (Wait o' p tid') →
     only_in_slot p i s → promises (tab s) !! p = Some None →
     always [a; c] s Abort) ∧
  (∀ (a b c : nat) o p0 h0 o2 q o' p tid',
     threads s !! a = Some (TimeOutNull o p0 h0) → eh_tx_index h0 = Z.of_nat i →
     threads s !! b = Some (Force o2 q (Z.of_nat i)) → threads s !! c = Some (Wait o' p tid') →
     only_in_slot p i s → promises (tab s) !! p = Some None →
     always [a; b; c] s Abort) ∧
  (∀ (b c : nat) o2 q o' p tid' h,
     threads s !! b = Some (Force o2 q (Z.of_nat i)) → threads s !! c = Some (Wait o' p tid') →
     reply_error_callback_ (tab s) !! i = Some (Some h) → eh_promise h = p → promises (tab s) !! p = Some None →
     ∃ s', always [b; b; c] s (Ret s') ∧ threads s' !! c = Some (Done (Some (Unexpected (generic timed_out))))) ∧
  (∀ a b c packet packets h,
     threads s !! a = Some c → runs_error_callback i c →
     threads s !! b = Some (Poll (packet :: packets)) → transactionID packet = tid →
     reply_callback_ (tab s) !! i = Some (Some h) →
     ∃ s', always [b] s (Ret s') ∧ threads s' !! a = Some c ∧ threads s' !! b = Some (ReplyRun h packet packets) ∧
       rh_tx_index h = Z.of_nat i).
Proof.
  intros H1 H2 Hcs Hr Hi Hf tid. assert (Hs : system_ok s) by (eapply reachable_ok; [by apply initial_system_ok|done]).
  split_and!; intros.
  - by eapply early_reply_ends.
  - by eapply late_cancel_ends.
  - by eapply late_null_ends.
  - by eapply forced_twice_ends.
  - by eapply callbacks_overlap.
Qed.
End races.

(** ** Schedules that reach these states *)

(** [write]: one attempt whose send ends with [sent]. *)
Definition one_write (sent : expected unit) : pc unit :=
  Start (mkOperation (λ _ u, Ret (Returned tt, u)) [sent] true).

(** [writeAsync]. *)
Definition one_async : pc unit := Start (mkOperation (λ _ u, Ret (Returned tt, u)) [Ok tt] false).

Definition reply_to (tid : Z) : Packet :=
  mkPacket [] [] 0xFE 0 0 0 0x67 tid 0 0 0 [] WriteReply.

(** [moves k n now]: thread [k] makes [n] steps at the time [now]. *)
Definition moves (k n : nat) (now : Z) : list (nat * Z * bool) := replicate n (k, now, false).

Definition one_id (cs : list (pc unit)) : system unit := initial_system 32 33 tt cs.

Lemma one_write_begins sent : begins (one_write sent).
Proof. intros packet u. by exists (Returned tt), u. Qed.

(** A reply comes before the send of the command fails. *)
Definition early_reply : outcome (system unit) :=
  run_schedule (moves 0 3 0 ++ moves 1 4 0 ++ moves 0 3 0)
    (one_id [one_write (Unexpected (generic timed_out)); Poll [reply_to 32]]).

(** The wait of the first [write] is over; before it cancels, the reply
    arrives and the second [write] gets the ID. *)
Definition late_cancel : outcome (system unit) :=
  run_schedule (moves 0 4 0 ++ [(0%nat, 0, true)] ++ moves 1 4 0 ++ moves 2 4 0 ++ moves 0 1 0 ++ moves 2 1 0)
    (one_id [one_write (Ok tt); Poll [reply_to 32]; one_write (Ok tt)]).

(** The operation of thread 0 has expired.  Thread 1 reclaims its ID, thread 2
    gets it and installs its callbacks; then thread 1 clears
    [reply_error_callback_], and so does not find the callback when the second
    operation expires. *)
Definition late_null : outcome (system unit) :=
  run_schedule (moves 0 4 0 ++ moves 1 5 2000000000 ++ moves 2 4 2000000000 ++
                moves 1 3 4000000000 ++ moves 2 1 4000000000)
    (one_id [one_async; one_write (Ok tt); one_write (Ok tt)]).

(** Threads 1 and 2 have both found the ID of thread 0 expired; thread 1
    reclaims it and starts its own operation with it, thread 2 reclaims it
    again. *)
Definition forced_twice : outcome (system unit) :=
  run_schedule (moves 0 4 0 ++ moves 1 2 2000000000 ++ moves 2 2 2000000000 ++
                moves 1 7 2000000000 ++ moves 2 2 2000000000 ++ moves 1 1 2000000000)
    (one_id [one_async; one_write (Ok tt); one_write (Ok tt)]).

(** From the start to the end of the process; and a [write] that ends with
    [timed_out] at the time at which it has begun. *)
Example races_from_the_start :
  early_reply = Abort ∧ late_cancel = Abort ∧ late_null = Abort ∧
  ∃ s, forced_twice = Ret s ∧ threads s !! 1%nat = Some (Done (Some (Unexpected (generic timed_out)))).
Proof. split_and!; [by vm_compute..|]. eexists. by split; [vm_compute|]. Qed.
