(* ===== verification/Serving.v ===== *)
(** * The receive loop of a target node

    [runLoop] on a connection that carries commands one behind the other: each
    is handed to the user's function, with the user's state of the one before,
    and answered, in the order of arrival; and what ends the loop.  The buffer
    policy is [AutoResize], the default. *)

From S2P Require Import Prelude PacketTypes PacketBuilder PacketParser PacketParserFacts PacketTheorems TcpBackend Framing FramingFacts FramingTheorems Transactions Node Exchange.
#[local] Open Scope Z_scope.

(** A command, for a read with the data that the user's function answers. *)
Inductive command :=
| WriteCommand (c : WritePacketConfig.t)
| ReadCommand (c : ReadPacketConfig.t) (data : list Z).

Definition command_packet (k : command) : Packet :=
  match k with WriteCommand c => write_packet c | ReadCommand c _ => read_packet c end.

Definition command_bytes (k : command) : list Z :=
  match k with WriteCommand c => encode_write c | ReadCommand c _ => encode_read c end.

Definition reply_bytes (k : command) : list Z :=
  match k with
  | WriteCommand c => encode_write_reply (write_reply_config (write_packet c))
  | ReadCommand c data => encode_read_reply (read_reply_config (read_packet c) data)
  end.

Definition command_wf (k : command) : Prop :=
  match k with
  | WriteCommand c => write_config_wf c ∧ is_path (WritePacketConfig.replyAddress c) ∧
      WritePacketBuilder.getTotalSize c ≤ INT_MAX
  | ReadCommand c _ => read_config_wf c ∧ is_path (ReadPacketConfig.replyAddress c) ∧
      ReadPacketBuilder.getTotalSize c ≤ INT_MAX
  end.

(** A command on the connection: [segs] in front of its last frame. *)
Record arrival := mkArrival {
  arr_segs : list segment;
  arr_x : Z;
  arr_y : Z;
  arr_last : list Z;
  arr_command : command;
}.

Definition arrival_bytes (a : arrival) : list Z :=
  stream (arr_segs a) ++ frame 0x00 (arr_x a) (arr_y a) (arr_last a).

Definition arrival_wf (alloc_limit : Z) (a : arrival) : Prop :=
  Forall segment_wf (arr_segs a) ∧ arr_last a ≠ [] ∧ zsize (arr_last a) < 2 ^ 64 ∧
  room alloc_limit [] (arr_segs a) (arr_last a) ∧
  fold_left collect (arr_segs a) [] ++ arr_last a = command_bytes (arr_command a) ∧
  command_wf (arr_command a) ∧
  zsize (reply_bytes (arr_command a)) ≤ INT_MAX ∧
  zsize (reply_bytes (arr_command a)) + 12 ≤ alloc_limit.

Lemma room_mono cap cap' segs d : ∀ acc, cap ≤ cap' → room cap acc segs d → room cap' acc segs d.
Proof.
  induction segs as [|s segs IH]; simpl; intros acc Hle Hr; [lia|].
  destruct Hr as [? ?]. split; [lia|by apply IH].
Qed.

Section serving.
Context {B U : Type} `{TcpBackendLaws B} `{NodeVirtuals B U} (alloc_limit : Z).
Context (alloc_range : alloc_limit < 2 ^ 64).
Implicit Types (n : node B U) (b : B).

(** The user's function takes the command [q] from the state [u] to [u']. *)
Definition user_serves n (k : command) (q : Packet) (u u' : U) : Prop :=
  match k with
  | WriteCommand _ =>
      match on_write_callback_ n with
      | Some g => g q u = Ret (Returned tt, u')
      | None => u' = u
      end
  | ReadCommand _ data =>
      match on_read_callback_ n with
      | Some g => g q u = Ret (Returned data, u')
      | None => data = [] ∧ u' = u
      end
  end.

(** Its run over all commands; [p] is the packet object, whose fields that a
    command does not have keep their values. *)
Fixpoint user_serves_all n (p : Packet) (u : U) (ks : list command) (u' : U) : Prop :=
  match ks with
  | [] => u' = u
  | k :: ks =>
      let q := received p (command_packet k) in
      ∃ u1, user_serves n k q u u1 ∧ user_serves_all n q u1 ks u'
  end.

Lemma user_serves_all_ext n n' ks : ∀ p u u',
  on_write_callback_ n' = on_write_callback_ n → on_read_callback_ n' = on_read_callback_ n →
  user_serves_all n p u ks u' → user_serves_all n' p u ks u'.
Proof.
  induction ks as [|k ks IH]; intros p u u' Hw Hr; [done|]. intros (u1 & Hk & Hks).
  exists u1. split; [|by apply IH]. destruct k; unfold user_serves in *; by rewrite ?Hw, ?Hr.
Qed.

Lemma poll_serves a fuel n b tl u' :
  arrival_wf alloc_limit a → tcp_backend_ (lnk n) = Some b → delivering b → accepting b →
  buffer_policy_ (lnk n) = AutoResize → wire_in b = arrival_bytes a ++ tl →
  zsize (arrival_bytes a) < Z.of_nat fuel →
  user_serves n (arr_command a) (received (packet_parser_ (lnk n)) (command_packet (arr_command a)))
    (user (txs n)) u' →
  ∃ n', poll alloc_limit fuel n = Ret (Ok true, n') ∧
    answered n b tl (reply_bytes (arr_command a)) u' n' ∧
    keeps (received (packet_parser_ (lnk n)) (command_packet (arr_command a))) n n'.
Proof.
  intros (Hwf & Hne & Hl & Hroom & Hd & Hk & Hm & Hc) Hb Hdel Hacc Hpol Hin Hf Hu.
  assert (Harr : arriving alloc_limit fuel n b (arr_segs a) (arr_x a) (arr_y a) (arr_last a) tl).
  { unfold arriving, arrival_bytes in *. rewrite zsize_app in Hf.
    split_and!; try done; [by rewrite Hin, <-app_assoc|].
    rewrite Hpol. eapply room_mono; [|exact Hroom]. unfold buffer_cap. lia. }
  assert (Hbuf : zsize (reply_bytes (arr_command a)) + 12 ≤
    buffer_cap alloc_limit (buffer_policy_ (lnk n)) (zsize (send_buf_ (lnk n)))).
  { rewrite Hpol. unfold buffer_cap. lia. }
  destruct (arr_command a) as [c|c data]; destruct Hk as (Hc1 & Hc2 & Hc3).
  - eapply server_writes; try done.
  - eapply server_reads; try done.
Qed.

(** One round per command. *)
Lemma run_loop_serves arrivals fuel n b tl u' :
  running_ n = true → buffer_policy_ (lnk n) = AutoResize → tcp_backend_ (lnk n) = Some b →
  delivering b → accepting b → Forall (arrival_wf alloc_limit) arrivals →
  wire_in b = mjoin (arrival_bytes <$> arrivals) ++ tl →
  zsize (mjoin (arrival_bytes <$> arrivals)) < Z.of_nat fuel →
  user_serves_all n (packet_parser_ (lnk n)) (user (txs n)) (arr_command <$> arrivals) u' →
  ∃ n' b', run_loop alloc_limit (length arrivals + fuel) n = run_loop alloc_limit fuel n' ∧
    running_ n' = true ∧ tcp_backend_ (lnk n') = Some b' ∧ delivering b' ∧ accepting b' ∧
    wire_in b' = tl ∧ user (txs n') = u' ∧
    wire_out b' = wire_out b ++
      mjoin ((λ a, frame 0 0 0 (reply_bytes (arr_command a))) <$> arrivals).
Proof.
  intros Hrun Hpol Hb Hdel Hacc Hwf. revert n b Hrun Hpol Hb Hdel Hacc.
  induction Hwf as [|a arrivals Ha Hwf IH]; intros n b Hrun Hpol Hb Hdel Hacc Hin Hf Hu.
  { exists n, b. rewrite app_nil_r. by split_and!. }
  change (mjoin (arrival_bytes <$> a :: arrivals))
    with (arrival_bytes a ++ mjoin (arrival_bytes <$> arrivals)) in *.
  rewrite <-app_assoc in Hin. rewrite zsize_app in Hf.
  pose proof (zsize_nonneg (arrival_bytes a)).
  pose proof (zsize_nonneg (mjoin (arrival_bytes <$> arrivals))).
  destruct Hu as (u1 & Hu1 & Hu).
  destruct (poll_serves a (length arrivals + fuel) n b (mjoin (arrival_bytes <$> arrivals) ++ tl) u1)
    as (n1 & E & (Eu & b1 & Hb1 & Hi1 & Ho1 & Hd1 & Ha1) & Hp1 & Hpol1 & Hw1 & Hr1 & Hrun1);
    try done; [lia|].
  destruct (IH n1 b1) as (n' & b' & E' & ? & ? & ? & ? & ? & ? & Ho'); try done.
  { by rewrite Hrun1. } { by rewrite Hpol1. } { lia. }
  { rewrite Hp1, Eu. by eapply user_serves_all_ext. }
  exists n', b'. split.
  { cbn [length Nat.add run_loop]. rewrite Hrun, E, bind_ret. exact E'. }
  split_and!; try done. by rewrite Ho', Ho1, <-app_assoc.
Qed.

(** ** What ends the loop *)

(** [n] with another state of its backend. *)
Definition with_backend b n : node B U := set_lnk (set_tcp_backend_ (Some b) (lnk n)) n.

(** Between two packets the connection ends, or fails. *)
Lemma poll_end fuel n b r b' :
  tcp_backend_ (lnk n) = Some b → recvSome 12 b = Ret (r, b') →
  (r = Ok [] ∨ ∃ e, r = Unexpected e) →
  let n' := with_backend b' n in
  poll alloc_limit (S fuel) n =
  match r with
  | Unexpected e => Ret (if isShutdowned n' then Ok false else Unexpected e, n')
  | Ok _ =>
      '(res, n) ← shutdown n';
      Ret (match res with Unexpected e => Unexpected e | Ok _ => Ok false end, n)
  end.
Proof.
  intros Hb Hr Hend n'. unfold poll, recvAndParseOnePacket_. rewrite Hb. cbn [recv_loop].
  unfold recvExact_. rewrite Hb. change (length (replicate 12 0)) with 12%nat.
  cbn [recv_exact_loop]. change (zsize (replicate 12 0)) with 12. change (12 - 0) with 12.
  change (0 =? 12) with false. cbv iota. rewrite Hr, bind_ret.
  destruct Hend as [-> |[e ->]].
  - change (zsize (@nil Z) =? 0) with true. cbn. fold (with_backend b' n). fold n'.
    by destruct (shutdown n') as [[[]]| | |].
  - cbn. fold (with_backend b' n). fold n'. by destruct (isShutdowned n').
Qed.

Lemma run_loop_ends fuel n b r b' :
  running_ n = true → tcp_backend_ (lnk n) = Some b → recvSome 12 b = Ret (r, b') →
  (r = Ok [] ∨ ∃ e, r = Unexpected e) →
  let n' := with_backend b' n in
  run_loop alloc_limit (S (S fuel)) n =
  match r with
  | Unexpected e => Ret (if isShutdowned n' then Ok tt else Unexpected e, n')
  | Ok _ => shutdown n'
  end.
Proof.
  intros Hrun Hb Hr Hend n'. remember (S fuel) as f eqn:Ef. cbn [run_loop]. rewrite Hrun. subst f.
  rewrite (poll_end _ _ _ _ _ Hb Hr Hend). fold n'. destruct Hend as [-> |[e ->]].
  - destruct (shutdown n') as [[[[]|e] n2]| | |]; done.
  - rewrite bind_ret. by destruct (isShutdowned n').
Qed.

(** C7: The receive loop of a target node whose buffers may grow, on a connection
    that carries commands one behind the other, each cut into frames in any way:
    every command is handed to the registered function with the user's state
    behind the one before, exactly one reply frame per command goes out, in the
    order of the commands, and the loop goes on with what follows them. When the
    connection then ends, the loop shuts the node down and returns what the
    shutdown returns; when receiving fails, it returns success if the node has
    been shut down and the error otherwise. Enough rounds are one per command
    and one per byte. *)
Theorem run_loop_serves_in_order arrivals fuel n b tl u' :
  running_ n = true → buffer_policy_ (lnk n) = AutoResize → tcp_backend_ (lnk n) = Some b →
  delivering b → accepting b → Forall (arrival_wf alloc_limit) arrivals →
  wire_in b = mjoin (arrival_bytes <$> arrivals) ++ tl →
  zsize (mjoin (arrival_bytes <$> arrivals)) < Z.of_nat fuel →
  user_serves_all n (packet_parser_ (lnk n)) (user (txs n)) (arr_command <$> arrivals) u' →
  ∃ n' b', run_loop alloc_limit (length arrivals + S (S fuel)) n = run_loop alloc_limit (S (S fuel)) n' ∧
    running_ n' = true ∧ tcp_backend_ (lnk n') = Some b' ∧ delivering b' ∧ accepting b' ∧
    wire_in b' = tl ∧ user (txs n') = u' ∧
    wire_out b' = wire_out b ++
      mjoin ((λ a, frame 0 0 0 (reply_bytes (arr_command a))) <$> arrivals) ∧
    (∀ r b'', recvSome 12 b' = Ret (r, b'') → r = Ok [] ∨ (∃ e, r = Unexpected e) →
       run_loop alloc_limit (length arrivals + S (S fuel)) n =
       match r with
       | Unexpected e => Ret (if isShutdowned (with_backend b'' n') then Ok tt else Unexpected e, with_backend b'' n')
       | Ok _ => shutdown (with_backend b'' n')
       end).
Proof.
  intros Hrun Hpol Hb Hdel Hacc Hwf Hin Hf Hu.
  destruct (run_loop_serves arrivals (S (S fuel)) n b tl u') as (n' & b' & E & Hr' & Hb' & ? & ? & ? & ? & ?);
    try done; [lia|].
  exists n', b'. split_and!; try done. intros r b'' Hr Hend. rewrite E. by apply (run_loop_ends fuel n' b' r b'').
Qed.
End serving.
