(* ===== verification/Sending.v ===== *)
(** * Threads that send (send_buf_mtx_ and shutdown_mtx_ of
    include/spw_rmap/internal/spw_rmap_tcp_node_impl.hh and
    include/spw_rmap/spw_rmap_tcp_node.hh)

    [Framing] sends a packet in one step.  Here sending is what it is for the
    other threads: the test of the backend, the mutex of the send buffer, the
    work in the buffer, one round of [TCPClient::sendAll] after the other, and
    the end of the lock.  [emitTimeCode] sends without the mutex; [shutdown]
    has a mutex of its own and destroys the backend.  A value of [sender] is
    the place that a thread has reached, [run_senders] runs a schedule.  The
    node is a client; a server's [sendAll] has a loop of its own ([TcpServer]). *)

From S2P Require Import Prelude PacketTypes PacketBuilder TcpBackend Posix TcpClient Framing.
#[local] Open Scope Z_scope.

(** ** One thread *)

Inductive request :=
| SendRead (target_node : TargetNodeBase) (transaction_id memory_address data_length : Z)
| SendWrite (target_node : TargetNodeBase) (transaction_id memory_address : Z) (data : list Z)
| SendReadReply (packet : Packet) (data : list Z)
| SendWriteReply (packet : Packet)
| SendTimeCode (timecode : Z)
| CallShutdown.

(** Whether the packet goes through the send buffer, under its mutex. *)
Definition uses_buffer (rq : request) : bool :=
  match rq with SendTimeCode _ | CallShutdown => false | _ => true end.

Section request.
Context {B : Type} `{TcpBackend B} (alloc_limit : Z).

(** The sequential operation. *)
Definition send_request (rq : request) (l : link B) : outcome (expected unit * link B) :=
  match rq with
  | SendRead t tid address len => sendReadPacket_ alloc_limit t tid address len l
  | SendWrite t tid address data => sendWritePacket_ alloc_limit t tid address data l
  | SendReadReply packet data => send_read_reply alloc_limit packet data l
  | SendWriteReply packet => send_write_reply alloc_limit packet l
  | SendTimeCode timecode => emitTimeCode timecode l
  | CallShutdown => Ret (Ok tt, l)
  end.
End request.

(** The link over another backend. *)
Definition rebase {B B'} (b : option B') (l : link B) : link B' :=
  mkLink b (recv_buf_ l) (send_buf_ l) (buffer_policy_ l) (packet_parser_ l)
    (initiator_logical_address_ l) (verify_mode_ l).

(** A backend that records what is given to its [sendAll]. *)
Definition recorder : MockBackend := mkMock "" "" [] [] false.
Definition handed_over (l : link MockBackend) : list Z :=
  match tcp_backend_ l with Some b => mjoin (sent_frames_ b) | None => [] end.

(** The operation up to its call of [sendAll]: it ends with an error, or the
    call is made with these bytes. *)
Definition prepare {B} (alloc_limit : Z) (rq : request) (l : link B)
    : outcome (expected (list Z) * link B) :=
  '(res, m) ← send_request alloc_limit rq (rebase (Some recorder) l);
  Ret (match res with Unexpected e => Unexpected e | Ok _ => Ok (handed_over m) end,
       rebase (tcp_backend_ l) m).

(** ** One round of [sendAll] *)

Inductive progress :=
| Stop (res : expected unit)
| Continue (data : list Z) (retried_zero : bool).

Section senders.
Context {W : Type} `{Posix W} (retries : nat) (alloc_limit : Z).

Definition send_round (fd : Z) (data : list Z) (retried_zero : bool) (w : W)
    : outcome (progress * W) :=
  if zsize data =? 0 then Ret (Stop (Ok tt), w) else
  let '(n, w) := sys_send fd data MSG_NOSIGNAL w in
  if n <? 0 then
    if errno w =? EINTR then Ret (Continue data retried_zero, w)
    else if (errno w =? EAGAIN) || (errno w =? EWOULDBLOCK)
    then Ret (Stop (Unexpected (generic timed_out)), w)
    else Ret (Stop (TCPClient.fail_errno w), w)
  else if n =? 0 then
    if retried_zero then Ret (Stop (Unexpected (generic io_error)), w) else
    '(stop, w) ← TCPClient.poll_writable retries fd w;
    match stop with
    | Some e => Ret (Stop (Unexpected e), w)
    | None => Ret (Continue data true, w)
    end
  else
    data ← subspan_from data n;
    Ret (Continue data retried_zero, w).

(** ** The steps *)

Inductive sender :=
| Enter (rq : request)                             (* the test of [tcp_backend_] *)
| Lock (rq : request)                              (* before [lock_guard lock(send_buf_mtx_)] *)
| Build (rq : request)                             (* the mutex is held *)
| Call (locked : bool) (data : list Z)             (* [tcp_backend_->sendAll(data)] *)
| Push (locked : bool) (data : list Z) (retried_zero : bool)   (* the loop of [sendAll] *)
| Unlock (res : expected unit)
| ShutdownCall
| ShutdownDestroy                                  (* [shutdown_mtx_] is held *)
| Finished (res : expected unit).

Record send_state := mkSendState {
  link_ : link (TCPClient.t W);
  send_buf_mtx_ : bool;
  shutdown_mtx_ : bool;
}.

Definition set_link (l : link (TCPClient.t W)) (s : send_state) : send_state :=
  mkSendState l (send_buf_mtx_ s) (shutdown_mtx_ s).

(** How a thread begins. *)
Definition entry (rq : request) : sender :=
  match rq with
  | SendReadReply _ _ | SendWriteReply _ => Lock rq
  | CallShutdown => ShutdownCall
  | _ => Enter rq
  end.

(** Behind [sendAll], whose result is returned. *)
Definition after_send (locked : bool) (res : expected unit) : sender :=
  if locked then Unlock res else Finished res.

(** A use of the backend that has been destroyed is undefined. *)
Definition sender_step (c : sender) (s : send_state) : outcome (sender * send_state) :=
  let l := link_ s in
  match c with
  | Enter rq =>
      match tcp_backend_ l with
      | None => Ret (Finished (Unexpected (generic not_connected)), s)
      | Some _ =>
          if uses_buffer rq then Ret (Lock rq, s) else
          '(res, l) ← prepare alloc_limit rq l;
          Ret (match res with Ok data => Call false data | Unexpected e => Finished (Unexpected e) end,
               set_link l s)
      end
  | Lock rq => if send_buf_mtx_ s then Pending else Ret (Build rq, mkSendState l true (shutdown_mtx_ s))
  | Build rq =>
      '(res, l) ← prepare alloc_limit rq l;
      Ret (match res with Ok data => Call true data | Unexpected e => Unlock (Unexpected e) end, set_link l s)
  | Call locked data =>
      match tcp_backend_ l with
      | None => UB
      | Some b =>
          if TCPClient.fd_ b <? 0 then Ret (after_send locked (Unexpected (generic not_connected)), s)
          else Ret (Push locked data false, s)
      end
  | Push locked data retried_zero =>
      match tcp_backend_ l with
      | None => UB
      | Some b =>
          '(p, w) ← send_round (TCPClient.fd_ b) data retried_zero (TCPClient.os b);
          Ret (match p with Stop res => after_send locked res | Continue data z => Push locked data z end,
               set_link (set_tcp_backend_ (Some (TCPClient.set_os w b)) l) s)
      end
  | Unlock res => Ret (Finished res, mkSendState l false (shutdown_mtx_ s))
  | ShutdownCall =>
      if shutdown_mtx_ s then Pending else
      match tcp_backend_ l with
      | None => Ret (Finished (Ok tt), s)
      | Some b =>
          '(res, b) ← TCPClient.shutdown b;
          let l := set_tcp_backend_ (Some b) l in
          Ret match res with
              | Unexpected e => (Finished (Unexpected e), set_link l s)
              | Ok _ => (ShutdownDestroy, mkSendState l (send_buf_mtx_ s) true)
              end
      end
  | ShutdownDestroy =>
      match tcp_backend_ l with
      | None => UB
      | Some b =>
          _ ← TCPClient.disconnect retries b;
          Ret (Finished (Ok tt), mkSendState (set_tcp_backend_ None l) (send_buf_mtx_ s) false)
      end
  | Finished _ => Pending
  end.

(** ** The system *)

Record senders := mkSenders {
  senders_ : list sender;
  state_ : send_state;
}.

Definition system_step (k : nat) (s : senders) : outcome senders :=
  match senders_ s !! k with
  | None => Pending
  | Some c =>
      '(c, st) ← sender_step c (state_ s);
      Ret (mkSenders (<[k := c]> (senders_ s)) st)
  end.

(** A schedule names the thread that moves; the results of the system calls
    are those of the system [W]. *)
Fixpoint run_senders (schedule : list nat) (s : senders) : outcome senders :=
  match schedule with
  | [] => Ret s
  | k :: schedule => s ← system_step k s; run_senders schedule s
  end.

Definition start_senders (rqs : list request) (l : link (TCPClient.t W)) : senders :=
  mkSenders (entry <$> rqs) (mkSendState l false false).

(** One thread while the others do not move. *)
Fixpoint run_sender (fuel : nat) (c : sender) (s : send_state) : outcome (sender * send_state) :=
  match fuel with
  | O => Ret (c, s)
  | S fuel =>
      match c with
      | Finished _ => Ret (c, s)
      | _ => '(c, s) ← sender_step c s; run_sender fuel c s
      end
  end.
End senders.
Arguments send_state W : clear implicits.
Arguments senders W : clear implicits.
