(* ===== verification/SendingFacts.v ===== *)
(** * Facts on sending threads

    The steps of [Sending] against the sequential operations: [prepare] is an
    operation up to its call of [sendAll], [send_round] one round of the loop,
    and a thread that is not interrupted has the effect of the operation. *)

From S2P Require Import Prelude PacketTypes PacketBuilder PacketParserFacts PacketTheorems TcpBackend Posix TcpClient TcpClientTheorems Framing FramingFacts FramingTheorems Sending.
#[local] Open Scope Z_scope.

(** ** The work in the buffer does not depend on the backend *)

Section rebase.
Context {B B' : Type} `{TcpBackend B} `{TcpBackend B'} (alloc_limit : Z).
Implicit Types (l : link B).

Lemma ensure_rebase n (b' : option B') l :
  ensure_send_buffer alloc_limit n (rebase b' l) =
  (o ← ensure_send_buffer alloc_limit n l; Ret (option_map (rebase b') o)).
Proof.
  unfold ensure_send_buffer, vector_resize. cbn [send_buf_ buffer_policy_ rebase].
  destruct (_ <? n); [|done]. destruct (buffer_policy_ l); [done|]. by destruct (n <=? alloc_limit).
Qed.

Lemma build_rebase build (b' : option B') l :
  build_into build (rebase b' l) = ('(res, l) ← build_into build l; Ret (res, rebase b' l)).
Proof.
  unfold build_into. cbn [send_buf_ rebase]. destruct (subspan_from _ _); [|done..].
  rewrite !bind_ret. by destruct (build _) as [[res out]| | |].
Qed.
End rebase.

Section prepare.
Context {B : Type} `{TcpBackend B} (alloc_limit : Z).
Implicit Types (l : link B) (b : B).

(** What follows the call of [sendAll]. *)
Definition finish_send (o : outcome (expected (list Z) * link B)) : outcome (expected unit * link B) :=
  '(res, l) ← o;
  match res with
  | Unexpected e => Ret (Unexpected e, l)
  | Ok data =>
      match tcp_backend_ l with
      | None => UB
      | Some b => '(res, b) ← sendAll data b; Ret (res, set_tcp_backend_ (Some b) l)
      end
  end.

(** [o] is [m] up to the call. *)
Definition up_to_call (o : outcome (expected unit * link MockBackend)) (b : option B)
    : outcome (expected (list Z) * link B) :=
  '(res, m) ← o;
  Ret (match res with Unexpected e => Unexpected e | Ok _ => Ok (handed_over m) end, rebase b m).

Lemma send_up_to_call n l b :
  tcp_backend_ l = Some b →
  send_ n l = finish_send (up_to_call (send_ n (rebase (Some recorder) l)) (Some b)).
Proof.
  intros Hb. unfold send_. cbn [send_buf_ rebase]. destruct (wr_seq _ _ _) as [buf| | |]; [|done..].
  rewrite !bind_ret. destruct (subspan buf 0 _) as [fr| | |]; [|done..]. rewrite !bind_ret.
  cbn [set_send_buf_ tcp_backend_ rebase]. rewrite Hb. unfold up_to_call, finish_send, handed_over. cbn.
  rewrite app_nil_r. by destruct (sendAll fr b) as [[res b1]| | |].
Qed.

Lemma rebase_back {B'} (o : option B') l b : tcp_backend_ l = Some b → rebase (Some b) (rebase o l) = l.
Proof. intros Hb. destruct l. cbn in *. by subst. Qed.

Lemma ensure_keeps_backend n l l1 :
  ensure_send_buffer alloc_limit n l = Ret (Some l1) → tcp_backend_ l1 = tcp_backend_ l.
Proof.
  unfold ensure_send_buffer, vector_resize. destruct (_ <? n); [|by intros [= <-]].
  destruct (buffer_policy_ l); [done|]. by destruct (n <=? alloc_limit); [intros [= <-]|].
Qed.

Lemma build_keeps_backend build l res l1 :
  build_into build l = Ret (res, l1) → tcp_backend_ l1 = tcp_backend_ l.
Proof.
  unfold build_into. destruct (subspan_from _ _); [|done..]. rewrite bind_ret.
  destruct (build _) as [[r out]| | |]; [|done..]. by intros [= <- <-].
Qed.

(** A refusal, before anything is handed over. *)
Lemma refused_up_to_call e l b :
  tcp_backend_ l = Some b →
  Ret (Unexpected e, l) =
  finish_send (up_to_call (Ret (Unexpected e, rebase (Some recorder) l)) (Some b)).
Proof. intros Hb. unfold up_to_call, finish_send. by rewrite !bind_ret, (rebase_back _ _ b Hb). Qed.

(** Building and what follows. *)
Lemma build_up_to_call build (k : link B → outcome (expected unit * link B))
    (k' : link MockBackend → outcome (expected unit * link MockBackend)) l b :
  tcp_backend_ l = Some b →
  (∀ l, tcp_backend_ l = Some b → k l = finish_send (up_to_call (k' (rebase (Some recorder) l)) (Some b))) →
  ('(res, l) ← build_into build l; match res with Unexpected e => Ret (Unexpected e, l) | Ok _ => k l end) =
  finish_send (up_to_call
    ('(res, l) ← build_into build (rebase (Some recorder) l);
     match res with Unexpected e => Ret (Unexpected e, l) | Ok _ => k' l end) (Some b)).
Proof.
  intros Hb Hk. rewrite build_rebase. destruct (build_into build l) as [[res l1]| | |] eqn:E; [|done..].
  apply build_keeps_backend in E. rewrite Hb in E. rewrite !bind_ret.
  destruct res; [by apply Hk|by apply refused_up_to_call].
Qed.

(** Room in the buffer and what follows. *)
Lemma ensure_up_to_call n (k : link B → outcome (expected unit * link B))
    (k' : link MockBackend → outcome (expected unit * link MockBackend)) l b :
  tcp_backend_ l = Some b →
  (∀ l, tcp_backend_ l = Some b → k l = finish_send (up_to_call (k' (rebase (Some recorder) l)) (Some b))) →
  (room ← ensure_send_buffer alloc_limit n l;
   match room with None => Ret (Unexpected (generic no_buffer_space), l) | Some l => k l end) =
  finish_send (up_to_call
    (room ← ensure_send_buffer alloc_limit n (rebase (Some recorder) l);
     match room with None => Ret (Unexpected (generic no_buffer_space), rebase (Some recorder) l) | Some l => k' l end)
    (Some b)).
Proof.
  intros Hb Hk. rewrite ensure_rebase. destruct (ensure_send_buffer _ n l) as [[l1|]| | |] eqn:E; [| |done..].
  - apply ensure_keeps_backend in E. rewrite Hb in E. rewrite !bind_ret. by apply Hk.
  - rewrite !bind_ret. by apply refused_up_to_call.
Qed.

(** Every operation is [prepare], then [sendAll]. *)
Lemma send_request_prepare rq l b :
  tcp_backend_ l = Some b → rq ≠ CallShutdown →
  send_request alloc_limit rq l = finish_send (prepare alloc_limit rq l).
Proof.
  intros Hb Hs. unfold prepare. rewrite Hb.
  change (send_request alloc_limit rq l = finish_send (up_to_call (send_request alloc_limit rq (rebase (Some recorder) l)) (Some b))).
  destruct rq; cbn [send_request];
    [unfold sendReadPacket_|unfold sendWritePacket_|unfold send_read_reply, send_reply|
     unfold send_write_reply, send_reply|unfold emitTimeCode|done]; rewrite ?Hb; cbn [tcp_backend_ rebase];
    try (apply ensure_up_to_call; [done|]; intros l1 Hb1; apply build_up_to_call; [done|]; intros l2 Hb2;
         try (apply ensure_up_to_call; [done|]; intros l3 Hb3); by apply send_up_to_call).
  unfold up_to_call, finish_send. cbn. unfold handed_over. cbn. destruct l; cbn in *; subst.
  by destruct (sendAll _ b) as [[res b1]| | |].
Qed.
End prepare.

(** ** One thread alone *)

Section alone.
Context {W : Type} `{Posix W} (retries : nat) (alloc_limit : Z).
Implicit Types (c : sender) (s : send_state W) (l : link (TCPClient.t W)) (b : TCPClient.t W) (w : W).
Abbreviation backend := (tcp_client_backend retries).

(** The loop of [sendAll] is a sequence of rounds. *)
Lemma send_loop_rounds fuel fd d z w :
  TCPClient.send_loop retries (S fuel) fd d z w =
  ('(p, w) ← send_round retries fd d z w;
   match p with Stop res => Ret (res, w) | Continue d z => TCPClient.send_loop retries fuel fd d z w end).
Proof.
  cbn [TCPClient.send_loop]. unfold send_round. destruct (zsize d =? 0); [done|].
  destruct (sys_send fd d MSG_NOSIGNAL w) as [n w1]. destruct (n <? 0).
  - destruct (errno w1 =? EINTR); [done|]. by destruct (_ || _).
  - destruct (n =? 0); [|by destruct (subspan_from d n)]. destruct z; [done|].
    by destruct (TCPClient.poll_writable retries fd w1) as [[[e|] w2]| | |].
Qed.

(** The thread gets from one place to the other while nobody else moves. *)
Definition sender_alone c s c' s' : Prop := ∃ n, run_sender retries alloc_limit n c s = Ret (c', s').

Lemma run_sender_add m n c s c' s' :
  run_sender retries alloc_limit m c s = Ret (c', s') →
  run_sender retries alloc_limit (m + n) c s = run_sender retries alloc_limit n c' s'.
Proof.
  revert c s. induction m as [|m IH]; intros c s; [by intros [= -> ->]|]. cbn [Nat.add run_sender].
  destruct c; try (by intros [= <- <-]; destruct n);
    (destruct (sender_step _ _ _ _) as [[c1 s1]| | |]; [rewrite !bind_ret; apply IH|done..]).
Qed.

#[local] Instance sender_alone_refl : ∀ c, Reflexive (λ s s', sender_alone c s c s').
Proof. intros c s. by exists O. Qed.

Lemma sender_alone_trans c1 s1 c2 s2 c3 s3 : sender_alone c1 s1 c2 s2 → sender_alone c2 s2 c3 s3 → sender_alone c1 s1 c3 s3.
Proof. intros [m Hm] [n Hn]. exists (m + n)%nat. by rewrite (run_sender_add _ _ _ _ _ _ Hm). Qed.

Lemma sender_alone_step c s c1 s1 c' s' :
  sender_step retries alloc_limit c s = Ret (c1, s1) → sender_alone c1 s1 c' s' → sender_alone c s c' s'.
Proof.
  intros E [n Hn]. destruct c; try done; exists (S n); cbn [run_sender]; by rewrite E, bind_ret.
Qed.

(** The state with another backend. *)
Definition with_os b w s : send_state W :=
  set_link (set_tcp_backend_ (Some (TCPClient.set_os w b)) (link_ s)) s.

Lemma push_alone locked fuel d z b res w' s :
  tcp_backend_ (link_ s) = Some b →
  TCPClient.send_loop retries fuel (TCPClient.fd_ b) d z (TCPClient.os b) = Ret (res, w') →
  sender_alone (Push locked d z) s (after_send locked res) (with_os b w' s).
Proof.
  revert d z b s. induction fuel as [|fuel IH]; intros d z b s Hb; [done|]. rewrite send_loop_rounds.
  destruct (send_round retries _ d z _) as [[p w1]| | |] eqn:E; [|done..]. rewrite bind_ret. intros Hl.
  eapply sender_alone_step; [cbn [sender_step]; rewrite Hb, E; done|]. destruct p as [r|d1 z1].
  - injection Hl as -> ->. by exists O.
  - replace (with_os b w' s) with (with_os (TCPClient.set_os w1 b) w' (with_os b w1 s)) by (by destruct s, b).
    apply IH; [done|exact Hl].
Qed.

(** From the call of [sendAll] to its return. *)
Lemma send_alone locked d b res b' s :
  tcp_backend_ (link_ s) = Some b → @sendAll _ backend d b = Ret (res, b') →
  sender_alone (Call locked d) s (after_send locked res) (set_link (set_tcp_backend_ (Some b') (link_ s)) s).
Proof.
  intros Hb. cbn [sendAll tcp_client_backend]. unfold TCPClient.sendAll.
  destruct (TCPClient.fd_ b <? 0) eqn:Ef.
  - intros [= <- <-]. eapply sender_alone_step; [cbn [sender_step]; rewrite Hb, Ef; done|]. exists O. cbn.
    do 2 f_equal. destruct s as [[] ??]; cbn in *; by subst.
  - destruct (TCPClient.send_loop _ _ _ _ _ _) as [[r w]| | |] eqn:El; [|done..]. intros [= <- <-].
    eapply sender_alone_step; [cbn [sender_step]; rewrite Hb, Ef; done|]. by eapply push_alone.
Qed.
End alone.
