(* ===== verification/SendingTheorems.v ===== *)
(** * Threads that send at the same time

    For every schedule of threads that send commands and replies, the bytes on
    the connection are their whole frames, one behind the other in the order
    in which the threads got the mutex, and every schedule ends; a target
    receives exactly these packets.  A thread that is not interrupted has the
    effect of the sequential operation.  What is not under the mutex breaks
    this: [emitTimeCode], [shutdown], and a send that fails half-way. *)

From S2P Require Import Prelude PacketTypes PacketBuilder PacketParserFacts PacketTheorems TcpBackend Posix TcpClient TcpClientTheorems Framing FramingFacts FramingTheorems Transactions Node TcpNode Exchange Serving Sending SendingFacts.
#[local] Open Scope Z_scope.

(** ** One thread *)

Section alone.
Context {W U : Type} `{Posix W} (retries : nat) (alloc_limit : Z).
Abbreviation backend := (tcp_client_backend retries).

Lemma prepare_backend {B} rq (l : link B) r l1 :
  prepare alloc_limit rq l = Ret (r, l1) → tcp_backend_ l1 = tcp_backend_ l.
Proof. unfold prepare. by destruct (send_request _ _ _) as [[? m]| | |]; [intros [= <- <-]|..]. Qed.

(** What [prepare] has left to do, by a thread with or without the mutex. *)
Definition prepared (locked : bool) (r : expected (list Z)) : sender :=
  match r with Ok data => Call locked data | Unexpected e => after_send locked (Unexpected e) end.

Lemma prepared_alone locked r (l l' : link (TCPClient.t W)) res m :
  @finish_send _ backend (Ret (r, l)) = Ret (res, l') →
  sender_alone retries alloc_limit (prepared locked r) (mkSendState l m false) (after_send locked res) (mkSendState l' m false).
Proof.
  unfold finish_send. rewrite bind_ret. destruct r as [data|e]; [|intros [= <- <-]; by exists O].
  destruct (tcp_backend_ l) as [b|] eqn:Hb; [|done].
  destruct (sendAll data b) as [[r1 b1]| | |] eqn:E; [|done..]. intros [= <- <-].
  by eapply (send_alone _ _ locked _ _ _ _ (mkSendState l m false)).
Qed.

Lemma lock_alone rq r (l l1 l' : link (TCPClient.t W)) res :
  prepare alloc_limit rq l = Ret (r, l1) → @finish_send _ backend (Ret (r, l1)) = Ret (res, l') →
  sender_alone retries alloc_limit (Lock rq) (mkSendState l false false) (Finished res) (mkSendState l' false false).
Proof.
  intros Ep Ef. eapply sender_alone_step; [done|]. eapply sender_alone_step; [cbn; rewrite Ep; done|].
  eapply sender_alone_trans; [by eapply (prepared_alone true)|]. eapply sender_alone_step; [done|]. by exists O.
Qed.

(** C19: A sending thread that is not interrupted has the effect of the sequential
    operation: its steps that of sendReadPacket_, sendWritePacket_, the replies
    of poll or emitTimeCode over the TCP client, with the same result and the
    same link; those of shutdown that of SpwRmapTCPClient::shutdown. *)
Theorem senders_alone_refine :
  (∀ rq (l l' : link (TCPClient.t W)) b res,
     tcp_backend_ l = Some b → rq ≠ CallShutdown →
     @send_request _ backend alloc_limit rq l = Ret (res, l') →
     sender_alone retries alloc_limit (entry rq) (mkSendState l false false) (Finished res) (mkSendState l' false false)) ∧
  (∀ (n n' : SpwRmapTCPClient.t W U) res,
     SpwRmapTCPClient.shutdown retries n = Ret (res, n') →
     sender_alone retries alloc_limit (entry CallShutdown) (mkSendState (lnk n) false false) (Finished res) (mkSendState (lnk n') false false)).
Proof.
  split.
  - intros rq l l' b res Hb Hne. rewrite (send_request_prepare _ _ _ _ Hb Hne).
    destruct (prepare alloc_limit rq l) as [[r l1]| | |] eqn:Ep; [|done..]. intros Ef.
    destruct rq; try done; cbn [entry];
      try (eapply sender_alone_step; [cbn [sender_step link_ uses_buffer]; rewrite Hb; try rewrite Ep; done|]);
      try by eapply lock_alone.
    by apply (prepared_alone false).
  - intros n n' res. unfold SpwRmapTCPClient.shutdown, SpwRmapTCPClient.shutdown_os, getBackend_.
    destruct (tcp_backend_ (lnk n)) as [b|] eqn:Hb; last first.
    { intros [= <- <-]. eapply sender_alone_step; [cbn; rewrite Hb; done|]. by exists O. }
    destruct (TCPClient.shutdown b) as [[r b1]| | |] eqn:Es; [|done..]. rewrite !bind_ret.
    destruct r as [[]|e].
    + destruct (TCPClient.disconnect retries b1) as [b2| | |] eqn:Ed; [|done..]. intros [= <- <-].
      eapply sender_alone_step; [cbn; rewrite Hb, Es; done|]. eapply sender_alone_step; [cbn; rewrite Ed; done|]. by exists O.
    + intros [= <- <-]. eapply sender_alone_step; [cbn; rewrite Hb, Es; done|]. by exists O.
Qed.
End alone.

(** ** The packets *)

Section packets.
Context {B : Type} (alloc_limit : Z).
Implicit Types (l : link B).

Definition packet_of l (rq : request) : list Z :=
  match rq with
  | SendRead t tid address len => encode_read (read_config t tid address len l)
  | SendWrite t tid address data => encode_write (write_config t tid address data l)
  | SendReadReply packet data => encode_read_reply (read_reply_config packet data)
  | SendWriteReply packet => encode_write_reply (write_reply_config packet)
  | _ => []
  end.

(** A command or a reply that the send buffer has room for, or may grow to. *)
Definition fits l (rq : request) : Prop :=
  let cap := buffer_cap alloc_limit (buffer_policy_ l) (zsize (send_buf_ l)) in
  match rq with
  | SendRead t _ _ _ =>
      zsize (getReplyAddress t) ≤ 12 ∧ read_size t ≤ INT_MAX ∧ read_size t + 12 ≤ zsize (send_buf_ l)
  | SendWrite t _ _ data =>
      zsize (getReplyAddress t) ≤ 12 ∧ write_size t data ≤ INT_MAX ∧ write_size t data + 12 ≤ cap
  | SendReadReply packet data =>
      ReadReplyPacketBuilder.getTotalSize (read_reply_config packet data) ≤ INT_MAX ∧
      ReadReplyPacketBuilder.getTotalSize (read_reply_config packet data) + 12 ≤ cap
  | SendWriteReply packet =>
      WriteReplyPacketBuilder.getTotalSize (write_reply_config packet) ≤ INT_MAX ∧
      WriteReplyPacketBuilder.getTotalSize (write_reply_config packet) + 12 ≤ cap
  | _ => False
  end.

Definition frame_of l rq : list Z := frame 0 0 0 (packet_of l rq).

Lemma request_sent rq l :
  fits l rq →
  ∃ m, send_request alloc_limit rq (rebase (Some recorder) l) = Ret (Ok tt, m) ∧
    sent_frame (packet_of l rq) recorder (rebase (Some recorder) l) m.
Proof.
  destruct rq; cbn [fits send_request packet_of]; [| | | |done..].
  - intros (? & ? & ?). by apply (sendReadPacket_sent alloc_limit _ _ _ _ (rebase (Some recorder) l)).
  - intros (? & ? & ?). by apply (sendWritePacket_sent alloc_limit _ _ _ _ (rebase (Some recorder) l)).
  - intros (? & ?). apply send_reply_sent; try done; [by apply builds_read_reply|by rewrite zsize_encode_read_reply|].
    unfold INT_MAX in *. lia.
  - intros (? & ?). apply send_reply_sent; try done; [by apply builds_write_reply|by rewrite zsize_encode_write_reply|].
    unfold INT_MAX in *. lia.
Qed.

Lemma prepare_fits rq l :
  fits l rq →
  ∃ l1, prepare alloc_limit rq l = Ret (Ok (frame_of l rq), l1) ∧
    l1 = set_send_buf_ (send_buf_ l1) l ∧ zsize (send_buf_ l) ≤ zsize (send_buf_ l1).
Proof.
  intros (m & E & b & Hb & Ho & _ & _ & _ & Hz & Em)%request_sent. unfold prepare. rewrite E, bind_ret.
  exists (rebase (tcp_backend_ l) m). split_and!; [|by rewrite Em; destruct l|done].
  unfold handed_over. rewrite Hb. cbn in Ho. by rewrite Ho.
Qed.

(** Growing the send buffer leaves packets and room as they are. *)
Lemma fits_grown rq l buf : zsize (send_buf_ l) ≤ zsize buf → fits l rq → fits (set_send_buf_ buf l) rq.
Proof.
  intros Hz. assert (Hc : buffer_cap alloc_limit (buffer_policy_ l) (zsize (send_buf_ l)) ≤
    buffer_cap alloc_limit (buffer_policy_ l) (zsize buf)) by (unfold buffer_cap; destruct (buffer_policy_ l); lia).
  destruct rq; cbn [fits send_buf_ buffer_policy_ set_send_buf_]; intros; try done; destruct_and!; split_and!; (done || lia).
Qed.
End packets.

(** ** All threads *)

Section senders.
Context {W : Type} {KP : Posix W} {KV : PosixView W} {KL : PosixLaws W} (retries : nat) (alloc_limit : Z).
Context (rqs : list request) (l0 : link (TCPClient.t W)) (fd : Z) (out : list Z).
Hypothesis fd_open : 0 ≤ fd.
Hypothesis all_fit : Forall (fits alloc_limit l0) rqs.
Implicit Types (s : send_state W) (c : sender) (w : W) (order : list nat) (holder : option nat) (sent : list Z).
Abbreviation sender_step := (sender_step retries alloc_limit).
Abbreviation frame_of := (frame_of l0).

(** A round on a connection that takes bytes. *)
Lemma send_round_writable d z w :
  writable w fd → d ≠ [] →
  ∃ k w', send_round retries fd d z w = Ret (Continue (drop k d) z, w') ∧ (k ≤ length d)%nat ∧
    writable w' fd ∧ outbound w' fd = outbound w fd ++ take k d ∧ (interrupts w' ≤ interrupts w)%nat ∧
    (0 < k ∨ interrupts w' < interrupts w)%nat.
Proof.
  intros Hw Hne. unfold send_round. destruct (Z.eqb_spec (zsize d) 0) as [Hz%zsize_zero|Hz]; [done|].
  destruct (sys_send fd d MSG_NOSIGNAL w) as [n w1] eqn:E. pose proof E as (Hn & _ & Ho)%send_stream.
  pose proof E as (_ & Hle & Hlt)%send_fds. apply send_writable in E as (Hr & Hw1 & _); [|done..].
  unfold interrupted in *. destruct (Z.ltb_spec n 0).
  - destruct Hr as [?|Hr]; [lia|]. cbn in Hr. rewrite Hr in *. specialize (Hlt eq_refl).
    exists 0%nat, w1. replace (Z.to_nat n) with 0%nat in Ho by lia. split_and!; (done || lia || by right).
  - destruct Hr as [Hr|]; [|done]. destruct (Z.eqb_spec n 0); [lia|]. unfold subspan_from.
    rewrite decide_True by lia. rewrite bind_ret. exists (Z.to_nat n), w1. unfold zsize in Hn.
    split_and!; try done; lia.
Qed.

(** The thread that has the mutex; [sent] is what it has sent of its frame, and
    [order] the threads whose frames have gone out. *)
Inductive holding order sent (k : nat) (rq : request) : sender → Prop :=
| HoldBuild : k ∉ order → sent = [] → holding order sent k rq (Build rq)
| HoldCall : k ∉ order → sent = [] → holding order sent k rq (Call true (frame_of rq))
| HoldPush d z : k ∉ order → frame_of rq = sent ++ d → holding order sent k rq (Push true d z)
| HoldUnlock : k ∈ order → sent = [] → holding order sent k rq (Unlock (Ok tt)).

(** A thread that has not. *)
Inductive resting order (k : nat) (rq : request) : sender → Prop :=
| RestEnter : k ∉ order → resting order k rq (Enter rq)
| RestLock : k ∉ order → resting order k rq (Lock rq)
| RestFinished : k ∈ order → resting order k rq (Finished (Ok tt)).

Definition placed order holder sent (k : nat) (rq : request) c : Prop :=
  if decide (holder = Some k) then holding order sent k rq c else resting order k rq c.

(** The frames of the threads in [order]. *)
Definition frames order : list Z :=
  mjoin ((λ k, match rqs !! k with Some rq => frame_of rq | None => [] end) <$> order).

Record on_line order sent (n : nat) (l : link (TCPClient.t W)) : Prop := {
  ol_link : l = set_tcp_backend_ (tcp_backend_ l) (set_send_buf_ (send_buf_ l) l0);
  ol_size : zsize (send_buf_ l0) ≤ zsize (send_buf_ l);
  ol_backend : ∃ b, tcp_backend_ l = Some b ∧ TCPClient.fd_ b = fd ∧ writable (TCPClient.os b) fd ∧
    outbound (TCPClient.os b) fd = out ++ frames order ++ sent ∧ (interrupts (TCPClient.os b) = n)%nat;
}.

Record consistent (S : senders W) order holder sent (n : nat) : Prop := {
  co_length : length (senders_ S) = length rqs;
  co_threads k rq c : rqs !! k = Some rq → senders_ S !! k = Some c → placed order holder sent k rq c;
  co_mutex : send_buf_mtx_ (state_ S) = bool_decide (is_Some holder);
  co_holder k : holder = Some k → (k < length rqs)%nat;
  co_idle : holder = None → sent = [];
  co_order : NoDup order ∧ ∀ k, k ∈ order → (k < length rqs)%nat;
  co_line : on_line order sent n (link_ (state_ S));
}.

(** What a thread has still to do. *)
Definition weight c : nat :=
  match c with
  | Enter rq => length (frame_of rq) + 6
  | Lock rq => length (frame_of rq) + 5
  | Build rq => length (frame_of rq) + 4
  | Call _ d => length d + 3
  | Push _ d _ => length d + 2
  | Unlock _ => 1
  | _ => 0
  end.

Lemma frames_snoc order k rq : rqs !! k = Some rq → frames (order ++ [k]) = frames order ++ frame_of rq.
Proof. intros Hk. unfold frames. rewrite fmap_app, join_app. cbn. by rewrite Hk, app_nil_r. Qed.

Lemma same_frames l rq :
  l = set_tcp_backend_ (tcp_backend_ l) (set_send_buf_ (send_buf_ l) l0) → SendingTheorems.frame_of l rq = frame_of rq.
Proof. intros ->. by destruct rq. Qed.

Lemma fits_on_line order sent n l rq : on_line order sent n l → fits alloc_limit l0 rq → fits alloc_limit l rq.
Proof.
  intros [El Hz _] Hf. apply (fits_grown _ _ _ (send_buf_ l)) in Hf; [|done]. rewrite El. by destruct rq.
Qed.

(** The frame of thread [k] may have been completed. *)
Definition appended order (k : nat) order' : Prop := order' = order ∨ ((k ∉ order) ∧ order' = order ++ [k]).

(** The next place of the thread that has the mutex: it keeps it, or is done. *)
Definition holder_moved order (k : nat) (rq : request) s order' sent' c' s' : Prop :=
  appended order k order' ∧
  ((holding order' sent' k rq c' ∧ send_buf_mtx_ s' = send_buf_mtx_ s) ∨
   (k ∈ order' ∧ sent' = [] ∧ c' = Finished (Ok tt) ∧ send_buf_mtx_ s' = false)).

Lemma holder_step order sent n k rq c s :
  rqs !! k = Some rq → holding order sent k rq c → on_line order sent n (link_ s) →
  ∃ c' s' order' sent' n', sender_step c s = Ret (c', s') ∧ on_line order' sent' n' (link_ s') ∧
    (weight c' + n' < weight c + n)%nat ∧ holder_moved order k rq s order' sent' c' s'.
Proof.
  intros Hk Hh Hl. pose proof Hl as [El Hz (b & Hb & Hfd & Hw & Ho & Hi)].
  destruct Hh as [Hni ->|Hni ->|d z Hni Hd|Hin ->].
  - destruct (prepare_fits alloc_limit rq (link_ s)) as (l1 & E & E1 & Hz1).
    { eapply fits_on_line; [done|]. rewrite Forall_forall in all_fit. apply all_fit. by eapply list_elem_of_lookup_2. }
    rewrite same_frames in E by done. exists (Call true (frame_of rq)), (set_link l1 s), order, [], n.
    split; [cbn [Sending.sender_step]; by rewrite E|]. split.
    { split; cbn [link_ set_link]; [rewrite E1; cbn; by rewrite El|lia|].
      exists b. split; [by rewrite E1|by split_and!]. }
    split; [cbn [weight]; lia|]. split; [by left|]. left. split; [by constructor|done].
  - exists (Push true (frame_of rq) false), s, order, [], n. split.
    { cbn [Sending.sender_step]. rewrite Hb, Hfd. by destruct (Z.ltb_spec fd 0); [lia|]. }
    split; [done|]. split; [cbn [weight]; lia|]. split; [by left|]. left. split; [by constructor|done].
  - destruct (decide (d = [])) as [->|Hne].
    + rewrite app_nil_r in Hd. exists (Unlock (Ok tt)), (with_os b (TCPClient.os b) s), (order ++ [k]), [], n.
      split; [cbn [Sending.sender_step]; rewrite Hb; done|]. split.
      { split; cbn; [by rewrite El|done|]. eexists. split; [done|]. cbn. split_and!; try done.
        by rewrite (frames_snoc _ _ rq), app_nil_r, Hd, Ho. }
      split; [cbn; lia|]. split; [by right|]. left. split; [|done]. constructor; [apply elem_of_app; right; by left|done].
    + destruct (send_round_writable d z (TCPClient.os b) Hw Hne) as (j & w' & E & Hj & Hw' & Ho' & Hle & Hlt).
      exists (Push true (drop j d) z), (with_os b w' s), order, (sent ++ take j d), (interrupts w').
      split; [cbn [Sending.sender_step]; by rewrite Hb, Hfd, E|]. split.
      { split; cbn; [by rewrite El|done|]. eexists. split; [done|]. cbn. split_and!; try done.
        by rewrite Ho', Ho, <-!app_assoc. }
      split; [cbn [weight]; rewrite length_drop; lia|]. split; [by left|]. left. split; [|done].
      constructor; [done|]. by rewrite <-app_assoc, take_drop.
  - exists (Finished (Ok tt)), (mkSendState (link_ s) false (shutdown_mtx_ s)), order, [], n.
    split; [done|]. split; [done|]. split; [cbn; lia|]. split; [by left|]. by right.
Qed.

Lemma resting_other order order' k j rq c :
  appended order k order' → j ≠ k → resting order j rq c → resting order' j rq c.
Proof. intros [->|[_ ->]] Hj Hr; [done|]. destruct Hr; constructor; rewrite elem_of_app, list_elem_of_singleton; tauto. Qed.

Lemma order_kept order order' k :
  appended order k order' → (k < length rqs)%nat →
  NoDup order ∧ (∀ j, j ∈ order → (j < length rqs)%nat) → NoDup order' ∧ ∀ j, j ∈ order' → (j < length rqs)%nat.
Proof.
  intros [->|[Hn ->]] Hk [Hd Ho]; [done|]. split.
  - apply NoDup_app. split; [done|]. split; [|apply NoDup_singleton].
    by intros j Hj ->%list_elem_of_singleton.
  - intros j [?|?%list_elem_of_singleton]%elem_of_app; [by apply Ho|by subst].
Qed.

(** A thread has moved from [c]; the system is as [order], [holder], [sent]
    say. *)
Definition moved (S S' : senders W) (n : nat) order holder sent (n' : nat) : Prop :=
  consistent S' order holder sent n' ∧
  (sum_list_with weight (senders_ S') + n' < sum_list_with weight (senders_ S) + n)%nat.

Lemma move_thread (S : senders W) n k c c' s' order holder sent n' :
  senders_ S !! k = Some c → length (senders_ S) = length rqs →
  (weight c' + n' < weight c + n)%nat →
  (∀ j rq d, rqs !! j = Some rq → <[k := c']> (senders_ S) !! j = Some d → placed order holder sent j rq d) →
  send_buf_mtx_ s' = bool_decide (is_Some holder) → (∀ k, holder = Some k → (k < length rqs)%nat) →
  (holder = None → sent = []) → (NoDup order ∧ ∀ k, k ∈ order → (k < length rqs)%nat) →
  on_line order sent n' (link_ s') →
  moved S (mkSenders (<[k := c']> (senders_ S)) s') n order holder sent n'.
Proof.
  intros Hk Hlen Hw Hp Hm Hh Hi Ho Hl. split.
  - split; cbn [senders_ state_]; try done. by rewrite length_insert.
  - cbn [senders_]. pose proof (sum_insert weight (senders_ S) k c' c Hk). lia.
Qed.

(** Who has the mutex when the thread that had it has got to [c]. *)
Definition holder_after (k : nat) c : option nat := match c with Finished _ => None | _ => Some k end.

Lemma holding_after order sent k rq c : holding order sent k rq c → holder_after k c = Some k.
Proof. by destruct 1. Qed.

Lemma sender_moves S order k sent n rq c :
  consistent S order (Some k) sent n → rqs !! k = Some rq → senders_ S !! k = Some c →
  ∃ S' order' holder' sent' n', system_step retries alloc_limit k S = Ret S' ∧ moved S S' n order' holder' sent' n'.
Proof.
  intros [Hlen Ht Hm Hh _ Ho Hl] Hrq Hc. pose proof (Ht _ _ _ Hrq Hc) as Hp. unfold placed in Hp.
  rewrite decide_True in Hp by done. specialize (Hh k eq_refl).
  destruct (holder_step _ _ _ _ _ _ _ Hrq Hp Hl) as (c' & s' & order' & sent' & n' & E & Hl' & Hw & Hord & Hnext).
  pose proof (order_kept _ _ _ Hord Hh Ho) as Ho'.
  eexists _, order', (holder_after k c'), sent', n'.
  split; [unfold system_step; by rewrite Hc, E|]. apply (move_thread _ _ _ c); try done.
  - intros j rq' d Hrq' [(<- & <- & _)|[Hne Hd]]%list_lookup_insert_Some.
    + rewrite Hrq in Hrq'. injection Hrq' as <-. unfold placed. destruct Hnext as [[Hhold _]|(Hin & -> & -> & _)].
      * by rewrite (holding_after _ _ _ _ _ Hhold), decide_True.
      * rewrite decide_False by done. by constructor.
    + specialize (Ht _ _ _ Hrq' Hd). unfold placed in *. rewrite decide_False in Ht by congruence.
      rewrite decide_False by (unfold holder_after; destruct c'; congruence). by eapply resting_other.
  - destruct Hnext as [[Hhold ->]|(_ & _ & -> & ->)]; [|done]. by rewrite (holding_after _ _ _ _ _ Hhold), Hm.
  - intros j. unfold holder_after. by destruct c'; intros [= <-].
  - destruct Hnext as [[Hhold _]|(_ & -> & _)]; [|done]. by rewrite (holding_after _ _ _ _ _ Hhold).
Qed.

(** A thread without the mutex: it waits for it or has ended, or it moves. *)
Lemma rest_moves S order holder sent n k rq c :
  consistent S order holder sent n → rqs !! k = Some rq → senders_ S !! k = Some c → holder ≠ Some k →
  (system_step retries alloc_limit k S = Pending ∧ (c = Finished (Ok tt) ∨ is_Some holder)) ∨
  ∃ S' holder', system_step retries alloc_limit k S = Ret S' ∧ moved S S' n order holder' sent n.
Proof.
  intros [Hlen Ht Hm Hh Hi Ho Hl] Hrq Hc Hne. pose proof (Ht _ _ _ Hrq Hc) as Hp. unfold placed in Hp.
  rewrite decide_False in Hp by done. pose proof Hl as [_ _ (b & Hb & _)].
  assert (Hfit : uses_buffer rq = true).
  { rewrite Forall_forall in all_fit. apply list_elem_of_lookup_2, all_fit in Hrq. by destruct rq. }
  unfold system_step. rewrite Hc. destruct Hp as [Hni|Hni|Hin].
  - right. cbn [Sending.sender_step]. rewrite Hb, Hfit, bind_ret. eexists _, holder. split; [done|].
    eapply move_thread; try done; [cbn; lia|].
    intros j rq' d Hrq' [(<- & <- & _)|[? Hd]]%list_lookup_insert_Some; [|by eapply Ht].
    rewrite Hrq in Hrq'. injection Hrq' as <-. unfold placed. rewrite decide_False by done. by constructor.
  - cbn [Sending.sender_step]. rewrite Hm. destruct holder as [h|]; [left; by split; [|right]|right]. rewrite bool_decide_false by (by intros [? ?]).
    rewrite bind_ret. specialize (Hi eq_refl). eexists _, (Some k). split; [done|].
    eapply move_thread; try done; [cbn; lia|..].
    + intros j rq' d Hrq' [(<- & <- & _)|[Hj Hd]]%list_lookup_insert_Some; unfold placed.
      * rewrite Hrq in Hrq'. injection Hrq' as <-. rewrite decide_True by done. by constructor.
      * specialize (Ht _ _ _ Hrq' Hd). unfold placed in Ht. rewrite decide_False in Ht by done.
        by rewrite decide_False by congruence.
    + intros ? [= <-]. by eapply lookup_lt_Some.
  - left. split; [done|by left].
Qed.

(** No step is undefined, and every step counts down. *)
Lemma consistent_step S order holder sent n k :
  consistent S order holder sent n →
  system_step retries alloc_limit k S = Pending ∨
  ∃ S' order' holder' sent' n', system_step retries alloc_limit k S = Ret S' ∧ moved S S' n order' holder' sent' n'.
Proof.
  intros Hco. destruct (senders_ S !! k) as [c|] eqn:Hc; [|left; unfold system_step; by rewrite Hc].
  assert (is_Some (rqs !! k)) as [rq Hrq].
  { apply lookup_lt_is_Some. rewrite <-(co_length _ _ _ _ _ Hco). by eapply lookup_lt_Some. }
  destruct (decide (holder = Some k)) as [->|Hne].
  - right. by eapply sender_moves.
  - destruct (rest_moves _ _ _ _ _ _ _ _ Hco Hrq Hc Hne) as [[? _]|(S' & h & E & ?)]; [by left|].
    right. by eexists _, _, _, _, _.
Qed.

(** Whoever has not ended, some thread can move. *)
Lemma consistent_progress S order holder sent n k c :
  consistent S order holder sent n → senders_ S !! k = Some c → (∀ r, c ≠ Finished r) →
  ∃ j S', system_step retries alloc_limit j S = Ret S'.
Proof.
  intros Hco Hc Hnf. pose proof (co_length _ _ _ _ _ Hco) as Hlen.
  assert (Hrqs : ∀ j d, senders_ S !! j = Some d → is_Some (rqs !! j)).
  { intros j d Hj. apply lookup_lt_is_Some. rewrite <-Hlen. by eapply lookup_lt_Some. }
  destruct holder as [h|].
  - pose proof (co_holder _ _ _ _ _ Hco h eq_refl) as Hh. destruct (lookup_lt_is_Some_2 rqs h Hh) as [rq Hrq].
    destruct (lookup_lt_is_Some_2 (senders_ S) h) as [d Hd]; [lia|].
    destruct (sender_moves _ _ _ _ _ _ _ Hco Hrq Hd) as (S' & _ & _ & _ & _ & E & _). by exists h, S'.
  - destruct (Hrqs _ _ Hc) as [rq Hrq].
    destruct (rest_moves _ _ _ _ _ _ _ _ Hco Hrq Hc ltac:(done)) as [[_ [->|[? ?]]]|(S' & _ & E & _)];
      [by destruct (Hnf (Ok tt))|done|by exists k, S'].
Qed.

Lemma consistent_run schedule S order holder sent n :
  consistent S order holder sent n →
  run_senders retries alloc_limit schedule S = Pending ∨
  ∃ S' order' holder' sent' n', run_senders retries alloc_limit schedule S = Ret S' ∧
    consistent S' order' holder' sent' n' ∧
    (length schedule + sum_list_with weight (senders_ S') + n' ≤ sum_list_with weight (senders_ S) + n)%nat.
Proof.
  revert S order holder sent n. induction schedule as [|k schedule IH]; intros S order holder sent n Hco.
  { right. exists S, order, holder, sent, n. by split_and!. }
  cbn [run_senders].
  destruct (consistent_step _ _ _ _ _ k Hco) as [->|(S1 & o1 & h1 & s1 & n1 & -> & Hco1 & Hlt)]; [by left|].
  rewrite bind_ret. destruct (IH _ _ _ _ _ Hco1) as [?|(S' & o & h & s' & n' & E & ? & Hle)]; [by left|].
  right. exists S', o, h, s', n'. split_and!; [done|done|]. cbn [length]. lia.
Qed.

Lemma start_consistent b :
  tcp_backend_ l0 = Some b → TCPClient.fd_ b = fd → writable (TCPClient.os b) fd →
  outbound (TCPClient.os b) fd = out →
  consistent (start_senders rqs l0) [] None [] (interrupts (TCPClient.os b)).
Proof.
  intros Hb Hfd Hw Ho. split; cbn [start_senders senders_ state_ send_buf_mtx_ link_]; try done.
  - by rewrite length_fmap.
  - intros k rq c Hrq. rewrite list_lookup_fmap, Hrq. intros [= <-]. unfold placed. rewrite decide_False by done.
    rewrite Forall_forall in all_fit. apply list_elem_of_lookup_2, all_fit in Hrq.
    destruct rq; try done; constructor; apply not_elem_of_nil.
  - split; [constructor|]. by intros k ?%not_elem_of_nil.
  - split; [by destruct l0|done|]. exists b. unfold frames. cbn. by rewrite app_nil_r.
Qed.

(** The threads of [order] have sent their frames, and [sent] is the beginning
    of the frame of another one. *)
Lemma consistent_sent S order holder sent n :
  consistent S order holder sent n →
  sent = [] ∨ ∃ k rq rest, rqs !! k = Some rq ∧ (k ∉ order) ∧ frame_of rq = sent ++ rest.
Proof.
  intros Hco. destruct holder as [h|]; [|left; by apply (co_idle _ _ _ _ _ Hco)].
  pose proof (co_holder _ _ _ _ _ Hco h eq_refl) as Hh. destruct (lookup_lt_is_Some_2 rqs h Hh) as [rq Hrq].
  destruct (lookup_lt_is_Some_2 (senders_ S) h) as [d Hd]; [by rewrite (co_length _ _ _ _ _ Hco)|].
  pose proof (co_threads _ _ _ _ _ Hco _ _ _ Hrq Hd) as Hp. unfold placed in Hp. rewrite decide_True in Hp by done.
  destruct Hp as [? ->|? ->|d z ? ?|? ->]; [by left|by left| |by left]. right. by exists h, rq, d.
Qed.

Lemma consistent_finished S order holder sent n k r :
  consistent S order holder sent n → senders_ S !! k = Some (Finished r) → r = Ok tt ∧ k ∈ order ∧ holder ≠ Some k.
Proof.
  intros Hco Hc. assert (is_Some (rqs !! k)) as [rq Hrq].
  { apply lookup_lt_is_Some. rewrite <-(co_length _ _ _ _ _ Hco). by eapply lookup_lt_Some. }
  pose proof (co_threads _ _ _ _ _ Hco _ _ _ Hrq Hc) as Hp. unfold placed in Hp.
  destruct (decide (holder = Some k)); [inversion Hp|]. by inversion Hp; subst.
Qed.

Lemma consistent_all_finished S order holder sent n :
  consistent S order holder sent n → (∀ c, c ∈ senders_ S → ∃ r, c = Finished r) →
  order ≡ₚ seq 0 (length rqs) ∧ sent = [].
Proof.
  intros Hco Hall. destruct (co_order _ _ _ _ _ Hco) as [Hnd Hlt].
  assert (Hfin : ∀ k, (k < length rqs)%nat → k ∈ order ∧ holder ≠ Some k).
  { intros k Hk. destruct (lookup_lt_is_Some_2 (senders_ S) k) as [c Hc]; [by rewrite (co_length _ _ _ _ _ Hco)|].
    destruct (Hall c) as [r ->]; [by eapply list_elem_of_lookup_2|].
    by destruct (consistent_finished _ _ _ _ _ _ _ Hco Hc) as (_ & ? & ?). }
  split.
  - apply NoDup_Permutation; [done|apply NoDup_seq|]. intros k. rewrite elem_of_seq. split; [|].
    + intros ?%Hlt. lia.
    + intros ?. apply Hfin. lia.
  - apply (co_idle _ _ _ _ _ Hco). destruct holder as [h|] eqn:Eh; [|done].
    destruct (Hfin h) as [_ ?]; [by apply (co_holder _ _ _ _ _ Hco)|done].
Qed.

(** The number of steps, but for signals. *)
Definition steps : nat := sum_list_with (λ rq, length (frame_of rq) + 6)%nat rqs.

Lemma start_weight : (sum_list_with weight (senders_ (start_senders (W := W) rqs l0)) ≤ steps)%nat.
Proof.
  unfold steps. cbn [start_senders senders_]. clear all_fit.
  induction rqs as [|rq rqs' IH]; [done|]. cbn [fmap list_fmap sum_list_with].
  assert (weight (entry rq) ≤ length (frame_of rq) + 6)%nat by (destruct rq; cbn [entry weight]; lia). lia.
Qed.

(** C14: Any number of threads that send commands and replies on a connection that
    takes bytes, interleaved in any way: no step is undefined or ends the
    process; at every moment the bytes on the connection are whole frames of
    different threads, one behind the other, and at most the beginning of one
    more; a thread that has ended has succeeded and its frame is among them;
    some thread can move as long as one has not ended, and the number of steps
    is bounded by the bytes of the frames and the signals. *)
Theorem concurrent_sends_serialise b schedule :
  tcp_backend_ l0 = Some b → TCPClient.fd_ b = fd → writable (TCPClient.os b) fd →
  outbound (TCPClient.os b) fd = out →
  safe (run_senders retries alloc_limit schedule (start_senders rqs l0)) ∧
  ∀ S, run_senders retries alloc_limit schedule (start_senders rqs l0) = Ret S →
    (length schedule ≤ steps + interrupts (TCPClient.os b))%nat ∧
    (∀ k c, senders_ S !! k = Some c → (∃ r, c = Finished r) ∨ ∃ j S', system_step retries alloc_limit j S = Ret S') ∧
    ∃ order sent b', NoDup order ∧ tcp_backend_ (link_ (state_ S)) = Some b' ∧
      outbound (TCPClient.os b') fd = out ++ frames order ++ sent ∧
      (sent = [] ∨ ∃ k rq rest, rqs !! k = Some rq ∧ (k ∉ order) ∧ frame_of rq = sent ++ rest) ∧
      (∀ k r, senders_ S !! k = Some (Finished r) → r = Ok tt ∧ k ∈ order) ∧
      ((∀ c, c ∈ senders_ S → ∃ r, c = Finished r) → order ≡ₚ seq 0 (length rqs) ∧ sent = []).
Proof.
  intros Hb Hfd Hw Ho. pose proof (start_consistent b Hb Hfd Hw Ho) as Hco. pose proof start_weight as Hs.
  destruct (consistent_run schedule _ _ _ _ _ Hco) as [->|(S & order & holder & sent & n & -> & HS & Hle)]; [done|].
  split; [done|]. intros ? [= <-]. split; [lia|]. split.
  { intros k c Hc. destruct c; try (by left; eexists); right; by eapply consistent_progress. }
  pose proof (co_line _ _ _ _ _ HS) as [_ _ (b' & Hb' & _ & _ & Ho' & _)].
  exists order, sent, b'. split_and!; [by apply (co_order _ _ _ _ _ HS)|done|done|by eapply consistent_sent| |by eapply consistent_all_finished].
  intros k r Hk. by destruct (consistent_finished _ _ _ _ _ _ _ HS Hk) as (? & ? & _).
Qed.
End senders.

(** ** What a target receives *)

Section served.
Context {W B U : Type} {KP : Posix W} {KV : PosixView W} {KL : PosixLaws W} (retries : nat) (alloc_limit : Z).
Context `{TcpBackendLaws B} `{!NodeVirtuals B U} (target_limit : Z) (target_range : target_limit < 2 ^ 64).
Context (rqs : list request) (l0 : link (TCPClient.t W)).

(** The command of a request, with the target's answer to a read. *)
Definition commands (rq : request) (c : command) : Prop :=
  match rq, c with
  | SendWrite t tid address data, WriteCommand cfg => cfg = write_config t tid address data l0
  | SendRead t tid address len, ReadCommand cfg _ => cfg = read_config t tid address len l0
  | _, _ => False
  end.

(** The target can take the command and answer it. *)
Definition command_fits (c : command) : Prop :=
  command_wf c ∧ zsize (command_bytes c) ≤ Z.min target_limit INT_MAX ∧
  zsize (reply_bytes c) ≤ INT_MAX ∧ zsize (reply_bytes c) + 12 ≤ target_limit.

Definition arrival_of (c : command) : arrival := mkArrival [] 0 0 (command_bytes c) c.

Lemma commands_frame rq c : commands rq c → frame_of l0 rq = arrival_bytes (arrival_of c).
Proof. by destruct rq, c; try done; intros ->. Qed.

Lemma command_bytes_nonempty c : command_bytes c ≠ [].
Proof.
  intros E. apply (f_equal length) in E. destruct c; cbn [command_bytes] in E;
    unfold encode_write, encode_read in E; rewrite !length_app in E; cbn in E; lia.
Qed.

Lemma arrival_of_wf c : command_fits c → arrival_wf target_limit (arrival_of c).
Proof.
  intros (Hc & Hz & Hr & Hl). unfold arrival_wf, arrival_of. cbn. unfold INT_MAX in *.
  split; [constructor|]. split; [apply command_bytes_nonempty|]. change (zsize (@nil Z)) with 0.
  split_and!; (done || lia).
Qed.

(** The commands of the threads of [order]. *)
Definition each_command : list nat → list command → Prop :=
  Forall2 (λ k c, ∃ rq, rqs !! k = Some rq ∧ commands rq c).

Lemma arrivals_of cs :
  Forall command_fits cs →
  Forall (arrival_wf target_limit) (arrival_of <$> cs) ∧ arr_command <$> (arrival_of <$> cs) = cs.
Proof.
  intros Hcf. split.
  - apply Forall_fmap. eapply Forall_impl; [exact Hcf|]. apply arrival_of_wf.
  - rewrite <-list_fmap_compose. by apply list_fmap_id.
Qed.

Lemma frames_arrivals order cs :
  each_command order cs →
  frames rqs l0 order = mjoin (arrival_bytes <$> (arrival_of <$> cs)).
Proof.
  induction 1 as [|k c order cs (rq & Hk & Hc) _ IH]; [done|].
  change (frames rqs l0 (k :: order)) with
    (match rqs !! k with Some rq => frame_of l0 rq | None => [] end ++ frames rqs l0 order).
  by rewrite Hk, (commands_frame _ _ Hc), IH.
Qed.

(** C13: Threads that send commands to a target at the same time, under any schedule,
    with sends cut short and interrupted in any way: when all threads have
    ended, a target that gets the bytes on the connection takes each thread's
    command exactly once, in some order of the threads, hands it to the user's
    function with the state of the one before, and answers each with one reply
    frame. *)
Theorem concurrent_commands_served b schedule (S : senders W) (n : node B U) tb fuel :
  tcp_backend_ l0 = Some b → 0 ≤ TCPClient.fd_ b → writable (TCPClient.os b) (TCPClient.fd_ b) →
  Forall (fits alloc_limit l0) rqs →
  run_senders retries alloc_limit schedule (start_senders rqs l0) = Ret S →
  (∀ c, c ∈ senders_ S → ∃ r, c = Finished r) →
  running_ n = true → buffer_policy_ (lnk n) = AutoResize → tcp_backend_ (lnk n) = Some tb →
  delivering tb → accepting tb → zsize (wire_in tb) < Z.of_nat fuel →
  (∀ b', tcp_backend_ (link_ (state_ S)) = Some b' →
     outbound (TCPClient.os b') (TCPClient.fd_ b) = outbound (TCPClient.os b) (TCPClient.fd_ b) ++ wire_in tb) →
  (∀ order, order ≡ₚ seq 0 (length rqs) → ∃ cs u', each_command order cs ∧ Forall command_fits cs ∧
     user_serves_all n (packet_parser_ (lnk n)) (user (txs n)) cs u') →
  ∃ order cs u' n' tb', order ≡ₚ seq 0 (length rqs) ∧ each_command order cs ∧
    user_serves_all n (packet_parser_ (lnk n)) (user (txs n)) cs u' ∧
    run_loop target_limit (length rqs + fuel) n = run_loop target_limit fuel n' ∧
    running_ n' = true ∧ user (txs n') = u' ∧ tcp_backend_ (lnk n') = Some tb' ∧ wire_in tb' = [] ∧
    wire_out tb' = wire_out tb ++ mjoin ((λ c, frame 0 0 0 (reply_bytes c)) <$> cs).
Proof.
  intros Hb Hfd Hw Hfit Hrun Hfin Hr Hpol Htb Hdel Hacc Hf Hin Huser. set (fd := TCPClient.fd_ b) in *.
  pose proof (start_consistent alloc_limit rqs l0 fd (outbound (TCPClient.os b) fd) Hfit b Hb eq_refl Hw eq_refl) as Hco.
  destruct (consistent_run retries alloc_limit rqs l0 fd _ Hfd Hfit schedule _ _ _ _ _ Hco)
    as [E|(S' & order & holder & sent & k & E & HS & _)]; rewrite Hrun in E; [done|]. injection E as <-.
  destruct (consistent_all_finished _ _ _ _ _ _ _ _ _ HS Hfin) as [Hord ->].
  pose proof (co_line _ _ _ _ _ _ _ _ _ HS) as [_ _ (b' & Hb' & _ & _ & Ho & _)].
  specialize (Hin _ Hb'). rewrite Ho, app_nil_r in Hin. apply app_inv_head in Hin.
  destruct (Huser order Hord) as (cs & u' & Hcs & Hcf & Hu). rewrite (frames_arrivals _ _ Hcs) in Hin.
  destruct (arrivals_of cs Hcf) as [Hwf Hcmd].
  destruct (run_loop_serves target_limit target_range (arrival_of <$> cs) fuel n tb [] u')
    as (n' & tb' & El & ? & ? & _ & _ & ? & ? & Ho'); try done.
  { by rewrite app_nil_r. } { by rewrite Hin. } { by rewrite Hcmd. }
  rewrite length_fmap, <-(Forall2_length _ _ _ Hcs), Hord, length_seq in El.
  exists order, cs, u', n', tb'. split_and!; try done. rewrite Ho'. do 2 f_equal. by rewrite <-list_fmap_compose.
Qed.
End served.
