(* ===== verification/SendingRaces.v ===== *)
(** * Sends that are not under the mutex

    From which states of the threads the bytes on the connection are no longer
    the frames of packets: [emitTimeCode] does not take the mutex of the send
    buffer, and a send that fails half-way leaves the beginning of its frame in
    front of the next one.  And [shutdown] destroys the backend under the
    threads that use it.  What a peer makes of such bytes is computed on the
    scripted system. *)

From S2P Require Import Prelude PacketTypes TcpBackend Posix TcpClient TcpClientTheorems Framing FramingFacts FramingTheorems Sending SendingFacts SendingTheorems.
#[local] Open Scope Z_scope.

(** ** From any state *)

Section races.
Context {W : Type} {KP : Posix W} {KV : PosixView W} {KL : PosixLaws W} (retries : nat) (alloc_limit : Z).
Implicit Types (s : senders W) (st : send_state W) (c : sender) (w : W) (bk : TCPClient.t W) (a b : nat).
Abbreviation run := (run_senders retries alloc_limit).
















End races.

(** ** What a peer makes of it *)

Definition racing_target : TargetNodeBase := TargetNodeDynamic 0x32 [0x06; 0x02] [0x01; 0x03].
Definition racing_write (tid : Z) : request := SendWrite racing_target tid 0x100 [1; 2; 3; 4].

(** A connected client; the system moves 20 bytes at a time. *)
Definition racing_link (script : list (option Z)) : link (TCPClient.t ScriptedKernel) :=
  mkLink (Some (TCPClient.mk 3 "127.0.0.1" "10030" (mkKernel 0 [3; 2; 1; 0] script [] [] 20 [])))
    [] (replicate 64 0) AutoResize empty_packet 0xFE true.

Definition race (schedule : list nat) (rqs : list request) (script : list (option Z)) : outcome (senders ScriptedKernel) :=
  run_senders 5 4096 schedule (start_senders rqs (racing_link script)).

(** The bytes on the connection. *)
Definition bytes_sent (s : senders ScriptedKernel) : list Z :=
  match tcp_backend_ (link_ (state_ s)) with Some b => k_out (TCPClient.os b) | None => [] end.

(** A peer receives a packet from the connection, and another one. *)
Definition receive_one (bytes : list Z) : outcome (expected Z * link MockBackend) :=
  recvAndParseOnePacket_ 4096 100
    (mkLink (Some (mkMock "" "" [] bytes true)) (replicate 64 0) [] AutoResize empty_packet 0x32 true).
Definition receive_two (bytes : list Z) : outcome (expected Z * expected Z) :=
  '(first, l) ← receive_one bytes;
  '(second, _) ← recvAndParseOnePacket_ 4096 100 l;
  Ret (first, second).

(** Thread 0 goes [n] steps, thread 1 [m] steps, then thread 0 [k] steps. *)
Definition turns (n m k : nat) : list nat := replicate n 0%nat ++ replicate m 1%nat ++ replicate k 0%nat.

(** A time code inside a frame: the peer rejects the packet, and then takes a
    length out of its middle, which ends its process.  A send that fails
    half-way: the next command is swallowed.  A shutdown behind the test of the
    backend, or during a send. *)
Example unlocked_sends_from_the_start :
  (∃ s, race (turns 5 4 3) [racing_write 0; SendTimeCode 7] [] = Ret s ∧
     senders_ s = [Finished (Ok tt); Finished (Ok tt)] ∧
     (∃ l, receive_one (bytes_sent s) = Ret (Unexpected (make_error_code HeaderCRCError), l)) ∧
     receive_two (bytes_sent s) = Abort) ∧
  (∃ s, race (turns 7 8 0) [racing_write 0; racing_write 1] [None; Some EAGAIN] = Ret s ∧
     senders_ s = [Finished (Unexpected (generic timed_out)); Finished (Ok tt)] ∧
     receive_two (bytes_sent s) = Ret (Unexpected (make_error_code HeaderCRCError), Unexpected (generic bad_message))) ∧
  race (turns 1 2 3) [racing_write 0; CallShutdown] [] = UB ∧
  race (turns 5 2 1) [racing_write 0; CallShutdown] [] = UB.
Proof.
  split; [|split; [|by vm_compute]]; eexists; (split; [vm_compute; reflexivity|]); (split; [by vm_compute|]).
  - split; [eexists; vm_compute; reflexivity|by vm_compute].
  - by vm_compute.
Qed.

(** Under the mutex the same two commands arrive. *)
Example locked_sends_arrive :
  ∃ s, race ([0; 1; 0; 0; 0; 0; 0; 0; 0; 1; 1; 1; 1; 1; 1; 1]%nat) [racing_write 0; racing_write 1] [] = Ret s ∧
    senders_ s = [Finished (Ok tt); Finished (Ok tt)] ∧
    receive_two (bytes_sent s) = Ret (Ok 27, Ok 27).
Proof. eexists. split; [vm_compute; reflexivity|]. split; by vm_compute. Qed.
