(* ===== verification/Receiving.v ===== *)
(** * Receiving as a program over its uses of the backend
    (include/spw_rmap/internal/spw_rmap_tcp_node_impl.hh: [recvExact_],
    [ignoreNBytes_], [recvAndParseOnePacket_])

    [Framing] receives a packet in one step.  For other threads it is a
    sequence of uses of [tcp_backend_]: a test of the pointer at the start of
    each function, and a call of [recvSome] in each round of a loop.  [io] has
    these two as its actions; [recv_io] and the others are the functions as
    programs over the buffers of the node.  [run_packet]: run over a backend,
    the program is the function of [Framing].

    [wp] is what holds of a program for every sequence of results of
    [recvSome], and so of every sequence of bytes that a peer can send.
    [receive_safe]: with a fixed buffer, no bytes make receiving undefined over a
    backend that fails at the end of the connection; [TCPServer] does not. *)

From S2P Require Import Prelude PacketTypes PacketParser PacketParserFacts PacketTheorems TcpBackend Posix TcpClient TcpClientTheorems TcpServer Framing FramingFacts Sending.
#[local] Open Scope Z_scope.

(** ** Programs *)

Inductive io (A : Type) :=
| Done (o : outcome A)
| TestBackend (k : bool → io A)                        (* whether [tcp_backend_] is set *)
| Receive (size : Z) (k : expected (list Z) → io A).   (* [tcp_backend_->recvSome(buffer)] *)
Arguments Done {A} o.
Arguments TestBackend {A} k.
Arguments Receive {A} size k.

Fixpoint io_bind {A B} (f : A → io B) (p : io A) : io B :=
  match p with
  | Done (Ret a) => f a
  | Done UB => Done UB
  | Done Abort => Done Abort
  | Done Pending => Done Pending
  | TestBackend k => TestBackend (λ b, io_bind f (k b))
  | Receive size k => Receive size (λ res, io_bind f (k res))
  end.
#[export] Instance io_mret : MRet io := λ A a, Done (Ret a).
#[export] Instance io_mbind : MBind io := λ A B f p, io_bind f p.

(** The node without its backend: the buffers, the policy and the parser. *)
Abbreviation buffers := (link unit).

Section programs.
Context (alloc_limit : Z).

Fixpoint exact_io (fuel : nat) (buffer : list Z) (off : Z) : io (expected Z * list Z) :=
  match fuel with
  | O => Done Pending
  | S fuel =>
      if off =? zsize buffer then mret (Ok (zsize buffer), buffer) else
      Receive (zsize buffer - off) (λ res,
        match res with
        | Unexpected e => mret (Unexpected e, buffer)
        | Ok bs =>
            if zsize bs =? 0 then mret (Ok 0, buffer)
            else if zsize buffer - off <? zsize bs then Done UB
            else exact_io fuel (overwrite buffer off bs) (off + zsize bs)
        end)
  end.

Definition recvExact_io (buffer : list Z) : io (expected Z * list Z) :=
  TestBackend (λ connected,
    if connected then exact_io (S (length buffer)) buffer 0
    else mret (Unexpected (generic not_connected), buffer)).

Fixpoint ignore_io (fuel : nat) (n : Z) : io (expected Z) :=
  match fuel with
  | O => Done Pending
  | S fuel =>
      if 16 <? n then
        Receive 16 (λ res,
          match res with
          | Unexpected e => mret (Unexpected e)
          | Ok bs =>
              if zsize bs =? 0 then mret (Unexpected (generic connection_aborted))
              else ignore_io fuel (u64 (n - zsize bs))
          end)
      else mret (Ok n)
  end.

Definition ignoreNBytes_io (fuel : nat) (n : Z) : io (expected Z) :=
  TestBackend (λ connected,
    if connected then
      res ← ignore_io fuel n;
      match res with
      | Unexpected e => mret (Unexpected e)
      | Ok rest =>
          if 0 <? rest then
            '(res, _) ← recvExact_io (replicate (Z.to_nat rest) 0);
            match res with
            | Unexpected e => mret (Unexpected e)
            | Ok _ => mret (Ok n)
            end
          else mret (Ok n)
      end
    else mret (Unexpected (generic not_connected))).

Definition recv_data_io (off len dataLength : Z) (l : buffers) : io (expected Z * buffers) :=
  if len <? dataLength then Done UB else
  buffer ← Done (subspan (recv_buf_ l) off dataLength);
  '(res, buffer) ← recvExact_io buffer;
  mret (res, set_recv_buf_ (overwrite (recv_buf_ l) off buffer) l).

Fixpoint recv_io (fuel : nat) (total_size off len : Z) (l : buffers) : io (expected Z * buffers) :=
  match fuel with
  | O => Done Pending
  | S fuel =>
      '(res, header) ← recvExact_io (replicate 12 0);
      match res with
      | Unexpected e => mret (Unexpected e, l)
      | Ok n =>
          if n =? 0 then mret (Ok 0, l) else
          h0 ← Done (rd header 0);
          if negb (valid_type h0) then mret (Unexpected (generic bad_message), l) else
          h1 ← Done (rd header 1);
          if negb (h1 =? 0x00) then mret (Unexpected (generic bad_message), l) else
          dl ← Done (calculateDataLength header);
          match dl with
          | Unexpected e => mret (Unexpected e, l)
          | Ok dataLength =>
              if dataLength =? 0 then mret (Unexpected (generic bad_message), l) else
              room ← Done (grow_recv_buffer alloc_limit total_size dataLength off len l);
              match room with
              | None => mret (Unexpected (generic no_buffer_space), l)
              | Some (off, len, l) =>
                  if h0 =? 0x00 then
                    '(res, l) ← recv_data_io off len dataLength l;
                    match res with
                    | Unexpected e => mret (Unexpected e, l)
                    | Ok n => Done (finish_packet (total_size + n) l)
                    end
                  else if h0 =? 0x01 then
                    res ← ignoreNBytes_io fuel dataLength;
                    match res with
                    | Unexpected e => mret (Unexpected e, l)
                    | Ok _ =>
                        TestBackend (λ connected,
                          if connected then recv_io fuel 0 0 (zsize (recv_buf_ l)) l
                          else mret (Unexpected (generic not_connected), l))
                    end
                  else if h0 =? 0x02 then
                    '(res, l) ← recv_data_io off len dataLength l;
                    match res with
                    | Unexpected e => mret (Unexpected e, l)
                    | Ok n => recv_io fuel (total_size + n) (off + dataLength) (len - dataLength) l
                    end
                  else
                    rest ← Done (subspan_from header 2);
                    if negb (bool_decide (rest = timecode_header))
                    then mret (Unexpected (generic bad_message), l) else
                    '(res, tc) ← recvExact_io (replicate 2 0);
                    match res with
                    | Unexpected e => mret (Unexpected e, l)
                    | Ok _ =>
                        tc1 ← Done (rd tc 1);
                        if negb (tc1 =? 0x00) then mret (Unexpected (generic bad_message), l)
                        else recv_io fuel total_size off len l
                    end
              end
          end
      end
  end.

(** [recvAndParseOnePacket_]. *)
Definition packet_io (fuel : nat) (l : buffers) : io (expected Z * buffers) :=
  TestBackend (λ connected,
    if connected then recv_io fuel 0 0 (zsize (recv_buf_ l)) l
    else mret (Unexpected (generic not_connected), l)).
End programs.

(** ** Programs over a backend *)

Section run.
Context {B : Type} `{TcpBackend B} (alloc_limit : Z).
Implicit Types (l : buffers) (b : option B).

(** A call through the null pointer is undefined. *)
Fixpoint run_io {A} (p : io A) b : outcome (A * option B) :=
  match p with
  | Done o => a ← o; Ret (a, b)
  | TestBackend k => run_io (k (bool_decide (is_Some b))) b
  | Receive size k =>
      match b with
      | None => UB
      | Some c => '(res, c) ← recvSome size c; run_io (k res) (Some c)
      end
  end.

Lemma run_bind {A A'} (p : io A) (f : A → io A') b :
  run_io (p ≫= f) b = '(a, b) ← run_io p b; run_io (f a) b.
Proof.
  revert b. induction p as [[]|k IH|size k IH]; intros b; try done; cbn; [apply IH|].
  destruct b as [c|]; [|done]. destruct (recvSome size c) as [[res c']| | |]; try done. cbn. apply IH.
Qed.

Lemma run_exact fuel buffer off (c : B) :
  run_io (exact_io fuel buffer off) (Some c) =
  '(res, buffer, c) ← recv_exact_loop fuel buffer off c; Ret ((res, buffer), Some c).
Proof.
  revert buffer off c. induction fuel as [|fuel IH]; intros buffer off c; [done|]. cbn [exact_io recv_exact_loop].
  destruct (off =? zsize buffer); [done|]. cbn [run_io]. destruct (recvSome _ c) as [[[bs|e] c']| | |]; try done.
  rewrite !bind_ret. destruct (zsize bs =? 0); [done|]. destruct (_ <? _); [done|]. apply IH.
Qed.

Lemma run_recvExact buffer b l :
  recvExact_ buffer (rebase b l) =
  '((res, buffer), b) ← run_io (recvExact_io buffer) b; Ret (res, buffer, rebase b l).
Proof.
  unfold recvExact_, recvExact_io. cbn [tcp_backend_ rebase run_io]. destruct b as [c|]; [|done].
  rewrite bool_decide_true by by eexists. rewrite run_exact.
  by destruct (recv_exact_loop _ _ _ _) as [[[res buf] c']| | |].
Qed.

Lemma run_ignore fuel n (c : B) :
  run_io (ignore_io fuel n) (Some c) = '(res, c) ← ignore_loop fuel n c; Ret (res, Some c).
Proof.
  revert n c. induction fuel as [|fuel IH]; intros n c; [done|]. cbn [ignore_io ignore_loop].
  destruct (16 <? n); [|done]. cbn [run_io]. destruct (recvSome _ c) as [[[bs|e] c']| | |]; try done.
  rewrite !bind_ret. destruct (zsize bs =? 0); [done|]. apply IH.
Qed.

(** A backend is left when there is one, and the bytes were skipped by one. *)
Lemma run_some {A} (p : io A) (c : B) a b : run_io p (Some c) = Ret (a, b) → is_Some b.
Proof.
  revert c. induction p as [[]|k IH|size k IH]; intros c; cbn [run_io]; try done; [by intros [= _ <-]|apply IH|].
  intros ([res c'] & _ & E)%bind_Ret. by eapply IH.
Qed.

Lemma run_ignored fuel n b k b' : run_io (ignoreNBytes_io fuel n) b = Ret (Ok k, b') → is_Some b'.
Proof. destruct b; [apply run_some|done]. Qed.

Lemma run_ignoreNBytes fuel n b l :
  ignoreNBytes_ fuel n (rebase b l) = '(res, b) ← run_io (ignoreNBytes_io fuel n) b; Ret (res, rebase b l).
Proof.
  unfold ignoreNBytes_, ignoreNBytes_io. cbn [tcp_backend_ rebase run_io]. destruct b as [c|]; [|done].
  rewrite bool_decide_true by by eexists. rewrite run_bind, run_ignore.
  destruct (ignore_loop fuel n c) as [[[rest|e] c']| | |]; try done. rewrite !bind_ret.
  destruct (0 <? rest); [|done]. rewrite run_bind.
  change (set_tcp_backend_ (Some c') _) with (rebase (Some c') l). rewrite run_recvExact.
  destruct (run_io _ (Some c')) as [[[[] ?] ?]| | |]; done.
Qed.

Lemma run_recv_data off len dataLength b l :
  recv_data off len dataLength (rebase b l) =
  '((res, l), b) ← run_io (recv_data_io off len dataLength l) b; Ret (res, rebase b l).
Proof.
  unfold recv_data, recv_data_io. destruct (len <? dataLength); [done|]. cbn [recv_buf_ rebase].
  destruct (subspan _ _ _) as [buffer| | |]; try done. cbn [mbind io_mbind io_bind outcome_bind].
  rewrite (run_bind (recvExact_io buffer)), run_recvExact.
  by destruct (run_io _ b) as [[[res buf] b']| | |].
Qed.

Lemma rebase_grow total_size dataLength off len b l :
  grow_recv_buffer alloc_limit total_size dataLength off len (rebase b l) =
  room ← grow_recv_buffer alloc_limit total_size dataLength off len l;
  Ret (match room with Some (off, len, l) => Some (off, len, rebase b l) | None => None end).
Proof.
  unfold grow_recv_buffer. cbn [buffer_policy_ recv_buf_ rebase]. destruct (len <? dataLength); [|done].
  destruct (buffer_policy_ l); [done|]. destruct (vector_resize _ _ _) as [buf| | |]; try done. cbn.
  by destruct (subspan_from buf total_size).
Qed.

Lemma rebase_finish total_size b l :
  finish_packet total_size (rebase b l) = '(res, l) ← finish_packet total_size l; Ret (res, rebase b l).
Proof.
  unfold finish_packet. cbn [recv_buf_ packet_parser_ rebase]. destruct (subspan _ _ _) as [pkt| | |]; try done.
  rewrite !bind_ret. destruct (parse pkt (packet_parser_ l)) as [[st p]| | |]; try done. rewrite !bind_ret.
  by destruct (decide (st = Success)).
Qed.

(** A step that does not use the backend. *)
Ltac step_pure :=
  match goal with
  | |- context [mbind (M := outcome) _ (rd ?h ?i)] => destruct (rd h i) as [?| | |]
  | |- context [mbind (M := outcome) _ (calculateDataLength ?h)] => destruct (calculateDataLength h) as [[?|?]| | |]
  | |- context [mbind (M := outcome) _ (subspan_from ?h ?i)] => destruct (subspan_from h i) as [?| | |]
  end; try done; rewrite bind_ret; cbn [mbind io_mbind io_bind].

Lemma run_recv fuel total_size off len l b :
  recv_loop alloc_limit fuel total_size off len (rebase b l) =
  '((res, l), b) ← run_io (recv_io alloc_limit fuel total_size off len l) b; Ret (res, rebase b l).
Proof.
  revert total_size off len l b. induction fuel as [|fuel IH]; intros total_size off len l b; [done|].
  cbn [recv_loop recv_io]. rewrite run_bind, run_recvExact.
  destruct (run_io (recvExact_io _) b) as [[[[n|e] header] b1]| | |]; try done. rewrite !bind_ret.
  destruct (n =? 0); [done|]. step_pure. destruct (negb _); [done|]. step_pure. destruct (negb _); [done|].
  step_pure. destruct (_ =? 0); [done|]. rewrite rebase_grow.
  destruct (grow_recv_buffer _ _ _ _ _ l) as [[[[off1 len1] l1]|]| | |]; try done. rewrite !bind_ret.
  cbn [mbind io_mbind io_bind]. destruct (_ =? 0x00).
  { rewrite run_recv_data. change (io_bind ?f ?p) with (p ≫= f). rewrite run_bind.
    destruct (run_io _ b1) as [[[[k|e] l2] b2]| | |]; try done. rewrite !bind_ret, rebase_finish. cbn [run_io].
    by destruct (finish_packet _ l2) as [[]| | |]. }
  destruct (_ =? 0x01).
  { rewrite run_ignoreNBytes. change (io_bind ?f ?p) with (p ≫= f). rewrite run_bind.
    destruct (run_io _ b1) as [[[k|e] b2]| | |] eqn:Ei; try done. rewrite !bind_ret. cbn [run_io].
    rewrite bool_decide_true by by eapply run_ignored. apply IH. }
  destruct (_ =? 0x02).
  { rewrite run_recv_data. change (io_bind ?f ?p) with (p ≫= f). rewrite run_bind.
    destruct (run_io _ b1) as [[[[k|e] l2] b2]| | |]; try done. rewrite !bind_ret. apply IH. }
  step_pure. destruct (negb _); [done|]. rewrite run_recvExact. change (io_bind ?f ?p) with (p ≫= f). rewrite run_bind.
  destruct (run_io _ b1) as [[[[k|e] tc] b2]| | |]; try done. rewrite !bind_ret. step_pure.
  destruct (negb _); [done|]. apply IH.
Qed.

(** The program is [recvAndParseOnePacket_]. *)
Lemma run_packet fuel l b :
  recvAndParseOnePacket_ alloc_limit fuel (rebase b l) =
  '((res, l), b) ← run_io (packet_io alloc_limit fuel l) b; Ret (res, rebase b l).
Proof.
  unfold recvAndParseOnePacket_, packet_io. cbn [tcp_backend_ rebase run_io recv_buf_]. destruct b; [|done].
  rewrite bool_decide_true by by eexists. apply run_recv.
Qed.
End run.

(** ** For every sequence of results *)

(** [wp Q p]: whatever [recvSome] returns, if it is no more than asked for and
    at least a byte, [p] is not undefined, does not end the process, and what
    it returns satisfies [Q].  It may wait. *)
Fixpoint wp {A} (Q : A → Prop) (p : io A) : Prop :=
  match p with
  | Done (Ret a) => Q a
  | Done Pending => True
  | Done _ => False
  | TestBackend k => ∀ connected, wp Q (k connected)
  | Receive size k =>
      0 < size ∧ (∀ e, wp Q (k (Unexpected e))) ∧
      ∀ bs, bytes bs → bs ≠ [] → zsize bs ≤ size → wp Q (k (Ok bs))
  end.

Lemma wp_mono {A} (Q Q' : A → Prop) p : (∀ a, Q a → Q' a) → wp Q p → wp Q' p.
Proof.
  intros HQ. induction p as [[]|k IH|size k IH]; cbn; try done; [by auto|intros ? ?; by apply IH|].
  intros (? & He & Hk). split_and!; [done|intros e; by apply IH|]. intros bs ???. apply IH. by apply Hk.
Qed.

Lemma wp_bind {A A'} (Q : A' → Prop) (p : io A) (f : A → io A') : wp (λ a, wp Q (f a)) p → wp Q (p ≫= f).
Proof.
  induction p as [[]|k IH|size k IH]; cbn; try done; [intros ? ?; by apply IH|].
  intros (? & He & Hk). split_and!; [done|intros e; by apply IH|]. intros bs ???. apply IH. by apply Hk.
Qed.

Lemma wp_pure {A} (Q : A → Prop) (o : outcome A) a : o = Ret a → Q a → wp Q (Done o).
Proof. by intros -> ?. Qed.

(** A backend whose successful reads hand over bytes, at least one and no more
    than asked for, as those of [TCPClient] do: it fails at the end of the
    connection.  [TCPServer] does not: there its [recvSome] succeeds with no
    bytes. *)
Class ByteStream (B : Type) `{TcpBackend B} := {
  flowing : B → Prop;
  recvSome_flows n b bs b' :
    0 < n → flowing b → recvSome n b = Ret (Ok bs, b') → bytes bs ∧ bs ≠ [] ∧ zsize bs ≤ n ∧ flowing b';
  recvSome_fails n b e b' : 0 < n → flowing b → recvSome n b = Ret (Unexpected e, b') → flowing b';
  recvSome_defined n b : 0 < n → flowing b → safe (recvSome n b);
  sendAll_flows d b r b' : flowing b → sendAll d b = Ret (r, b') → flowing b';
}.

Lemma wp_run {A} {B : Type} `{ByteStream B} (Q : A → Prop) (p : io A) (b : B) :
  wp Q p → flowing b →
  safe (run_io p (Some b)) ∧ ∀ a b', run_io p (Some b) = Ret (a, b') → Q a ∧ ∃ c, b' = Some c ∧ flowing c.
Proof.
  revert b. induction p as [[a| | |]|k IH|size k IH]; intros b Hp Hb; try done.
  - split; [done|]. intros ? ? [= <- <-]. split; [done|]. by exists b.
  - by apply IH.
  - destruct Hp as (Hs & He & Hk). cbn [run_io]. pose proof (recvSome_defined size b Hs Hb) as [Hu Ha].
    destruct (recvSome size b) as [[[bs|e] c]| | |] eqn:E; try done; cbn [mbind outcome_bind].
    + apply recvSome_flows in E as (? & ? & ? & ?); [|done..]. apply IH; [by apply Hk|done].
    + apply recvSome_fails in E; [|done..]. by apply IH.
Qed.

#[export] Program Instance mock_stream : ByteStream MockBackend := { flowing b := bytes (incoming_bytes_ b) }.
Next Obligation.
  intros n b bs b' Hn Hb. cbn. unfold mock_recvSome. destruct (Z.eqb_spec n 0); [lia|].
  destruct (incoming_bytes_ b) as [|x l] eqn:E; [by destruct (mock_shutdown_ b)|]. intros [= <- <-]. cbn [incoming_bytes_].
  rewrite <-E in *. split_and!; [by apply Forall_take| | |by apply Forall_drop].
  - assert (0 < zsize (incoming_bytes_ b)) by (rewrite E; by apply zsize_pos). intros Et%(f_equal zsize). revert Et. zs. lia.
  - zs. pose proof (zsize_nonneg (incoming_bytes_ b)). lia.
Qed.
Next Obligation.
  intros n b e b' Hn Hb. cbn. unfold mock_recvSome. destruct (n =? 0); [done|]. destruct (incoming_bytes_ b) eqn:E; [|done].
  destruct (mock_shutdown_ b); [|done]. by intros [= _ <-].
Qed.
Next Obligation. intros n b _ _. cbn. unfold mock_recvSome, safe. by repeat case_match. Qed.
Next Obligation. intros d b r b' Hb. cbn. unfold mock_sendAll. by intros [= _ <-]. Qed.

(** The TCP client on a connection that carries bytes. *)
#[export] Program Instance client_stream {W : Type} `{PosixLaws W} (retries : nat)
    : @ByteStream (TCPClient.t W) (tcp_client_backend retries) := {
  flowing c := bytes (inbound (TCPClient.os c) (TCPClient.fd_ c)) }.
Next Obligation.
  intros W ??? retries n c bs c' Hn Hb Hr. apply recvSome_ret in Hr as (Hfd & _ & Hi); [|done].
  destruct (Hi bs eq_refl) as [E Hz]. cbn in Hb |- *. rewrite E in Hb. apply Forall_app in Hb as [? ?]. rewrite Hfd.
  split_and!; [done| |lia|done]. intros ->. zs. lia.
Qed.
Next Obligation.
  intros W ??? retries n c e c' Hn Hb. cbn in Hb |- *. unfold TCPClient.recvSome. destruct (Z.eqb_spec n 0); [done|].
  destruct (retry _ _ _ _) as [[[k bs] w]| | |] eqn:E; try done. cbn [mbind outcome_bind].
  apply recv_retry_ret in E as (w0 & (Hi0 & _) & Hc & _); [|done]. apply recv_stream in Hc as (_ & _ & Hi & _); [|done].
  rewrite <-Hi0, Hi in Hb. apply Forall_app in Hb as [_ Hb]. repeat case_match; by intros [= _ <-].
Qed.
Next Obligation. intros W ??? retries n c Hn _. by apply recvSome_safe. Qed.
Next Obligation.
  intros W ??? retries d c [[]|e] c' Hb E; [apply sendAll_ok in E as [_ E]|apply sendAll_error in E as [_ E]];
    cbn in E |- *; by rewrite E.
Qed.

(** ** Any bytes *)

Lemma zsize_overwrite {A} (buf l : list A) off :
  0 ≤ off → off + zsize l ≤ zsize buf → zsize (overwrite buf off l) = zsize buf.
Proof. intros. unfold overwrite. zs. unfold zsize in *. lia. Qed.

Lemma bytes_overwrite buf l off : bytes buf → bytes l → bytes (overwrite buf off l).
Proof. intros. unfold overwrite. repeat apply Forall_app_2; [by apply Forall_take|done|by apply Forall_drop]. Qed.

Lemma bytes_zeros n : bytes (replicate n 0).
Proof. apply Forall_replicate. unfold byte. lia. Qed.

(** A buffer that has been filled, or not to its end. *)
Definition filled (buffer : list Z) (a : expected Z * list Z) : Prop :=
  zsize a.2 = zsize buffer ∧ bytes a.2 ∧ ∀ n, a.1 = Ok n → n = zsize buffer.

Lemma exact_wp fuel buffer off :
  bytes buffer → 0 ≤ off ≤ zsize buffer → wp (filled buffer) (exact_io fuel buffer off).
Proof.
  revert buffer off. induction fuel as [|fuel IH]; intros buffer off Hb Ho; [done|]. cbn [exact_io].
  destruct (Z.eqb_spec off (zsize buffer)) as [->|]; [split_and!; [done|done|by intros ? [= <-]]|].
  cbn [wp]. split_and!; [lia|by intros e|]. intros bs Hbs Hne Hz. pose proof (zsize_pos _ Hne).
  rewrite (proj2 (Z.eqb_neq _ _)), (proj2 (Z.ltb_ge _ _)) by lia.
  pose proof (zsize_overwrite buffer bs off ltac:(lia) ltac:(lia)) as E. eapply wp_mono; [|apply IH].
  - intros a (H1 & H2 & H3). unfold filled. by rewrite <-E.
  - by apply bytes_overwrite.
  - lia.
Qed.

Lemma recvExact_wp buffer : bytes buffer → wp (filled buffer) (recvExact_io buffer).
Proof.
  intros Hb []; [|by split_and!]. apply exact_wp; [done|]. pose proof (zsize_nonneg buffer). lia.
Qed.

Lemma ignore_wp fuel n : wp (λ _, True) (ignore_io fuel n).
Proof.
  revert n. induction fuel as [|fuel IH]; intros n; [done|]. cbn [ignore_io]. destruct (16 <? n); [|done].
  cbn [wp]. split_and!; [lia|done|]. intros bs _ Hne _. by destruct (zsize bs =? 0); [|apply IH].
Qed.

Lemma ignoreNBytes_wp fuel n : wp (λ _, True) (ignoreNBytes_io fuel n).
Proof.
  intros []; [|done]. apply wp_bind. eapply wp_mono; [|apply ignore_wp]. intros [rest|e] _; [|done].
  destruct (0 <? rest); [|done]. apply wp_bind. eapply wp_mono; [|apply recvExact_wp, bytes_zeros]. by intros [[] ?] _.
Qed.

Lemma header_length header :
  zsize header = 12 → bytes header → ∃ n, calculateDataLength header = Ret (Ok n) ∧ 0 ≤ n.
Proof.
  intros Hz Hb. do 4 (destruct header as [|? header]; [zs; lia|]). zs.
  assert (Hbh : bytes header) by (by do 4 apply Forall_inv_tail in Hb).
  exists (be_combine header). split; [|by apply be_combine_bound].
  change (?a :: ?b :: ?c :: ?d :: header) with ([a; b; c; d] ++ header).
  apply calculateDataLength_header; [lia|done].
Qed.

Section fixed.
Context (alloc_limit : Z).
Implicit Types (l : buffers).

(** A node with a fixed buffer of bytes. *)
Definition fixed {B} (size : Z) (l : link B) : Prop :=
  buffer_policy_ l = Fixed ∧ zsize (recv_buf_ l) = size ∧ bytes (recv_buf_ l).

(** The send buffer is not touched. *)
Definition held {B} (size : Z) (sb : list Z) (l : link B) : Prop := fixed size l ∧ send_buf_ l = sb.

Lemma recv_data_wp size sb off len dataLength l :
  held size sb l → 0 ≤ off → 0 ≤ dataLength ≤ len → off + len ≤ size →
  wp (λ '(res, l'), held size sb l' ∧ ∀ n, res = Ok n → n = dataLength) (recv_data_io off len dataLength l).
Proof.
  intros ((Hp & Hz & Hb) & Hsb) Ho Hd Hl. unfold recv_data_io. rewrite (proj2 (Z.ltb_ge _ _)) by lia.
  rewrite subspan_in_range by lia. set (buffer := take _ _). cbn [mbind io_mbind io_bind].
  assert (Hzb : zsize buffer = dataLength) by (unfold buffer; zs; lia).
  apply (wp_bind _ (recvExact_io buffer)).
  eapply wp_mono; [|apply recvExact_wp; by apply Forall_take, Forall_drop].
  intros [res buf] (H1 & H2 & H3). cbn [fst snd] in *. split; [split; [split_and!; [done| |]|done]|].
  - cbn. rewrite zsize_overwrite; lia.
  - by apply bytes_overwrite.
  - intros n ->. by rewrite (H3 n).
Qed.

Lemma finish_held size sb total_size l :
  held size sb l → 0 < total_size ≤ size → size < 2 ^ 64 →
  ∃ res l', finish_packet total_size l = Ret (res, l') ∧ held size sb l'.
Proof.
  intros ((Hp & Hz & Hb) & Hsb) Ht Hs. unfold finish_packet. rewrite subspan_in_range, drop_0, bind_ret by lia.
  set (packet := take _ _). assert (Hpz : zsize packet = total_size) by (unfold packet; zs; lia).
  destruct (parse_accepts packet (packet_parser_ l)) as ([st p] & -> & _).
  - split; [by apply Forall_take|lia].
  - intros E. rewrite E in Hpz. zs. lia.
  - rewrite bind_ret. by destruct (decide (st = Success)); eexists _, _.
Qed.

Lemma recv_wp size sb fuel off l :
  held size sb l → 0 ≤ off ≤ size → size < 2 ^ 64 →
  wp (λ '(res, l'), held size sb l') (recv_io alloc_limit fuel off off (size - off) l).
Proof.
  intros Hl Ho Hs. revert off l Hl Ho. induction fuel as [|fuel IH]; intros off l Hl Ho; [done|].
  cbn [recv_io]. apply (wp_bind _ (recvExact_io (replicate 12 0))). eapply wp_mono; [|apply recvExact_wp, bytes_zeros].
  intros [[n|e] header] (Hz & Hb & _); [|done]. cbn [fst snd] in *. change (zsize (replicate 12 0)) with 12 in Hz.
  destruct (n =? 0); [done|].
  destruct (rd_in_range header 0 ltac:(lia)) as (h0 & -> & _). cbn [mbind io_mbind io_bind].
  destruct (negb (valid_type h0)); [done|].
  destruct (rd_in_range header 1 ltac:(lia)) as (h1 & -> & _). cbn [io_bind]. destruct (negb (h1 =? 0)); [done|].
  destruct (header_length header Hz Hb) as (dl & -> & Hdl). cbn [io_bind].
  destruct (Z.eqb_spec dl 0); [done|]. pose proof Hl as ((Hp & Hlz & _) & _). unfold grow_recv_buffer. rewrite Hp.
  destruct (Z.ltb_spec (size - off) dl); [done|]. cbn [io_bind].
  destruct (h0 =? 0); [|destruct (h0 =? 1); [|destruct (h0 =? 2)]].
  - apply (wp_bind _ (recv_data_io off (size - off) dl l)).
    eapply wp_mono; [|apply (recv_data_wp size sb); try done; lia]. intros [[k|e] l2] [Hl2 Hk]; [|done].
    rewrite (Hk k eq_refl). destruct (finish_held size sb (off + dl) l2) as (res & l3 & -> & ?); [done|lia|done|done].
  - apply (wp_bind _ (ignoreNBytes_io fuel dl)). eapply wp_mono; [|apply ignoreNBytes_wp].
    intros [k|e] _; [|done]. intros []; [|done]. rewrite Hlz. pose proof (IH 0 l Hl ltac:(lia)) as Hw. by rewrite Z.sub_0_r in Hw.
  - apply (wp_bind _ (recv_data_io off (size - off) dl l)).
    eapply wp_mono; [|apply (recv_data_wp size sb); try done; lia]. intros [[k|e] l2] [Hl2 Hk]; [|done].
    rewrite (Hk k eq_refl). replace (size - off - dl) with (size - (off + dl)) by lia. apply IH; [done|lia].
  - unfold subspan_from. rewrite decide_True by lia. cbn [io_bind]. destruct (negb _); [done|].
    apply (wp_bind _ (recvExact_io (replicate 2 0))). eapply wp_mono; [|apply recvExact_wp, bytes_zeros].
    intros [[k|e] tc] (Htz & _); [|done]. cbn [snd] in Htz. change (zsize (replicate 2 0)) with 2 in Htz.
    destruct (rd_in_range tc 1 ltac:(lia)) as (t1 & -> & _). cbn [mbind io_mbind io_bind].
    destruct (negb (t1 =? 0)); [done|]. by apply IH.
Qed.
End fixed.

Lemma receive_defined {B : Type} {H : TcpBackend B} {S : ByteStream B} alloc_limit fuel (l : link B) b size :
  tcp_backend_ l = Some b → flowing b → fixed size l → size < 2 ^ 64 →
  safe (recvAndParseOnePacket_ alloc_limit fuel l) ∧
  ∀ res l', recvAndParseOnePacket_ alloc_limit fuel l = Ret (res, l') →
    held size (send_buf_ l) l' ∧ ∃ b', tcp_backend_ l' = Some b' ∧ flowing b'.
Proof.
  intros Hb Hf Hl Hs. set (r := rebase None l : buffers). set (sb := send_buf_ l).
  assert (E : l = rebase (Some b) r) by (rewrite <-Hb; by destruct l).
  rewrite E, run_packet. assert (Hr : held size sb r) by (by split).
  destruct (wp_run (λ '(res, l'), held size sb l') (packet_io alloc_limit fuel r) b) as [Hsafe Hret]; [|done|].
  { intros []; [|done]. pose proof Hr as ((_ & Hz & _) & _). pose proof (zsize_nonneg (recv_buf_ r)).
    pose proof (recv_wp alloc_limit size sb fuel 0 r Hr ltac:(lia) Hs) as Hw. rewrite Z.sub_0_r in Hw. by rewrite Hz. }
  split; [by apply safe_bind; [|intros [[] ?]]|].
  intros res l' ([[res1 l1] b1] & E1 & [= <- <-])%bind_Ret. apply Hret in E1 as [[? ?] (c & -> & ?)].
  split; [by split|]. by exists c.
Qed.

(** A length that makes [total_size + dataLength] wrap around, behind a fragment
    of ten bytes. *)
Definition wrapping_stream : list Z :=
  [2; 0; 0; 0; 0; 0; 0; 0; 0; 0; 0; 10; 1; 2; 3; 4; 5; 6; 7; 8; 9; 10;
   0; 0; 0; 0; 255; 255; 255; 255; 255; 255; 255; 251; 0].

(** The end of the connection where the bytes of a frame should be. *)
Section empty_read.
Context {B : Type} {H : TcpBackend B} (alloc_limit : Z).
Implicit Types (l : link B) (b : B).

Lemma recvExact_whole l b b1 buffer bs :
  tcp_backend_ l = Some b → 0 < zsize buffer → zsize bs = zsize buffer →
  recvSome (zsize buffer) b = Ret (Ok bs, b1) →
  recvExact_ buffer l = Ret (Ok (zsize buffer), bs, set_tcp_backend_ (Some b1) l).
Proof.
  intros Hb Hz Hs E. unfold recvExact_. rewrite Hb. destruct buffer as [|x buffer]; [done|].
  cbn [recv_exact_loop length]. destruct (Z.eqb_spec 0 (zsize (x :: buffer))); [lia|].
  rewrite Z.sub_0_r, E, !bind_ret. destruct (Z.eqb_spec (zsize bs) 0); [lia|]. rewrite (proj2 (Z.ltb_ge _ _)) by lia.
  replace (overwrite (x :: buffer) 0 bs) with bs.
  - rewrite Z.add_0_l, Z.eqb_refl, bind_ret. by rewrite Hs.
  - unfold overwrite. cbn. rewrite drop_ge, app_nil_r; [done|]. unfold zsize in *. lia.
Qed.

Lemma recvExact_empty l b b1 buffer :
  tcp_backend_ l = Some b → 0 < zsize buffer → recvSome (zsize buffer) b = Ret (Ok [], b1) →
  recvExact_ buffer l = Ret (Ok 0, buffer, set_tcp_backend_ (Some b1) l).
Proof.
  intros Hb Hz E. unfold recvExact_. rewrite Hb. cbn [recv_exact_loop]. destruct (Z.eqb_spec 0 (zsize buffer)); [lia|].
  by rewrite Z.sub_0_r, E, !bind_ret.
Qed.

(** The parser gets an empty span. *)
Lemma nothing_behind_header fuel l b b1 b2 len :
  tcp_backend_ l = Some b → 0 < len ≤ zsize (recv_buf_ l) → len < 2 ^ 64 →
  recvSome 12 b = Ret (Ok (frame_header 0 0 0 len), b1) → recvSome len b1 = Ret (Ok [], b2) →
  recvAndParseOnePacket_ alloc_limit (S fuel) l = UB.
Proof.
  intros Hb Hlen Hlt E1 E2. unfold recvAndParseOnePacket_. rewrite Hb. cbn [recv_loop].
  rewrite (recvExact_whole l b b1 (replicate 12 0) (frame_header 0 0 0 len) Hb eq_refl eq_refl E1), bind_ret.
  change (zsize (replicate 12 0) =? 0) with false. change (rd (frame_header 0 0 0 len) 0) with (Ret (A := Z) 0).
  change (rd (frame_header 0 0 0 len) 1) with (Ret (A := Z) 0). cbn iota. rewrite !bind_ret.
  change (negb (valid_type 0)) with false. change (negb (0 =? 0)) with false. cbn iota.
  rewrite calculateDataLength_frame, bind_ret by lia. destruct (Z.eqb_spec len 0); [lia|].
  unfold grow_recv_buffer. rewrite (proj2 (Z.ltb_ge _ _)), bind_ret by lia.
  change (0 =? 0) with true. cbn iota. unfold recv_data. rewrite (proj2 (Z.ltb_ge _ _)) by (cbn; lia).
  assert (Es : subspan (recv_buf_ l) 0 len = Ret (take (Z.to_nat len) (recv_buf_ l))).
  { unfold subspan. by rewrite decide_True by lia. }
  cbn [recv_buf_ set_tcp_backend_]. rewrite Es, bind_ret.
  assert (Hz : zsize (take (Z.to_nat len) (recv_buf_ l)) = len) by (zs; lia).
  erewrite recvExact_empty; [|reflexivity|lia|rewrite Hz; exact E2]. rewrite !bind_ret. unfold finish_packet, subspan.
  rewrite decide_True by (split_and!; [lia..|apply zsize_nonneg]). done.
Qed.
End empty_read.

Lemma server_recvSome {W : Type} `{Posix W} retries size (s : TCPServer.t W) n bs w :
  0 < size → 0 ≤ n → sys_recv (TCPServer.client_fd_ s) size (TCPServer.os s) = (n, bs, w) →
  TCPServer.recvSome (S retries) size s = Ret (Ok bs, TCPServer.set_os w s).
Proof.
  intros Hs Hn E. unfold TCPServer.recvSome. destruct (Z.eqb_spec size 0); [lia|]. cbn [retry]. rewrite E.
  unfold interrupted. cbn [fst]. rewrite (proj2 (Z.ltb_ge _ _)) by done. cbn [andb]. rewrite bind_ret.
  by rewrite (proj2 (Z.ltb_ge _ _)).
Qed.

(** C17: With a fixed buffer, recvAndParseOnePacket_ is defined for whatever bytes a
    peer sends and however the connection cuts them, over any backend whose
    successful reads hand over at least one byte, as those of TCPClient do: it
    never leaves the buffer, throws nothing, and keeps the size of the buffer.
    Over TCPServer, whose reads succeed with no bytes at the end of the
    connection, it is not, whatever the policy: a header that announces bytes,
    and the end of the connection behind it, make it parse an empty span. Nor is
    it with a buffer that grows: a fragment of ten bytes and a header with the
    length 2^64 - 5 make total_size + *dataLength wrap around, the buffer
    shrink, and the span behind it leave the buffer. *)
Theorem receive_safe :
  (∀ (B : Type) (H : TcpBackend B) (S : ByteStream B) alloc_limit fuel (l : link B) b size,
     tcp_backend_ l = Some b → flowing b → fixed size l → size < 2 ^ 64 →
     safe (recvAndParseOnePacket_ alloc_limit fuel l) ∧
     ∀ res l', recvAndParseOnePacket_ alloc_limit fuel l = Ret (res, l') →
       fixed size l' ∧ ∃ b', tcp_backend_ l' = Some b' ∧ flowing b') ∧
  (∀ (W : Type) (KP : Posix W) retries alloc_limit fuel (l : link (TCPServer.t W)) server len w1 w2,
     tcp_backend_ l = Some server → 0 < len ≤ zsize (recv_buf_ l) → len < 2 ^ 64 →
     sys_recv (TCPServer.client_fd_ server) 12 (TCPServer.os server) = (12, frame_header 0 0 0 len, w1) →
     sys_recv (TCPServer.client_fd_ server) len w1 = (0, [], w2) →
     @recvAndParseOnePacket_ _ (tcp_server_backend (S retries)) alloc_limit (S fuel) l = UB) ∧
  recvAndParseOnePacket_ (2 ^ 26) 10
    (mkLink (Some (mkMock "" "" [] wrapping_stream false)) (replicate 64 0) [] AutoResize empty_packet 0xFE true) = UB.
Proof.
  split; [|split; [|by vm_compute]]; last first.
  { intros W KP retries alloc_limit fuel l server len w1 w2 Hb Hlen Hlt E1 E2.
    apply (nothing_behind_header alloc_limit fuel l server (TCPServer.set_os w1 server) (TCPServer.set_os w2 server) len); [done..| |].
    - by apply (server_recvSome retries 12 server 12).
    - by apply (server_recvSome retries len (TCPServer.set_os w1 server) 0); [lia| |]. }
  intros B H S alloc_limit fuel l b size Hb Hf Hl Hs.
  destruct (receive_defined alloc_limit fuel l b size Hb Hf Hl Hs) as [? Hr]. split; [done|].
  by intros res l' [[? _] ?]%Hr.
Qed.
