(* ===== verification/AnyPeer.v ===== *)
(** * A node against any peer

    What other programs send decides over every branch of [poll].  A node whose
    buffers are fixed, whose user functions throw nothing but what [poll]
    catches, and whose reply callbacks are defined for every packet, goes
    through [runLoop] without undefined behaviour and without ending the
    process, whatever bytes come ([run_loop_sturdy]).  So does the TCP client over
    every system; the TCP server does not: it takes the end of the connection
    for a read of zero bytes ([client_survives_any_peer]).  [Receiving] has the bytes,
    [TransactionSlots] the replies to nothing, [FramingTheorems] the answers. *)

From S2P Require Import Prelude PacketTypes PacketBuilder PacketParser TcpBackend Posix TcpClient TcpClientTheorems TcpServer Framing FramingFacts FramingTheorems Transactions TransactionSlots Node TcpNode NodeTheorems Receiving.
#[local] Open Scope Z_scope.

(** [o] is defined, and what it returns, if it returns, satisfies [Q]. *)
Definition ensures {A} (Q : A → Prop) (o : outcome A) : Prop :=
  match o with Ret a => Q a | Pending => True | UB | Abort => False end.

Lemma ensures_bind {A A'} (Q : A → Prop) (Q' : A' → Prop) (o : outcome A) (f : A → outcome A') :
  ensures Q o → (∀ a, Q a → ensures Q' (f a)) → ensures Q' (o ≫= f).
Proof. destruct o; cbn; auto. Qed.

Lemma ensures_mono {A} (Q Q' : A → Prop) (o : outcome A) : ensures Q o → (∀ a, Q a → Q' a) → ensures Q' o.
Proof. destruct o; cbn; auto. Qed.

Lemma ensures_safe {A} (Q : A → Prop) (o : outcome A) : safe o → (∀ a, o = Ret a → Q a) → ensures Q o.
Proof. intros [? ?] HQ. destruct o; [by apply HQ|done..]. Qed.

Lemma safe_ensures {A} (Q : A → Prop) (o : outcome A) : ensures Q o → safe o.
Proof. by destruct o. Qed.

Section any_peer.
Context {B U : Type} {HB : TcpBackend B} {LB : TcpBackendLaws B} {SB : ByteStream B} {HV : NodeVirtuals B U}.
Context (alloc_limit id_min id_max size : Z) (size_range : size < 2 ^ 64).
Implicit Types (n : node B U) (l : link B) (b : B).

(** A link that a peer cannot hurt. *)
Definition sturdy_link l : Prop :=
  fixed size l ∧ zsize (send_buf_ l) ≤ INT_MAX ∧ ∃ b, tcp_backend_ l = Some b ∧ flowing b.

(** The transaction table is consistent, and the callbacks of the operations
    that wait are defined for every packet. *)
Definition sturdy_table (t : tx U) : Prop :=
  ∃ timeout S ps u, t = table id_min id_max timeout S ps u ∧
    table_wf id_min id_max S ps ∧ no_reserved S ∧
    ∀ i last p f, S !! i = Some (Waiting last p f) → ∀ packet u, safe (f packet u).

(** A registered function does not end the process. *)
Definition sturdy_function {A} (f : option (Packet → U → outcome (call A * U))) : Prop :=
  ∀ g, f = Some g → ∀ packet u, safe (g packet u) ∧ ∀ u', g packet u ≠ Ret (ThrewOther, u').

Definition sturdy n : Prop :=
  sturdy_link (lnk n) ∧ sturdy_table (txs n) ∧ sturdy_function (on_read_callback_ n) ∧ sturdy_function (on_write_callback_ n).

(** ** Answers *)

Lemma transmit_sturdy pkt l b :
  sturdy_link l → tcp_backend_ l = Some b → zsize pkt + 12 ≤ zsize (send_buf_ l) →
  ensures (λ '(_, l'), sturdy_link l') (transmit pkt l b).
Proof.
  intros (Hf & Hz & c & Hc & Hb) Hl Hp. rewrite Hl in Hc. injection Hc as <-. unfold transmit.
  eapply (ensures_bind (λ '(_, b'), flowing b')).
  { apply ensures_safe; [apply sendAll_safe|]. intros [res b'] E. by eapply sendAll_flows. }
  intros [res b'] Hb'. cbn [ensures]. split; [done|]. split; [|by exists b'].
  cbn [send_buf_ set_tcp_backend_ set_send_buf_]. rewrite zsize_app, zsize_drop. fold (zsize (frame 0 0 0 pkt)).
  assert (zsize (frame 0 0 0 pkt) = 12 + zsize pkt) by (unfold frame; zs; lia). lia.
Qed.

Lemma send_reply_sturdy total build pkt l :
  (total ≤ INT_MAX → builds build pkt) → zsize pkt = total → sturdy_link l →
  ensures (λ '(_, l'), sturdy_link l') (send_reply alloc_limit total build l).
Proof.
  intros Hb Ht Hl. pose proof Hl as ((Hp & _) & Hz & b & Hlb & _).
  destruct (Z.ltb_spec (zsize (send_buf_ l)) (total + 12)).
  - unfold send_reply, ensure_send_buffer. rewrite (proj2 (Z.ltb_lt _ _)), Hp by done. done.
  - rewrite (send_reply_spec _ _ _ pkt l b); [|apply Hb; lia|done|unfold INT_MAX in *; lia|done].
    rewrite (proj2 (Z.ltb_ge _ _)) by done. apply transmit_sturdy; [done|done|lia].
Qed.

(** ** Packets *)

Lemma user_sturdy n u : sturdy n → sturdy (set_txs (set_user u (txs n)) n).
Proof.
  intros (Hl & (timeout & S & ps & v & E & Ht) & Hr & Hw). split; [done|]. split; [|done].
  exists timeout, S, ps, u. split; [|done]. cbn. by rewrite E.
Qed.

(** A registered function, or what stands for it. *)
Lemma call_sturdy {A} (f : option (Packet → U → outcome (call A * U))) (a : A) packet u :
  sturdy_function f →
  ensures (λ '(r, _), r ≠ ThrewOther) match f with Some g => g packet u | None => Ret (Returned a, u) end.
Proof.
  intros Hf. destruct f as [g|]; [|done]. destruct (Hf g eq_refl packet u) as [Hs Hr].
  apply ensures_safe; [done|]. by intros [r u'] E ->; eapply Hr.
Qed.

(** The answer is sent from a sturdy node. *)
Lemma answer_sturdy n (o : outcome (expected unit * link B)) :
  sturdy n → ensures (λ '(_, l'), sturdy_link l') o →
  ensures (λ '(_, n'), sturdy n')
    ('(res, l) ← o;
     let n := set_lnk l n in
     match res with Unexpected e => Ret (Unexpected e, n) | Ok _ => Ret (Ok true, n) end).
Proof. intros (_ & Hn) Ho. eapply ensures_bind; [exact Ho|]. by intros [[[]|e] l] Hl. Qed.

Lemma serve_read_sturdy packet n : sturdy n → ensures (λ '(_, n'), sturdy n') (serve_read alloc_limit packet n).
Proof.
  intros Hn. unfold serve_read. eapply ensures_bind; [apply call_sturdy, Hn|].
  intros [[data| |] u] Hr; [|by apply user_sturdy|done]. apply answer_sturdy; [by apply user_sturdy|].
  eapply send_reply_sturdy; [apply builds_read_reply|apply zsize_encode_read_reply|apply Hn].
Qed.

Lemma serve_write_sturdy packet n : sturdy n → ensures (λ '(_, n'), sturdy n') (serve_write alloc_limit packet n).
Proof.
  intros Hn. unfold serve_write. eapply ensures_bind; [apply call_sturdy, Hn|].
  intros [[[]| |] u] Hr; [|by apply user_sturdy|done]. apply answer_sturdy; [by apply user_sturdy|].
  eapply send_reply_sturdy; [apply builds_write_reply|apply zsize_encode_write_reply|apply Hn].
Qed.

Lemma dispatch_sturdy packet t : sturdy_table t → ensures (λ '(_, t'), sturdy_table t') (dispatch_reply packet t).
Proof.
  intros Ht. pose proof Ht as (timeout & S & ps & u & -> & Hwf & Hnr & Hs).
  destruct (decide (transactionID packet < id_min ∨ id_max ≤ transactionID packet)) as [Ho|Hin].
  { by rewrite dispatch_reply_out_of_range. }
  destruct (slot_in_range _ _ _ _ (transactionID packet - id_min) Hwf ltac:(lia)) as [s Hi].
  pose proof Hwf as [(H1 & H2 & H3) _].
  rewrite (dispatch_reply_table _ _ _ _ _ _ _ s) with (1 := Hwf) (2 := Hi) by lia.
  destruct s as [|last|last p f]; [done..|].
  apply ensures_bind with (Q := λ _, True); [by apply ensures_safe; [eapply Hs|]|]. intros [r u'] _. cbn [ensures].
  do 4 eexists. split; [done|]. split; [by eapply table_wf_finish|]. split; [by apply no_reserved_insert|].
  intros j last' p' f' Hj. apply list_lookup_insert_Some in Hj as [(_ & ? & _)|[_ Hj]]; [done|]. by eapply Hs.
Qed.

Lemma handle_packet_sturdy packet n : sturdy n → ensures (λ '(_, n'), sturdy n') (handle_packet alloc_limit packet n).
Proof.
  intros Hn. unfold handle_packet. destruct (type packet); [done|by apply serve_read_sturdy|by apply serve_write_sturdy|..].
  all: pose proof Hn as (Hl & Ht & Hf); eapply ensures_bind; [by apply dispatch_sturdy|]; by intros [[[]|e] t] Ht'.
Qed.

(** ** The loop *)

(** A shutdown ends neither in undefined behaviour nor in the end of the process. *)
Context (shutdown_safe : ∀ n, safe (shutdown n)).

Lemma poll_sturdy fuel n :
  sturdy n → ensures (λ '(res, n'), res = Ok true → sturdy n') (poll alloc_limit fuel n).
Proof.
  intros Hn. pose proof Hn as ((Hf & Hz & b & Hb & Hflow) & Hrest). unfold poll.
  apply ensures_bind with (Q := λ '(_, l'), sturdy_link l').
  { destruct (receive_defined alloc_limit fuel (lnk n) b size Hb Hflow Hf size_range) as [Hs Hr].
    apply ensures_safe; [done|]. intros [res l'] E. destruct (Hr _ _ E) as ((Hf' & Hz') & Hb'). split; [done|].
    by rewrite Hz'. }
  intros [[k|e] l'] Hl'; [|by case_match].
  destruct (k =? 0).
  - eapply ensures_bind; [apply (ensures_safe (λ _, True)); [apply shutdown_safe|done]|]. by intros [[[]|e] n'] _.
  - eapply ensures_mono; [by apply handle_packet_sturdy|]. by intros [res n'].
Qed.

Lemma run_loop_sturdy fuel n : sturdy n → safe (run_loop alloc_limit fuel n).
Proof.
  revert n. induction fuel as [|fuel IH]; intros n Hn; [done|]. cbn [run_loop]. destruct (running_ n); [|done].
  pose proof (poll_sturdy fuel n Hn) as Hp. destruct (poll alloc_limit fuel n) as [[[[]|e] n']| | |]; try done.
  by apply IH, Hp.
Qed.
End any_peer.

(** ** The TCP nodes *)

Lemma client_shutdown_safe {W U : Type} {KP : Posix W} retries (n : SpwRmapTCPClient.t W U) :
  safe (SpwRmapTCPClient.shutdown retries n).
Proof.
  unfold SpwRmapTCPClient.shutdown, SpwRmapTCPClient.shutdown_os. apply safe_bind; [|by intros [[] ?]].
  destruct (getBackend_ n) as [b|]; [|done]. apply safe_bind.
  - unfold TCPClient.shutdown. destruct (_ <? 0); [done|]. destruct (sys_shutdown _ _ _). by case_match.
  - intros [[[]|e] b']; [|done]. apply safe_bind; [|done]. apply safe_bind; [|done].
    unfold TCPClient.close_retry_. case_match; [|done]. by apply safe_bind; [apply retry_not_ub|intros []].
Qed.

(** A node over a client, that a peer cannot hurt. *)
Definition sturdy_client {W U : Type} {KP : Posix W} {KV : PosixView W} {KL : PosixLaws W} (retries : nat) (id_min id_max size : Z)
    : SpwRmapTCPClient.t W U → Prop :=
  sturdy (HB := tcp_client_backend retries) (SB := client_stream retries) id_min id_max size.

(** A server to which [bytes] come. *)
Definition accepted_node (bytes : list Z) : SpwRmapTCPServer.t ScriptedKernel unit :=
  initial_node default_config (TCPServer.mk (-1) 3 "127.0.0.1" "10030" (mkKernel 0 [3; 2; 1; 0] [] bytes [] 20 [])) tt.

(** The header of a frame of five bytes. *)
Definition lone_header : list Z := [0; 0; 0; 0; 0; 0; 0; 0; 0; 0; 0; 5].

(** C16: The loop of a TCP client node with fixed buffers is defined for whatever
    bytes the peer sends and however the calls to the system end, as long as the
    user functions throw nothing but exceptions that poll catches and the
    callbacks of waiting operations are defined for every packet: no access out
    of range, no exception out of a noexcept function, on every branch of poll
    and of the shutdown behind it. The TCP server node is not that robust: a
    header whose frame never comes, before the connection ends, makes it parse
    an empty span. *)
Theorem client_survives_any_peer :
  (∀ (W U : Type) (KP : Posix W) (KV : PosixView W) (KL : PosixLaws W) retries alloc_limit id_min id_max size fuel (n : SpwRmapTCPClient.t W U),
     size < 2 ^ 64 → sturdy_client retries id_min id_max size n →
     safe (@runLoop _ U (tcp_client_backend retries) alloc_limit (tcp_client_virtuals retries) fuel n)) ∧
  @runLoop _ unit (tcp_server_backend 5) 4096 tcp_server_virtuals 20 (accepted_node lone_header) = UB.
Proof.
  split; [|by vm_compute]. intros W U KP KV KL retries alloc_limit id_min id_max size fuel n Hs Hn.
  eapply (run_loop_sturdy (LB := tcp_client_laws retries)); [exact Hs|apply client_shutdown_safe|exact Hn].
Qed.
