(* ===== verification/Polling.v ===== *)
(** * A thread that receives, and a shutdown
    (include/spw_rmap/internal/spw_rmap_tcp_node_impl.hh: [runLoop], [poll];
    include/spw_rmap/spw_rmap_tcp_node.hh: [shutdown], [isShutdowned];
    src/tcp_client.cc: [recvSome])

    The tools end like this: one thread is in [runLoop], another calls
    [shutdown], which closes the connection and destroys the backend under
    [shutdown_mtx_], and then joins the first.  [poller] is the place that the
    receiving thread has reached: the program of [Receiving] at its next use of
    [tcp_backend_], in front of or inside of a [::recv], or behind the packet.
    A use of the null pointer, and of a member of the destroyed backend, is
    undefined; a thread that is inside of [::recv] uses no member.

    [poll] behind a packet is left out ([packets_] collects what comes): its
    sections are those of [Concurrency], and its replies are sent by the
    threads of [Sending].  [would_block] says when a [::recv] waits. *)

From S2P Require Import Prelude PacketTypes Posix TcpClient Framing Sending Receiving.
#[local] Open Scope Z_scope.

Section polling.
Context {W : Type} `{Posix W} (retries : nat) (alloc_limit : Z) (frames : nat) (would_block : W → Z → bool).

(** ** The state *)

Record poll_state := mkPollState {
  link_ : link (TCPClient.t W);
  world_ : W;                     (* the system, when the backend has been destroyed *)
  shutdown_mtx_ : bool;
  shutdowned_ : bool;
  packets_ : list Packet;
}.

Definition set_link_ (l : link (TCPClient.t W)) (s : poll_state) : poll_state :=
  mkPollState l (world_ s) (shutdown_mtx_ s) (shutdowned_ s) (packets_ s).
Definition add_packet (p : Packet) (s : poll_state) : poll_state :=
  mkPollState (link_ s) (world_ s) (shutdown_mtx_ s) (shutdowned_ s) (packets_ s ++ [p]).

Definition system (s : poll_state) : W :=
  match tcp_backend_ (link_ s) with Some b => TCPClient.os b | None => world_ s end.
Definition set_system (w : W) (s : poll_state) : poll_state :=
  match tcp_backend_ (link_ s) with
  | Some b => set_link_ (set_tcp_backend_ (Some (TCPClient.set_os w b)) (link_ s)) s
  | None => mkPollState (link_ s) w (shutdown_mtx_ s) (shutdowned_ s) (packets_ s)
  end.

(** What the receiving thread has done to its buffers. *)
Definition install (l : buffers) (s : poll_state) : poll_state :=
  set_link_ (set_packet_parser_ (packet_parser_ l) (set_recv_buf_ (recv_buf_ l) (link_ s))) s.

(** ** [shutdown] in two steps

    [None] when the backend is left to destroy, under the mutex. *)

Definition shutdown_call (s : poll_state) : outcome (option (expected unit) * poll_state) :=
  if shutdown_mtx_ s then Pending else
  match tcp_backend_ (link_ s) with
  | None => Ret (Some (Ok tt), s)
  | Some b =>
      '(res, b) ← TCPClient.shutdown b;
      let l := set_tcp_backend_ (Some b) (link_ s) in
      Ret match res with
          | Unexpected e => (Some (Unexpected e), mkPollState l (world_ s) false true (packets_ s))
          | Ok _ => (None, mkPollState l (world_ s) true true (packets_ s))
          end
  end.

Definition shutdown_destroy (s : poll_state) : outcome poll_state :=
  match tcp_backend_ (link_ s) with
  | None => UB
  | Some b =>
      b ← TCPClient.disconnect retries b;
      Ret (mkPollState (set_tcp_backend_ None (link_ s)) (TCPClient.os b) false (shutdowned_ s) (packets_ s))
  end.

(** ** The two threads *)

Inductive poller :=
| Program (p : io (expected Z * buffers))
| Reading (size : Z) (k : expected (list Z) → io (expected Z * buffers))        (* the loop of [recvSome] *)
| Waiting (fd size : Z) (k : expected (list Z) → io (expected Z * buffers))     (* in [::recv] *)
| AskShutdowned (e : error_code)                                                (* [isShutdowned()] *)
| CloseCall                                                                     (* the [shutdown] of [poll] *)
| CloseDestroy
| Left (res : expected unit).                                                   (* behind [runLoop] *)

Inductive closer :=
| ShutdownCall
| ShutdownDestroy
| Closed (res : expected unit).

(** A round of [runLoop]; nothing sets [running_] to false. *)
Definition poll_start (l : link (TCPClient.t W)) : poller :=
  Program (packet_io alloc_limit frames (rebase None l)).

(** Behind [::recv]. *)
Definition recv_result (size r : Z) (bs : list Z) (w : W) (k : expected (list Z) → io (expected Z * buffers)) : poller :=
  if r <? 0 then
    if errno w =? EINTR then Reading size k
    else if (errno w =? EAGAIN) || (errno w =? EWOULDBLOCK) then Program (k (Unexpected (generic timed_out)))
    else Program (k (TCPClient.fail_errno w))
  else if r =? 0 then Program (k (Unexpected (generic io_error)))
  else Program (k (Ok bs)).

Definition poller_step (c : poller) (s : poll_state) : outcome (poller * poll_state) :=
  let backend := tcp_backend_ (link_ s) in
  match c with
  | Program (Done o) =>
      '(res, l) ← o;
      let s := install l s in
      match res with
      | Unexpected e => Ret (AskShutdowned e, s)
      | Ok n =>
          if n =? 0 then Ret (CloseCall, s)
          else Ret (poll_start (link_ s), add_packet (packet_parser_ l) s)
      end
  | Program (TestBackend k) => Ret (Program (k (bool_decide (is_Some backend))), s)
  | Program (Receive size k) =>
      match backend with
      | None => UB
      | Some _ => if size =? 0 then Ret (Program (k (Ok [])), s) else Ret (Reading size k, s)
      end
  | Reading size k =>
      match backend with None => UB | Some b => Ret (Waiting (TCPClient.fd_ b) size k, s) end
  | Waiting fd size k =>
      if would_block (system s) fd then Pending else
      let '(r, bs, w) := sys_recv fd size (system s) in
      Ret (recv_result size r bs w k, set_system w s)
  | AskShutdowned e =>
      if shutdown_mtx_ s then Pending else
      Ret (Left (if shutdowned_ s then Ok tt else Unexpected e), s)
  | CloseCall =>
      '(res, s) ← shutdown_call s;
      Ret (match res with Some res => Left res | None => CloseDestroy end, s)
  | CloseDestroy => s ← shutdown_destroy s; Ret (Left (Ok tt), s)
  | Left _ => Pending
  end.

Definition closer_step (c : closer) (s : poll_state) : outcome (closer * poll_state) :=
  match c with
  | ShutdownCall =>
      '(res, s) ← shutdown_call s;
      Ret (match res with Some res => Closed res | None => ShutdownDestroy end, s)
  | ShutdownDestroy => s ← shutdown_destroy s; Ret (Closed (Ok tt), s)
  | Closed _ => Pending
  end.

(** ** The system *)

Record threads := mkThreads {
  poller_ : poller;
  closer_ : closer;
  state_ : poll_state;
}.

Inductive thread := Poller | Closer.

Definition threads_step (t : thread) (s : threads) : outcome threads :=
  match t with
  | Poller => '(c, st) ← poller_step (poller_ s) (state_ s); Ret (mkThreads c (closer_ s) st)
  | Closer => '(c, st) ← closer_step (closer_ s) (state_ s); Ret (mkThreads (poller_ s) c st)
  end.

Fixpoint run_threads (schedule : list thread) (s : threads) : outcome threads :=
  match schedule with
  | [] => Ret s
  | t :: schedule => s ← threads_step t s; run_threads schedule s
  end.

Definition start_threads (l : link (TCPClient.t W)) (w : W) : threads :=
  mkThreads (poll_start l) ShutdownCall (mkPollState l w false false []).
End polling.
Arguments poll_state W : clear implicits.
Arguments threads W : clear implicits.
