(* ===== verification/PollingTheorems.v ===== *)
(** * Shutting down while a thread receives

    An error of [recvSome], and a null pointer where the program tests for it,
    end the program with this error ([gives_up]).  So a thread that is blocked
    in [::recv] leaves [runLoop] with success when another thread shuts the
    client down, under any schedule ([blocked_poller_leaves]); one that is
    anywhere else in the middle of a packet can use the destroyed backend. *)

From S2P Require Import Prelude PacketTypes PacketParser TcpBackend Posix TcpClient Framing Sending Receiving Polling.
#[local] Open Scope Z_scope.

(** A [::recv] on a connection that has been shut down, on which nothing is left
    to receive, does not wait and delivers nothing; signals do not come. *)
Class ShutdownLaws (W : Type) `{Posix W} (would_block : W → Z → bool) := {
  shut : W → Z → Prop;
  shutdown_shuts w fd r w' :
    would_block w fd = true → sys_shutdown fd SHUT_RDWR w = (r, w') → 0 ≤ r → shut w' fd;
  shut_returns w fd : shut w fd → would_block w fd = false;
  shut_recv w fd size r bs w' :
    shut w fd → sys_recv fd size w = (r, bs, w') → r ≤ 0 ∧ interrupted r w' = false ∧ shut w' fd;
  shut_close w fd r w' : shut w fd → sys_close fd w = (r, w') → interrupted r w' = false ∧ shut w' fd;
}.

(** ** Errors end the program *)

Fixpoint gives_up {A} (R : error_code → A → Prop) (p : io A) : Prop :=
  match p with
  | Done _ => True
  | TestBackend k => (∃ a, k false = mret a ∧ R (generic not_connected) a) ∧ gives_up R (k true)
  | Receive size k => (∀ e, ∃ a, k (Unexpected e) = mret a ∧ R e a) ∧ ∀ bs, gives_up R (k (Ok bs))
  end.

Lemma gives_up_bind {A A'} (R : error_code → A → Prop) (R' : error_code → A' → Prop) (p : io A) (f : A → io A') :
  gives_up R p → (∀ a, gives_up R' (f a)) → (∀ e a, R e a → ∃ a', f a = mret a' ∧ R' e a') → gives_up R' (p ≫= f).
Proof.
  intros Hp Hf He. induction p as [[]|k IH|size k IH]; cbn; try done.
  - destruct Hp as [(a & E & Ha) Hp]. split; [|by apply IH]. rewrite E. by apply (He _ a).
  - destruct Hp as [Hu Hp]. split; [|intros bs; by apply IH]. intros e. destruct (Hu e) as (a & -> & Ha). by apply (He _ a).
Qed.

Lemma gives_up_pure {A A'} (R : error_code → A' → Prop) (o : outcome A) (f : A → io A') :
  (∀ a, gives_up R (f a)) → gives_up R (Done o ≫= f).
Proof. intros Hf. by destruct o; [apply Hf| | |]. Qed.

(** The error is the result, or its first part. *)
Definition failed (e : error_code) (res : expected Z) : Prop := res = Unexpected e.
Definition failed_with {A} (e : error_code) (a : expected Z * A) : Prop := a.1 = Unexpected e.

(** An error of a part is the error of the whole. *)
Ltac error_passes :=
  let e := fresh "e" in let E := fresh "E" in
  intros e [] E; unfold failed, failed_with in E; cbn in E; simplify_eq; by eexists.

Lemma exact_gives_up fuel buffer off : gives_up failed_with (exact_io fuel buffer off).
Proof.
  revert buffer off. induction fuel as [|fuel IH]; intros buffer off; [done|]. cbn [exact_io].
  destruct (_ =? _); [done|]. split; [intros e; by eexists|]. intros bs. destruct (_ =? _); [done|]. by destruct (_ <? _).
Qed.

Lemma recvExact_gives_up buffer : gives_up failed_with (recvExact_io buffer).
Proof. split; [by eexists|]. apply exact_gives_up. Qed.

Lemma ignore_gives_up fuel n : gives_up failed (ignore_io fuel n).
Proof.
  revert n. induction fuel as [|fuel IH]; intros n; [done|]. cbn [ignore_io]. destruct (_ <? _); [|done].
  split; [intros e; by eexists|]. intros bs. by destruct (_ =? _).
Qed.

Lemma ignoreNBytes_gives_up fuel n : gives_up failed (ignoreNBytes_io fuel n).
Proof.
  split; [by eexists|]. apply (gives_up_bind failed); [apply ignore_gives_up| |by error_passes].
  intros [rest|e]; [|done]. destruct (0 <? rest); [|done].
  apply (gives_up_bind failed_with); [apply recvExact_gives_up|by intros [[] ?]|].
  by error_passes.
Qed.

Lemma recv_data_gives_up off len dataLength l : gives_up failed_with (recv_data_io off len dataLength l).
Proof.
  unfold recv_data_io. destruct (_ <? _); [done|]. apply gives_up_pure. intros buffer.
  apply (gives_up_bind failed_with); [apply recvExact_gives_up|by intros []|].
  by error_passes.
Qed.

Lemma recv_gives_up alloc_limit fuel total_size off len l : gives_up failed_with (recv_io alloc_limit fuel total_size off len l).
Proof.
  revert total_size off len l. induction fuel as [|fuel IH]; intros total_size off len l; [done|]. cbn [recv_io].
  apply (gives_up_bind failed_with); [apply recvExact_gives_up| |by error_passes].
  intros [[n|e] header]; [|done]. destruct (n =? 0); [done|]. apply gives_up_pure. intros h0.
  destruct (negb (valid_type h0)); [done|]. apply gives_up_pure. intros h1. destruct (negb (h1 =? 0)); [done|].
  apply gives_up_pure. intros [dl|e]; [|done]. destruct (dl =? 0); [done|]. apply gives_up_pure.
  intros [[[off1 len1] l1]|]; [|done]. destruct (h0 =? 0); [|destruct (h0 =? 1); [|destruct (h0 =? 2)]].
  - apply (gives_up_bind failed_with); [apply recv_data_gives_up| |].
    + by intros [[k|e] l2].
    + by error_passes.
  - apply (gives_up_bind failed); [apply ignoreNBytes_gives_up| |].
    + intros [k|e]; [|done]. split; [by eexists|apply IH].
    + by error_passes.
  - apply (gives_up_bind failed_with); [apply recv_data_gives_up| |].
    + by intros [[k|e] l2].
    + by error_passes.
  - apply gives_up_pure. intros rest. destruct (negb _); [done|].
    apply (gives_up_bind failed_with); [apply recvExact_gives_up| |by error_passes].
    intros [[k|e] tc]; [|done]. apply gives_up_pure. intros t1. by destruct (negb (t1 =? 0)).
Qed.

Lemma packet_gives_up alloc_limit fuel l : gives_up failed_with (packet_io alloc_limit fuel l).
Proof. split; [by eexists|]. apply recv_gives_up. Qed.

(** ** Before the shutdown *)

Section polling.
Context {W : Type} {KP : Posix W} (retries : nat) (alloc_limit : Z) (frames : nat) (would_block : W → Z → bool).
Implicit Types (l : link (TCPClient.t W)) (c : poller) (s : poll_state W) (b : TCPClient.t W).
Abbreviation poller_step := (poller_step retries alloc_limit frames would_block).
Abbreviation run_threads := (run_threads retries alloc_limit frames would_block).
Abbreviation threads_step := (threads_step retries alloc_limit frames would_block).

(** What a call of [recvSome] is followed by. *)
Definition awaits (k : expected (list Z) → io (expected Z * buffers)) : Prop :=
  (∀ e, ∃ l : buffers, k (Unexpected e) = mret (Unexpected e, l)) ∧ ∀ bs, gives_up failed_with (k (Ok bs)).

(** A thread that receives while the backend is there. *)
Definition receiving c s : Prop :=
  match c with
  | Program p => gives_up failed_with p ∧ ∃ b, tcp_backend_ (link_ s) = Some b ∧ 0 ≤ TCPClient.fd_ b
  | Reading _ k => awaits k ∧ ∃ b, tcp_backend_ (link_ s) = Some b ∧ 0 ≤ TCPClient.fd_ b
  | Waiting fd _ k => awaits k ∧ ∃ b, tcp_backend_ (link_ s) = Some b ∧ TCPClient.fd_ b = fd ∧ 0 ≤ fd
  | _ => True
  end ∧
  match c with CloseDestroy => True | _ => shutdown_mtx_ s = false end.

Lemma error_result (k : expected (list Z) → io (expected Z * buffers)) e :
  (∀ e, ∃ a, k (Unexpected e) = mret a ∧ failed_with e a) → ∃ l : buffers, k (Unexpected e) = mret (Unexpected e, l).
Proof. intros H. destruct (H e) as ([res l] & -> & E). change (res = Unexpected e) in E. subst res. by exists l. Qed.

Lemma program_receiving (k : expected (list Z) → io (expected Z * buffers)) e : awaits k → gives_up failed_with (k (Unexpected e)).
Proof. intros [He _]. by destruct (He e) as [l ->]. Qed.

Lemma receiving_step c s c' s' : receiving c s → poller_step c s = Ret (c', s') → receiving c' s'.
Proof.
  intros [Hc Hm] E. destruct c as [[o|k|size k]|size k|fd size k|e| | |res]; cbn [poller_step] in E.
  - apply bind_Ret in E as ([[n|e] l] & _ & E).
    + destruct (n =? 0); injection E as <- <-; [by split|]. split; [|done]. split; [apply packet_gives_up|].
      destruct Hc as (_ & b & Hb & Hfd). by exists b.
    + injection E as <- <-. by split.
  - injection E as <- <-. split; [|done]. destruct Hc as ([(a & E & _) Hk] & b & Hb & Hfd). rewrite Hb.
    split; [|by exists b]. exact Hk.
  - destruct Hc as ([Hu Hk] & b & Hb & Hfd). rewrite Hb in E.
    destruct (size =? 0); injection E as <- <-; (split; [split; [|by exists b]|done]); [apply Hk|].
    split; [|done]. intros e. by apply error_result.
  - destruct Hc as (Hk & b & Hb & Hfd). rewrite Hb in E. injection E as <- <-. split; [|done]. split; [done|]. by exists b.
  - destruct (would_block _ _); [done|]. destruct Hc as (Hk & b & Hb & Hfd & Hpos).
    destruct (sys_recv _ _ _) as [[r bs] w]. injection E as <- <-.
    assert (Hb' : ∃ b', tcp_backend_ (link_ (set_system w s)) = Some b' ∧ 0 ≤ TCPClient.fd_ b').
    { unfold set_system. rewrite Hb. eexists. split; [done|]. cbn. lia. }
    assert (Hm' : shutdown_mtx_ (set_system w s) = false) by (unfold set_system; by rewrite Hb).
    unfold recv_result. destruct (r <? 0); [destruct (errno w =? EINTR); [|destruct (_ || _)]|destruct (r =? 0)];
      (split; [split; [|exact Hb']|exact Hm']); first [exact Hk|by apply program_receiving|apply Hk].
  - destruct (shutdown_mtx_ s) eqn:Em; [done|]. injection E as <- <-. by split.
  - apply bind_Ret in E as ([[res|] s1] & Es & [= <- <-]); [|by split]. split; [done|].
    unfold shutdown_call in Es. rewrite Hm in Es. destruct (tcp_backend_ (link_ s)) as [b|]; [|by injection Es as <- <-].
    apply bind_Ret in Es as ([[[]|e] b'] & _ & Es); [done|]. by injection Es as <- <-.
  - apply bind_Ret in E as (s1 & Es & [= <- <-]). split; [done|]. unfold shutdown_destroy in Es.
    destruct (tcp_backend_ (link_ s)) as [b|]; [|done]. apply bind_Ret in Es as (b' & _ & Es). by injection Es as <-.
  - done.
Qed.

Lemma receiving_run n st st' :
  receiving (poller_ st) (state_ st) → run_threads (replicate n Poller) st = Ret st' →
  receiving (poller_ st') (state_ st') ∧ closer_ st' = closer_ st.
Proof.
  revert st. induction n as [|n IH]; intros st Hr; cbn [replicate Polling.run_threads]; [by intros [= <-]|].
  intros (st1 & E & Hrun)%bind_Ret. cbn [Polling.threads_step] in E. apply bind_Ret in E as ([c s] & E & [= <-]).
  apply IH in Hrun; [done|]. by eapply receiving_step.
Qed.

(** ** The shutdown *)

Context {SL : ShutdownLaws W would_block} (retries_pos : (0 < retries)%nat).

(** The places on the way out, with the steps that are left. *)
Inductive leaving (fd : Z) : nat → poller → Prop :=
| LeaveWaiting size k : awaits k → leaving fd 3 (Waiting fd size k)
| LeaveProgram e (l : buffers) : leaving fd 2 (Program (mret (Unexpected e, l)))
| LeaveAsk e : leaving fd 1 (AskShutdowned e)
| LeaveLeft : leaving fd 0 (Left (Ok tt)).

Inductive phase (fd : Z) : nat → threads W → Prop :=
| PhaseCall size k s b :
    awaits k → tcp_backend_ (link_ s) = Some b → TCPClient.fd_ b = fd → 0 ≤ fd → shutdown_mtx_ s = false →
    would_block (TCPClient.os b) fd = true →
    (∀ r w, sys_shutdown fd SHUT_RDWR (TCPClient.os b) = (r, w) → 0 ≤ r) →
    phase fd 5 (mkThreads (Waiting fd size k) ShutdownCall s)
| PhaseDestroy n c s b :
    leaving fd n c → tcp_backend_ (link_ s) = Some b → TCPClient.fd_ b = fd → 0 ≤ fd → shutdown_mtx_ s = true →
    shutdowned_ s = true → shut (TCPClient.os b) fd →
    phase fd (S n) (mkThreads c ShutdownDestroy s)
| PhaseClosed n c s :
    leaving fd n c → tcp_backend_ (link_ s) = None → shutdown_mtx_ s = false → shutdowned_ s = true → shut (world_ s) fd →
    phase fd n (mkThreads c (Closed (Ok tt)) s).

Lemma closed_without_bytes fd size r bs w k :
  awaits k → r ≤ 0 → interrupted r w = false → leaving fd 2 (recv_result size r bs w k).
Proof.
  intros [Hk _] Hr Hi. unfold recv_result, interrupted in *.
  assert (Hl : ∀ e, leaving fd 2 (Program (k (Unexpected e)))) by (intros e; destruct (Hk e) as [l ->]; constructor).
  destruct (Z.ltb_spec r 0); [cbn in Hi; rewrite Hi; destruct (_ || _); apply Hl|].
  rewrite (proj2 (Z.eqb_eq r 0)) by lia. apply Hl.
Qed.

(** A step on the way out. *)
Lemma leaving_step fd n c s :
  leaving fd n c → shut (system s) fd → shutdowned_ s = true →
  poller_step c s = Pending ∨
  ∃ c' s' m, poller_step c s = Ret (c', s') ∧ n = S m ∧ leaving fd m c' ∧ shut (system s') fd ∧
    shutdown_mtx_ s' = shutdown_mtx_ s ∧ shutdowned_ s' = true ∧
    match tcp_backend_ (link_ s) with
    | Some b => ∃ b', tcp_backend_ (link_ s') = Some b' ∧ TCPClient.fd_ b' = TCPClient.fd_ b
    | None => tcp_backend_ (link_ s') = None
    end.
Proof.
  intros Hl Hs Hd. destruct Hl as [size k Hk|e l|e|]; cbn [Polling.poller_step mret io_mret]; [| | |by left].
  - rewrite (shut_returns _ _ Hs). destruct (sys_recv fd size (system s)) as [[r bs] w] eqn:E.
    destruct (shut_recv _ _ _ _ _ _ Hs E) as (Hr & Hi & Hw). right. eexists _, _, 2%nat. split; [done|].
    split; [done|]. split; [by apply closed_without_bytes|]. unfold set_system, system.
    destruct (tcp_backend_ (link_ s)) as [b|] eqn:Eb; cbn; rewrite ?Eb; cbn; split_and!; try done. by eexists.
  - right. exists (AskShutdowned e), (install l s), 1%nat. split; [done|]. split; [done|]. split; [constructor|].
    split_and!; try done. cbn. destruct (tcp_backend_ (link_ s)) as [b|]; [by exists b|done].
  - destruct (shutdown_mtx_ s) eqn:Em; [by left|]. right. eexists _, _, 0%nat. rewrite Hd. split; [done|].
    split; [done|]. split; [constructor|]. split_and!; try done.
    destruct (tcp_backend_ (link_ s)) as [b|]; [by exists b|done].
Qed.

(** Out of the mutex's way, it is possible. *)
Lemma leaving_moves fd n c s :
  leaving fd (S n) c → shut (system s) fd → shutdown_mtx_ s = false → ∃ st, poller_step c s = Ret st.
Proof.
  intros Hl Hs Hm. inversion Hl; subst; cbn [Polling.poller_step mret io_mret].
  - rewrite (shut_returns _ _ Hs). destruct (sys_recv _ _ _) as [[r bs] w]. by eexists.
  - cbn. by eexists.
  - rewrite Hm. by eexists.
Qed.

Lemma destroy_closes fd b s :
  tcp_backend_ (link_ s) = Some b → TCPClient.fd_ b = fd → 0 ≤ fd → shut (TCPClient.os b) fd →
  ∃ w, shutdown_destroy retries s =
    Ret (mkPollState (set_tcp_backend_ None (link_ s)) w false (shutdowned_ s) (packets_ s)) ∧ shut w fd.
Proof.
  intros Hb Hfd Hpos Hs. unfold shutdown_destroy, TCPClient.disconnect, TCPClient.close_retry_.
  rewrite Hb, Hfd, (proj2 (Z.leb_le 0 fd)) by done.
  destruct retries as [|rounds]; [lia|]. cbn [retry]. destruct (sys_close fd (TCPClient.os b)) as [r w] eqn:E.
  destruct (shut_close _ _ _ _ Hs E) as [Hi Hw]. cbn [id] in *. rewrite Hi. exists w. by split.
Qed.

Lemma phase_step fd m st t :
  phase fd m st →
  threads_step t st = Pending ∨ ∃ st' m', threads_step t st = Ret st' ∧ m = S m' ∧ phase fd m' st'.
Proof.
  intros Hp. destruct Hp as [size k s b Hk Hb Hfd Hpos Hm Hblk Hok|n c s b Hl Hb Hfd Hpos Hm Hd Hs|n c s Hl Hb Hm Hd Hs].
  - destruct t; cbn [Polling.threads_step poller_ closer_ state_].
    { left. cbn [Polling.poller_step]. unfold system. by rewrite Hb, Hblk. }
    right. cbn [closer_step]. unfold shutdown_call. rewrite Hm, Hb. unfold TCPClient.shutdown.
    rewrite Hfd, (proj2 (Z.ltb_ge fd 0)) by done. destruct (sys_shutdown fd SHUT_RDWR (TCPClient.os b)) as [r w] eqn:E.
    pose proof (Hok r w eq_refl) as Hr. rewrite (proj2 (Z.ltb_ge r 0)) by done. eexists _, 4%nat. split; [done|]. split; [done|].
    eapply PhaseDestroy; [by constructor|done|done|done|done|done|]. by eapply shutdown_shuts.
  - destruct t; cbn [Polling.threads_step poller_ closer_ state_].
    + assert (Hs' : shut (system s) fd) by (unfold system; by rewrite Hb).
      destruct (leaving_step fd n c s Hl Hs' Hd) as [->|(c' & s' & m & -> & -> & Hl' & Hsh & Hm' & Hd' & Hb')]; [by left|].
      rewrite Hb in Hb'. destruct Hb' as (b' & Hb' & Hf'). right. eexists _, (S m). split; [done|]. split; [done|].
      eapply PhaseDestroy; [done|exact Hb'|congruence|done|by rewrite Hm'|done|]. unfold system in Hsh. by rewrite Hb' in Hsh.
    + right. cbn [closer_step]. destruct (destroy_closes fd b s) as (w & -> & Hw); [done..|].
      eexists _, n. split; [done|]. split; [done|]. by apply PhaseClosed.
  - destruct t; cbn [Polling.threads_step poller_ closer_ state_]; [|by left].
    assert (Hs' : shut (system s) fd) by (unfold system; by rewrite Hb).
    destruct (leaving_step fd n c s Hl Hs' Hd) as [->|(c' & s' & m & -> & -> & Hl' & Hsh & Hm' & Hd' & Hb')]; [by left|].
    rewrite Hb in Hb'. right. eexists _, m. split; [done|]. split; [done|].
    apply PhaseClosed; [done|done|by rewrite Hm'|done|]. unfold system in Hsh. by rewrite Hb' in Hsh.
Qed.

Lemma phase_moves fd m st : phase fd (S m) st → ∃ t st', threads_step t st = Ret st'.
Proof.
  intros Hp. inversion Hp as [size k s b Hk Hb Hfd Hpos Hm Hblk Hok|n c s b Hl Hb Hfd Hpos Hm Hd Hs|n c s Hl Hb Hm Hd Hs]; subst.
  - exists Closer. cbn [Polling.threads_step poller_ closer_ state_ closer_step]. unfold shutdown_call. rewrite Hm, Hb.
    unfold TCPClient.shutdown. rewrite (proj2 (Z.ltb_ge _ 0)) by done.
    destruct (sys_shutdown _ SHUT_RDWR (TCPClient.os b)) as [r w] eqn:E. pose proof (Hok r w eq_refl).
    rewrite (proj2 (Z.ltb_ge r 0)) by done. by eexists.
  - exists Closer. cbn [Polling.threads_step poller_ closer_ state_ closer_step].
    destruct (destroy_closes (TCPClient.fd_ b) b s) as (w & -> & _); [done..|]. by eexists.
  - exists Poller. cbn [Polling.threads_step poller_ closer_ state_].
    destruct (leaving_moves fd m c s Hl) as [[c' s'] ->]; [unfold system; by rewrite Hb|done|]. by eexists.
Qed.

(** Both threads have ended with success. *)
Definition ended (st : threads W) : Prop :=
  poller_ st = Left (Ok tt) ∧ closer_ st = Closed (Ok tt) ∧ tcp_backend_ (link_ (state_ st)) = None.

Lemma phase_ended fd st : phase fd 0 st → ended st.
Proof. intros Hp. inversion Hp as [| |n c s Hl]; subst. by inversion Hl. Qed.

Lemma phase_run fd m st schedule :
  phase fd m st →
  match run_threads schedule st with
  | Ret st' => ∃ m', phase fd m' st' ∧ m = (length schedule + m')%nat
  | Pending => True
  | UB | Abort => False
  end.
Proof.
  revert m st. induction schedule as [|t schedule IH]; intros m st Hp; [by exists m|]. cbn [Polling.run_threads].
  destruct (phase_step fd m st t Hp) as [->|(st' & m' & -> & -> & Hp')]; [done|]. rewrite bind_ret.
  specialize (IH m' st' Hp'). destruct (run_threads schedule st') as [st1| | |]; [|done..].
  destruct IH as (m1 & ? & ->). by exists m1.
Qed.

(** From a [::recv] that waits: every schedule. *)
Lemma blocked_poller_leaves l w b n st fd size k schedule :
  tcp_backend_ l = Some b → 0 ≤ TCPClient.fd_ b →
  run_threads (replicate n Poller) (start_threads alloc_limit frames l w) = Ret st →
  poller_ st = Waiting fd size k → would_block (system (state_ st)) fd = true →
  (∀ r w', sys_shutdown fd SHUT_RDWR (system (state_ st)) = (r, w') → 0 ≤ r) →
  match run_threads schedule st with
  | Ret st' =>
      (length schedule ≤ 5)%nat ∧
      (if decide (length schedule = 5)%nat then ended st' else ∃ t st'', threads_step t st' = Ret st'')
  | Pending => True
  | UB | Abort => False
  end.
Proof.
  intros Hb Hfd Hrun Hw Hblk Hok.
  assert (Hst : receiving (poll_start alloc_limit frames l) (mkPollState l w false false [])).
  { split; [|done]. split; [apply packet_gives_up|by exists b]. }
  destruct (receiving_run n (start_threads alloc_limit frames l w) st Hst Hrun) as [[Hr Hm] Hc]. destruct st as [c cl s].
  cbn [poller_ closer_ state_] in *. subst c cl. destruct Hr as (Hk & b' & Hb' & Hfd' & Hpos).
  unfold system in Hblk, Hok. rewrite Hb' in Hblk, Hok.
  assert (Hp : phase fd 5 (mkThreads (Waiting fd size k) ShutdownCall s)) by by eapply PhaseCall.
  pose proof (phase_run fd 5 _ schedule Hp) as Hs. destruct (run_threads schedule _) as [st'| | |]; [|done..].
  destruct Hs as (m & Hm' & E). split; [lia|]. destruct (decide _) as [El|Hne].
  - apply (phase_ended fd). by replace m with 0%nat in Hm' by lia.
  - destruct m as [|m]; [lia|]. by eapply phase_moves.
Qed.
End polling.

(** ** Schedules *)

(** The scripted system; a [::recv] waits while nothing has come and the last
    entry of the script, which is for the shutdown, is left. *)
Definition scripted_block (w : ScriptedKernel) (fd : Z) : bool :=
  bool_decide (k_in w = []) && bool_decide (k_script w = [None]).

#[export] Program Instance scripted_shutdown : ShutdownLaws ScriptedKernel scripted_block := {
  shut w _ := k_in w = [] ∧ k_script w = [];
}.
Next Obligation.
  intros w fd r w' [Hi Hs]%andb_true_iff. apply bool_decide_eq_true in Hi, Hs. cbn. unfold k_call, k_next. rewrite Hs.
  by intros [= <- <-].
Qed.
Next Obligation. intros w fd [Hi Hs]. unfold scripted_block. by rewrite Hs, andb_false_r. Qed.
Next Obligation.
  intros w fd size r bs w' [Hi Hs]. cbn. unfold k_recv, k_next. rewrite Hs, Hi. rewrite take_nil.
  intros [= <- <- <-]. by split_and!.
Qed.
Next Obligation.
  intros w fd r w' [Hi Hs]. cbn. unfold k_next. rewrite Hs. by intros [= <- <-].
Qed.

(** A connected client to which [bytes] come. *)
Definition polled_link (script : list (option Z)) (bytes : list Z) : link (TCPClient.t ScriptedKernel) :=
  mkLink (Some (TCPClient.mk 3 "127.0.0.1" "10030" (mkKernel 0 [3; 2; 1; 0] script bytes [] 20 [])))
    (replicate 64 0) [] AutoResize empty_packet 0xFE true.

Definition polling (schedule : list thread) (script : list (option Z)) (bytes : list Z) : outcome (threads ScriptedKernel) :=
  run_threads 5 4096 8 scripted_block schedule (start_threads 4096 8 (polled_link script bytes) (mkKernel 0 [] [] [] [] 1 [])).

(** A time code, and the header of a frame of five bytes with one of them. *)
Definition timecode_frame : list Z := [0x30; 0; 0; 0; 0; 0; 0; 0; 0; 0; 0; 2; 7; 0].
Definition partial_frame : list Z := [0; 0; 0; 0; 0; 0; 0; 0; 0; 0; 0; 5; 1].

Definition shutdown_now : list thread := [Closer; Closer].

(** C18: A thread that is blocked in ::recv leaves runLoop with success when another
    thread shuts the client down: under every schedule both threads end after at
    most five steps, some step is possible until then, and no step is undefined.
    A shutdown in the middle of a packet is as harmless between two functions,
    where tcp_backend_ is tested; at the three places behind the test, and
    behind a ::recv that a signal has interrupted, the thread goes on with the
    destroyed backend. *)
Theorem shutdown_while_receiving :
  (∀ (W : Type) (KP : Posix W) would_block (SL : ShutdownLaws W would_block) retries alloc_limit frames l w b n st fd size k schedule,
     (0 < retries)%nat → tcp_backend_ l = Some b → 0 ≤ TCPClient.fd_ b →
     let run := run_threads retries alloc_limit frames would_block in
     run (replicate n Poller) (start_threads alloc_limit frames l w) = Ret st →
     poller_ st = Waiting fd size k → would_block (system (state_ st)) fd = true →
     (∀ r w', sys_shutdown fd SHUT_RDWR (system (state_ st)) = (r, w') → 0 ≤ r) →
     match run schedule st with
     | Ret st' =>
         (length schedule ≤ 5)%nat ∧
         (if decide (length schedule = 5)%nat then ended st'
          else ∃ t st'', threads_step retries alloc_limit frames would_block t st' = Ret st'')
     | Pending => True
     | UB | Abort => False
     end) ∧
  (∃ st, polling (replicate 5 Poller ++ shutdown_now ++ replicate 3 Poller) [] partial_frame = Ret st ∧ ended st) ∧
  (∀ n, (6 ≤ n ≤ 8)%nat → polling (replicate n Poller ++ shutdown_now ++ replicate 3 Poller) [] partial_frame = UB) ∧
  polling (replicate 8 Poller ++ shutdown_now ++ replicate 2 Poller) [None; None; None; Some EINTR] partial_frame = UB.
Proof.
  split; [|split; [|split; [|by vm_compute]]].
  - intros. by eapply blocked_poller_leaves.
  - eexists. split; [by vm_compute|by split_and!].
  - intros n Hn. assert (n = 6 ∨ n = 7 ∨ n = 8)%nat as [->|[->| ->]] by lia; by vm_compute.
Qed.
