(* ===== verification/PollingAlone.v ===== *)
(** * A receiving thread alone

    The steps of [Polling] against the function of [Framing]: a thread that
    receives while no other thread moves does what [recvAndParseOnePacket_]
    does, if this returns ([poller_alone_refines]). *)

From S2P Require Import Prelude PacketTypes PacketParser TcpBackend Posix TcpClient Framing Sending Receiving Polling.
#[local] Open Scope Z_scope.

(** What a program returns, if it returns. *)
Fixpoint results {A} (Q : A → Prop) (p : io A) : Prop :=
  match p with
  | Done (Ret a) => Q a
  | Done _ => True
  | TestBackend k => ∀ connected, results Q (k connected)
  | Receive size k => ∀ res, results Q (k res)
  end.

Lemma results_all {A} (Q : A → Prop) (p : io A) : (∀ a, Q a) → results Q p.
Proof. intros HQ. induction p as [[]|k IH|size k IH]; cbn; auto. Qed.

Lemma results_mono {A} (Q Q' : A → Prop) (p : io A) : (∀ a, Q a → Q' a) → results Q p → results Q' p.
Proof. intros HQ. induction p as [[]|k IH|size k IH]; cbn; auto. Qed.

Lemma results_bind {A A'} (Q : A → Prop) (Q' : A' → Prop) (p : io A) (f : A → io A') :
  results Q p → (∀ a, Q a → results Q' (f a)) → results Q' (p ≫= f).
Proof. intros Hp Hf. induction p as [[]|k IH|size k IH]; cbn in *; try done; [by apply Hf|intros ?; by apply IH..]. Qed.

Lemma results_pure {A A'} (Q' : A' → Prop) (o : outcome A) (f : A → io A') :
  (∀ a, o = Ret a → results Q' (f a)) → results Q' (Done o ≫= f).
Proof. intros Hf. by destruct o; [apply Hf| | |]. Qed.

(** [l'] is [l] with other buffers for receiving. *)
Definition received_into (l l' : buffers) : Prop :=
  l' = set_packet_parser_ (packet_parser_ l') (set_recv_buf_ (recv_buf_ l') l).

Lemma received_into_trans l1 l2 l3 : received_into l1 l2 → received_into l2 l3 → received_into l1 l3.
Proof. unfold received_into. intros H1 H2. rewrite H2, H1. done. Qed.

Lemma received_into_refl l : received_into l l.
Proof. by destruct l. Qed.

Lemma grow_received alloc_limit t dl off len l off' len' l' :
  grow_recv_buffer alloc_limit t dl off len l = Ret (Some (off', len', l')) → received_into l l'.
Proof.
  unfold grow_recv_buffer. destruct (len <? dl); [|intros [= _ _ <-]; apply received_into_refl].
  destruct (buffer_policy_ l); [done|]. intros (buf & _ & E)%bind_Ret. apply bind_Ret in E as (span & _ & [= _ _ <-]). by destruct l.
Qed.

Lemma finish_received t l : results (λ a, received_into l a.2) (Done (finish_packet t l)).
Proof.
  unfold finish_packet. destruct (subspan _ _ _) as [packet| | |]; try done. rewrite bind_ret.
  destruct (parse packet (packet_parser_ l)) as [[st p]| | |]; try done. rewrite bind_ret.
  destruct (decide (st = Success)); by destruct l.
Qed.

Lemma recv_data_received off len dl l : results (λ a, received_into l a.2) (recv_data_io off len dl l).
Proof.
  unfold recv_data_io. destruct (_ <? _); [done|]. apply results_pure. intros buffer _.
  apply (results_bind (λ _, True)); [by apply results_all|]. intros [res buf] _. by destruct l.
Qed.

Lemma recv_received alloc_limit fuel t off len l : results (λ a, received_into l a.2) (recv_io alloc_limit fuel t off len l).
Proof.
  revert t off len l. induction fuel as [|fuel IH]; intros t off len l; [done|]. cbn [recv_io].
  pose proof (received_into_refl l) as Hl.
  assert (Hnext : ∀ l1 t off len, received_into l l1 → results (λ a, received_into l a.2) (recv_io alloc_limit fuel t off len l1)).
  { intros l1 t1 off1 len1 H1. eapply results_mono; [|apply IH]. intros [res l2] H2. by eapply received_into_trans. }
  apply (results_bind (λ _, True)); [by apply results_all|]. intros [[n|e] header] _; [|done].
  destruct (n =? 0); [done|]. apply results_pure. intros h0 _. destruct (negb (valid_type h0)); [done|].
  apply results_pure. intros h1 _. destruct (negb (h1 =? 0)); [done|]. apply results_pure. intros [dl|e] _; [|done].
  destruct (dl =? 0); [done|]. apply results_pure. intros [[[off1 len1] l1]|] Hg; [|done]. apply grow_received in Hg.
  destruct (h0 =? 0); [|destruct (h0 =? 1); [|destruct (h0 =? 2)]].
  - eapply results_bind; [apply recv_data_received|]. intros [[k|e] l2] H2; [|by eapply received_into_trans].
    eapply results_mono; [|apply finish_received].
    intros [res l3] H3. eapply received_into_trans; [by eapply received_into_trans|done].
  - apply (results_bind (λ _, True)); [by apply results_all|]. intros [k|e] _; [|done]. intros []; [by apply Hnext|done].
  - eapply results_bind; [apply recv_data_received|]. intros [[k|e] l2] H2; [|by eapply received_into_trans].
    apply Hnext. by eapply received_into_trans.
  - apply results_pure. intros rest _. destruct (negb _); [done|].
    apply (results_bind (λ _, True)); [by apply results_all|]. intros [[k|e] tc] _; [|done].
    apply results_pure. intros t1 _. destruct (negb (t1 =? 0)); [done|]. by apply Hnext.
Qed.

Section alone.
Context {W : Type} {KP : Posix W} (retries : nat) (alloc_limit : Z) (frames : nat).
Implicit Types (s : poll_state W) (b : TCPClient.t W).
Abbreviation backend := (tcp_client_backend retries).

(** Steps of the thread while the others do not move and every [::recv]
    returns. *)
Definition alone : relation (poller * poll_state W) :=
  rtc (λ x y, poller_step retries alloc_limit frames (λ _ _, false) x.1 x.2 = Ret y).

Definition with_backend b s : poll_state W := set_link_ (set_tcp_backend_ (Some b) (link_ s)) s.

Lemma reading_alone rounds size k b s r bs w :
  retry rounds fst (sys_recv (TCPClient.fd_ b) size) (TCPClient.os b) = Ret (r, bs, w) →
  alone (Reading size k, with_backend b s) (recv_result size r bs w k, with_backend (TCPClient.set_os w b) s).
Proof.
  revert b. induction rounds as [|rounds IH]; intros b; [done|]. cbn [retry].
  destruct (sys_recv (TCPClient.fd_ b) size (TCPClient.os b)) as [[r1 bs1] w1] eqn:E. cbn [fst]. intros Hr.
  eapply rtc_l; [by cbn|]. eapply rtc_l.
  { cbn. unfold system. cbn. rewrite E. done. }
  destruct (interrupted r1 w1) eqn:Ei; [|by injection Hr as -> -> ->].
  unfold interrupted in Ei. apply andb_true_iff in Ei as [E1 E2]. unfold recv_result. rewrite E1, E2.
  by apply (IH (TCPClient.set_os w1 b)).
Qed.

(** No signal interrupts the last round. *)
Lemma retry_last {A} rounds (result : A → Z) (call : W → A * W) w r w' :
  retry rounds result call w = Ret (r, w') → interrupted (result r) w' = false.
Proof.
  intros E. apply (retry_ret rounds result call (λ _ _, True)) in E as (w0 & _ & _ & Hi); [done|by split|done].
Qed.

Lemma program_alone (p : io (expected Z * buffers)) b s a (b' : option (TCPClient.t W)) :
  run_io (H := backend) p (Some b) = Ret (a, b') →
  ∃ c, b' = Some c ∧ alone (Program p, with_backend b s) (Program (mret a), with_backend c s).
Proof.
  revert b. induction p as [[]|k IH|size k IH]; intros b; cbn [run_io]; try done.
  - intros [= <- <-]. exists b. by split.
  - intros (c & -> & Hc)%IH. exists c. split; [done|]. eapply rtc_l; [by cbn|]. done.
  - intros ([res c1] & Er & (c & -> & Hc)%IH)%bind_Ret. exists c. split; [done|].
    cbn [recvSome tcp_client_backend] in Er. unfold TCPClient.recvSome in Er.
    destruct (size =? 0) eqn:Ez; (eapply rtc_l; [cbn; rewrite Ez; done|]); [by injection Er as <- <-|].
    apply bind_Ret in Er as ([[r bs] w] & Er & Ek). etransitivity; [by eapply reading_alone|].
    unfold recv_result. destruct (Z.ltb_spec r 0) as [Hneg|Hpos].
    + apply retry_last in Er. unfold interrupted in Er. cbn in Er. rewrite (proj2 (Z.ltb_lt r 0)) in Er by done.
      cbn in Er. rewrite Er. destruct (_ || _); by injection Ek as <- <-.
    + destruct (r =? 0); by injection Ek as <- <-.
Qed.
Lemma results_run (Q : expected Z * buffers → Prop) (p : io (expected Z * buffers)) (b b' : option (TCPClient.t W)) a :
  results Q p → run_io (H := backend) p b = Ret (a, b') → Q a.
Proof.
  revert b. induction p as [[]|k IH|size k IH]; intros b Hq; cbn [run_io]; try done; [by intros [= <- <-]|by apply IH|].
  destruct b as [c|]; [|done]. intros ([res c'] & _ & E)%bind_Ret. by eapply IH.
Qed.

(** Alone, the thread receives as [recvAndParseOnePacket_] does. *)
Lemma poller_alone_refines s b res l' :
  tcp_backend_ (link_ s) = Some b →
  @recvAndParseOnePacket_ _ backend alloc_limit frames (link_ s) = Ret (res, l') →
  ∃ r c, alone (poll_start alloc_limit frames (link_ s), s) (Program (mret (res, r)), with_backend c s) ∧
    link_ (install r (with_backend c s)) = l'.
Proof.
  intros Hb. set (l := link_ s) in *. set (r0 := rebase None l : buffers).
  assert (E : l = rebase (Some b) r0) by (rewrite <-Hb; by destruct l). rewrite E at 1.
  rewrite (run_packet (H := backend) alloc_limit frames r0 (Some b)).
  intros ([[res1 r] b'] & Er & [= -> <-])%bind_Ret. destruct (program_alone _ b s _ _ Er) as (c & -> & Hc).
  exists r, c. split.
  - replace s with (with_backend b s) at 1; [exact Hc|]. unfold with_backend. rewrite <-Hb. by destruct s as [[]].
  - assert (Hr : results (λ a, received_into r0 a.2) (packet_io alloc_limit frames r0)).
    { intros []; [apply recv_received|]. apply received_into_refl. }
    apply (results_run _ _ _ _ _ Hr) in Er. cbn in Er. unfold received_into in Er. rewrite Er. by destruct s as [[]].
Qed.
End alone.
