(* ===== verification/MemoryClient.v ===== *)
(** * What the programs expect of a client

    A connected client whose target has a memory: a write puts the bytes into
    the memory, a read gets them back, and a wait lasts until the reply has
    come.  The programs are proved against this contract; the client of the
    repository keeps it ([EndToEnd]). *)

From S2P Require Import Prelude PacketTypes Transactions TransactionSlots Node NodeInterface.
#[local] Open Scope Z_scope.

Section contract.
Context {N U : Type} `{SpwRmapClient N U} {fuel : nat}.

(** [content] is the target's memory; [fresh] a client before it connects,
    [ready] one that is connected and has no operation under way; [reachable]:
    packets get to the target and back; [served w]: the target answers during
    [w].  Lengths are those that a packet can announce. *)
Class MemoryClient := {
  content : N → gmap Z Z;
  fresh : N → Prop;
  ready : N → Prop;
  reachable : TargetNodeBase → Prop;
  served : waits N → Prop;
  mc_connect timeout n :
    fresh n → 0 ≤ timeout →
    ∃ n', cl_connect timeout n = Ret (Ok tt, n') ∧ ready n' ∧ user_state n' = user_state n ∧ content n' = content n;
  mc_address a n :
    fresh n → byte a →
    fresh (cl_setInitiatorLogicalAddress a n) ∧
      user_state (cl_setInitiatorLogicalAddress a n) = user_state n ∧
      content (cl_setInitiatorLogicalAddress a n) = content n;
  mc_user u n :
    ready n → user_state (set_user_state u n) = u ∧ ready (set_user_state u n) ∧
      content (set_user_state u n) = content n;
  mc_write w target a bs n :
    ready n → served w → reachable target →
    bytes bs → 0 < zsize bs < 2 ^ 24 → 0 ≤ a → a + zsize bs ≤ 2 ^ 32 →
    ∃ n', nb_write w target a bs default_retry_count n = Ret (Ok tt, n') ∧
      ready n' ∧ user_state n' = user_state n ∧ content n' = map_seqZ a bs ∪ content n;
  mc_read w target a bs store n :
    ready n → served w → reachable target →
    map_seqZ a bs ⊆ content n → bytes bs → 0 < zsize bs < 2 ^ 24 → 0 ≤ a < 2 ^ 32 →
    ∃ n', nb_read w target a (zsize bs) store default_retry_count n = Ret (Ok tt, n') ∧
      ready n' ∧ user_state n' = store bs (user_state n) ∧ content n' = content n;
  mc_writeAsync w target a bs f n :
    ready n → served w → reachable target →
    bytes bs → 0 < zsize bs < 2 ^ 24 → 0 ≤ a → a + zsize bs ≤ 2 ^ 32 →
    ∃ packet, ∀ r u, f packet (user_state n) = Ret (r, u) →
      ∃ p n1 n2, nb_writeAsync (clock_of w 0) target a bs f n = Ret (p, n1) ∧
        during w 0 n1 = Ret n2 ∧ future_value p n2 = Some (Some (completion r)) ∧
        ready n2 ∧ user_state n2 = u ∧ content n2 = map_seqZ a bs ∪ content n;
  mc_readAsync w target a bs f n :
    ready n → served w → reachable target →
    map_seqZ a bs ⊆ content n → bytes bs → 0 < zsize bs < 2 ^ 24 → 0 ≤ a < 2 ^ 32 →
    ∃ packet, data packet = bs ∧ ∀ r u, f packet (user_state n) = Ret (r, u) →
      ∃ p n1 n2, nb_readAsync (clock_of w 0) target a (zsize bs) f n = Ret (p, n1) ∧
        during w 0 n1 = Ret n2 ∧ future_value p n2 = Some (Some (completion r)) ∧
        ready n2 ∧ user_state n2 = u ∧ content n2 = content n;
  mc_shutdown n :
    ready n → ∃ n1 n2, cl_shutdown n = Ret (Ok tt, n1) ∧ nb_runLoop fuel n1 = Ret (Ok tt, n2);
}.
End contract.
Arguments MemoryClient N U {_ _} fuel.

(** The client behind its first steps. *)
Lemma connected {N U : Type} `{MemoryClient N U fuel} timeout a n :
  fresh n → 0 ≤ timeout → byte a →
  ∃ n', cl_connect timeout (cl_setInitiatorLogicalAddress a n) = Ret (Ok tt, n') ∧
    ready n' ∧ user_state n' = user_state n ∧ content n' = content n.
Proof.
  intros Hf Ht Ha. destruct (mc_address a n Hf Ha) as (Hf' & Hu & Hc).
  destruct (mc_connect timeout _ Hf' Ht) as (n' & E & Hr & Hu' & Hc').
  exists n'. by rewrite Hu', Hc', Hu, Hc.
Qed.
