(* ===== verification/CommandLine.v ===== *)
(** * The command lines of the tools (app/spwrmap.cc, app/spwrmap_speedtest.cc)

    Modules [Spwrmap] and [Speedtest]: the options, their parsers and the
    checks behind them.  [parseUnsigned] and the reading of byte values are
    the same text in both files.  [argv] is the list of the arguments behind
    the program's name; an index into it is what is left of the list.  The
    messages to standard error are left out. *)

From S2P Require Import Prelude.
From Stdlib Require Import Ascii.
#[local] Open Scope Z_scope.

(** ** [std::stoull] with base 0

    White space, a sign, a prefix that selects the base, digits.  A minus sign
    negates modulo 2^64.  [None] is an exception: no digits, or a number that
    an [unsigned long long] cannot hold. *)

Definition code (c : ascii) : Z := Z.of_N (N_of_ascii c).

Definition isspace (c : ascii) : bool :=
  (code c =? 32) || ((9 <=? code c) && (code c <=? 13)).

(** The value of a digit in some base up to 36. *)
Definition digit_value (c : ascii) : option Z :=
  let n := code c in
  if (48 <=? n) && (n <=? 57) then Some (n - 48)
  else if (97 <=? n) && (n <=? 122) then Some (n - 97 + 10)
  else if (65 <=? n) && (n <=? 90) then Some (n - 65 + 10)
  else None.

Definition is_digit (base : Z) (c : ascii) : bool :=
  match digit_value c with Some d => d <? base | None => false end.

Fixpoint span_while {A} (p : A → bool) (l : list A) : list A * list A :=
  match l with
  | [] => ([], [])
  | x :: l => if p x then let '(a, b) := span_while p l in (x :: a, b) else ([], x :: l)
  end.

Definition digits_value (base : Z) (l : list ascii) : Z :=
  fold_left (λ acc c, acc * base + default 0 (digit_value c)) l 0.

(** The base and the length of the prefix "0x", "0X" or "0"; the "0" of an
    octal number is one of its digits. *)
Definition detect_base (l : list ascii) : Z * nat :=
  match l with
  | c0 :: c1 :: c2 :: _ =>
      if code c0 =? 48 then
        if ((code c1 =? 120) || (code c1 =? 88)) && is_digit 16 c2 then (16, 2%nat) else (8, 0%nat)
      else (10, 0%nat)
  | c0 :: _ => if code c0 =? 48 then (8, 0%nat) else (10, 0%nat)
  | [] => (10, 0%nat)
  end.

(** The value and the number of characters used. *)
Definition stoull (l : list ascii) : option (Z * nat) :=
  let '(ws, s) := span_while isspace l in
  let '(negative, signs) :=
    match s with
    | c :: _ => if code c =? 45 then (true, 1%nat) else if code c =? 43 then (false, 1%nat)
                else (false, 0%nat)
    | [] => (false, 0%nat)
    end in
  let s := drop signs s in
  let '(base, prefix) := detect_base s in
  let '(ds, _) := span_while (is_digit base) (drop prefix s) in
  let v := digits_value base ds in
  if (length ds =? 0)%nat then None
  else if 2 ^ 64 <=? v then None
  else Some (if negative then u64 (- v) else v, (length ws + signs + prefix + length ds)%nat).

Definition parseUnsigned (token : string) (max_value : Z) : option Z :=
  let value_str := String.list_ascii_of_string token in
  match stoull value_str with
  | None => None
  | Some (value, idx) =>
      if negb (idx =? length value_str)%nat || (max_value <? value) then None else Some value
  end.

(** ** Arguments *)

(** [arg.starts_with("--")], and [arg.substr(2)] where it does. *)
Definition option_name (arg : string) : option string :=
  match arg with
  | String "-" (String "-" name) => Some name
  | _ => None
  end.

(** [parseByteSequence]: the bytes appended to [destination] and the arguments
    left; [None] is [false]. *)
Fixpoint parse_bytes (argv : list string) (destination : list Z) (parsed : bool)
    : option (list Z * list string) :=
  let stop := if parsed then Some (destination, argv) else None in
  match argv with
  | [] => stop
  | next :: rest =>
      match option_name next with
      | Some _ => stop
      | None =>
          match parseUnsigned next 0xFF with
          | None => None
          | Some value => parse_bytes rest (destination ++ [value]) true
          end
      end
  end.

Definition parseByteSequence (argv : list string) (destination : list Z)
    : option (list Z * list string) :=
  parse_bytes argv destination false.

(** [takeValue]. *)
Definition takeValue (argv : list string) : option (string * list string) :=
  match argv with [] => None | value :: rest => Some (value, rest) end.

Definition UINT32_MAX : Z := 2 ^ 32 - 1.
Definition SIZE_MAX : Z := 2 ^ 64 - 1.

Module Spwrmap.
Record Options := mkOptions {
  ip : string;
  port : string;
  type : string;
  target_address : list Z;
  reply_address : list Z;
  address : option Z;
  length : option Z;
  data : list Z;
}.

Definition default_options : Options := mkOptions "127.0.0.1" "10030" "" [] [] None None [].

Definition set_ip v o := mkOptions v (port o) (type o) (target_address o) (reply_address o)
  (address o) (length o) (data o).
Definition set_port v o := mkOptions (ip o) v (type o) (target_address o) (reply_address o)
  (address o) (length o) (data o).
Definition set_type v o := mkOptions (ip o) (port o) v (target_address o) (reply_address o)
  (address o) (length o) (data o).
Definition set_target_address v o := mkOptions (ip o) (port o) (type o) v (reply_address o)
  (address o) (length o) (data o).
Definition set_reply_address v o := mkOptions (ip o) (port o) (type o) (target_address o) v
  (address o) (length o) (data o).
Definition set_address v o := mkOptions (ip o) (port o) (type o) (target_address o)
  (reply_address o) v (length o) (data o).
Definition set_length v o := mkOptions (ip o) (port o) (type o) (target_address o)
  (reply_address o) (address o) v (data o).
Definition set_data v o := mkOptions (ip o) (port o) (type o) (target_address o)
  (reply_address o) (address o) (length o) v.

(** [std::tolower] in the "C" locale, on every character. *)
Definition tolower (c : ascii) : ascii :=
  if (65 <=? code c) && (code c <=? 90) then ascii_of_N (Z.to_N (code c + 32)) else c.
Definition lower (s : string) : string :=
  String.string_of_list_ascii (tolower <$> String.list_ascii_of_string s).

(** The body of the loop: one option and its values. *)
Definition parse_option (name : string) (argv : list string) (o : Options)
    : option (Options * list string) :=
  if bool_decide (name = "ip"%string) then
    '(value, argv) ← takeValue argv; Some (set_ip value o, argv)
  else if bool_decide (name = "port"%string) then
    '(value, argv) ← takeValue argv; Some (set_port value o, argv)
  else if bool_decide (name = "type"%string) then
    '(value, argv) ← takeValue argv; Some (set_type (lower value) o, argv)
  else if bool_decide (name = "target-address"%string) then
    '(bs, argv) ← parseByteSequence argv (target_address o); Some (set_target_address bs o, argv)
  else if bool_decide (name = "reply-address"%string) then
    '(bs, argv) ← parseByteSequence argv (reply_address o); Some (set_reply_address bs o, argv)
  else if bool_decide (name = "address"%string) then
    '(value, argv) ← takeValue argv;
    parsed ← parseUnsigned value UINT32_MAX;
    Some (set_address (Some parsed) o, argv)
  else if bool_decide (name = "length"%string) then
    '(value, argv) ← takeValue argv;
    parsed ← parseUnsigned value SIZE_MAX;
    if parsed =? 0 then None else Some (set_length (Some parsed) o, argv)
  else if bool_decide (name = "data"%string) then
    '(bs, argv) ← parseByteSequence argv (data o); Some (set_data bs o, argv)
  else None.

(** The loop; every option takes at least its own argument, so the fuel
    [S (length argv)] is enough. *)
Fixpoint parse_loop (fuel : nat) (argv : list string) (o : Options) : outcome (option Options) :=
  match fuel with
  | O => Pending
  | S fuel =>
      match argv with
      | [] => Ret (Some o)
      | arg :: argv =>
          match option_name arg with
          | None => Ret None
          | Some name =>
              match parse_option name argv o with
              | None => Ret None
              | Some (o, argv) => parse_loop fuel argv o
              end
          end
      end
  end.

(** The checks behind the loop. *)
Definition check_options (o : Options) : option Options :=
  if negb (bool_decide (type o = "read"%string)) && negb (bool_decide (type o = "write"%string))
  then None
  else if zsize (target_address o) =? 0 then None
  else if zsize (reply_address o) =? 0 then None
  else if negb (bool_decide (is_Some (address o))) then None
  else if bool_decide (type o = "read"%string) && negb (bool_decide (is_Some (length o))) then None
  else if bool_decide (type o = "write"%string) && (zsize (data o) =? 0) then None
  else Some o.

Definition parseOptions (argv : list string) : outcome (option Options) :=
  o ← parse_loop (S (List.length argv)) argv default_options;
  Ret (o ≫= check_options).
End Spwrmap.

Module Speedtest.
Record Options := mkOptions {
  ip : string;
  port : string;
  target_address : list Z;
  reply_address : list Z;
  ntimes : option Z;
  nbytes : option Z;
  start_address : option Z;
}.

Definition default_options : Options := mkOptions "127.0.0.1" "10030" [] [] None None None.

Definition set_ip v o := mkOptions v (port o) (target_address o) (reply_address o) (ntimes o)
  (nbytes o) (start_address o).
Definition set_port v o := mkOptions (ip o) v (target_address o) (reply_address o) (ntimes o)
  (nbytes o) (start_address o).
Definition set_target_address v o := mkOptions (ip o) (port o) v (reply_address o) (ntimes o)
  (nbytes o) (start_address o).
Definition set_reply_address v o := mkOptions (ip o) (port o) (target_address o) v (ntimes o)
  (nbytes o) (start_address o).
Definition set_ntimes v o := mkOptions (ip o) (port o) (target_address o) (reply_address o) v
  (nbytes o) (start_address o).
Definition set_nbytes v o := mkOptions (ip o) (port o) (target_address o) (reply_address o)
  (ntimes o) v (start_address o).
Definition set_start_address v o := mkOptions (ip o) (port o) (target_address o)
  (reply_address o) (ntimes o) (nbytes o) v.

(** [Parsed None] is [std::nullopt]; [Exit] is [std::exit(0)]. *)
Inductive result (A : Type) := Parsed (o : option A) | Exit.
Arguments Parsed {A} o.
Arguments Exit {A}.

(** The copies of this file, with the text of the ones above. *)
Definition parseUnsigned (token : string) (max_value : Z) : option Z := parseUnsigned token max_value.
Definition parseByteSequence (argv : list string) (dst : list Z) : option (list Z * list string) :=
  parseByteSequence argv dst.

(** The body of the loop for the options other than "help". *)
Definition parse_option (name : string) (argv : list string) (o : Options)
    : option (Options * list string) :=
  if bool_decide (name = "ip"%string) then
    '(v, argv) ← takeValue argv; Some (set_ip v o, argv)
  else if bool_decide (name = "port"%string) then
    '(v, argv) ← takeValue argv; Some (set_port v o, argv)
  else if bool_decide (name = "target-address"%string) then
    '(bs, argv) ← parseByteSequence argv (target_address o); Some (set_target_address bs o, argv)
  else if bool_decide (name = "reply-address"%string) then
    '(bs, argv) ← parseByteSequence argv (reply_address o); Some (set_reply_address bs o, argv)
  else if bool_decide (name = "ntimes"%string) then
    '(v, argv) ← takeValue argv;
    parsed ← parseUnsigned v SIZE_MAX;
    if parsed =? 0 then None else Some (set_ntimes (Some parsed) o, argv)
  else if bool_decide (name = "nbytes"%string) then
    '(v, argv) ← takeValue argv;
    parsed ← parseUnsigned v SIZE_MAX;
    if (parsed =? 0) || (UINT32_MAX <? parsed) then None
    else Some (set_nbytes (Some parsed) o, argv)
  else if bool_decide (name = "start_address"%string) then
    '(v, argv) ← takeValue argv;
    parsed ← parseUnsigned v UINT32_MAX;
    Some (set_start_address (Some parsed) o, argv)
  else None.

Fixpoint parse_loop (fuel : nat) (argv : list string) (o : Options) : outcome (result Options) :=
  match fuel with
  | O => Pending
  | S fuel =>
      match argv with
      | [] => Ret (Parsed (Some o))
      | arg :: argv =>
          match option_name arg with
          | None => Ret (Parsed None)
          | Some name =>
              if bool_decide (name = "help"%string) then Ret Exit
              else match parse_option name argv o with
              | None => Ret (Parsed None)
              | Some (o, argv) => parse_loop fuel argv o
              end
          end
      end
  end.

Definition check_options (o : Options) : option Options :=
  if zsize (target_address o) =? 0 then None
  else if zsize (reply_address o) =? 0 then None
  else if negb (bool_decide (is_Some (ntimes o))) then None
  else if negb (bool_decide (is_Some (nbytes o))) then None
  else if negb (bool_decide (is_Some (start_address o))) then None
  else Some o.

Definition parseOptions (argv : list string) : outcome (result Options) :=
  r ← parse_loop (S (List.length argv)) argv default_options;
  Ret (match r with Parsed o => Parsed (o ≫= check_options) | Exit => Exit end).

(** The chunks of the pattern that [main] writes: the offset and the size of
    each. *)
Definition kChunkSize : Z := 1024.

Fixpoint chunks (fuel : nat) (total_bytes offset : Z) : outcome (list (Z * Z)) :=
  match fuel with
  | O => Pending
  | S fuel =>
      if offset <? total_bytes then
        let chunk := Z.min kChunkSize (total_bytes - offset) in
        rest ← chunks fuel total_bytes (u64 (offset + kChunkSize));
        Ret ((offset, chunk) :: rest)
      else Ret []
  end.
End Speedtest.

(** The length option of spwrmap takes a number with a minus sign: std::stoull
    negates it modulo 2^64, so that a length of -1 is one of 2^64 - 1. *)
Theorem negative_length_accepted :
  ∃ o, Spwrmap.parseOptions
    ["--type"; "read"; "--target-address"; "3"; "--reply-address"; "2"; "--address"; "0x10";
     "--length"; "-1"]%string = Ret (Some o) ∧ Spwrmap.length o = Some SIZE_MAX.
Proof. eexists. split; [vm_compute; reflexivity|done]. Qed.
