(* ===== verification/CommandLineTheorems.v ===== *)
(** * What the option parsers accept

    Numbers survive printing and parsing; every accepted set of options is
    usable; every usable set of options is accepted when it is written out. *)

From S2P Require Import Prelude CommandLine.
From Stdlib Require Import Ascii.
#[local] Open Scope Z_scope.

(** ** Numbers *)

(** The digits of [v], most significant first. *)
Fixpoint digits (base : Z) (fuel : nat) (v : Z) : list Z :=
  match fuel with
  | O => []
  | S fuel => if v <? base then [v] else digits base fuel (v / base) ++ [v mod base]
  end.

Definition digit_char (d : Z) : ascii := ascii_of_N (Z.to_N (if d <? 10 then 48 + d else 87 + d)).
Definition chars (base v : Z) : list ascii := digit_char <$> digits base 64 v.
Definition print_decimal (v : Z) : string := String.string_of_list_ascii (chars 10 v).
Definition print_hex (v : Z) : string := String "0" (String "x" (String.string_of_list_ascii (chars 16 v))).

Lemma digit_char_spec d :
  0 ≤ d < 16 →
  digit_value (digit_char d) = Some d ∧ isspace (digit_char d) = false ∧
  (code (digit_char d) = 48 ↔ d = 0) ∧ (48 ≤ code (digit_char d)).
Proof.
  intros Hd.
  assert (d = 0 ∨ d = 1 ∨ d = 2 ∨ d = 3 ∨ d = 4 ∨ d = 5 ∨ d = 6 ∨ d = 7 ∨ d = 8 ∨ d = 9 ∨
          d = 10 ∨ d = 11 ∨ d = 12 ∨ d = 13 ∨ d = 14 ∨ d = 15) as Hc by lia.
  destruct_or! Hc; subst d; vm_compute; done.
Qed.

Lemma digits_spec base fuel v :
  2 ≤ base → 0 ≤ v < base ^ Z.of_nat fuel → (0 < fuel)%nat →
  Forall (λ d, 0 ≤ d < base) (digits base fuel v) ∧
  fold_left (λ acc d, acc * base + d) (digits base fuel v) 0 = v ∧
  ∃ d ds, digits base fuel v = d :: ds ∧ (d = 0 → ds = [] ∧ v = 0).
Proof.
  intros Hb. revert v. induction fuel as [|fuel IH]; intros v Hv Hf; [lia|]. cbn [digits].
  destruct (Z.ltb_spec v base) as [Hlt|Hge].
  { split_and!; [apply Forall_singleton; lia|simpl; lia|]. exists v, []. by split. }
  assert (Hq : 0 ≤ v / base < base ^ Z.of_nat fuel).
  { split; [apply Z.div_pos; lia|]. apply Z.div_lt_upper_bound; [lia|].
    rewrite Nat2Z.inj_succ, Z.pow_succ_r in Hv by lia. apply Hv. }
  assert (Hq0 : 0 < v / base) by (apply Z.div_str_pos; lia).
  destruct fuel as [|fuel]; [simpl in Hq; lia|].
  destruct (IH (v / base) Hq) as (Hds & Hval & d & ds & Hd & Hz); [lia|].
  pose proof (Z.mod_pos_bound v base). split_and!.
  - apply Forall_app. split; [done|]. apply Forall_singleton. lia.
  - rewrite fold_left_app, Hval. simpl. rewrite (Z.div_mod v base) at 3 by lia. lia.
  - exists d, (ds ++ [v mod base]). rewrite Hd. split; [done|]. intros E.
    destruct (Hz E) as [_ ?]. lia.
Qed.

Lemma chars_spec base v :
  2 ≤ base ≤ 16 → 0 ≤ v < 2 ^ 64 →
  Forall (λ c, is_digit base c = true) (chars base v) ∧ digits_value base (chars base v) = v ∧
  ∃ c cs, chars base v = c :: cs ∧ isspace c = false ∧ 48 ≤ code c ∧
    is_digit base c = true ∧ (code c = 48 → cs = []).
Proof.
  intros Hb Hv. destruct (digits_spec base 64 v) as (Hds & Hval & d & ds & Hd & Hz); [lia| |lia|].
  { split; [lia|]. eapply Z.lt_le_trans; [apply Hv|]. apply Z.pow_le_mono_l. lia. }
  assert (Hdig : ∀ d, 0 ≤ d < base → is_digit base (digit_char d) = true).
  { intros x Hx. destruct (digit_char_spec x) as (E & _); [lia|]. unfold is_digit. rewrite E. lia. }
  unfold chars. split_and!.
  - apply Forall_fmap. by eapply Forall_impl.
  - rewrite <-Hval at 2. unfold digits_value.
    assert (Hfold : ∀ l acc, Forall (λ d, 0 ≤ d < base) l →
      fold_left (λ acc c, acc * base + default 0 (digit_value c)) (digit_char <$> l) acc =
      fold_left (λ acc d, acc * base + d) l acc); [|by apply Hfold].
    intros l acc Hl. revert acc. induction Hl as [|x l Hx Hl IH]; intros acc; [done|].
    cbn [fmap list_fmap fold_left]. destruct (digit_char_spec x) as (-> & _); [lia|]. apply IH.
  - rewrite Hd in Hds |- *. apply Forall_cons in Hds as [Hd0 _].
    destruct (digit_char_spec d) as (E & Hs & Hc & H48); [lia|].
    exists (digit_char d), (digit_char <$> ds). split_and!; [done|done|done|by apply Hdig|].
    intros ->%Hc. by destruct Hz as [-> _].
Qed.

Lemma span_while_all {A} (p : A → bool) l : Forall (λ x, p x = true) l → span_while p l = (l, []).
Proof. induction 1 as [|x l Hx Hl IH]; simpl; [done|]. by rewrite Hx, IH. Qed.

Lemma stoull_decimal v :
  0 ≤ v < 2 ^ 64 → stoull (chars 10 v) = Some (v, length (chars 10 v)).
Proof.
  intros Hv. destruct (chars_spec 10 v) as (Hd & Hval & c & cs & E & Hs & H48 & Hdc & Hz); [lia|done|].
  unfold stoull. rewrite E in Hd, Hval |- *. cbn [span_while]. rewrite Hs.
  destruct (Z.eqb_spec (code c) 45); [lia|]. destruct (Z.eqb_spec (code c) 43); [lia|].
  cbn [drop]. destruct (Z.eqb_spec (code c) 48) as [E48|Hne].
  - rewrite (Hz E48) in *. clear cs Hz.
    assert (Hb : detect_base [c] = (8, 0%nat)) by (unfold detect_base; by rewrite E48).
    rewrite Hb. cbn [drop]. apply (f_equal Z.to_N) in E48 as Hc'.
    assert (c = "0"%char) as ->.
    { unfold code in Hc'. rewrite N2Z.id in Hc'. rewrite <-(ascii_N_embedding c), Hc'. done. }
    vm_compute in Hval. subst v. done.
  - assert (Hb : detect_base (c :: cs) = (10, 0%nat)).
    { unfold detect_base. rewrite (proj2 (Z.eqb_neq _ _) Hne). by destruct cs as [|? []]. }
    rewrite Hb. cbn [drop]. rewrite span_while_all by done. rewrite Hval. cbn [length Nat.eqb].
    destruct (Z.leb_spec (2 ^ 64) v); [lia|]. done.
Qed.

Lemma stoull_hex v :
  0 ≤ v < 2 ^ 64 →
  stoull ("0"%char :: "x"%char :: chars 16 v) = Some (v, (2 + length (chars 16 v))%nat).
Proof.
  intros Hv. destruct (chars_spec 16 v) as (Hd & Hval & c & cs & E & Hs & H48 & Hdc & _); [lia|done|].
  unfold stoull. rewrite E in Hd, Hval |- *. cbn [span_while].
  change (isspace "0") with false. cbv iota. change (code "0" =? 45) with false.
  change (code "0" =? 43) with false. cbv iota. cbn [drop].
  assert (Hb : detect_base ("0"%char :: "x"%char :: c :: cs) = (16, 2%nat)).
  { unfold detect_base. by rewrite Hdc. }
  rewrite Hb. cbn [drop]. rewrite span_while_all by done. rewrite Hval. cbn [length Nat.eqb].
  destruct (Z.leb_spec (2 ^ 64) v); [lia|]. done.
Qed.

Lemma parseUnsigned_of_stoull token v max :
  stoull (String.list_ascii_of_string token) =
    Some (v, length (String.list_ascii_of_string token)) →
  parseUnsigned token max = if max <? v then None else Some v.
Proof. intros E. unfold parseUnsigned. by rewrite E, Nat.eqb_refl. Qed.

Lemma parse_decimal v max :
  0 ≤ v < 2 ^ 64 → parseUnsigned (print_decimal v) max = if max <? v then None else Some v.
Proof.
  intros Hv. apply parseUnsigned_of_stoull. unfold print_decimal.
  rewrite String.list_ascii_of_string_of_list_ascii. by apply stoull_decimal.
Qed.

Lemma parse_hex v max :
  0 ≤ v < 2 ^ 64 → parseUnsigned (print_hex v) max = if max <? v then None else Some v.
Proof.
  intros Hv. apply parseUnsigned_of_stoull. unfold print_hex. cbn [String.list_ascii_of_string].
  rewrite String.list_ascii_of_string_of_list_ascii. by apply stoull_hex.
Qed.

(** parseUnsigned reads a 64-bit number written in decimal or, behind 0x, in
    hexadecimal as that number when it is at most the maximum, and rejects it
    otherwise. *)
Theorem parseUnsigned_print v max :
  0 ≤ v < 2 ^ 64 →
  let expected := if max <? v then None else Some v in
  parseUnsigned (print_decimal v) max = expected ∧ parseUnsigned (print_hex v) max = expected.
Proof.
  intros Hv. split; [by apply parse_decimal|by apply parse_hex].
Qed.

(** ** Byte sequences *)

Lemma option_name_decimal v : 0 ≤ v < 2 ^ 64 → option_name (print_decimal v) = None.
Proof.
  intros Hv. unfold print_decimal.
  destruct (chars_spec 10 v) as (_ & _ & c & cs & -> & _ & H48 & _); [lia|done|].
  cbn [String.string_of_list_ascii option_name].
  destruct (decide (c = "-"%char)) as [->|Hne]; [by vm_compute in H48|].
  destruct c as [[] [] [] [] [] [] [] []]; done.
Qed.

(** The arguments behind a byte sequence: none, or an option. *)
Definition at_option (argv : list string) : Prop :=
  match argv with [] => True | arg :: _ => option_name arg ≠ None end.

Lemma parse_bytes_print bs : ∀ dst parsed rest,
  bytes bs → (parsed = true ∨ bs ≠ []) → at_option rest →
  parse_bytes ((print_decimal <$> bs) ++ rest) dst parsed = Some (dst ++ bs, rest).
Proof.
  induction bs as [|b bs IH]; intros dst parsed rest Hb Hp Hrest.
  - destruct Hp as [->|]; [|done]. rewrite app_nil_r. destruct rest as [|arg rest]; [done|].
    cbn in *. by destruct (option_name arg).
  - apply Forall_cons in Hb as [Hb Hbs]. unfold byte in Hb.
    cbn [fmap list_fmap app parse_bytes].
    rewrite option_name_decimal, parse_decimal by lia. destruct (Z.ltb_spec 0xFF b); [lia|].
    rewrite IH by auto. by rewrite <-app_assoc.
Qed.

Lemma stoull_range l v k : stoull l = Some (v, k) → 0 ≤ v < 2 ^ 64.
Proof.
  assert (Hd : ∀ base ds acc, 0 ≤ base → 0 ≤ acc →
    0 ≤ fold_left (λ acc c, acc * base + default 0 (digit_value c)) ds acc).
  { intros base ds acc Hb. revert acc. induction ds as [|c ds IH]; intros acc Ha; [done|].
    apply IH. assert (0 ≤ default 0 (digit_value c)); [|nia].
    unfold digit_value. cbv zeta.
    destruct (Z.leb_spec 48 (code c)), (Z.leb_spec (code c) 57), (Z.leb_spec 97 (code c)),
      (Z.leb_spec (code c) 122), (Z.leb_spec 65 (code c)), (Z.leb_spec (code c) 90); cbn; lia. }
  assert (Hbase : ∀ s base prefix, detect_base s = (base, prefix) → 0 ≤ base).
  { intros s base prefix. unfold detect_base. by repeat case_match; intros [= <- <-]. }
  unfold stoull. destruct (span_while isspace l) as [ws s].
  destruct (match s with [] => _ | _ => _ end) as [neg signs].
  destruct (detect_base (drop signs s)) as [base prefix] eqn:Eb.
  destruct (span_while _ (drop prefix _)) as [ds ?]. destruct (length ds =? 0)%nat; [done|].
  destruct (Z.leb_spec (2 ^ 64) (digits_value base ds)); [done|]. intros [= <- _].
  destruct neg; [apply Z.mod_pos_bound; lia|]. split; [|done].
  apply Hd; [by eapply Hbase|done].
Qed.

Lemma parseUnsigned_range token max v : parseUnsigned token max = Some v → 0 ≤ v ≤ max.
Proof.
  unfold parseUnsigned. destruct (stoull _) as [[v' idx]|] eqn:E; [|done].
  destruct (negb _); [done|]. cbn [orb]. destruct (Z.ltb_spec max v'); [done|].
  intros [= <-]. apply stoull_range in E. lia.
Qed.

(** What the byte parser leaves and stores. *)
Lemma parse_bytes_spec argv : ∀ dst parsed bs rest,
  parse_bytes argv dst parsed = Some (bs, rest) → bytes dst →
  bytes bs ∧ (length rest ≤ length argv)%nat.
Proof.
  induction argv as [|arg argv IH]; intros dst parsed bs rest Hp Hd.
  - cbn in Hp. destruct parsed; [|done]. by injection Hp as <- <-.
  - cbn [parse_bytes] in Hp. destruct (option_name arg).
    { destruct parsed; [|done]. by injection Hp as <- <-. }
    destruct (parseUnsigned arg 255) as [v|] eqn:Ev; [|done].
    apply parseUnsigned_range in Ev. apply IH in Hp as [? Hl].
    + split; [done|]. cbn [length]. lia.
    + apply Forall_app. split; [done|]. apply Forall_singleton. unfold byte. lia.
Qed.

(** ** The options of spwrmap *)

Definition options_valid (o : Spwrmap.Options) : Prop :=
  (Spwrmap.type o = "read"%string ∧ is_Some (Spwrmap.length o) ∨
   Spwrmap.type o = "write"%string ∧ Spwrmap.data o ≠ []) ∧
  Spwrmap.target_address o ≠ [] ∧ bytes (Spwrmap.target_address o) ∧
  Spwrmap.reply_address o ≠ [] ∧ bytes (Spwrmap.reply_address o) ∧
  (∃ a, Spwrmap.address o = Some a ∧ 0 ≤ a < 2 ^ 32) ∧
  (∀ n, Spwrmap.length o = Some n → 0 < n < 2 ^ 64) ∧ bytes (Spwrmap.data o).

(** What holds between the options of the loop. *)
Definition options_typed (o : Spwrmap.Options) : Prop :=
  bytes (Spwrmap.target_address o) ∧ bytes (Spwrmap.reply_address o) ∧
  (∀ a, Spwrmap.address o = Some a → 0 ≤ a < 2 ^ 32) ∧
  (∀ n, Spwrmap.length o = Some n → 0 < n < 2 ^ 64) ∧ bytes (Spwrmap.data o).

Lemma takeValue_spec argv v rest :
  takeValue argv = Some (v, rest) → (length rest ≤ length argv)%nat.
Proof. destruct argv; [done|]. intros [= _ <-]. cbn. lia. Qed.

Ltac split_option :=
  repeat match goal with
  | H : (if bool_decide ?P then _ else _) = Some _ |- _ => case_bool_decide
  | H : _ ≫= _ = Some _ |- _ => apply bind_Some in H as (? & ? & H)
  | H : (let '(_, _) := ?x in _) = Some _ |- _ => destruct x
  | H : (if ?b then None else _) = Some _ |- _ => destruct b eqn:?; [done|]
  | H : takeValue _ = Some _ |- _ => apply takeValue_spec in H
  | H : parseByteSequence _ _ = Some _ |- _ => apply parse_bytes_spec in H; [|by auto]
  | H : parseUnsigned _ _ = Some _ |- _ => apply parseUnsigned_range in H
  | _ => progress simplify_eq/=
  end.

Lemma parse_option_typed name argv o o' rest :
  Spwrmap.parse_option name argv o = Some (o', rest) → options_typed o →
  options_typed o' ∧ (length rest ≤ length argv)%nat.
Proof.
  intros Hp (H1 & H2 & H3 & H4 & H5). unfold Spwrmap.parse_option, options_typed in *.
  split_option; destruct_and?; split_and!; try done; cbn; try lia.
  all: intros n [= <-]; unfold UINT32_MAX, SIZE_MAX in *; lia.
Qed.

Lemma parse_loop_typed fuel : ∀ argv o,
  (length argv < fuel)%nat → options_typed o →
  ∃ r, Spwrmap.parse_loop fuel argv o = Ret r ∧ ∀ o', r = Some o' → options_typed o'.
Proof.
  induction fuel as [|fuel IH]; intros argv o Hf Ho; [lia|]. cbn [Spwrmap.parse_loop].
  destruct argv as [|arg argv]; [eexists; split; [done|]; by intros ? [= <-]|].
  destruct (option_name arg) as [name|]; [|by eexists].
  destruct (Spwrmap.parse_option name argv o) as [[o1 rest]|] eqn:E; [|by eexists].
  apply parse_option_typed in E as [Ho1 Hl]; [|done]. cbn in Hf. apply IH; [lia|done].
Qed.

(** C40: parseOptions of spwrmap returns for every argument list, and what it accepts
    is usable: read with a length or write with data, both addresses given, all
    byte values below 256, the memory address below 2^32 and a length between 1
    and 2^64 - 1. *)
Theorem parseOptions_valid argv :
  ∃ r, Spwrmap.parseOptions argv = Ret r ∧ ∀ o, r = Some o → options_valid o.
Proof.
  destruct (parse_loop_typed (S (length argv)) argv Spwrmap.default_options)
    as (r & Hr & Ht); [lia|by split_and!; try apply Forall_nil_2|].
  unfold Spwrmap.parseOptions. rewrite Hr. eexists. split; [done|].
  intros o (o1 & -> & Hc)%bind_Some. destruct (Ht o1 eq_refl) as (H1 & H2 & H3 & H4 & H5).
  unfold Spwrmap.check_options in Hc.
  destruct (negb _ && _) eqn:E1; [done|].
  destruct (Z.eqb_spec (zsize (Spwrmap.target_address o1)) 0) as [|E2]; [done|].
  destruct (Z.eqb_spec (zsize (Spwrmap.reply_address o1)) 0) as [|E3]; [done|].
  destruct (negb (bool_decide (is_Some (Spwrmap.address o1)))) eqn:E4; [done|].
  destruct (bool_decide (Spwrmap.type o1 = "read"%string) && _) eqn:E5; [done|].
  destruct (bool_decide (Spwrmap.type o1 = "write"%string) && (_ =? _)) eqn:E6; [done|].
  injection Hc as ->. unfold options_valid.
  apply negb_false_iff, bool_decide_eq_true in E4 as [a Ha].
  split_and!; try done; [|by intros E; rewrite E in E2|by intros E; rewrite E in E3|by eauto].
  case_bool_decide; [left|right]; cbn in *.
  - apply negb_false_iff, bool_decide_eq_true in E5. done.
  - case_bool_decide; [|done]. split; [done|]. intros E. by rewrite E in E6.
Qed.

(** The arguments that spell out the options. *)
Definition length_arguments (le : option Z) : list string :=
  match le with Some n => ["--length"%string; print_decimal n] | None => [] end.
Definition data_arguments (da : list Z) : list string :=
  match da with [] => [] | _ => "--data"%string :: (print_decimal <$> da) end.
Definition render (o : Spwrmap.Options) : list string :=
  ["--ip"; Spwrmap.ip o; "--port"; Spwrmap.port o; "--type"; Spwrmap.type o]%string ++
  ["--target-address"%string] ++ (print_decimal <$> Spwrmap.target_address o) ++
  ["--reply-address"%string] ++ (print_decimal <$> Spwrmap.reply_address o) ++
  match Spwrmap.address o with Some a => ["--address"%string; print_hex a] | None => [] end ++
  length_arguments (Spwrmap.length o) ++ data_arguments (Spwrmap.data o).

Lemma parse_loop_option fuel arg name argv o o' rest :
  option_name arg = Some name → Spwrmap.parse_option name argv o = Some (o', rest) →
  Spwrmap.parse_loop (S fuel) (arg :: argv) o = Spwrmap.parse_loop fuel rest o'.
Proof. intros Hn Hp. cbn [Spwrmap.parse_loop]. by rewrite Hn, Hp. Qed.

(** [parse_option] on a given name. *)
Ltac choose_option :=
  repeat rewrite bool_decide_eq_false_2 by done; rewrite bool_decide_eq_true_2 by done.

(** The options with byte values. *)
Lemma parse_target_address bs rest o :
  bytes bs → bs ≠ [] → at_option rest →
  Spwrmap.parse_option "target-address" ((print_decimal <$> bs) ++ rest) o =
  Some (Spwrmap.set_target_address (Spwrmap.target_address o ++ bs) o, rest).
Proof.
  intros Hb Hne Hr. unfold Spwrmap.parse_option, parseByteSequence. choose_option.
  by rewrite parse_bytes_print by auto.
Qed.

Lemma parse_reply_address bs rest o :
  bytes bs → bs ≠ [] → at_option rest →
  Spwrmap.parse_option "reply-address" ((print_decimal <$> bs) ++ rest) o =
  Some (Spwrmap.set_reply_address (Spwrmap.reply_address o ++ bs) o, rest).
Proof.
  intros Hb Hne Hr. unfold Spwrmap.parse_option, parseByteSequence. choose_option.
  by rewrite parse_bytes_print by auto.
Qed.

Lemma parse_data bs rest o :
  bytes bs → bs ≠ [] → at_option rest →
  Spwrmap.parse_option "data" ((print_decimal <$> bs) ++ rest) o =
  Some (Spwrmap.set_data (Spwrmap.data o ++ bs) o, rest).
Proof.
  intros Hb Hne Hr. unfold Spwrmap.parse_option, parseByteSequence. choose_option.
  by rewrite parse_bytes_print by auto.
Qed.

Lemma parse_ip v rest o :
  Spwrmap.parse_option "ip" (v :: rest) o = Some (Spwrmap.set_ip v o, rest).
Proof. done. Qed.

Lemma parse_port v rest o :
  Spwrmap.parse_option "port" (v :: rest) o = Some (Spwrmap.set_port v o, rest).
Proof. done. Qed.

Lemma parse_type v rest o :
  Spwrmap.parse_option "type" (v :: rest) o = Some (Spwrmap.set_type (Spwrmap.lower v) o, rest).
Proof. done. Qed.

Lemma parse_address a rest o :
  0 ≤ a < 2 ^ 32 →
  Spwrmap.parse_option "address" (print_hex a :: rest) o =
  Some (Spwrmap.set_address (Some a) o, rest).
Proof.
  intros Ha. unfold Spwrmap.parse_option. choose_option. cbn [takeValue mbind option_bind].
  rewrite parse_hex by lia. destruct (Z.ltb_spec UINT32_MAX a); [unfold UINT32_MAX in *; lia|].
  done.
Qed.

Lemma parse_length n rest o :
  0 < n < 2 ^ 64 →
  Spwrmap.parse_option "length" (print_decimal n :: rest) o =
  Some (Spwrmap.set_length (Some n) o, rest).
Proof.
  intros Hn. unfold Spwrmap.parse_option. choose_option. cbn [takeValue mbind option_bind].
  rewrite parse_decimal by lia. destruct (Z.ltb_spec SIZE_MAX n); [unfold SIZE_MAX in *; lia|].
  cbn. destruct (Z.eqb_spec n 0); [lia|done].
Qed.

(** The end of the arguments: the options that may be missing. *)
Lemma parse_loop_tail fuel o le da :
  (3 ≤ fuel)%nat → Spwrmap.length o = None → Spwrmap.data o = [] →
  (∀ n, le = Some n → 0 < n < 2 ^ 64) → bytes da →
  Spwrmap.parse_loop fuel (length_arguments le ++ data_arguments da) o =
  Ret (Some (Spwrmap.set_data da (Spwrmap.set_length le o))).
Proof.
  intros Hf Hl0 Hd0 Hle Hda.
  assert (Hdata : ∀ fuel o, (2 ≤ fuel)%nat → Spwrmap.data o = [] →
    Spwrmap.parse_loop fuel (data_arguments da) o = Ret (Some (Spwrmap.set_data da o))).
  { clear -Hda. intros fuel o Hf Hd. destruct fuel as [|[|fuel]]; [lia..|].
    destruct da as [|b da]; [cbn; destruct o; cbn in Hd; by subst|].
    cbn [data_arguments]. rewrite <-(app_nil_r (print_decimal <$> b :: da)).
    erewrite parse_loop_option; [|done|by apply parse_data]. by rewrite Hd. }
  destruct fuel as [|fuel]; [lia|]. destruct le as [n|].
  - cbn [length_arguments app]. erewrite parse_loop_option; [|done|by apply parse_length, Hle].
    apply Hdata; [lia|done].
  - cbn [length_arguments app]. rewrite Hdata by (done || lia). destruct o; cbn in Hl0. by subst.
Qed.

Lemma parse_loop_render fuel o :
  options_valid o → (9 ≤ fuel)%nat →
  Spwrmap.parse_loop fuel (render o) Spwrmap.default_options = Ret (Some o).
Proof.
  intros (Ht & Hta & Hbta & Hra & Hbra & (a & Ha & Hra') & Hlen & Hbd) Hf.
  destruct o as [ip port ty ta ra ad le da]; cbn -[render] in *; subst ad.
  assert (Hty : Spwrmap.lower ty = ty) by (by destruct Ht as [[-> _]|[-> _]]).
  unfold render. cbn [Spwrmap.ip Spwrmap.port Spwrmap.type Spwrmap.target_address
    Spwrmap.reply_address Spwrmap.address Spwrmap.length Spwrmap.data app].
  do 6 (destruct fuel as [|fuel]; [lia|]).
  erewrite parse_loop_option; [|done|apply parse_ip].
  erewrite parse_loop_option; [|done|apply parse_port].
  erewrite parse_loop_option; [|done|apply parse_type]. rewrite Hty.
  erewrite parse_loop_option; [|done|by apply parse_target_address].
  erewrite parse_loop_option; [|done|by apply parse_reply_address].
  erewrite parse_loop_option; [|done|by apply parse_address].
  by rewrite parse_loop_tail by (done || lia).
Qed.

(** C38: Every usable set of options of spwrmap, written out as arguments with
    decimal and hexadecimal numbers, is parsed back as it is. *)
Theorem parseOptions_render o :
  options_valid o → Spwrmap.parseOptions (render o) = Ret (Some o).
Proof.
  intros Ho. unfold Spwrmap.parseOptions. rewrite parse_loop_render; [|done|].
  - cbn. f_equal. destruct Ho as (Ht & Hta & _ & Hra & _ & (a & Ha & _) & Hlen & _).
    unfold Spwrmap.check_options. rewrite Ha.
    pose proof (zsize_pos _ Hta). pose proof (zsize_pos _ Hra).
    destruct (Z.eqb_spec (zsize (Spwrmap.target_address o)) 0); [lia|].
    destruct (Z.eqb_spec (zsize (Spwrmap.reply_address o)) 0); [lia|].
    assert (Hda : Spwrmap.data o ≠ [] → (zsize (Spwrmap.data o) =? 0) = false).
    { intros Hd%zsize_pos. apply Z.eqb_neq. lia. }
    rewrite (bool_decide_eq_true_2 (is_Some (Some a))) by by eexists.
    destruct Ht as [[-> Hl]|[-> Hd]]; cbn.
    + by rewrite (bool_decide_eq_true_2 _ Hl).
    + by rewrite (Hda Hd).
  - unfold render. destruct Ho as (_ & Hta & _ & Hra & _ & (a & -> & _) & _).
    destruct (Spwrmap.target_address o); [done|]. destruct (Spwrmap.reply_address o); [done|].
    cbn. rewrite !length_app. cbn. lia.
Qed.

(** ** The chunks of the speed test *)

(** The [i]-th chunk begins where the one before ends; the last one ends with the
    pattern. *)
Definition chunk_at (total : Z) (i : nat) : Z * Z :=
  (1024 * Z.of_nat i, Z.min 1024 (total - 1024 * Z.of_nat i)).
Definition all_chunks (total : Z) : list (Z * Z) :=
  chunk_at total <$> seq 0 (Z.to_nat ((total + 1023) `div` 1024)).

Lemma chunks_from m k fuel total :
  0 < total < 2 ^ 63 → (m < fuel)%nat → total ≤ 1024 * Z.of_nat (k + m) →
  (m = O ∨ 1024 * Z.of_nat (k + m) < total + 1024) →
  Speedtest.chunks fuel total (1024 * Z.of_nat k) = Ret (chunk_at total <$> seq k m).
Proof.
  intros Ht. revert k fuel. induction m as [|m IH]; intros k [|fuel] Hf Hle Hlt; [lia| |lia|];
    cbn [Speedtest.chunks]; unfold Speedtest.kChunkSize in *.
  - by rewrite (proj2 (Z.ltb_ge _ _)) by lia.
  - rewrite (proj2 (Z.ltb_lt _ _)) by lia. unfold u64. rewrite Z.mod_small by lia.
    replace (1024 * Z.of_nat k + 1024) with (1024 * Z.of_nat (S k)) by lia.
    rewrite IH by lia. done.
Qed.

Lemma chunks_spec total :
  0 < total < 2 ^ 63 → Speedtest.chunks (S (Z.to_nat total)) total 0 = Ret (all_chunks total).
Proof.
  intros Ht. pose proof (Z.div_mod (total + 1023) 1024 ltac:(lia)) as Hd.
  pose proof (Z.mod_pos_bound (total + 1023) 1024 ltac:(lia)) as Hm. unfold all_chunks.
  apply (chunks_from (Z.to_nat ((total + 1023) / 1024)) 0); lia.
Qed.
