(* ===== verification/Statistics.v ===== *)
(** * The statistics of the speed test (app/spwrmap_speedtest.cc)

    [computeMean], [computeStd], [medianSorted], [computeQuartiles] and
    [toMicroseconds] over the operations of [double], which are a type class.
    [binary64] is the IEEE format of 64 bits, as the Standard Library specifies
    it.  That the quartiles are in order needs an order and a midpoint that
    respects it, [DoubleLaws]; the rational numbers are an instance.
    [Binary64] is about the quartiles in binary64. *)

From S2P Require Import Prelude.
From Stdlib Require Import SpecFloat QArith Qround ZifyNat Lqa.
From stdpp Require Import sorting.
#[local] Open Scope Z_scope.

(** The operations of [double] that the tool uses. *)
Class Double (F : Type) := {
  fzero : F;
  fhalf : F;
  fadd : F → F → F;
  fsub : F → F → F;
  fmul : F → F → F;
  fdiv : F → F → F;
  fsqrt : F → F;
  fle : F → F → bool;
  flt : F → F → bool;
  of_integer : Z → F;          (* the conversion of an integer *)
  llround : F → Z;
  truncate : F → option Z;     (* without the fraction; not of an infinity or NaN *)
}.

(** *** IEEE binary64 *)

Definition prec : Z := 53.
Definition emax : Z := 1024.

(** [std::llround]: to the nearest integer, halves away from zero. *)
Definition sf_llround (x : spec_float) : Z :=
  match x with
  | S754_finite s m e =>
      let v := if 0 <=? e then Z.pos m * 2 ^ e else (Z.pos m + 2 ^ (- e - 1)) / 2 ^ (- e) in
      if s then - v else v
  | _ => 0
  end.

(** The conversion to an integer, towards zero. *)
Definition sf_truncate (x : spec_float) : option Z :=
  match x with
  | S754_zero _ => Some 0
  | S754_finite s m e =>
      let v := if 0 <=? e then Z.pos m * 2 ^ e else Z.pos m / 2 ^ (- e) in
      Some (if s then - v else v)
  | _ => None
  end.

#[export] Instance binary64 : Double spec_float := {
  fzero := S754_zero false;
  fhalf := S754_finite false 4503599627370496 (-53);
  fadd := SFadd prec emax;
  fsub := SFsub prec emax;
  fmul := SFmul prec emax;
  fdiv := SFdiv prec emax;
  fsqrt := SFsqrt prec emax;
  fle := SFleb;
  flt := SFltb;
  of_integer z := binary_normalize prec emax z 0 false;
  llround := sf_llround;
  truncate := sf_truncate;
}.

Section statistics.
Context {F : Type} `{Double F}.
Implicit Types (xs : list F).

Definition computeMean xs : F :=
  match xs with
  | [] => fzero
  | _ => fdiv (fold_left fadd xs fzero) (of_integer (zsize xs))
  end.

Definition computeStd xs (mean : F) : F :=
  if (length xs <=? 1)%nat then fzero else
  let acc := fold_left (λ acc v, let diff := fsub v mean in fadd acc (fmul diff diff)) xs fzero in
  fsqrt (fdiv acc (of_integer (zsize xs))).

(** [xs[i]]; the callers stay in range. *)
Definition at_ xs (i : nat) : F := nth i xs fzero.

Definition midpoint (a b : F) : F := fmul fhalf (fadd a b).

Definition medianSorted xs : F :=
  match xs with
  | [] => fzero
  | _ =>
      let n := length xs in
      if Nat.odd n then at_ xs (n / 2)
      else midpoint (at_ xs (n / 2 - 1)) (at_ xs (n / 2))
  end.

(** [std::ranges::sort] *)
Definition le_f (x y : F) : Prop := fle x y = true.
#[export] Instance le_f_dec : RelDecision le_f.
Proof. intros x y. unfold le_f. apply _. Defined.

Definition sort xs : list F := merge_sort le_f xs.

Definition computeQuartiles xs : F * F * F * F * F :=
  match xs with
  | [] => (fzero, fzero, fzero, fzero, fzero)
  | _ =>
      let xs := sort xs in
      let n := length xs in
      let min_v := at_ xs 0 in
      let max_v := at_ xs (n - 1) in
      let median := medianSorted xs in
      let mid := (n / 2)%nat in
      let lower := take mid xs in
      let upper := if Nat.even n then drop mid xs else drop (mid + 1) xs in
      let q1 := match lower with [] => min_v | _ => medianSorted lower end in
      let q3 := match upper with [] => max_v | _ => medianSorted upper end in
      (min_v, q1, median, q3, max_v)
  end.

Definition toMicroseconds (value : F) : Z := llround value.

(** [updateProgress] up to its output: [std::clamp], and the number of filled
    places of the bar.  The conversion to [std::size_t] of a value that it
    cannot hold is undefined. *)
Definition clamp (v lo hi : F) : F := if flt v lo then lo else if flt hi v then hi else v.

Definition kBarWidth : Z := 40.

Definition bar_filled (current total : Z) : outcome Z :=
  let ratio := if total =? 0 then fzero else fdiv (of_integer current) (of_integer total) in
  let ratio := clamp ratio fzero (of_integer 1) in
  match truncate (fmul ratio (of_integer kBarWidth)) with
  | Some filled => if (0 <=? filled) && (filled <? 2 ^ 64) then Ret filled else UB
  | None => UB
  end.
End statistics.

(** ** The order of the quartiles *)

(** Division of natural numbers by constants. *)
Ltac nat_div := zify; Z.to_euclidean_division_equations; lia.

Lemma div_odd n k : n = (2 * k + 1)%nat → ((n - 1) / 2 = n / 2)%nat.
Proof. intros. nat_div. Qed.
Lemma div_even n k : (0 < n)%nat → n = (2 * k)%nat → ((n - 1) / 2 = n / 2 - 1)%nat.
Proof. intros. nat_div. Qed.
Lemma div_inside n : (0 < n)%nat → ((n - 1) / 2 < n)%nat.
Proof. intros. nat_div. Qed.

Class DoubleLaws (F : Type) `{Double F} := {
  fle_total x y : fle x y = true ∨ fle y x = true;
  fle_trans x y z : fle x y = true → fle y z = true → fle x z = true;
  midpoint_between a b : fle a b = true → fle a (midpoint a b) = true ∧ fle (midpoint a b) b = true;
}.

(** The progress bar is defined for the numbers that the tool gives it. *)
Class ProgressLaws (F : Type) `{Double F} :=
  bar_defined current total : 0 ≤ current ≤ total → total < 2 ^ 52 →
    ∃ filled, bar_filled current total = Ret filled.

Section quartiles.
Context {F : Type} `{DoubleLaws F}.
Implicit Types (xs : list F) (v : F).

#[local] Instance le_f_preorder : PreOrder le_f.
Proof.
  split; [|intros x y z; apply fle_trans]. intros x. by destruct (fle_total x x).
Qed.
#[local] Instance le_f_total : Total le_f.
Proof. intros x y. apply fle_total. Qed.

Lemma sort_perm xs : sort xs ≡ₚ xs.
Proof. apply (merge_sort_Permutation le_f). Qed.

Lemma at_elem xs i : (i < length xs)%nat → at_ xs i ∈ xs.
Proof. intros Hi. apply list_elem_of_In, nth_In. lia. Qed.

(** Positions of a sorted list are in order. *)
Lemma sorted_at xs i j :
  StronglySorted le_f xs → (i ≤ j)%nat → (j < length xs)%nat → le_f (at_ xs i) (at_ xs j).
Proof.
  intros Hs. revert i j. induction Hs as [|x xs Hs IH Hx]; intros i j Hij Hj; [cbn in Hj; lia|].
  unfold at_ in *. destruct i as [|i], j as [|j]; cbn in *; [reflexivity| |lia|apply IH; lia].
  rewrite Forall_forall in Hx. apply Hx, (at_elem xs). lia.
Qed.

(** An element and its position. *)
Lemma elem_at xs x : x ∈ xs → ∃ i, (i < length xs)%nat ∧ x = at_ xs i.
Proof. intros Hx%list_elem_of_In. destruct (In_nth xs x fzero Hx) as (i & Hi & <-). by exists i. Qed.

(** The elements the median is made of are in order. *)
Lemma median_inside xs :
  StronglySorted le_f xs → xs ≠ [] →
  le_f (at_ xs ((length xs - 1) / 2)) (medianSorted xs) ∧ le_f (medianSorted xs) (at_ xs (length xs / 2)).
Proof.
  intros Hs Hne. assert (Hn : (0 < length xs)%nat) by (destruct xs; [done|cbn; lia]).
  assert (E : medianSorted xs = if Nat.odd (length xs) then at_ xs (length xs / 2)
    else midpoint (at_ xs (length xs / 2 - 1)) (at_ xs (length xs / 2))) by by destruct xs.
  rewrite E. destruct (Nat.odd (length xs)) eqn:Eo.
  - apply Nat.odd_spec in Eo as [k Hk]. rewrite (div_odd _ k Hk). split; reflexivity.
  - assert (He : Nat.even (length xs) = true) by by rewrite <-Nat.negb_odd, Eo.
    apply Nat.even_spec in He as [k Hk]. rewrite (div_even _ k Hn Hk).
    apply midpoint_between, sorted_at; [done|lia|]. apply Nat.div_lt; lia.
Qed.

Lemma median_le xs v :
  StronglySorted le_f xs → xs ≠ [] → (∀ x, x ∈ xs → le_f x v) → le_f (medianSorted xs) v.
Proof.
  intros Hs Hne Hv. destruct (median_inside xs Hs Hne) as [_ Hm]. trans (at_ xs (length xs / 2)); [done|].
  apply Hv, at_elem. destruct xs; [done|]. apply Nat.div_lt; cbn; lia.
Qed.

Lemma median_ge xs v :
  StronglySorted le_f xs → xs ≠ [] → (∀ x, x ∈ xs → le_f v x) → le_f v (medianSorted xs).
Proof.
  intros Hs Hne Hv. destruct (median_inside xs Hs Hne) as [Hm _].
  trans (at_ xs ((length xs - 1) / 2)); [|done]. apply Hv, at_elem.
  apply div_inside. destruct xs; [done|cbn; lia].
Qed.

(** The halves of a sorted list. *)
Lemma take_at xs k x : x ∈ take k xs → ∃ i, (i < k)%nat ∧ (i < length xs)%nat ∧ x = at_ xs i.
Proof.
  intros (i & Hi & ->)%elem_at. rewrite length_take in Hi. exists i. split_and!; [lia..|].
  unfold at_. by rewrite nth_firstn, (proj2 (Nat.ltb_lt i k)) by lia.
Qed.

Lemma drop_at xs k x : x ∈ drop k xs → ∃ i, (k ≤ i)%nat ∧ (i < length xs)%nat ∧ x = at_ xs i.
Proof.
  intros (i & Hi & ->)%elem_at. rewrite length_drop in Hi. exists (k + i)%nat. split_and!; [lia..|].
  unfold at_. by rewrite nth_skipn.
Qed.

Lemma lower_below xs x :
  StronglySorted le_f xs → x ∈ take (length xs / 2) xs → le_f x (medianSorted xs).
Proof.
  intros Hs (i & Hi & Hl & ->)%take_at. assert (Hne : xs ≠ []) by (intros ->; cbn in Hl; lia).
  destruct (median_inside xs Hs Hne) as [Hm _]. etrans; [|exact Hm].
  apply sorted_at; [done|nat_div|apply div_inside; lia].
Qed.

Lemma upper_above xs k x :
  StronglySorted le_f xs → (length xs / 2 ≤ k)%nat → x ∈ drop k xs → le_f (medianSorted xs) x.
Proof.
  intros Hs Hk (i & Hi & Hl & ->)%drop_at. assert (Hne : xs ≠ []) by (intros ->; cbn in Hl; lia).
  destruct (median_inside xs Hs Hne) as [_ Hm]. etrans; [exact Hm|]. apply sorted_at; [done|lia|done].
Qed.

(** The median of a part of a sorted list, or [v] when the part is empty. *)
Definition median_or v xs : F := match xs with [] => v | _ => medianSorted xs end.

Lemma median_or_between lo hi v xs :
  StronglySorted le_f xs → le_f lo v → le_f v hi → (∀ x, x ∈ xs → le_f lo x ∧ le_f x hi) →
  le_f lo (median_or v xs) ∧ le_f (median_or v xs) hi.
Proof.
  intros Hs Hlo Hhi Hx. destruct xs as [|y ys]; [done|]. cbn [median_or].
  split; [apply median_ge|apply median_le]; try done; intros x Hin; by apply Hx.
Qed.

Lemma sorted_bounds xs x :
  StronglySorted le_f xs → x ∈ xs → le_f (at_ xs 0) x ∧ le_f x (at_ xs (length xs - 1)).
Proof. intros Hs (i & Hi & ->)%elem_at. split; apply sorted_at; (done || lia). Qed.

(** The five numbers of a sorted list whose upper part starts at [k]. *)
Lemma sorted_quartiles xs k :
  StronglySorted le_f xs → xs ≠ [] → (length xs / 2 ≤ k)%nat →
  let mn := at_ xs 0 in let mx := at_ xs (length xs - 1) in
  let q1 := median_or mn (take (length xs / 2) xs) in let q3 := median_or mx (drop k xs) in
  (le_f mn q1 ∧ le_f q1 (medianSorted xs)) ∧ (le_f (medianSorted xs) q3 ∧ le_f q3 mx).
Proof.
  intros Hs Hne Hk mn mx q1 q3.
  assert (Hsub : StronglySorted le_f (take (length xs / 2) xs) ∧ StronglySorted le_f (drop k xs)).
  { split; [eapply StronglySorted_app_1_l with (l2 := drop (length xs / 2) xs)
           |eapply StronglySorted_app_1_r with (l1 := take k xs)]; by rewrite take_drop. }
  destruct Hsub as [Ht Hd]. pose proof (λ x, sorted_bounds xs x Hs) as Hb.
  split; apply median_or_between; try done.
  - apply median_ge; [done..|]. intros; by apply Hb.
  - intros x Hx. split; [|by apply lower_below]. apply Hb.
    apply take_at in Hx as (i & _ & Hi & ->). by apply at_elem.
  - apply median_le; [done..|]. intros; by apply Hb.
  - intros x Hx. split; [by eapply upper_above|]. apply Hb.
    apply drop_at in Hx as (i & _ & Hi & ->). by apply at_elem.
Qed.

(** [computeQuartiles] in terms of the sorted list; an odd list leaves its
    middle element out of the upper part. *)
Definition upper_start xs : nat := (length xs / 2 + if Nat.even (length xs) then 0 else 1)%nat.

Lemma quartiles_parts xs :
  xs ≠ [] → let ys := sort xs in
  computeQuartiles xs = (at_ ys 0, median_or (at_ ys 0) (take (length ys / 2) ys), medianSorted ys,
    median_or (at_ ys (length ys - 1)) (drop (upper_start ys) ys), at_ ys (length ys - 1)).
Proof.
  intros Hne. unfold upper_start. destruct xs as [|x0 xs0]; [done|]. cbn [computeQuartiles].
  by destruct (Nat.even _); rewrite ?Nat.add_0_r.
Qed.

(** The five numbers of a non-empty list: the first and the last are its least
    and its greatest element, and the quartiles lie between them in order. *)
Lemma quartiles_ordered xs mn q1 med q3 mx :
  xs ≠ [] → computeQuartiles xs = (mn, q1, med, q3, mx) →
  mn ∈ xs ∧ mx ∈ xs ∧ (∀ x, x ∈ xs → le_f mn x ∧ le_f x mx) ∧
  le_f mn q1 ∧ le_f q1 med ∧ le_f med q3 ∧ le_f q3 mx.
Proof.
  intros Hne Hq. pose proof (sort_perm xs) as Hp. pose proof (StronglySorted_merge_sort le_f xs) as Hs.
  fold (sort xs) in Hs. assert (Hl : length (sort xs) = length xs) by by rewrite Hp.
  assert (Hpos : (0 < length xs)%nat) by (destruct xs; [done|cbn; lia]).
  assert (Hsne : sort xs ≠ []) by (intros E; rewrite E in Hl; cbn in Hl; lia).
  rewrite (quartiles_parts xs Hne) in Hq. injection Hq as <- <- <- <- <-.
  destruct (sorted_quartiles (sort xs) (upper_start (sort xs)) Hs Hsne) as [[??][??]]; [unfold upper_start; lia|].
  assert (Hin : ∀ x, x ∈ sort xs ↔ x ∈ xs) by (intros; by rewrite Hp).
  split_and!; try done; [apply Hin, at_elem; lia..|]. intros x Hx%Hin. by apply sorted_bounds.
Qed.
End quartiles.

(** *** Rational numbers *)

#[export] Instance rationals : Double Q := {
  fzero := 0%Q;
  fhalf := 1 # 2;
  fadd := Qplus;
  fsub := Qminus;
  fmul := Qmult;
  fdiv := Qdiv;
  fsqrt x := inject_Z (Z.sqrt (Qfloor x));
  fle := Qle_bool;
  flt x y := negb (Qle_bool y x);
  of_integer := inject_Z;
  llround x := Qfloor (x + (1 # 2));
  truncate x := Some (if Qle_bool 0 x then Qfloor x else Qceiling x);
}.

#[export] Instance rationals_laws : DoubleLaws Q.
Proof.
  split; cbn; unfold midpoint; cbn.
  - intros x y. destruct (Qlt_le_dec x y); [left|right]; apply Qle_bool_iff; [by apply Qlt_le_weak|done].
  - intros x y z Hx%Qle_bool_iff Hy%Qle_bool_iff. apply Qle_bool_iff. by eapply Qle_trans.
  - intros a b Hab%Qle_bool_iff. split; apply Qle_bool_iff.
    + lra.
    + lra.
Qed.

(** Binary64 on four latencies in nanoseconds. *)
Example quartiles_binary64 :
  let '(mn, q1, med, q3, mx) := computeQuartiles (of_integer <$> [40; 10; 21; 30]) in
  toMicroseconds <$> [mn; q1; med; q3; mx] = [10; 16; 26; 35; 40].
Proof. by vm_compute. Qed.
