(* ===== verification/Binary64.v ===== *)
(** * The statistics in IEEE binary64

    Half-integers below 2^52 are numbers of binary64, and so the additions,
    halvings and comparisons of [computeQuartiles] on integers below 2^52 are
    exact: it computes the quartiles of the integers, counted in halves.  The
    proof relates the two by [half], a map from halves to binary64. *)

From Stdlib Require Import SpecFloat ZifyNat QArith Qpower Qfield.
From stdpp Require Import sorting.
From S2P Require Import Prelude Statistics.
#[local] Open Scope Z_scope.

(** ** Digits and shifts *)

Lemma digits2_log2 p : Zpos (digits2_pos p) = Z.log2 (Zpos p) + 1.
Proof.
  induction p as [p IH|p IH|]; [| |done]; cbn [digits2_pos]; rewrite Pos2Z.inj_succ, IH.
  - rewrite (Pos2Z.inj_xI p), Z.log2_succ_double by done. lia.
  - rewrite (Pos2Z.inj_xO p), Z.log2_double by done. lia.
Qed.

Lemma Zdigits2_log2 n : 0 < n → Zdigits2 n = Z.log2 n + 1.
Proof. intros. destruct n as [|p|p]; [done| |done]. apply digits2_log2. Qed.

Lemma iter_pos_nat {A} (f : A → A) p x : SpecFloat.iter_pos f p x = Nat.iter (Pos.to_nat p) f x.
Proof.
  revert x. induction p as [p IH|p IH|]; intros x; cbn [SpecFloat.iter_pos]; [| |done]; rewrite !IH.
  - rewrite Pos2Nat.inj_xI, <-Nat.iter_add, <-Nat.iter_succ_r. f_equal. lia.
  - rewrite Pos2Nat.inj_xO, <-Nat.iter_add. f_equal. lia.
Qed.

Lemma shr_1_even m : 0 < m → shr_1 (Build_shr_record (m * 2) false false) = Build_shr_record m false false.
Proof. intros. by destruct m as [|p|p]; [lia| |lia]; rewrite Z.mul_comm. Qed.

Lemma shr_exact m j : 0 < m →
  Nat.iter j shr_1 (Build_shr_record (m * 2 ^ Z.of_nat j) false false) = Build_shr_record m false false.
Proof.
  intros Hm. induction j as [|j IH]; [by rewrite Z.mul_1_r|].
  rewrite Nat.iter_succ_r. rewrite Nat2Z.inj_succ, Z.pow_succ_r by lia.
  replace (m * (2 * 2 ^ Z.of_nat j)) with (m * 2 ^ Z.of_nat j * 2) by lia. by rewrite shr_1_even by lia.
Qed.

Lemma xO_shift m d : Zpos (Pos.iter xO m d) = Zpos m * 2 ^ Zpos d.
Proof.
  induction d as [|d IH] using Pos.peano_ind; [by rewrite Z.mul_comm|].
  rewrite Pos.iter_succ, Pos2Z.inj_xO, IH, Pos2Z.inj_succ, Z.pow_succ_r by done. lia.
Qed.

Lemma log2_shift n k : 0 < n → 0 ≤ k → Z.log2 (n * 2 ^ k) = Z.log2 n + k.
Proof. intros. rewrite Z.log2_mul_pow2; lia. Qed.

(** ** Numbers with 53 digits *)

(** A mantissa of 53 digits with zeros behind it is rounded to itself. *)
Lemma round_aux_exact m j e :
  Z.log2 m = 52 → 0 < m → 0 ≤ j → -1074 ≤ e + j ≤ 971 →
  binary_round_aux prec emax false (m * 2 ^ j) e loc_Exact = S754_finite false (Z.to_pos m) (e + j).
Proof.
  intros Hl Hm Hj He. unfold binary_round_aux.
  assert (Hf : ∀ e', -1074 ≤ e' → fexp prec emax (53 + e') = e').
  { intros e' ?. unfold fexp, emin, prec, emax. lia. }
  assert (E1 : shr_fexp prec emax (m * 2 ^ j) e loc_Exact = (Build_shr_record m false false, e + j)).
  { unfold shr_fexp. rewrite Zdigits2_log2, log2_shift, Hl by lia.
    replace (52 + j + 1 + e) with (53 + (e + j)) by lia. rewrite Hf by lia. cbn [shr_record_of_loc].
    replace (e + j - e) with j by lia. unfold shr. destruct j as [|p|p]; [by rewrite Z.mul_1_r, Z.add_0_r| |lia].
    rewrite iter_pos_nat. f_equal. rewrite <-(shr_exact m (Pos.to_nat p) Hm). by rewrite positive_nat_Z. }
  rewrite E1. cbn [shr_m loc_of_shr_record round_nearest_even].
  assert (E2 : shr_fexp prec emax m (e + j) loc_Exact = (Build_shr_record m false false, e + j)).
  { unfold shr_fexp. rewrite Zdigits2_log2, Hl by lia. replace (52 + 1 + (e + j)) with (53 + (e + j)) by lia.
    rewrite Hf by lia. cbn [shr_record_of_loc]. by rewrite Z.sub_diag. }
  rewrite E2. cbn [shr_m]. destruct m as [|p|p]; [lia| |lia].
  rewrite (proj2 (Z.leb_le _ _)) by (unfold emax, prec; lia). done.
Qed.

(** The number [n * 2 ^ e] of binary64, [n] with at most 53 digits. *)
Definition canon (n e : Z) : spec_float :=
  S754_finite false (Z.to_pos (n * 2 ^ (52 - Z.log2 n))) (e - (52 - Z.log2 n)).

Lemma log2_range n : 0 < n < 2 ^ 53 → 0 ≤ Z.log2 n ≤ 52.
Proof.
  intros [Hn Hn']. split; [apply Z.log2_nonneg|]. apply Z.log2_lt_pow2 in Hn'; lia.
Qed.

Lemma mantissa_pos n : 0 < n < 2 ^ 53 → 0 < n * 2 ^ (52 - Z.log2 n) ∧ Z.log2 (n * 2 ^ (52 - Z.log2 n)) = 52.
Proof.
  intros Hn. pose proof (log2_range n Hn). split; [apply Z.mul_pos_pos; [lia|apply Z.pow_pos_nonneg; lia]|].
  rewrite log2_shift by lia. lia.
Qed.

Lemma round_exact n k e :
  0 < n < 2 ^ 53 → 0 ≤ k → -1000 ≤ e + k ≤ 900 →
  binary_round prec emax false (Z.to_pos (n * 2 ^ k)) e = canon n (e + k).
Proof.
  intros Hn Hk He. pose proof (log2_range n Hn) as Hl. destruct (mantissa_pos n Hn) as [Hm Hml].
  assert (Hp : 0 < n * 2 ^ k) by (apply Z.mul_pos_pos; [lia|apply Z.pow_pos_nonneg; lia]).
  unfold binary_round, shl_align. rewrite digits2_log2, Z2Pos.id, log2_shift by lia.
  assert (Hf : fexp prec emax (Z.log2 n + k + 1 + e) = Z.log2 n + k - 52 + e) by (unfold fexp, emin, prec, emax; lia).
  rewrite Hf. replace (Z.log2 n + k - 52 + e - e) with (k - (52 - Z.log2 n)) by lia.
  unfold canon. set (s := 52 - Z.log2 n) in *.
  destruct (decide (k < s)) as [Hlt|Hge].
  - destruct (k - s) as [|d|d] eqn:Ed; [lia|lia|].
    rewrite xO_shift, Z2Pos.id by lia.
    replace (n * 2 ^ k * 2 ^ Z.pos d) with (n * 2 ^ s * 2 ^ 0).
    { rewrite round_aux_exact by lia. f_equal. lia. }
    rewrite Z.mul_1_r, <-Z.mul_assoc, <-Z.pow_add_r by lia. do 2 f_equal. lia.
  - assert (E : n * 2 ^ k = n * 2 ^ s * 2 ^ (k - s))
      by (rewrite <-Z.mul_assoc, <-Z.pow_add_r by lia; do 2 f_equal; lia).
    assert (Em : (match k - s with Z.neg d => (Pos.iter xO (Z.to_pos (n * 2 ^ k)) d, Z.log2 n + k - 52 + e)
      | _ => (Z.to_pos (n * 2 ^ k), e) end) = (Z.to_pos (n * 2 ^ k), e)) by (destruct (k - s) eqn:?; [done|done|lia]).
    rewrite Em, Z2Pos.id, E by lia. rewrite round_aux_exact by lia. f_equal. lia.
Qed.

(** ** The operations *)

Lemma canon_double n e : 0 < 2 * n < 2 ^ 53 → canon (2 * n) e = canon n (e + 1).
Proof.
  intros Hn. unfold canon. pose proof (log2_range (2 * n) Hn) as Hl. rewrite Z.log2_double in * by lia.
  f_equal; [|lia]. f_equal. rewrite (Z.mul_comm 2), <-Z.mul_assoc, <-Z.pow_succ_r by lia. do 2 f_equal. lia.
Qed.

(** Aligned to an exponent below its own, it is the same number. *)
Lemma canon_align n e ez :
  0 < n < 2 ^ 53 → ez ≤ e - (52 - Z.log2 n) →
  fst (shl_align (Z.to_pos (n * 2 ^ (52 - Z.log2 n))) (e - (52 - Z.log2 n)) ez) = Z.to_pos (n * 2 ^ (e - ez)).
Proof.
  intros Hn He. pose proof (log2_range n Hn) as Hl. destruct (mantissa_pos n Hn) as [Hm _].
  unfold shl_align. destruct (ez - (e - (52 - Z.log2 n))) as [|d|d] eqn:Ed; cbn [fst]; [|lia|].
  - do 3 f_equal. lia.
  - assert (E : Zpos (Pos.iter xO (Z.to_pos (n * 2 ^ (52 - Z.log2 n))) d) = n * 2 ^ (e - ez)).
    { rewrite xO_shift, Z2Pos.id, <-Z.mul_assoc, <-Z.pow_add_r by lia. do 2 f_equal. lia. }
    by rewrite <-E.
Qed.

Lemma add_canon a b e :
  0 < a → 0 < b → a + b < 2 ^ 53 → -900 ≤ e ≤ 900 →
  SFadd prec emax (canon a e) (canon b e) = canon (a + b) e.
Proof.
  intros Ha Hb Hab He. unfold canon at 1 2. cbn [SFadd cond_Zopp].
  set (ez := Z.min _ _). pose proof (log2_range a ltac:(lia)). pose proof (log2_range b ltac:(lia)).
  assert (Hp : ∀ n, 0 < n → 0 < n * 2 ^ (e - ez)).
  { intros. apply Z.mul_pos_pos; [done|apply Z.pow_pos_nonneg; unfold ez; lia]. }
  rewrite !canon_align, !Z2Pos.id by (auto || unfold ez; lia).
  rewrite <-Z.mul_add_distr_r. pose proof (Hp (a + b) ltac:(lia)) as Hs.
  replace (canon (a + b) e) with (canon (a + b) (ez + (e - ez))) by (f_equal; lia). rewrite <-(round_exact (a + b) (e - ez) ez) by (unfold ez; lia).
  unfold binary_normalize. by destruct ((a + b) * 2 ^ (e - ez)).
Qed.

Lemma half_canon n e :
  0 < n < 2 ^ 53 → -900 ≤ e ≤ 900 →
  SFmul prec emax (S754_finite false 4503599627370496 (-53)) (canon n e) = canon n (e - 1).
Proof.
  intros Hn He. destruct (mantissa_pos n Hn) as [Hm Hl]. pose proof (log2_range n Hn).
  unfold canon. cbn [SFmul xorb]. set (m := n * 2 ^ (52 - Z.log2 n)) in *.
  replace (Z.pos (4503599627370496 * Z.to_pos m)) with (m * 2 ^ 52) by (rewrite Pos2Z.inj_mul, Z2Pos.id; lia).
  rewrite round_aux_exact by lia. f_equal. lia.
Qed.

Lemma leb_canon a b e :
  0 < a < 2 ^ 53 → 0 < b < 2 ^ 53 → SFleb (canon a e) (canon b e) = (a <=? b).
Proof.
  intros Ha Hb. destruct (mantissa_pos a Ha) as [Hma _], (mantissa_pos b Hb) as [Hmb _].
  unfold SFleb, SFcompare, canon.
  destruct (Z.compare_spec (e - (52 - Z.log2 a)) (e - (52 - Z.log2 b))) as [E|L|G].
  - assert (E' : Z.log2 a = Z.log2 b) by lia. rewrite E' in *.
    assert (Hs : 0 < 2 ^ (52 - Z.log2 b)) by (apply Z.pow_pos_nonneg; pose proof (log2_range b Hb); lia).
    change (Pos.compare_cont Eq ?x ?y) with (Pos.compare x y).
    rewrite Pos2Z.inj_compare, !Z2Pos.id, <-Zmult_compare_compat_r by lia. unfold Z.leb. by destruct (a ?= b).
  - symmetry. apply Z.leb_le. apply Z.lt_le_incl, Z.log2_lt_cancel. lia.
  - symmetry. apply Z.leb_gt. apply Z.log2_lt_cancel. lia.
Qed.

(** ** Half-integers *)

(** [n] halves. *)
Definition half (n : Z) : spec_float := if n =? 0 then S754_zero false else canon n (-1).

Lemma half_pos n : 0 < n → half n = canon n (-1).
Proof. intros Hn. unfold half. by rewrite (proj2 (Z.eqb_neq n 0)) by lia. Qed.

Lemma half_integer z : 0 ≤ z < 2 ^ 52 → of_integer z = half (2 * z).
Proof.
  intros Hz. destruct (decide (z = 0)) as [->|Hn]; [done|]. rewrite half_pos, canon_double by lia.
  pose proof (round_exact z 0 0 ltac:(lia) ltac:(lia) ltac:(lia)) as E. rewrite Z.mul_1_r in E.
  cbn [of_integer binary64]. change (-1 + 1) with (0 + 0). rewrite <-E. destruct z; [lia|done|lia].
Qed.

Lemma half_add a b : 0 ≤ a → 0 ≤ b → a + b < 2 ^ 53 → fadd (half a) (half b) = half (a + b).
Proof.
  intros Ha Hb Hab. cbn [fadd binary64].
  destruct (decide (a = 0)) as [->|]; [|destruct (decide (b = 0)) as [->|]].
  - rewrite Z.add_0_l. unfold half at 1. by destruct (decide (b = 0)) as [->|]; [|rewrite half_pos by lia].
  - by rewrite Z.add_0_r, half_pos by lia.
  - rewrite !half_pos by lia. apply add_canon; lia.
Qed.

Lemma half_mul n : 0 ≤ n → 2 * n < 2 ^ 53 → fmul fhalf (half (2 * n)) = half n.
Proof.
  intros Hn Hn'. destruct (decide (n = 0)) as [->|]; [done|]. rewrite !half_pos by lia.
  cbn [fmul fhalf binary64]. rewrite half_canon by lia. by rewrite canon_double by lia.
Qed.

Lemma half_leb a b : 0 ≤ a < 2 ^ 53 → 0 ≤ b < 2 ^ 53 → fle (half a) (half b) = (a <=? b).
Proof.
  intros Ha Hb. cbn [fle binary64].
  destruct (decide (a = 0)) as [->|]; [|destruct (decide (b = 0)) as [->|]].
  - symmetry. rewrite (proj2 (Z.leb_le _ _)) by lia. unfold half at 1.
    by destruct (decide (b = 0)) as [->|]; [|rewrite half_pos by lia].
  - symmetry. rewrite (proj2 (Z.leb_gt _ _)) by lia. by rewrite half_pos by lia.
  - rewrite !half_pos by lia. apply leb_canon; lia.
Qed.

(** [std::llround] of a half-integer: halves go up. *)
Lemma half_llround n : 0 ≤ n < 2 ^ 53 → llround (half n) = (n + 1) / 2.
Proof.
  intros Hn. destruct (decide (n = 0)) as [->|]; [done|]. rewrite half_pos by lia.
  destruct (mantissa_pos n ltac:(lia)) as [Hm _]. pose proof (log2_range n ltac:(lia)) as Hl.
  cbn [llround binary64 sf_llround canon]. rewrite (proj2 (Z.leb_gt _ _)) by lia.
  set (s := 52 - Z.log2 n) in *. rewrite Z2Pos.id by done.
  replace (- (-1 - s) - 1) with s by lia. replace (- (-1 - s)) with (1 + s) by lia.
  rewrite Z.pow_add_r by lia. replace (n * 2 ^ s + 2 ^ s) with ((n + 1) * 2 ^ s) by lia.
  rewrite Z.div_mul_cancel_r; [done|lia|apply Z.pow_nonzero; lia].
Qed.

(** ** Sorting *)

Section homomorphism.
Context {A B} (R : relation A) (S : relation B) `{!RelDecision R, !RelDecision S}.
Context (f : A → B) (P : A → Prop).
Hypothesis f_mono : ∀ x y, P x → P y → S (f x) (f y) ↔ R x y.

Lemma list_merge_fmap l1 l2 :
  Forall P l1 → Forall P l2 → list_merge S (f <$> l1) (f <$> l2) = f <$> list_merge R l1 l2.
Proof.
  intros H1. revert l2. induction H1 as [|x l1 Hx H1 IH1]; intros l2 H2; [by destruct l2|].
  induction H2 as [|y l2 Hy H2 IH2]; [done|]. rewrite !fmap_cons, !list_merge_cons.
  destruct (decide (R x y)) as [D|D].
  - rewrite decide_True by by apply f_mono. rewrite fmap_cons. f_equal. rewrite <-fmap_cons. apply IH1. by constructor.
  - rewrite decide_False by by rewrite f_mono. rewrite fmap_cons. f_equal. apply IH2.
Qed.

Lemma list_merge_Forall l1 l2 : Forall P l1 → Forall P l2 → Forall P (list_merge R l1 l2).
Proof. intros. rewrite (merge_Permutation R). by apply Forall_app. Qed.

(** The stack of sorted lists: a slot is empty or holds a list. *)
Abbreviation on_stack := (fmap (M := list) (fmap (M := option) (fmap (M := list) f))).
Abbreviation slots_P := (Forall (λ o : option (list A), Forall P (default [] o))).

Lemma merge_list_to_stack_fmap st l :
  slots_P st → Forall P l →
  merge_list_to_stack S (on_stack st) (f <$> l) = on_stack (merge_list_to_stack R st l) ∧
  slots_P (merge_list_to_stack R st l).
Proof.
  intros Hst. revert l. induction Hst as [|[l'|] st Hl' Hst IH]; intros l Hl; cbn in *.
  - split; [done|]. by repeat constructor.
  - rewrite list_merge_fmap by done. destruct (IH (list_merge R l' l)) as [-> ?]; [by apply list_merge_Forall|].
    split; [done|]. by repeat constructor.
  - split; [done|]. by repeat constructor.
Qed.

Lemma merge_stack_fmap st :
  slots_P st → merge_stack S (on_stack st) = f <$> merge_stack R st ∧ Forall P (merge_stack R st).
Proof.
  induction 1 as [|[l|] st Hl Hst [E IH]]; cbn in *; [by split|split|done].
  - by rewrite E, list_merge_fmap.
  - by apply list_merge_Forall.
Qed.

Lemma merge_sort_fmap l : Forall P l → merge_sort S (f <$> l) = f <$> merge_sort R l.
Proof.
  unfold merge_sort. assert (G : ∀ st, slots_P st → Forall P l →
    merge_sort_aux S (on_stack st) (f <$> l) = f <$> merge_sort_aux R st l); [|by apply (G [])].
  induction l as [|x l IH]; intros st Hst Hl; [by apply merge_stack_fmap|].
  inversion_clear Hl as [|?? Hx Hl']. cbn [fmap list_fmap merge_sort_aux].
  destruct (merge_list_to_stack_fmap st [x]) as [E ?]; [done|by repeat constructor|]. cbn in E. rewrite E. by apply IH.
Qed.
End homomorphism.

(** ** The quartiles *)

(** Numbers counted in halves. *)
#[export] Instance halves : Double Z := {
  fzero := 0;
  fhalf := 1;
  fadd := Z.add;
  fsub := Z.sub;
  fmul x y := x * y / 2;
  fdiv x y := 2 * x / y;
  fsqrt x := Z.sqrt (2 * x);
  fle := Z.leb;
  flt := Z.ltb;
  of_integer z := 2 * z;
  llround x := (x + 1) / 2;
  truncate x := Some (Z.quot x 2);
}.

#[export] Instance halves_laws : DoubleLaws Z.
Proof.
  split; unfold midpoint; cbn; intros *; rewrite ?Z.leb_le; [lia..|].
  intros. rewrite Z.mul_1_l. Z.to_euclidean_division_equations. lia.
Qed.

(** An integer below 2^51, in halves. *)
Definition small (h : Z) : Prop := Z.Even h ∧ 0 ≤ h < 2 ^ 52.

Lemma half_le h h' : small h → small h' → le_f (half h) (half h') ↔ le_f h h'.
Proof. intros [_ ?] [_ ?]. unfold le_f. by rewrite half_leb by lia. Qed.

Lemma at_half hs i : at_ (half <$> hs) i = half (at_ hs i).
Proof. unfold at_. change (fzero (F := spec_float)) with (half fzero). apply map_nth. Qed.

Lemma at_small hs i : Forall small hs → small (at_ hs i).
Proof.
  intros Hs. unfold at_. destruct (nth_in_or_default i hs fzero) as [Hi| ->]; [|split; [by exists 0|done]].
  rewrite Forall_forall in Hs. by apply Hs, list_elem_of_In.
Qed.

Lemma midpoint_half h h' : small h → small h' → midpoint (half h) (half h') = half (midpoint h h').
Proof.
  intros [[z ->] ?] [[z' ->] ?]. unfold midpoint. rewrite half_add by lia.
  rewrite <-Z.mul_add_distr_l, half_mul by lia. f_equal. cbn. rewrite Z.mul_1_l, <-Z.mul_add_distr_l, (Z.mul_comm 2).
  by rewrite Z.div_mul.
Qed.

Lemma median_half hs : Forall small hs → medianSorted (half <$> hs) = half (medianSorted hs).
Proof.
  intros Hs. destruct hs as [|h hs]; [done|]. unfold medianSorted. rewrite fmap_cons, <-fmap_cons, length_fmap, !at_half.
  destruct (Nat.odd _); [done|]. by rewrite midpoint_half by by apply at_small.
Qed.

Lemma median_or_half h hs : Forall small hs → median_or (half h) (half <$> hs) = half (median_or h hs).
Proof. intros Hs. destruct hs as [|h' hs]; [done|]. by apply (median_half (h' :: hs)). Qed.

Lemma quartiles_half hs :
  Forall small hs →
  computeQuartiles (half <$> hs) =
  let '(mn, q1, med, q3, mx) := computeQuartiles hs in (half mn, half q1, half med, half q3, half mx).
Proof.
  intros Hs. destruct hs as [|h hs]; [done|]. set (xs := h :: hs) in *.
  assert (Es : sort (half <$> xs) = half <$> sort xs) by (apply merge_sort_fmap with (P := small); [apply half_le|done]).
  assert (Hx : Forall small (sort xs)) by by rewrite sort_perm.
  rewrite !quartiles_parts, Es by done. unfold upper_start.
  rewrite !at_half, length_fmap, median_half, <-!fmap_take, <-!fmap_drop, !median_or_half; auto using Forall_take, Forall_drop.
Qed.

(** ** Values *)

(** The rational number that a finite number of binary64 stands for. *)
Definition sf_value (x : spec_float) : Q :=
  match x with
  | S754_finite s m e => inject_Z (if s then Z.neg m else Z.pos m) * (2 # 1) ^ e
  | _ => 0
  end%Q.

Lemma half_sf_value n : 0 ≤ n < 2 ^ 53 → (sf_value (half n) == n # 2)%Q.
Proof.
  intros Hn. destruct (decide (n = 0)) as [->|]; [done|]. rewrite half_pos by lia.
  destruct (mantissa_pos n ltac:(lia)) as [Hm _]. pose proof (log2_range n ltac:(lia)) as Hl.
  unfold canon, sf_value. set (s := 52 - Z.log2 n) in *. rewrite Z2Pos.id by done.
  rewrite Qpower_minus, inject_Z_mult by done. assert (Hs : (inject_Z (2 ^ s) == (2 # 1) ^ s)%Q).
  { rewrite Zpower_Qpower by lia. done. }
  rewrite Hs. assert (Hz : ~ ((2 # 1) ^ s == 0)%Q) by by apply Qpower_not_0.
  transitivity (inject_Z n * (1 # 2))%Q; [|unfold Qeq; cbn; lia].
  change ((2 # 1) ^ (-1))%Q with (1 # 2)%Q. by field.
Qed.

(** [x] is the binary64 number of [h] halves, and prints as such. *)
Definition exactly (x : spec_float) (h : Z) : Prop :=
  (sf_value x == h # 2)%Q ∧ toMicroseconds x = (h + 1) / 2.

Lemma half_exactly h : 0 ≤ h < 2 ^ 53 → exactly (half h) h.
Proof. intros. split; [by apply half_sf_value|by apply half_llround]. Qed.

Lemma small_of_integer (ns : list Z) :
  Forall (λ z, 0 ≤ z < 2 ^ 51) ns →
  Forall small (of_integer <$> ns) ∧ of_integer (F := spec_float) <$> ns = half <$> (of_integer <$> ns).
Proof.
  intros Hns. split.
  - apply Forall_fmap. eapply Forall_impl; [exact Hns|]. intros z Hz. split; [by exists z|].
    change (0 ≤ 2 * z < 2 ^ 52). cbn beta in Hz. lia.
  - rewrite <-list_fmap_compose. apply list_fmap_ext. intros i z Hi.
    apply (half_integer z). pose proof (Forall_lookup_1 _ _ _ _ Hns Hi) as Hz. cbn beta in Hz. lia.
Qed.

(** C33: The quartiles that the speed test computes in IEEE binary64 are exact when
    the latencies are whole nanoseconds below 2^51: each of the five numbers is
    the binary64 number of a half-integer that integer arithmetic gives, prints
    as this half-integer rounded up, the outer two are the least and the
    greatest latency, and all five are in order. *)
Theorem quartiles_binary64_exact (ns : list Z) mn q1 med q3 mx :
  ns ≠ [] → Forall (λ z, 0 ≤ z < 2 ^ 51) ns →
  computeQuartiles (F := spec_float) (of_integer <$> ns) = (mn, q1, med, q3, mx) →
  ∃ least h1 hm h3 greatest : Z,
    computeQuartiles (F := Z) (of_integer <$> ns) = (2 * least, h1, hm, h3, 2 * greatest) ∧
    Forall2 exactly [mn; q1; med; q3; mx] [2 * least; h1; hm; h3; 2 * greatest] ∧
    least ∈ ns ∧ greatest ∈ ns ∧ (∀ z, z ∈ ns → least ≤ z ≤ greatest) ∧
    2 * least ≤ h1 ≤ hm ∧ hm ≤ h3 ≤ 2 * greatest.
Proof.
  intros Hne Hns Hq. destruct (small_of_integer ns Hns) as [Hs E]. rewrite E, quartiles_half in Hq by done.
  destruct (computeQuartiles (F := Z) (of_integer <$> ns)) as [[[[a h1] hm] h3] b] eqn:Eq. injection Hq as <- <- <- <- <-.
  destruct (quartiles_ordered (of_integer <$> ns) a h1 hm h3 b) as (Ha & Hb & Hall & H1 & H2 & H3 & H4);
    [by destruct ns|done|].
  apply list_elem_of_fmap in Ha as (least & -> & Hl), Hb as (greatest & -> & Hg).
  rewrite Forall_forall in Hns. pose proof (Hns _ Hl). pose proof (Hns _ Hg).
  unfold le_f in *. cbn [fle halves of_integer] in *. rewrite !Z.leb_le in *.
  exists least, h1, hm, h3, greatest. split_and!; try done; [repeat constructor; apply half_exactly; lia|].
  intros z Hz. destruct (Hall (2 * z)) as [L G]; [by apply list_elem_of_fmap_2|]. rewrite !Z.leb_le in *. lia.
Qed.
