(* ===== verification/Tools.v ===== *)
(** * The tools (app/spwrmap.cc, app/spwrmap_speedtest.cc): [main]

    Written against the interface of a client.  The thread that runs [runLoop]
    does its work in the waits of the main thread ([waits]) and, behind
    [shutdown], in [join], which is the rest of its loop.  [main] returns the
    exit code, what went to standard output, and the client if there is one;
    what goes to standard error is left out, but for what the progress bar of the
    speed test computes.  The user's state is the buffer that a read fills. *)

From S2P Require Import Prelude PacketTypes Transactions Node NodeInterface CommandLine Statistics.
From Stdlib Require Import Ascii.
#[local] Open Scope Z_scope.

(** ** Output of numbers *)

Definition digit_char (d : Z) : ascii :=
  ascii_of_N (Z.to_N (if d <? 10 then 48 + d else 87 + d)).

Fixpoint digits (fuel : nat) (base n : Z) (acc : string) : string :=
  match fuel with
  | O => acc
  | S fuel =>
      let acc := String (digit_char (n mod base)) acc in
      if n <? base then acc else digits fuel base (n / base) acc
  end.

(** [std::dec] and [std::hex] of an unsigned number, which has at most 20
    digits. *)
Definition show_dec (n : Z) : string := digits 20 10 n "".
Definition show_hex (n : Z) : string := digits 20 16 n "".

(** [std::setw(width) << std::setfill('0')]. *)
Definition pad (width : nat) (s : string) : string :=
  String.string_of_list_ascii (replicate (width - String.length s) "0"%char) +:+ s.

Definition show_signed (n : Z) : string :=
  if n <? 0 then "-" +:+ show_dec (- n) else show_dec n.

Definition newline : string := String (ascii_of_nat 10) "".

(** The progress bar of the speed test. *)
Definition updateProgress {F : Type} `{Double F} (current total : Z) : outcome string :=
  filled ← bar_filled current total;
  Ret (String (ascii_of_nat 13) "[" +:+
       String.string_of_list_ascii ((λ i, if Z.of_nat i <? filled then "#"%char else "."%char) <$>
         seq 0 (Z.to_nat kBarWidth)) +:+
       "] " +:+ show_dec current +:+ "/" +:+ show_dec total).

Definition kInitiatorLogicalAddress : Z := 0xFE.
Definition kTargetLogicalAddress : Z := 0xFE.

(** [loop_thread.join()]; [fuel] bounds the rounds of the loop thread behind
    [shutdown]. *)
Definition join {N U : Type} `{SpwRmapNodeBase N U} (fuel : nat) (n : N) : outcome N :=
  '(_, n) ← nb_runLoop fuel n; Ret n.

Section tools.
Context {N : Type} `{SpwRmapClient N (list Z)}.
Context (alloc_limit : Z).
(** The constructor of the client. *)
Context (new_client : string → string → N).
(** The bound on the rounds of the loop thread behind [shutdown]. *)
Context (fuel : nat).

(** [std::vector<uint8_t>(size)]; [std::bad_alloc] is not caught. *)
Definition new_vector (size : Z) : outcome (list Z) :=
  if alloc_limit <? size then Abort else Ret (replicate (Z.to_nat size) 0).

(** ** spwrmap *)

Definition byte_word (b : Z) : string := " 0x" +:+ pad 2 (show_hex b).

Definition read_line (address : Z) (buffer : list Z) : string :=
  "Read " +:+ show_dec (zsize buffer) +:+ " bytes from 0x" +:+ pad 8 (show_hex address) +:+ ":" +:+
  foldr String.append newline (byte_word <$> buffer).

Definition write_line (address : Z) (data : list Z) : string :=
  "Wrote " +:+ show_dec (zsize data) +:+ " bytes to 0x" +:+ pad 8 (show_hex address) +:+
  " successfully." +:+ newline.

(** [*opts.address] of an empty optional is undefined. *)
Definition value {A} (o : option A) : outcome A := match o with Some a => Ret a | None => UB end.

Definition performRead (w : waits N) (opts : Spwrmap.Options) (target : TargetNodeBase) (n : N)
    : outcome (bool * string * N) :=
  length ← value (Spwrmap.length opts);
  buffer ← new_vector length;
  address ← value (Spwrmap.address opts);
  '(res, n) ← nb_read w target address length (λ bs _, bs) default_retry_count
                (set_user_state buffer n);
  match res with
  | Unexpected _ => Ret (false, "", n)
  | Ok _ => Ret (true, read_line address (user_state n), n)
  end.

Definition performWrite (w : waits N) (opts : Spwrmap.Options) (target : TargetNodeBase) (n : N)
    : outcome (bool * string * N) :=
  address ← value (Spwrmap.address opts);
  '(res, n) ← nb_write w target address (Spwrmap.data opts) default_retry_count n;
  match res with
  | Unexpected _ => Ret (false, "", n)
  | Ok _ => Ret (true, write_line address (Spwrmap.data opts), n)
  end.

(** [main] behind the options. *)
Definition run_tool (w : waits N) (opts : Spwrmap.Options) : outcome (Z * string * option N) :=
  let client := cl_setInitiatorLogicalAddress kInitiatorLogicalAddress
                  (new_client (Spwrmap.ip opts) (Spwrmap.port opts)) in
  '(connect_res, client) ← cl_connect 1000000 client;
  match connect_res with
  | Unexpected _ => Ret (1, "", Some client)
  | Ok _ =>
      let target_node := TargetNodeDynamic kTargetLogicalAddress (Spwrmap.target_address opts)
                           (Spwrmap.reply_address opts) in
      '(success, out, client) ←
        (if bool_decide (Spwrmap.type opts = "read"%string)
         then performRead w opts target_node client else performWrite w opts target_node client);
      '(shutdown_res, client) ← cl_shutdown client;
      let success := match shutdown_res with Unexpected _ => false | Ok _ => success end in
      client ← join fuel client;
      Ret (if (success : bool) then 0 else 1, out, Some client)
  end.

Definition spwrmap_main (w : waits N) (argv : list string) : outcome (Z * string * option N) :=
  if bool_decide (argv = []) then Ret (1, "", None) else
  if bool_decide ("--help"%string ∈ argv) then Ret (0, "", None) else
  options ← Spwrmap.parseOptions argv;
  match options with
  | None => Ret (1, "", None)
  | Some opts => run_tool w opts
  end.

(** ** spwrmap_speedtest *)

Section speedtest.
Context {F : Type} `{Double F}.
(** The numbers that [dist(rng)] gives; the waits of each operation; the time of
    the start and of the end of each reading, in nanoseconds. *)
Context (random : nat → Z) (w : nat → waits N) (time : nat → Z * Z).

Definition make_pattern (total_bytes : Z) : list Z :=
  (λ i, u8 (random i)) <$> seq 0 (Z.to_nat total_bytes).

(** The exits behind a failure: [client.shutdown(); joinLoop(); return 1;]. *)
Definition fail_exit (client : N) : outcome (Z * string * option N) :=
  '(_, client) ← cl_shutdown client;
  client ← join fuel client;
  Ret (1, "", Some client).

(** The initial write of the pattern, chunk by chunk: operation [k] and on. *)
Fixpoint write_chunks (k : nat) (cs : list (Z * Z)) (target : TargetNodeBase) (base_address : Z)
    (pattern : list Z) (client : N) : outcome (bool * N) :=
  match cs with
  | [] => Ret (true, client)
  | (offset, chunk) :: cs =>
      chunk_span ← subspan pattern offset chunk;
      '(res, client) ← nb_write (w k) target (u32 (base_address + u32 offset)) chunk_span
                         default_retry_count client;
      match res with
      | Unexpected _ => Ret (false, client)
      | Ok _ => write_chunks (S k) cs target base_address pattern client
      end
  end.

(** The lambda given to [readAsync]. *)
Definition copy_checked : user_function (list Z) := λ packet read_buffer,
  if zsize (data packet) =? zsize read_buffer then Ret (Returned tt, data packet)
  else Ret (ThrewException, read_buffer).

(** One reading: [future.wait()] has no time-out. *)
Definition read_once (k : nat) (target : TargetNodeBase) (base_address total_bytes : Z) (client : N)
    : outcome (expected unit * N) :=
  '(future, client) ← nb_readAsync (clock_of (w k) 0) target base_address (u32 total_bytes)
                        copy_checked client;
  client ← during (w k) 0 client;
  match future_value future client with
  | None => UB
  | Some None => Pending
  | Some (Some res) => Ret (res, client)
  end.

(** The readings that are left; the latencies, or [None] when one fails. *)
Fixpoint read_loop (iterations k iter : nat) (ntimes : Z) (target : TargetNodeBase) (base_address total_bytes : Z)
    (pattern : list Z) (latencies_us : list F) (client : N) : outcome (option (list F) * N) :=
  match iterations with
  | O => Ret (Some latencies_us, client)
  | S iterations =>
      '(res, client) ← read_once k target base_address total_bytes client;
      match res with
      | Unexpected _ => Ret (None, client)
      | Ok _ =>
          if bool_decide (user_state client = pattern) then
            let '(start_time, end_time) := time iter in
            _ ← updateProgress (F := F) (Z.of_nat iter + 1) ntimes;
            read_loop iterations (S k) (S iter) ntimes target base_address total_bytes pattern
              (latencies_us ++ [of_integer (end_time - start_time)]) client
          else Ret (None, client)
      end
  end.

Definition report (latencies_us : list F) : string :=
  let mean := computeMean latencies_us in
  let stddev := computeStd latencies_us mean in
  let '(min_v, q1, median, q3, max_v) := computeQuartiles latencies_us in
  let show v := show_signed (toMicroseconds v) in
  "mean=" +:+ show mean +:+ " std=" +:+ show stddev +:+ " min=" +:+ show min_v +:+ " q1=" +:+ show q1 +:+
  " median=" +:+ show median +:+ " q3=" +:+ show q3 +:+ " max=" +:+ show max_v +:+ newline.

(** [main] behind the options and the test of the address range. *)
Definition run_test (opts : Speedtest.Options) (ntimes total_bytes base_address : Z)
    : outcome (Z * string * option N) :=
  _ ← new_vector total_bytes;
  let pattern := make_pattern total_bytes in
  let client := cl_setInitiatorLogicalAddress kInitiatorLogicalAddress
                  (new_client (Speedtest.ip opts) (Speedtest.port opts)) in
  '(connect_res, client) ← cl_connect 1000000 client;
  match connect_res with
  | Unexpected _ => Ret (1, "", Some client)
  | Ok _ =>
      let target := TargetNodeDynamic kTargetLogicalAddress (Speedtest.target_address opts)
                      (Speedtest.reply_address opts) in
      cs ← Speedtest.chunks (S (Z.to_nat total_bytes)) total_bytes 0;
      '(written, client) ← write_chunks 0 cs target base_address pattern client;
      if negb written then fail_exit client else
      _ ← new_vector (8 * ntimes);
      read_buffer ← new_vector total_bytes;
      _ ← updateProgress (F := F) 0 ntimes;
      '(latencies, client) ← read_loop (Z.to_nat ntimes) (length cs) 0 ntimes target base_address total_bytes
                               pattern [] (set_user_state read_buffer client);
      match latencies with
      | None => fail_exit client
      | Some latencies_us =>
          '(shutdown_res, client) ← cl_shutdown client;
          client ← join fuel client;
          Ret (match shutdown_res with Unexpected _ => 1 | Ok _ => 0 end, report latencies_us, Some client)
      end
  end.

Definition speedtest_main (argv : list string) : outcome (Z * string * option N) :=
  options ← Speedtest.parseOptions argv;
  match options with
  | Speedtest.Exit => Ret (0, "", None)
  | Speedtest.Parsed None => Ret (1, "", None)
  | Speedtest.Parsed (Some opts) =>
      ntimes ← value (Speedtest.ntimes opts);
      total_bytes ← value (Speedtest.nbytes opts);
      base_address ← value (Speedtest.start_address opts);
      if 2 ^ 32 <? u64 (base_address + total_bytes) then Ret (1, "", None) else
      run_test opts ntimes total_bytes base_address
  end.
End speedtest.
End tools.
