(* ===== verification/Progress.v ===== *)
(** * The progress bar of the speed test (app/spwrmap_speedtest.cc)

    [updateProgress] converts a number of binary64 to [std::size_t], which is
    defined only for the values that this type holds.  The proof follows the
    shape of the rounded results: the quotient is no NaN, the clamped quotient
    has a mantissa of at most 2^53 and an exponent of at most -52, and so the
    product is below 2^64.  On rational numbers the bar shows the ratio rounded
    down. *)

From Stdlib Require Import SpecFloat QArith Qround Qfield ZifyNat Lqa.
From S2P Require Import Prelude Statistics Binary64 Tools.
#[local] Open Scope Z_scope.

(** ** Rational numbers *)

Lemma bar_filled_rational current total :
  0 ≤ current ≤ total →
  bar_filled (F := Q) current total = Ret (if total =? 0 then 0 else kBarWidth * current / total).
Proof.
  intros Hc. unfold bar_filled. destruct (Z.eqb_spec total 0) as [->|Hn]; [done|].
  cbn [fdiv of_integer rationals]. set (r := (inject_Z current / inject_Z total)%Q).
  assert (Ht : (0 < inject_Z total)%Q) by (change 0%Q with (inject_Z 0); rewrite <-Zlt_Qlt; lia).
  assert (H0 : (0 <= r)%Q).
  { apply Qle_shift_div_l; [done|]. rewrite Qmult_0_l. change 0%Q with (inject_Z 0). rewrite <-Zle_Qle. lia. }
  assert (H1 : (r <= 1)%Q).
  { apply Qle_shift_div_r; [done|]. rewrite Qmult_1_l, <-Zle_Qle. lia. }
  unfold clamp. cbn [flt fzero fmul of_integer truncate rationals].
  rewrite (proj2 (Qle_bool_iff 0 r)), (proj2 (Qle_bool_iff r (inject_Z 1))) by done. cbn [negb].
  assert (H40 : (0 <= r * inject_Z kBarWidth)%Q) by by apply Qmult_le_0_compat.
  rewrite (proj2 (Qle_bool_iff _ _)) by done.
  assert (E : Qfloor (r * inject_Z kBarWidth) = kBarWidth * current / total).
  { rewrite Zdiv_Qdiv. apply Qfloor_comp. unfold r. rewrite inject_Z_mult. field. intros E. by rewrite E in Ht. }
  rewrite E. assert (0 ≤ kBarWidth * current / total ≤ kBarWidth).
  { unfold kBarWidth. split; [apply Z.div_pos; lia|]. apply Z.div_le_upper_bound; lia. }
  by rewrite (proj2 (Z.leb_le _ _)), (proj2 (Z.ltb_lt _ _)) by (unfold kBarWidth in *; lia).
Qed.

#[export] Instance rationals_progress : ProgressLaws Q.
Proof. intros current total Hc _. eexists. by apply bar_filled_rational. Qed.

(** ** The shape of rounded results *)

Lemma shr_1_m r : 0 ≤ shr_m r → shr_m (shr_1 r) = shr_m r / 2.
Proof.
  destruct r as [m x y]. cbn [shr_m]. intros Hm. destruct m as [|[p|p|]|p]; [done| | |done|lia]; cbn [shr_1 shr_m].
  - rewrite (Pos2Z.inj_xI p). symmetry. rewrite Z.mul_comm. apply (Z.div_add_l (Zpos p) 2 1). done.
  - rewrite (Pos2Z.inj_xO p), Z.mul_comm. symmetry. by apply Z.div_mul.
Qed.

Lemma shr_iter_m j r : 0 ≤ shr_m r → shr_m (Nat.iter j shr_1 r) = shr_m r / 2 ^ Z.of_nat j.
Proof.
  intros Hr. induction j as [|j IH]; [by rewrite Z.div_1_r|].
  change (Nat.iter (S j) shr_1 r) with (shr_1 (Nat.iter j shr_1 r)).
  assert (0 < 2 ^ Z.of_nat j) by (apply Z.pow_pos_nonneg; lia).
  rewrite shr_1_m, IH, Z.div_div, Nat2Z.inj_succ, Z.pow_succ_r; rewrite ?IH; try lia.
  f_equal. lia.

Qed.

(** The exponent is raised by [k], the mantissa divided by 2^k. *)
Lemma shr_fexp_spec m e l :
  0 ≤ m → let k := Z.max 0 (fexp prec emax (Zdigits2 m + e) - e) in
  shr_m (shr_fexp prec emax m e l).1 = m / 2 ^ k ∧ (shr_fexp prec emax m e l).2 = e + k.
Proof.
  intros Hm k. unfold shr_fexp. set (n := fexp _ _ _ - e) in *. set (r := shr_record_of_loc m l).
  assert (Hr : shr_m r = m) by by destruct l as [|[]].
  unfold shr, k. destruct n as [|p|p]; cbn [fst snd].
  - by rewrite Hr, Z.div_1_r, Z.add_0_r.
  - rewrite iter_pos_nat, shr_iter_m, Hr, positive_nat_Z by by rewrite Hr. by rewrite Z.max_r.
  - by rewrite Hr, Z.max_l, Z.div_1_r, Z.add_0_r.
Qed.

Lemma round_up m l : m ≤ round_nearest_even m l ≤ m + 1.
Proof. destruct l as [|[]]; cbn; try lia. destruct (Z.even m); lia. Qed.

Lemma digits_le m d : 0 ≤ m < 2 ^ d → 0 ≤ d → 0 ≤ Zdigits2 m ≤ d ∧ m < 2 ^ Zdigits2 m.
Proof.
  intros Hm Hd. destruct (decide (m = 0)) as [->|]; [done|]. rewrite Zdigits2_log2 by lia.
  pose proof (Z.log2_nonneg m). pose proof (Z.log2_spec m ltac:(lia)) as [_ ?].
  assert (Z.log2 m < d) by (apply Z.log2_lt_pow2; lia). rewrite <-Z.add_1_r in *. lia.
Qed.

(** Zero, or a number with a mantissa of at most [2 ^ prec] and an exponent of at most
    [top], or an infinity where [top] is too large for a number. *)
Definition rounded (s : bool) (top : Z) (x : spec_float) : Prop :=
  match x with
  | S754_zero s' => s' = s
  | S754_infinity s' => s' = s ∧ emax - prec < top
  | S754_finite s' m e => s' = s ∧ Zpos m ≤ 2 ^ prec ∧ e ≤ top
  | S754_nan => False
  end.

(** One step of rounding: the mantissa gets at most 53 digits. *)
Lemma shr_fexp_bound m e l d :
  0 ≤ m < 2 ^ d → 0 ≤ d →
  0 ≤ shr_m (shr_fexp prec emax m e l).1 < 2 ^ prec ∧
  -1074 ≤ (shr_fexp prec emax m e l).2 ≤ Z.max (Z.max e (d + e - 53)) (-1074).
Proof.
  intros Hm Hd. destruct (shr_fexp_spec m e l ltac:(lia)) as [-> ->]. destruct (digits_le m d Hm Hd) as [Hg Hl].
  unfold fexp, emin, prec, emax. set (k := Z.max 0 _). split; [|lia].
  assert (0 < 2 ^ k) by (apply Z.pow_pos_nonneg; lia). split; [apply Z.div_pos; lia|].
  apply Z.div_lt_upper_bound; [lia|]. rewrite <-Z.pow_add_r by lia.
  eapply Z.lt_le_trans; [exact Hl|]. apply Z.pow_le_mono_r; lia.
Qed.

Lemma round_aux_rounded s m e l d :
  0 ≤ m < 2 ^ d → 0 ≤ d →
  rounded s (Z.max (Z.max e (d + e - 53)) (-1074) + 1) (binary_round_aux prec emax s m e l).
Proof.
  intros Hm Hd. pose proof (shr_fexp_bound m e l d Hm Hd) as [H1 H2]. unfold binary_round_aux.
  destruct (shr_fexp prec emax m e l) as [r1 e1]. cbn [fst snd] in *.
  pose proof (round_up (shr_m r1) (loc_of_shr_record r1)) as Hu. set (m1 := round_nearest_even _ _) in *.
  unfold prec in *. pose proof (shr_fexp_bound m1 e1 loc_Exact 54 ltac:(lia) ltac:(lia)) as [H3 H4].
  unfold prec in *. destruct (shr_fexp 53 emax m1 e1 loc_Exact) as [r2 e2]. cbn [fst snd] in *.
  destruct (shr_m r2) as [|p|p]; [done| |lia].
  destruct (Z.leb_spec e2 (emax - 53)); cbn [rounded]; unfold prec; split_and?; (done || lia).
Qed.

(** ** The bar in binary64 *)

(** A number that is not negative. *)
Definition nonneg_number (x : spec_float) : Prop := x = S754_zero false ∨ ∃ m e, x = S754_finite false m e.

Lemma half_nonneg n : nonneg_number (half n).
Proof. unfold half. destruct (n =? 0); [by left|]. right. unfold canon. eauto. Qed.

(** The quotient is a number, zero or infinite. *)
Lemma div_rounded x m e : nonneg_number x → ∃ top, rounded false top (SFdiv prec emax x (S754_finite false m e)).
Proof.
  intros [->|(mx & ex & ->)]; [by exists 0|]. cbn [SFdiv xorb].
  destruct (SFdiv_core_binary _ _ _ _ _ _) as [[q e'] l] eqn:E. eexists.
  apply (round_aux_rounded _ _ _ _ (Zdigits2 q)).
  - unfold SFdiv_core_binary in E. revert E. set (s := _ - Z.min _ _). set (m' := match s with Z0 => _ | _ => _ end).
    assert (Hm' : 0 ≤ m') by (unfold m'; destruct s; [done|by apply Z.shiftl_nonneg|done]).
    pose proof (Z.div_pos m' (Zpos m) Hm' ltac:(done)) as Hq. unfold Z.div in Hq.
    destruct (Z.div_eucl m' (Zpos m)) as [q' r]. intros [= <- <- <-]. split; [done|].
    destruct (decide (q' = 0)) as [->|]; [done|]. rewrite Zdigits2_log2 by lia.
    rewrite Z.add_1_r. apply Z.log2_spec. lia.
  - destruct q; cbn [Zdigits2]; lia.
Qed.

(** A clamped number: zero, or 53 digits behind the point. *)
Definition in_unit (x : spec_float) : Prop :=
  x = S754_zero false ∨ ∃ m e, x = S754_finite false m e ∧ Zpos m ≤ 2 ^ 53 ∧ e ≤ -52.

Lemma clamp_unit top x : rounded false top x → in_unit (clamp x fzero (of_integer 1)).
Proof.
  assert (E1 : of_integer (F := spec_float) 1 = S754_finite false 4503599627370496 (-52)) by done.
  rewrite E1. unfold clamp. cbn [flt fzero binary64]. intros Hx.
  destruct x as [s|s| |s m e]; cbn [rounded] in Hx; [subst s; by left|destruct Hx as [-> _]|done|destruct Hx as (-> & Hm & _)].
  - right. by exists 4503599627370496%positive, (-52).
  - right. cbn [SFltb SFcompare]. destruct (Z.compare_spec (-52) e) as [<-|L|G].
    + destruct (Pos.compare_cont _ _ _); [exists m|exists 4503599627370496%positive|exists m]; by exists (-52).
    + by exists 4503599627370496%positive, (-52).
    + exists m, e. split_and!; (done || lia).
Qed.

Lemma unit_filled x :
  in_unit x → ∃ v, truncate (fmul x (of_integer kBarWidth)) = Some v ∧ 0 ≤ v < 2 ^ 64.
Proof.
  assert (E40 : of_integer (F := spec_float) kBarWidth = S754_finite false 5629499534213120 (-47)) by done.
  rewrite E40. intros [->|(m & e & -> & Hm & He)]; [by exists 0|]. cbn [fmul binary64 SFmul xorb].
  pose proof (round_aux_rounded false (Zpos (m * 5629499534213120)) (e + -47) loc_Exact 106) as Hr.
  destruct (binary_round_aux _ _ _ _ _ _) as [s|s| |s p f]; cbn [rounded truncate binary64 sf_truncate] in *.
  - by exists 0.
  - destruct Hr as [_ Hr]; [lia|done|]. unfold emax, prec in Hr. lia.
  - destruct Hr; [lia|done].
  - destruct Hr as (-> & Hp & Hf); [lia|done|]. rewrite (proj2 (Z.leb_gt 0 f)) by lia.
    eexists. split; [done|]. assert (0 < 2 ^ (- f)) by (apply Z.pow_pos_nonneg; lia).
    split; [by apply Z.div_pos|]. apply Z.div_lt_upper_bound; [done|]. unfold prec in Hp. nia.
Qed.

#[export] Instance binary64_progress : ProgressLaws spec_float.
Proof.
  intros current total Hc Ht. unfold bar_filled.
  assert (Hx : ∃ top, rounded false top (if total =? 0 then fzero else fdiv (of_integer current) (of_integer total))).
  { destruct (Z.eqb_spec total 0) as [->|Hn]; [by exists 0|]. rewrite !half_integer by lia.
    rewrite (half_pos (2 * total)) by lia. apply div_rounded, half_nonneg. }
  destruct Hx as [top Hx]. destruct (unit_filled _ (clamp_unit top _ Hx)) as (v & -> & Hv).
  exists v. by rewrite (proj2 (Z.leb_le _ _)), (proj2 (Z.ltb_lt _ _)) by lia.
Qed.

(** For small totals, binary64 fills what the rational numbers fill. *)
Definition same_bar (total current : nat) : bool :=
  match bar_filled (F := spec_float) (Z.of_nat current) (Z.of_nat total) with
  | Ret v => v =? kBarWidth * Z.of_nat current / Z.of_nat total
  | _ => false
  end.

Example bar_filled_small : forallb (λ total, forallb (same_bar total) (seq 0 (S total))) (seq 1 64) = true.
Proof. by vm_compute. Qed.
