(* ===== verification/ToolsTheorems.v ===== *)
(** * The tools on a target with memory

    Against the contract [MemoryClient], [spwrmap] prints the bytes of the memory in a
    form that it takes as the data of a write, and the speed test writes its
    pattern without gap or overlap and finds it again in every reading. *)

From S2P Require Import Prelude PacketTypes Transactions TransactionSlots Node NodeInterface MemoryClient CommandLine CommandLineTheorems Statistics Tools.
From Stdlib Require Import Ascii.
#[local] Open Scope Z_scope.

(** ** Words of a line *)

Definition is_blank (c : ascii) : bool := (code c =? 32) || (code c =? 10).

(** The words between blanks; [cur] is the word that is being read, reversed. *)
Fixpoint split_words (cur : list ascii) (l : list ascii) : list (list ascii) :=
  match l with
  | [] => if decide (cur = []) then [] else [reverse cur]
  | c :: l =>
      if is_blank c
      then if decide (cur = []) then split_words [] l else reverse cur :: split_words [] l
      else split_words (c :: cur) l
  end.

Definition words (s : string) : list string :=
  String.string_of_list_ascii <$> split_words [] (String.list_ascii_of_string s).

Definition solid (s : string) : Prop :=
  s ≠ ""%string ∧ Forall (λ c, is_blank c = false) (String.list_ascii_of_string s).

Lemma append_cons c a b : String c a +:+ b = String c (a +:+ b).
Proof. done. Qed.

Lemma list_ascii_append a b :
  String.list_ascii_of_string (a +:+ b) = String.list_ascii_of_string a ++ String.list_ascii_of_string b.
Proof. induction a as [|c a IH]; [done|]. rewrite append_cons. cbn. by rewrite IH. Qed.

Lemma split_words_solid l cur r :
  Forall (λ c, is_blank c = false) l → split_words cur (l ++ r) = split_words (reverse l ++ cur) r.
Proof.
  intros Hl. revert cur. induction Hl as [|c l Hc Hl IH]; intros cur; [done|].
  cbn [split_words app]. rewrite Hc, IH. by rewrite reverse_cons, <-app_assoc.
Qed.

Lemma words_step s c r :
  solid s → is_blank c = true → words (s +:+ String c r) = s :: words r.
Proof.
  intros [Hne Hs] Hc. unfold words. rewrite list_ascii_append, split_words_solid by done. cbn. rewrite Hc, app_nil_r.
  rewrite decide_False, reverse_involutive; cbn; [by rewrite String.string_of_list_ascii_of_string|].
  intros E. apply (f_equal reverse) in E. rewrite reverse_involutive in E. by destruct s.
Qed.

Lemma words_blank c r : is_blank c = true → words (String c r) = words r.
Proof. intros Hc. unfold words. cbn. by rewrite Hc. Qed.

Lemma solid_append a b : solid a → solid b → solid (a +:+ b).
Proof.
  intros [Ha1 Ha2] [_ Hb2]. split; [by destruct a|]. rewrite list_ascii_append. by apply Forall_app.
Qed.

Definition solid_char (c : ascii) : bool := negb (is_blank c).

Lemma digit_char_solid d : 0 ≤ d < 16 → is_blank (digit_char d) = false.
Proof.
  intros Hd. assert (H : forallb (λ d, negb (is_blank (digit_char (Z.of_nat d)))) (seq 0 16) = true) by by vm_compute.
  rewrite forallb_forall in H. specialize (H (Z.to_nat d)). rewrite Z2Nat.id in H by lia.
  apply negb_true_iff, H, in_seq. lia.
Qed.

Lemma digits_solid fuel base n acc :
  2 ≤ base ≤ 16 → 0 ≤ n → Forall (λ c, is_blank c = false) (String.list_ascii_of_string acc) →
  (0 < fuel)%nat → solid (digits fuel base n acc).
Proof.
  intros Hb. revert n acc. induction fuel as [|fuel IH]; intros n acc Hn Ha Hf; [lia|]. cbn [digits].
  assert (Hd : is_blank (digit_char (n mod base)) = false)
    by (apply digit_char_solid; pose proof (Z.mod_pos_bound n base); lia).
  assert (Hs : solid (String (digit_char (n mod base)) acc)) by (split; [done|cbn; by constructor]).
  destruct (n <? base); [done|]. destruct fuel as [|fuel]; [done|].
  apply IH; [|apply Hs|lia]. apply Z.div_pos; lia.
Qed.

Lemma show_dec_solid n : 0 ≤ n → solid (show_dec n).
Proof. intros. apply digits_solid; (lia || constructor). Qed.
Lemma show_hex_solid n : 0 ≤ n → solid (show_hex n).
Proof. intros. apply digits_solid; (lia || constructor). Qed.
#[local] Opaque show_dec show_hex.

Lemma pad_solid k s : solid s → solid (pad k s).
Proof.
  intros [Hne Hs]. unfold pad. split.
  - by destruct (k - String.length s)%nat, s.
  - rewrite list_ascii_append, String.list_ascii_of_string_of_list_ascii. apply Forall_app. split; [|done].
    by apply Forall_replicate.
Qed.

(** The bytes a read prints, as arguments. *)
Definition byte_arg (b : Z) : string := "0x" +:+ pad 2 (show_hex b).

(** A property of every byte, by computation. *)
Lemma byte_cases (P : Z → bool) :
  forallb (λ n, P (Z.of_nat n)) (seq 0 256) = true → ∀ b, byte b → P b = true.
Proof.
  rewrite forallb_forall. intros H b Hb. unfold byte in Hb. rewrite <-(Z2Nat.id b) by lia. apply H, in_seq. lia.
Qed.

Lemma byte_arg_parses b : byte b → parseUnsigned (byte_arg b) 0xFF = Some b ∧ option_name (byte_arg b) = None.
Proof.
  intros Hb. split; [|done].
  pose proof (byte_cases (λ b, bool_decide (parseUnsigned (byte_arg b) 0xFF = Some b)) ltac:(by vm_compute) b Hb) as H. by apply bool_decide_eq_true_1 in H.
Qed.

Lemma byte_arg_solid b : byte b → solid (byte_arg b).
Proof. intros [Hb _]. apply (solid_append "0x"); [by repeat constructor|]. apply pad_solid, show_hex_solid. lia. Qed.

(** Bytes that are printed one by one, a blank in front of each, as words that a
    tool takes for the bytes. *)
Section arguments.
Context (arg : Z → string).
Context (arg_parses : ∀ b, byte b → parseUnsigned (arg b) 0xFF = Some b ∧ option_name (arg b) = None).
Context (arg_solid : ∀ b, byte b → solid (arg b)).

Lemma parse_args bs dst parsed :
  bytes bs → (bs ≠ [] ∨ parsed = true) → parse_bytes (arg <$> bs) dst parsed = Some (dst ++ bs, []).
Proof.
  intros Hbs. revert dst parsed. induction Hbs as [|b bs Hb Hbs IH]; intros dst parsed Hp.
  - destruct Hp as [?| ->]; [done|]. by rewrite app_nil_r.
  - destruct (arg_parses b Hb) as [H1 H2]. rewrite fmap_cons. cbn [parse_bytes]. rewrite H2, H1, IH by by right.
    by rewrite <-app_assoc.
Qed.

Lemma words_args bs :
  bytes bs → words (foldr String.append newline (String " " ∘ arg <$> bs)) = arg <$> bs.
Proof.
  induction 1 as [|b bs Hb Hbs IH]; [done|]. rewrite fmap_cons. cbn [foldr compose].
  rewrite append_cons, words_blank by done. destruct bs as [|b' bs].
  { change (foldr String.append newline (String " " ∘ arg <$> [])) with (String (ascii_of_nat 10) "").
    by rewrite words_step by (done || by apply arg_solid). }
  rewrite !fmap_cons in *. cbn [foldr compose] in *. rewrite append_cons in *.
  rewrite (words_step (arg b) " ") by (done || by apply arg_solid). f_equal. by rewrite <-IH, words_blank.
Qed.
End arguments.

(** Words with a blank behind each. *)
Definition spaced (ws : list string) (r : string) : string :=
  foldr (λ w acc, w +:+ String " " acc) r ws.

Lemma words_spaced ws r : Forall solid ws → words (spaced ws r) = ws ++ words r.
Proof. induction 1 as [|w ws Hw Hws IH]; [done|].
  change (spaced (w :: ws) r) with (w +:+ String " " (spaced ws r)). by rewrite words_step, IH.
Qed.

Lemma append_assoc a b c : (a +:+ b) +:+ c = a +:+ (b +:+ c).
Proof. induction a as [|x a IH]; [done|]. by rewrite !append_cons, IH. Qed.

Lemma solid_decide s : forallb solid_char (String.list_ascii_of_string s) = true → s ≠ ""%string → solid s.
Proof.
  intros Hs Hne. split; [done|]. apply Is_true_true, forallb_True in Hs.
  eapply Forall_impl; [exact Hs|]. intros c Hc. unfold solid_char in Hc. by destruct (is_blank c).
Qed.

Lemma read_line_spaced address b bs :
  ∃ r, foldr String.append newline (byte_word <$> b :: bs) = String " " r ∧
    read_line address (b :: bs) =
    spaced ["Read"; show_dec (zsize (b :: bs)); "bytes"; "from"; "0x" +:+ pad 8 (show_hex address) +:+ ":"]%string r.
Proof.
  exists (byte_arg b +:+ foldr String.append newline (byte_word <$> bs)). split; [done|].
  unfold read_line, spaced. cbn [foldr]. rewrite fmap_cons. cbn [foldr].
  change (byte_word b) with (String " " (byte_arg b)). rewrite (append_cons " " (byte_arg b)).
  generalize (show_dec (zsize (b :: bs))) (pad 8 (show_hex address))
    (byte_arg b +:+ foldr String.append newline (byte_word <$> bs)). intros x y z.
  by rewrite !append_assoc.
Qed.

(** What a read prints behind the colon is the data of a write. *)
Lemma read_line_words address bs :
  0 ≤ address → bytes bs → bs ≠ [] →
  parseByteSequence (drop 5 (words (read_line address bs))) [] = Some (bs, []).
Proof.
  intros Ha Hbs Hne. destruct bs as [|b bs]; [done|].
  destruct (read_line_spaced address b bs) as (r & Er & ->). pose proof (words_args byte_arg byte_arg_solid _ Hbs) as Hl.
  change (String " " ∘ byte_arg) with byte_word in Hl.
  rewrite Er, words_blank in Hl by done. rewrite words_spaced, Hl.
  - change (drop 5 _) with (byte_arg <$> b :: bs). by apply parse_args; [apply byte_arg_parses| |left].
  - assert (Hw : ∀ s, forallb solid_char (String.list_ascii_of_string s) = true → s ≠ ""%string → solid s)
      by apply solid_decide.
    repeat apply Forall_cons_2; [by apply Hw|apply show_dec_solid, zsize_nonneg|by apply Hw|by apply Hw| |constructor].
    apply solid_append; [by apply Hw|]. apply solid_append; [by apply pad_solid, show_hex_solid|by apply Hw].
Qed.

Section memory.
Context {N : Type} `{SpwRmapClient N (list Z)} (fuel : nat) `{!MemoryClient N (list Z) fuel}.
Context (alloc_limit : Z) (new_client : string → string → N).
Implicit Types (n : N).

Lemma map_seqZ_split a (l : list Z) k :
  (k ≤ length l)%nat →
  (map_seqZ a l : gmap Z Z) = map_seqZ (a + Z.of_nat k) (drop k l) ∪ map_seqZ a (take k l).
Proof.
  intros Hk. transitivity (map_seqZ a (take k l ++ drop k l) : gmap Z Z); [by rewrite take_drop|].
  rewrite map_seqZ_app, length_take, Nat.min_l by done.
  apply map_union_comm. replace (Z.of_nat k) with (Z.of_nat (length (take k l))) by (rewrite length_take; lia).
  apply map_seqZ_app_disjoint.
Qed.

(** The pattern from [offset] on is written. *)
Lemma write_chunks_ok w target base pattern f k offset cs n :
  ready n → (∀ k, served (w k)) → reachable target →
  bytes pattern → 0 ≤ base → 0 ≤ offset → base + zsize pattern ≤ 2 ^ 32 →
  Speedtest.chunks f (zsize pattern) offset = Ret cs →
  ∃ n', write_chunks w k cs target base pattern n = Ret (true, n') ∧ ready n' ∧
    content n' = map_seqZ (base + offset) (drop (Z.to_nat offset) pattern) ∪ content n.
Proof.
  intros Hn Hw Ht Hb Hbase. revert k offset cs n Hn.
  induction f as [|f IH]; intros k offset cs n Hn Ho Hr Hc; [done|].
  cbn [Speedtest.chunks] in Hc. destruct (Z.ltb_spec offset (zsize pattern)) as [Hlt|Hge]; last first.
  { injection Hc as <-. exists n. split; [done|]. split; [done|]. rewrite drop_ge by (unfold zsize in *; lia).
    cbn [map_seqZ]. by rewrite (left_id_L ∅ (∪)). }
  apply bind_Ret in Hc as (cs' & Hc & [= <-]).
  set (chunk := Z.min Speedtest.kChunkSize (zsize pattern - offset)) in *.
  assert (Hch : 0 < chunk ≤ 1024 ∧ offset + chunk ≤ zsize pattern) by (unfold chunk, Speedtest.kChunkSize; lia).
  cbn [write_chunks]. rewrite subspan_in_range, bind_ret by lia.
  set (span := take (Z.to_nat chunk) (drop (Z.to_nat offset) pattern)).
  assert (Hs : zsize span = chunk) by (unfold span; zs; unfold zsize in *; lia).
  unfold u32. rewrite (Z.mod_small offset), Z.mod_small by lia.
  destruct (mc_write (w k) target (base + offset) span n) as (n1 & -> & Hr1 & _ & Hn1); [done..| |lia|lia|lia|].
  { by apply Forall_take, Forall_drop. }
  unfold u64 in Hc. rewrite Z.mod_small in Hc by (unfold Speedtest.kChunkSize; lia). rewrite bind_ret.
  destruct (IH (S k) (offset + Speedtest.kChunkSize) cs' n1) as (n2 & -> & Hr2 & Hn2);
    [done|unfold Speedtest.kChunkSize; lia|done..|].
  exists n2. split; [done|]. split; [done|]. rewrite Hn2, Hn1, (assoc_L (∪)). f_equal.
  rewrite (map_seqZ_split (base + offset) (drop (Z.to_nat offset) pattern) (Z.to_nat chunk))
    by (rewrite length_drop; unfold zsize in *; lia).
  fold span. f_equal. rewrite drop_drop. unfold chunk, Speedtest.kChunkSize in *.
  destruct (decide (offset + 1024 ≤ zsize pattern)).
  - f_equal; [lia|]. f_equal. lia.
  - rewrite !drop_ge by (unfold zsize in *; lia). done.
Qed.

Section readings.
Context {F : Type} `{ProgressLaws F} (w : nat → waits N) (time : nat → Z * Z).

Lemma progress_line current total :
  0 ≤ current ≤ total → total < 2 ^ 52 → ∃ line, updateProgress (F := F) current total = Ret line.
Proof.
  intros Hc Ht. destruct (bar_defined current total Hc Ht) as [filled E]. unfold updateProgress. rewrite E. by eexists.
Qed.

Definition latency (i : nat) : F := of_integer ((time i).2 - (time i).1).

(** A reading fetches what the memory holds. *)
Lemma read_once_ok target base bs k n :
  ready n → (∀ k, served (w k)) → reachable target →
  map_seqZ base bs ⊆ content n → bytes bs → 0 < zsize bs < 2 ^ 24 → 0 ≤ base < 2 ^ 32 →
  zsize (user_state n) = zsize bs →
  ∃ n', read_once w k target base (zsize bs) n = Ret (Ok tt, n') ∧ ready n' ∧ user_state n' = bs ∧ content n' = content n.
Proof.
  intros Hn Hw Ht Hm Hbs Hp Ha Hu. unfold read_once, u32. rewrite Z.mod_small by lia.
  destruct (mc_readAsync (w k) target base bs copy_checked n Hn (Hw k) Ht Hm Hbs Hp Ha) as (packet & Hd & Hf).
  destruct (Hf (Returned tt) bs) as (p & n1 & n2 & -> & Hn2 & Hv & Hr2 & Hus & Hcn).
  { unfold copy_checked. by rewrite Hd, Hu, Z.eqb_refl. }
  rewrite bind_ret, Hn2, bind_ret, Hv. by exists n2.
Qed.

Lemma read_loop_ok target base pattern ntimes iterations k iter latencies n :
  Z.of_nat (iter + iterations) ≤ ntimes → ntimes < 2 ^ 52 →
  ready n → (∀ k, served (w k)) → reachable target →
  map_seqZ base pattern ⊆ content n → bytes pattern → 0 < zsize pattern < 2 ^ 24 → 0 ≤ base < 2 ^ 32 →
  zsize (user_state n) = zsize pattern →
  ∃ n', read_loop w time iterations k iter ntimes target base (zsize pattern) pattern latencies n =
    Ret (Some (latencies ++ (latency <$> seq iter iterations)), n') ∧ ready n' ∧ content n' = content n.
Proof.
  intros Hit Hnt Hn Hw Ht. revert k iter latencies n Hit Hn.
  induction iterations as [|iterations IH]; intros k iter latencies n Hit Hn Hm Hbs Hp Ha Hu.
  { exists n. by rewrite app_nil_r. }
  cbn [read_loop].
  destruct (read_once_ok target base pattern k n Hn Hw Ht Hm Hbs Hp Ha Hu) as (n2 & -> & Hr2 & Hus & Hcn). rewrite bind_ret.
  rewrite bool_decide_true by done. destruct (time iter) as [t0 t1] eqn:Et.
  destruct (progress_line (Z.of_nat iter + 1) ntimes) as [line ->]; [lia..|]. rewrite bind_ret.
  destruct (IH (S k) (S iter) (latencies ++ [of_integer (t1 - t0)]) n2) as (n' & -> & Hr' & Hc');
    [lia|done|by rewrite Hcn|done|done|done|by rewrite Hus|].
  exists n'. split; [|by rewrite Hc', Hcn]. assert (El : latency iter = of_integer (t1 - t0)) by (unfold latency; by rewrite Et).
  cbn [seq]. by rewrite fmap_cons, El, <-app_assoc.
Qed.
(** Other bytes than the memory holds end the test. *)
Lemma read_loop_differs target base bs pattern ntimes iterations k iter latencies n :
  ready n → (∀ k, served (w k)) → reachable target →
  map_seqZ base bs ⊆ content n → bytes bs → 0 < zsize bs < 2 ^ 24 → 0 ≤ base < 2 ^ 32 →
  zsize (user_state n) = zsize bs → pattern ≠ bs →
  ∃ n', read_loop w time (S iterations) k iter ntimes target base (zsize bs) pattern latencies n = Ret (None, n') ∧ ready n'.
Proof.
  intros Hn Hw Ht Hm Hbs Hp Ha Hu Hne. cbn [read_loop].
  destruct (read_once_ok target base bs k n Hn Hw Ht Hm Hbs Hp Ha Hu) as (n1 & -> & Hr1 & Hus & _).
  rewrite bind_ret, bool_decide_false by (rewrite Hus; by apply not_eq_sym). by exists n1.
Qed.
End readings.

Lemma new_vector_ok size : size ≤ alloc_limit → new_vector alloc_limit size = Ret (replicate (Z.to_nat size) 0).
Proof. intros. unfold new_vector. by rewrite (proj2 (Z.ltb_ge _ _)). Qed.

(** What [spwrmap] prints, the bytes as it reads them back. *)
Lemma spwrmap_prints_memory w argv opts address bs :
  let client := new_client (Spwrmap.ip opts) (Spwrmap.port opts) in
  fresh client → served w →
  reachable (TargetNodeDynamic kTargetLogicalAddress (Spwrmap.target_address opts) (Spwrmap.reply_address opts)) →
  argv ≠ [] → "--help"%string ∉ argv → Spwrmap.parseOptions argv = Ret (Some opts) →
  Spwrmap.type opts = "read"%string → Spwrmap.address opts = Some address →
  Spwrmap.length opts = Some (zsize bs) → bytes bs → 0 ≤ address < 2 ^ 32 → 0 < zsize bs < 2 ^ 24 →
  zsize bs ≤ alloc_limit → map_seqZ address bs ⊆ content client →
  ∃ n, spwrmap_main alloc_limit new_client fuel w argv = Ret (0, read_line address bs, Some n) ∧
    parseByteSequence (drop 5 (words (read_line address bs))) [] = Some (bs, []).
Proof.
  intros client Hfr Hw Hre Hne Hh Hopt Ht Ha Hl Hb Hpos Hsz Hal Hm.
  destruct (connected 1000000 kInitiatorLogicalAddress client Hfr) as (n1 & Hc & Hr1 & _ & Hn1); [done..|].
  destruct (mc_user (replicate (Z.to_nat (zsize bs)) 0) n1 Hr1) as (_ & Hru & Hcu).
  destruct (mc_read w _ address bs (λ bs _, bs) _ Hru Hw Hre) as (n2 & Hr & Hr2 & Hu & _); [by rewrite Hcu, Hn1|done..|].
  destruct (mc_shutdown n2 Hr2) as (n3 & n4 & Hsd & Hrl). exists n4. split.
  - unfold spwrmap_main. rewrite !bool_decide_false by done. rewrite Hopt, bind_ret.
    unfold run_tool. fold client. rewrite Hc, bind_ret. rewrite bool_decide_true by done. unfold performRead.
    rewrite Hl, Ha. cbn [value mbind outcome_bind]. rewrite new_vector_ok by done. cbn [mbind outcome_bind].
    rewrite Hr. cbn [mbind outcome_bind]. rewrite Hu, Hsd. cbn [mbind outcome_bind].
    unfold join. by rewrite Hrl.
  - apply read_line_words; [lia|done|]. intros ->. by destruct Hsz.
Qed.

(** What [spwrmap] writes: [n2] is the client in front of its shutdown. *)
Lemma spwrmap_stores_memory w argv opts address :
  let client := new_client (Spwrmap.ip opts) (Spwrmap.port opts) in
  fresh client → served w →
  reachable (TargetNodeDynamic kTargetLogicalAddress (Spwrmap.target_address opts) (Spwrmap.reply_address opts)) →
  argv ≠ [] → "--help"%string ∉ argv → Spwrmap.parseOptions argv = Ret (Some opts) →
  Spwrmap.type opts = "write"%string → Spwrmap.address opts = Some address →
  bytes (Spwrmap.data opts) → 0 ≤ address → 0 < zsize (Spwrmap.data opts) < 2 ^ 24 →
  address + zsize (Spwrmap.data opts) ≤ 2 ^ 32 →
  ∃ n1 n2 n, cl_connect 1000000 (cl_setInitiatorLogicalAddress kInitiatorLogicalAddress client) = Ret (Ok tt, n1) ∧
    performWrite w opts (TargetNodeDynamic kTargetLogicalAddress (Spwrmap.target_address opts)
      (Spwrmap.reply_address opts)) n1 = Ret (true, write_line address (Spwrmap.data opts), n2) ∧
    ready n2 ∧ content n2 = map_seqZ address (Spwrmap.data opts) ∪ content client ∧
    spwrmap_main alloc_limit new_client fuel w argv = Ret (0, write_line address (Spwrmap.data opts), Some n).
Proof.
  intros client Hfr Hw Hre Hne Hh Hopt Ht Ha Hb Hpos Hsz Hr.
  destruct (connected 1000000 kInitiatorLogicalAddress client Hfr) as (n1 & Hc & Hr1 & _ & Hn1); [done..|].
  destruct (mc_write w _ address (Spwrmap.data opts) _ Hr1 Hw Hre) as (n2 & Hwr & Hr2 & _ & Hm); [done..|].
  destruct (mc_shutdown n2 Hr2) as (n3 & n4 & Hsd & Hrl). exists n1, n2, n4.
  assert (Hp : performWrite w opts (TargetNodeDynamic kTargetLogicalAddress (Spwrmap.target_address opts)
    (Spwrmap.reply_address opts)) n1 = Ret (true, write_line address (Spwrmap.data opts), n2)).
  { unfold performWrite. rewrite Ha. cbn [value mbind outcome_bind]. by rewrite Hwr. }
  split; [done|]. split; [done|]. split; [done|]. split; [by rewrite Hm, Hn1|].
  unfold spwrmap_main. rewrite !bool_decide_false by done. rewrite Hopt, bind_ret.
  unfold run_tool. fold client. rewrite Hc, bind_ret. rewrite bool_decide_false by by rewrite Ht.
  rewrite Hp, bind_ret, Hsd, bind_ret. unfold join. by rewrite Hrl.
Qed.

Section speedtest.
Context {F : Type} `{ProgressLaws F} (random : nat → Z) (w : nat → waits N) (time : nat → Z * Z).

Lemma make_pattern_spec total :
  0 ≤ total → zsize (make_pattern random total) = total ∧ bytes (make_pattern random total).
Proof.
  intros Ht. unfold make_pattern. split.
  - unfold zsize. rewrite length_fmap, length_seq. lia.
  - apply Forall_fmap, Forall_true. intros i. apply byte_mod.
Qed.

Lemma fail_exit_ready n : ready n → ∃ n', fail_exit fuel n = Ret (1, "", Some n').
Proof.
  intros Hr. destruct (mc_shutdown n Hr) as (n1 & n2 & E & El). exists n2. unfold fail_exit. rewrite E, bind_ret. unfold join. by rewrite El.
Qed.

(** The speed test writes its pattern and finds it again: [n1] is the client that
    has connected, [n2] the one that has written, [n3] the one that has read. *)
Lemma speedtest_passes argv opts ntimes total base :
  let client := new_client (Speedtest.ip opts) (Speedtest.port opts) in
  let target := TargetNodeDynamic kTargetLogicalAddress (Speedtest.target_address opts) (Speedtest.reply_address opts) in
  let pattern := (λ i, random i mod 256) <$> seq 0 (Z.to_nat total) in
  let measured := (latency time : nat → F) <$> seq 0 (Z.to_nat ntimes) in
  fresh client → (∀ k, served (w k)) → reachable target →
  Speedtest.parseOptions argv = Ret (Speedtest.Parsed (Some opts)) →
  Speedtest.ntimes opts = Some ntimes → Speedtest.nbytes opts = Some total →
  Speedtest.start_address opts = Some base →
  0 ≤ base → base + total ≤ 2 ^ 32 → 0 < total < 2 ^ 24 → total ≤ alloc_limit → 8 * ntimes ≤ alloc_limit →
  0 ≤ ntimes < 2 ^ 52 →
  make_pattern random total = pattern ∧ Speedtest.chunks (S (Z.to_nat total)) total 0 = Ret (all_chunks total) ∧
  ∃ n1 n2 n3 n4 n,
    cl_connect 1000000 (cl_setInitiatorLogicalAddress kInitiatorLogicalAddress client) = Ret (Ok tt, n1) ∧
    write_chunks w 0 (all_chunks total) target base pattern n1 = Ret (true, n2) ∧
    content n2 = map_seqZ base pattern ∪ content client ∧
    (let begun := set_user_state (replicate (Z.to_nat total) 0) n2 in
     read_loop w time (Z.to_nat ntimes) (length (all_chunks total)) 0 ntimes target base total pattern [] begun =
       Ret (Some measured, n3) ∧
     (∀ other iterations k iter latencies, other ≠ pattern → ∃ n5 n6,
       read_loop (F := F) w time (S iterations) k iter ntimes target base total other latencies begun = Ret (None, n5) ∧
       fail_exit fuel n5 = Ret (1, "", Some n6))) ∧
    ready n3 ∧ content n3 = map_seqZ base pattern ∪ content client ∧
    cl_shutdown n3 = Ret (Ok tt, n4) ∧ join fuel n4 = Ret n ∧
    speedtest_main alloc_limit new_client fuel random w time argv = Ret (0, report measured, Some n).
Proof.
  intros client target pattern measured Hfr Hw Hre Hopt Hn Ht Hb Hb0 Hr Hsz Hal Hal2 Hnt.
  destruct (make_pattern_spec total) as [Hps Hpb]; [lia|].
  change (make_pattern random total) with pattern in *.
  destruct (connected 1000000 kInitiatorLogicalAddress client Hfr) as (n1 & Ec & Hr1 & _ & Hn1); [done..|].
  pose proof (chunks_spec total ltac:(lia)) as Hcs.
  destruct (write_chunks_ok w target base pattern (S (Z.to_nat total)) 0 0 (all_chunks total) n1 Hr1 Hw Hre Hpb Hb0)
    as (n2 & Hn2 & Hr2 & Hm); [lia|lia|by rewrite Hps|].
  rewrite Z.add_0_r, drop_0, Hn1 in Hm.
  destruct (mc_user (replicate (Z.to_nat total) 0) n2 Hr2) as (Hu & Hru & Hcu). set (begun := set_user_state _ n2) in *.
  assert (Hin : map_seqZ base pattern ⊆ content begun) by (rewrite Hcu, Hm; apply map_union_subseteq_l).
  assert (Hub : zsize (user_state begun) = zsize pattern) by (rewrite Hu, zsize_replicate; lia).
  destruct (read_loop_ok w time target base pattern ntimes (Z.to_nat ntimes) (length (all_chunks total)) 0 [] begun)
    as (n3 & Hn3 & Hr3 & Hc3); [lia|lia|done..|lia|lia|done|]. rewrite Hps in Hn3.
  destruct (mc_shutdown n3 Hr3) as (n4 & n5 & Esd & Erl).
  assert (Ej : join fuel n4 = Ret n5) by (unfold join; by rewrite Erl).
  split; [done|]. split; [done|].
  exists n1, n2, n3, n4, n5. split; [done|]. split; [done|]. split; [done|]. split; [split; [done|]|].
  { intros other its k iter lats Hne.
    destruct (read_loop_differs w time target base pattern other ntimes its k iter lats begun) as (n6 & En6 & Hr6);
      [done..|lia|lia|done|done|]. rewrite Hps in En6. destruct (fail_exit_ready n6 Hr6) as [n7 En7]. by exists n6, n7. }
  split; [done|]. split; [by rewrite Hc3, Hcu|]. split; [done|]. split; [done|]. unfold speedtest_main. rewrite Hopt, bind_ret, Hn, Ht, Hb.
  cbn [value mbind outcome_bind]. unfold u64. rewrite Z.mod_small, (proj2 (Z.ltb_ge _ _)) by lia.
  unfold run_test. rewrite new_vector_ok, bind_ret by done. change (make_pattern random total) with pattern.
  fold client target. rewrite Ec, bind_ret, Hcs, bind_ret, Hn2, bind_ret. cbn [negb].
  rewrite !new_vector_ok, !bind_ret by done. destruct (progress_line (F := F) 0 ntimes) as [line ->]; [lia..|].
  rewrite bind_ret. fold begun. rewrite Hn3, bind_ret, Esd, bind_ret. by rewrite Ej.
Qed.
End speedtest.
End memory.
