(* ===== verification/ExampleProgram.v ===== *)
(** * The example program (examples/spwrmap_example.cc)

    [main] against the interface of a client.  The user's state is the buffer
    of the read and what has gone to standard output, where the callbacks print
    too; [w k] is the wait of operation [k].  The messages to standard error
    are left out; no operation of the client throws. *)

From S2P Require Import Prelude PacketTypes Transactions TransactionSlots Node NodeInterface MemoryClient Tools.
#[local] Open Scope Z_scope.

(** The buffer and standard output. *)
Abbreviation console := (list Z * string)%type.

Section example.
Context {N : Type} `{SpwRmapClient N console}.
Context (new_client : string → string → N) (fuel : nat) (w : nat → waits N).

Definition print (s : string) (n : N) : N :=
  set_user_state ((user_state n).1, (user_state n).2 +:+ s) n.

Definition demo_address : Z := 0x44A20000.
Definition payload : list Z := [0x01; 0x02; 0x03; 0x04].
Definition demo_target : TargetNodeBase := TargetNodeDynamic 0x32 [0x06; 0x02] [0x01; 0x03].

(** The two lambdas. *)
Definition on_written : user_function console := λ _ u,
  Ret (Returned tt, (u.1, u.2 +:+ "Async write completed" +:+ newline)).
Definition on_read : user_function console := λ packet u,
  Ret (Returned tt, (u.1, u.2 +:+ "Async read returned " +:+ show_dec (zsize (data packet)) +:+ " bytes" +:+ newline)).

(** [future.get()] behind the start of operation [k]. *)
Definition get (k : nat) (started : outcome (nat * N)) : outcome (expected unit * N) :=
  '(future, n) ← started;
  n ← during (w k) 0 n;
  match future_value future n with
  | None => UB
  | Some None => Pending
  | Some (Some res) => Ret (res, n)
  end.

Definition buffer_line (buffer : list Z) : string :=
  "Sync read: " +:+ foldr (λ b s, "0x" +:+ show_hex b +:+ " " +:+ s) newline buffer.

(** The blocking write and read: [keep_running]. *)
Definition blocking (client : N) : outcome (bool * N) :=
  '(res, client) ← nb_write (w 0) demo_target demo_address payload default_retry_count client;
  match res with
  | Unexpected _ => Ret (false, client)
  | Ok _ =>
      let client := set_user_state (replicate 4 0, (user_state client).2) client in
      '(res, client) ← nb_read (w 1) demo_target demo_address 4 (λ bs u, (bs, u.2)) default_retry_count client;
      match res with
      | Unexpected _ => Ret (false, client)
      | Ok _ => Ret (true, print (buffer_line (user_state client).1) client)
      end
  end.

Definition example_main : outcome (Z * string * N) :=
  let client := cl_setInitiatorLogicalAddress 0xFE (new_client "192.168.1.100" "10030") in
  '(res, client) ← cl_connect 1000000 client;
  match res with
  | Unexpected _ => Ret (1, (user_state client).2, client)
  | Ok _ =>
      let client := print ("Connected to RMAP bridge" +:+ newline) client in
      '(keep_running, client) ← blocking client;
      '(keep_running, client) ←
        (if (keep_running : bool) then
           '(res, client) ← get 2 (nb_writeAsync (clock_of (w 2) 0) demo_target demo_address payload on_written client);
           Ret (match res with Unexpected _ => false | Ok _ => true end, client)
         else Ret (false, client));
      client ←
        (if (keep_running : bool) then
           '(_, client) ← get 3 (nb_readAsync (clock_of (w 3) 0) demo_target demo_address 4 on_read client);
           Ret client
         else Ret client);
      let out := (user_state client).2 in
      '(_, client) ← cl_shutdown client;
      client ← join fuel client;
      Ret (0, out, client)
  end.
End example.

(** ** On a target with memory *)

Definition example_output : string :=
  "Connected to RMAP bridge" +:+ newline +:+ "Sync read: 0x1 0x2 0x3 0x4 " +:+ newline +:+
  "Async write completed" +:+ newline +:+ "Async read returned 4 bytes" +:+ newline.

Section run.
Context {N : Type} `{SpwRmapClient N console} (fuel : nat) `{!MemoryClient N console fuel}.
Context (new_client : string → string → N) (w : nat → waits N) (served_ : ∀ k, served (w k)).
Context (reachable_ : reachable demo_target).
Implicit Types (n : N).

Lemma payload_range : bytes payload ∧ zsize payload = 4 ∧ 0 ≤ demo_address ∧ demo_address + 4 ≤ 2 ^ 32.
Proof. split; [by repeat constructor|done]. Qed.

Lemma print_ok s n :
  ready n → ready (print s n) ∧ content (print s n) = content n ∧
    user_state (print s n) = ((user_state n).1, (user_state n).2 +:+ s).
Proof. intros Hr. unfold print. by destruct (mc_user ((user_state n).1, (user_state n).2 +:+ s) n Hr) as (? & ? & ?). Qed.

Lemma blocking_ok n :
  ready n →
  ∃ n', blocking w n = Ret (true, n') ∧ ready n' ∧ map_seqZ demo_address payload ⊆ content n' ∧
    user_state n' = (payload, (user_state n).2 +:+ buffer_line payload).
Proof.
  intros Hr. destruct payload_range as (Hb & Hz & Ha1 & Ha2). unfold blocking.
  destruct (mc_write (w 0) demo_target demo_address payload n) as (n1 & -> & Hr1 & Hu1 & Hm1); [done..|]. rewrite bind_ret.
  set (n2 := set_user_state _ n1).
  destruct (mc_user (replicate 4 0, (user_state n1).2) n1 Hr1) as (Hu2 & Hr2 & Hc2). fold n2 in Hu2, Hr2, Hc2.
  destruct (mc_read (w 1) demo_target demo_address payload (λ bs u, (bs, u.2)) n2) as (n3 & E & Hr3 & Hu3 & Hc3);
    [done|done|done| |done|done|done|].
  { rewrite Hc2, Hm1. apply map_union_subseteq_l. }
  change (zsize payload) with 4 in E. rewrite E, bind_ret. rewrite Hu3, Hu2. cbn [fst snd].
  destruct (print_ok (buffer_line payload) n3 Hr3) as (Hr4 & Hc4 & Hu4).
  eexists. split; [done|]. split; [done|]. split; [rewrite Hc4, Hc3, Hc2, Hm1; apply map_union_subseteq_l|].
  by rewrite Hu4, Hu3, Hu2, Hu1.
Qed.

Lemma get_write n :
  ready n → map_seqZ demo_address payload ⊆ content n →
  ∃ n', get w 2 (nb_writeAsync (clock_of (w 2) 0) demo_target demo_address payload on_written n) = Ret (Ok tt, n') ∧
    ready n' ∧ map_seqZ demo_address payload ⊆ content n' ∧
    user_state n' = ((user_state n).1, (user_state n).2 +:+ "Async write completed" +:+ newline).
Proof.
  intros Hr Hm. destruct payload_range as (Hb & Hz & Ha1 & Ha2).
  destruct (mc_writeAsync (w 2) demo_target demo_address payload on_written n) as (packet & Hf); [done..|].
  destruct (Hf (Returned tt) _ eq_refl) as (p & n1 & n2 & E1 & E2 & Hv & Hr2 & Hu2 & Hc2).
  exists n2. unfold get. rewrite E1, bind_ret, E2, bind_ret, Hv. split; [done|]. split; [done|].
  split; [|done]. rewrite Hc2. apply map_union_subseteq_l.
Qed.

Lemma get_read n :
  ready n → map_seqZ demo_address payload ⊆ content n →
  ∃ n', get w 3 (nb_readAsync (clock_of (w 3) 0) demo_target demo_address 4 on_read n) = Ret (Ok tt, n') ∧
    ready n' ∧ (user_state n').2 = (user_state n).2 +:+ "Async read returned 4 bytes" +:+ newline.
Proof.
  intros Hr Hm. destruct payload_range as (Hb & Hz & Ha1 & Ha2).
  destruct (mc_readAsync (w 3) demo_target demo_address payload on_read n) as (packet & Hd & Hf); [done..|].
  destruct (Hf (Returned tt) _ eq_refl) as (p & n1 & n2 & E1 & E2 & Hv & Hr2 & Hu2 & _).
  exists n2. unfold get. change (zsize payload) with 4 in E1. rewrite E1, bind_ret, E2, bind_ret, Hv.
  split; [done|]. split; [done|]. rewrite Hu2, Hd. done.
Qed.

(** The whole run. *)
Lemma example_runs :
  let client := new_client "192.168.1.100" "10030" in
  fresh client → (user_state client).2 = ""%string →
  ∃ n, example_main new_client fuel w = Ret (0, example_output, n).
Proof.
  intros client Hf Hu. unfold example_main. fold client.
  destruct (connected 1000000 0xFE client Hf) as (n0 & -> & Hr0 & Hu0 & _); [done..|]. rewrite bind_ret.
  destruct (print_ok ("Connected to RMAP bridge" +:+ newline) n0 Hr0) as (Hr1 & _ & Hu1).
  destruct (blocking_ok _ Hr1) as (n2 & -> & Hr2 & Hm2 & Hu2). rewrite bind_ret.
  destruct (get_write n2 Hr2 Hm2) as (n3 & -> & Hr3 & Hm3 & Hu3). rewrite !bind_ret.
  destruct (get_read n3 Hr3 Hm3) as (n4 & -> & Hr4 & Hu4). rewrite !bind_ret.
  destruct (mc_shutdown n4 Hr4) as (n5 & n6 & -> & E6). rewrite bind_ret. unfold join. rewrite E6, !bind_ret.
  exists n6. rewrite Hu4, Hu3, Hu2, Hu1, Hu0, Hu. cbn [fst snd]. done.
Qed.
End run.
