(* ===== verification/PacketExample.v ===== *)
(** * The example of the packet builders (examples/packet_builder.cc)

    [main] builds one read command and prints its bytes.  It returns the exit
    code and standard output; the messages to standard error are left out.
    What it prints is read back twice: as words that the tools take for bytes,
    and from these bytes as the packet of the configuration. *)

From S2P Require Import Prelude PacketTypes PacketBuilder PacketParser PacketParserFacts PacketTheorems NodeInterface CommandLine CommandLineTheorems Tools ToolsTheorems.
From Stdlib Require Import Ascii.
#[local] Open Scope Z_scope.

(** ** The program *)

(** [std::uppercase] in front of a number in base 16. *)
Definition upper_digit (c : ascii) : ascii :=
  if (97 <=? code c) && (code c <=? 122) then ascii_of_N (Z.to_N (code c - 32)) else c.
Definition show_upper_hex (n : Z) : string :=
  String.string_of_list_ascii (upper_digit <$> String.list_ascii_of_string (show_hex n)).

Definition hex_word (byte : Z) : string := " 0x" +:+ show_upper_hex byte.

Definition printPacket (packet : list Z) : string :=
  "Packet bytes:" +:+ foldr String.append newline (hex_word <$> packet).

Definition example_config : ReadPacketConfig.t := {|
  ReadPacketConfig.targetSpaceWireAddress := [0x01; 0x02; 0x03; 0x04];
  ReadPacketConfig.replyAddress := [0x05; 0x06; 0x07; 0x08];
  ReadPacketConfig.targetLogicalAddress := 0xF2;
  ReadPacketConfig.initiatorLogicalAddress := 0x35;
  ReadPacketConfig.transactionID := 0x1234;
  ReadPacketConfig.extendedAddress := 0x00;
  ReadPacketConfig.address := 0x44A40000;
  ReadPacketConfig.dataLength := 0x00000004;
  ReadPacketConfig.key := 0xAB;
  ReadPacketConfig.incrementMode := true;
|}.

(** [main]; the exception of the vector is caught. *)
Definition packet_example_main (alloc_limit : Z) : outcome (Z * string) :=
  let size := ReadPacketBuilder.getTotalSize example_config in
  if alloc_limit <? size then Ret (1, ""%string) else
  let buffer := replicate (Z.to_nat size) 0 in
  '(res, buffer) ← ReadPacketBuilder.build example_config buffer;
  match res with
  | Unexpected _ => Ret (1, ""%string)
  | Ok _ => Ret (0, printPacket buffer)
  end.

(** ** What it prints *)

Definition hex_arg (b : Z) : string := "0x" +:+ show_upper_hex b.

Lemma hex_arg_parses b : byte b → parseUnsigned (hex_arg b) 0xFF = Some b ∧ option_name (hex_arg b) = None.
Proof.
  intros Hb. split; [|done].
  pose proof (byte_cases (λ b, bool_decide (parseUnsigned (hex_arg b) 0xFF = Some b)) ltac:(by vm_compute) b Hb) as H. by apply bool_decide_eq_true_1 in H.
Qed.

Lemma hex_arg_solid b : byte b → solid (hex_arg b).
Proof.
  intros Hb. apply solid_decide; [|done].
  by apply (byte_cases (λ b, forallb solid_char (String.list_ascii_of_string (hex_arg b)))); [vm_compute|].
Qed.

(** The line of any packet, as arguments of a tool. *)
Lemma printed_packet_arguments packet :
  bytes packet → packet ≠ [] →
  parseByteSequence (drop 2 (words (printPacket packet))) [] = Some (packet, []).
Proof.
  intros Hb Hne. destruct packet as [|b packet]; [done|].
  set (r := hex_arg b +:+ foldr String.append newline (hex_word <$> packet)).
  assert (Hw : words r = hex_arg <$> b :: packet).
  { rewrite <-(words_args hex_arg hex_arg_solid _ Hb). by rewrite fmap_cons, <-(words_blank " " r). }
  change (printPacket (b :: packet)) with (spaced ["Packet"; "bytes:"]%string r).
  rewrite words_spaced, Hw by (repeat constructor; by apply solid_decide).
  change (drop 2 _) with (hex_arg <$> b :: packet). by apply parse_args; [apply hex_arg_parses| |left].
Qed.

(** The packet that [main] prints: its words are the bytes of a packet that is
    parsed as the read command of the configuration. *)
Lemma packet_example_prints alloc_limit :
  ReadPacketBuilder.getTotalSize example_config ≤ alloc_limit →
  ∃ out packet, packet_example_main alloc_limit = Ret (0, out) ∧
    parseByteSequence (drop 2 (words out)) [] = Some (packet, []) ∧
    ∀ p, parse packet p = Ret (Success, received p (read_packet example_config)).
Proof.
  intros Ha. unfold packet_example_main. rewrite (proj2 (Z.ltb_ge _ _)) by done.
  assert (Hb : ReadPacketBuilder.build example_config (replicate 24 0) = Ret (Ok 24, encode_read example_config))
    by by vm_compute.
  change (Z.to_nat _) with 24%nat. rewrite Hb, bind_ret.
  exists (printPacket (encode_read example_config)), (encode_read example_config). split; [done|]. split.
  - by apply printed_packet_arguments; [repeat constructor|].
  - intros p. destruct (builder_round_trips (ConfigT := ReadPacketConfig.t) example_config (replicate 24 0) p)
      as (n & out & Hb' & Hp); [by repeat constructor|done|].
    pose proof (eq_trans (eq_sym Hb) Hb') as E. injection E as <- <-. exact Hp.
Qed.

(** The line itself. *)
Example packet_example_line :
  packet_example_main 4096 = Ret (0, "Packet bytes: 0x1 0x2 0x3 0x4 0xF2 0x1 0x4D 0xAB 0x5 0x6 0x7 0x8 0x35 0x12 0x34 0x0 0x44 0xA4 0x0 0x0 0x0 0x0 0x4 0x24" +:+ newline).
Proof. by vm_compute. Qed.
