(* ===== verification/PythonBinding.v ===== *)
(** * The Python binding
    (bindings/python/src/pyspw_rmap.cc, bindings/python/src/span_caster.hh)

    [PySpwRmapTCPNode]: a client with the thread that runs its loop, the error
    that the thread ended with, and two flags.  An operation returns a value or
    raises an exception.  The vector of [read] lives on the stack of the call:
    [heap] has the vectors that are alive, and the callback, which captures the
    vector by reference, is undefined on one that is not.

    The second part is the conversion between Python buffers and spans; a
    buffer is its [buffer_info] with the bytes it gives access to. *)

From S2P Require Import Prelude PacketTypes Transactions Node NodeInterface.
#[local] Open Scope Z_scope.

(** ** Exceptions *)

Inductive exception :=
| RuntimeError                       (* std::runtime_error *)
| SystemError (ec : error_code)      (* std::system_error *)
| MemoryError.                       (* std::bad_alloc *)

Inductive py (A : Type) : Type := Val (a : A) | Raise (e : exception).
Arguments Val {A} a.
Arguments Raise {A} e.

(** ** Vectors on the stack *)

Record heap := mkHeap {
  next_id : nat;
  alive : gmap nat (list Z);
}.

Definition empty_heap : heap := mkHeap 0 ∅.
Definition alloc_vector (size : Z) (h : heap) : nat * heap :=
  (next_id h, mkHeap (S (next_id h)) (<[next_id h := replicate (Z.to_nat size) 0]> (alive h))).
Definition free_vector (k : nat) (h : heap) : heap := mkHeap (next_id h) (delete k (alive h)).

(** The lambda of [read]: [std::copy_n] into the captured vector. *)
Definition copy_into (k : nat) : user_function heap := λ packet h,
  match alive h !! k with
  | None => UB
  | Some d =>
      bs ← subspan (data packet) 0 (zsize d);
      Ret (Returned tt, mkHeap (next_id h) (<[k := bs]> (alive h)))
  end.

Record PyTargetNode := mkPyTargetNode {
  logical_address : Z;
  target_spacewire_address : list Z;
  reply_address : list Z;
}.

(** [static_cast<uint8_t>] of the logical address. *)
Definition target_of (t : PyTargetNode) : TargetNodeBase :=
  TargetNodeDynamic (u8 (logical_address t)) (target_spacewire_address t) (reply_address t).

(** [std::thread]: without a thread, running, or ended and not joined yet. *)
Inductive thread := NoThread | Running | Ended.

Definition joinable (t : thread) : bool := match t with NoThread => false | _ => true end.

Section node.
Context {N : Type} `{SpwRmapClient N heap}.
Context (alloc_limit : Z) (fuel : nat).

Record PySpwRmapTCPNode := mkPy {
  node_ : N;
  thread_ : thread;
  thread_error_ : option exception;
  running : bool;
  connected : bool;
}.

Definition set_node_ n p := mkPy n (thread_ p) (thread_error_ p) (running p) (connected p).
Definition set_thread_ t p := mkPy (node_ p) t (thread_error_ p) (running p) (connected p).
Definition set_thread_error_ e p := mkPy (node_ p) (thread_ p) e (running p) (connected p).
Definition set_flags r c p := mkPy (node_ p) (thread_ p) (thread_error_ p) r c.

(** The constructor, given the client. *)
Definition init (n : N) : PySpwRmapTCPNode := mkPy n NoThread None false false.

(** The end of the thread's function, when [runLoop] returns. *)
Definition thread_ends (run_res : expected unit) (p : PySpwRmapTCPNode) : PySpwRmapTCPNode :=
  let p := match run_res with
           | Unexpected e => set_thread_error_ (Some (SystemError e)) p
           | Ok _ => p
           end in
  set_thread_ Ended (set_flags false false p).

(** [joinThread_]: a thread that still runs goes on to its end. *)
Definition joinThread_ (p : PySpwRmapTCPNode) : outcome PySpwRmapTCPNode :=
  match thread_ p with
  | NoThread => Ret p
  | Ended => Ret (set_thread_ NoThread p)
  | Running =>
      '(run_res, n) ← nb_runLoop fuel (node_ p);
      Ret (set_thread_ NoThread (thread_ends run_res (set_node_ n p)))
  end.

(** [rethrowThreadError_] and [checkThreadError_]: the error, if there is one. *)
Definition rethrowThreadError_ (p : PySpwRmapTCPNode) : py unit * PySpwRmapTCPNode :=
  (match thread_error_ p with Some e => Raise e | None => Val tt end, set_thread_error_ None p).
Definition checkThreadError_ (p : PySpwRmapTCPNode) : py unit :=
  match thread_error_ p with Some e => Raise e | None => Val tt end.

Definition start (p : PySpwRmapTCPNode) : outcome (py unit * PySpwRmapTCPNode) :=
  if running p then Ret (Raise RuntimeError, p) else
  '(joined, p) ←
    (if joinable (thread_ p) then p ← joinThread_ p; Ret (rethrowThreadError_ p) else Ret (Val tt, p));
  match joined with
  | Raise e => Ret (Raise e, p)
  | Val _ =>
      '(res, n) ← cl_connect 5000000 (node_ p);
      let p := set_node_ n p in
      match res with
      | Unexpected e => Ret (Raise (SystemError e), p)
      | Ok _ => Ret (Val tt, set_thread_ Running (set_thread_error_ None (set_flags true true p)))
      end
  end.

(** The end of [stop]: [joinThread_(); rethrowThreadError_();]. *)
Definition join_and_rethrow (p : PySpwRmapTCPNode) : outcome (py unit * PySpwRmapTCPNode) :=
  p ← joinThread_ p; Ret (rethrowThreadError_ p).

Definition stop (p : PySpwRmapTCPNode) : outcome (py unit * PySpwRmapTCPNode) :=
  if negb (running p) && negb (connected p) then join_and_rethrow p else
  if connected p then
    '(res, n) ← cl_shutdown (node_ p);
    let p := set_flags false false (set_node_ n p) in
    match res with
    | Unexpected e =>
        '(r, p) ← join_and_rethrow p;
        match r with
        | Raise e' => Ret (Raise e', p)
        | Val _ => Ret (Raise (SystemError e), p)
        end
    | Ok _ => join_and_rethrow p
    end
  else join_and_rethrow (set_flags false (connected p) p).

(** The wait of a second and what follows it. *)
Definition await (future : nat) (n : N) : outcome (py unit) :=
  match future_value future n with
  | None => UB
  | Some None => Ret (Raise (SystemError (generic timed_out)))
  | Some (Some (Unexpected e)) => Ret (Raise (SystemError e))
  | Some (Some (Ok _)) => Ret (Val tt)
  end.

(** [w] is the clock of the operation and what happens during the wait. *)
Definition read (w : waits N) (target_node : PyTargetNode) (memory_address data_length : Z)
    (p : PySpwRmapTCPNode) : outcome (py (list Z) * PySpwRmapTCPNode) :=
  match checkThreadError_ p with
  | Raise e => Ret (Raise e, p)
  | Val _ =>
      if alloc_limit <? data_length then Ret (Raise MemoryError, p) else
      let '(k, h) := alloc_vector data_length (user_state (node_ p)) in
      '(future, n) ← nb_readAsync (clock_of w 0) (target_of target_node) memory_address
                       (u32 data_length) (copy_into k) (set_user_state h (node_ p));
      n ← during w 0 n;
      r ← await future n;
      let p := set_node_ (set_user_state (free_vector k (user_state n)) n) p in
      match r, alive (user_state n) !! k with
      | Raise e, _ => Ret (Raise e, p)
      | Val _, None => UB
      | Val _, Some d => Ret (Val d, p)
      end
  end.

Definition write (w : waits N) (target_node : PyTargetNode) (memory_address : Z) (data : list Z)
    (p : PySpwRmapTCPNode) : outcome (py unit * PySpwRmapTCPNode) :=
  match checkThreadError_ p with
  | Raise e => Ret (Raise e, p)
  | Val _ =>
      '(future, n) ← nb_writeAsync (clock_of w 0) (target_of target_node) memory_address data
                       (λ _ h, Ret (Returned tt, h)) (node_ p);
      n ← during w 0 n;
      r ← await future n;
      Ret (r, set_node_ n p)
  end.

(** The destructor: exceptions of [stop] are reported and dropped. *)
Definition destroy (p : PySpwRmapTCPNode) : outcome PySpwRmapTCPNode :=
  '(_, p) ← stop p; joinThread_ p.
End node.
Arguments PySpwRmapTCPNode N : clear implicits.

(** ** Buffers and spans *)

(** [py::buffer_info], with the bytes behind [ptr]. *)
Record buffer_info := mkBufferInfo {
  ndim : Z;
  itemsize : Z;
  strides : list Z;
  readonly : bool;
  size : Z;                (* elements *)
  memory : list Z;
}.

(** [type_caster<std::span<T>>::load]: [is_const] and [sizeof_T] are those of
    [T]; [buffer] is [None] for an object without the buffer protocol.  The
    span is the bytes of its elements. *)
Definition load (is_const : bool) (sizeof_T : Z) (buffer : option buffer_info) : option (list Z) :=
  match buffer with
  | None => None
  | Some info =>
      if negb (ndim info =? 1) then None
      else if negb (itemsize info =? sizeof_T) then None
      else if match strides info with [] => false | s :: _ => negb (s =? sizeof_T) end then None
      else if negb is_const && readonly info then None
      else Some (take (Z.to_nat (size info * sizeof_T)) (memory info))
  end.

(** [cast] and [to_py_memoryview]: a one-dimensional view of the elements;
    [py::memoryview::from_buffer] of a pointer to constants is read-only. *)
Definition cast (is_const : bool) (sizeof_T : Z) (s : list Z) : buffer_info :=
  mkBufferInfo 1 sizeof_T [sizeof_T] is_const (zsize s / sizeof_T) s.
Definition to_py_memoryview := cast.

(** [to_py_bytes]. *)
Definition to_py_bytes (s : list Z) : list Z := s.
