(* ===== verification/PythonTheorems.v ===== *)
(** * The life of a node in Python

    Flags and thread agree; an error of the loop is raised once by the next
    operation that can raise it; a node that was stopped cannot be started
    again; a read that times out leaves a callback on a vector that is gone.
    Against the contract [MemoryClient], what is written is read back. *)

From S2P Require Import Prelude PacketTypes Posix TcpBackend TcpClient Framing Transactions TransactionSlots Node TcpNode NodeInterface NodeTheorems Exchange MemoryClient PythonBinding.
#[local] Open Scope Z_scope.

Section life.
Context {N : Type} `{SpwRmapClient N heap} (fuel : nat).
Implicit Types (p : PySpwRmapTCPNode N).

(** Between operations. *)
Definition py_ok p : Prop :=
  running p = connected p ∧ (running p = true → thread_ p = Running).

(** What can happen to a node: operations, and the end of its loop. *)
Inductive py_step (alloc_limit : Z) p : PySpwRmapTCPNode N → Prop :=
| py_start r p' : start fuel p = Ret (r, p') → py_step alloc_limit p p'
| py_stop r p' : stop fuel p = Ret (r, p') → py_step alloc_limit p p'
| py_read w t a len r p' : read alloc_limit w t a len p = Ret (r, p') → py_step alloc_limit p p'
| py_write w t a d r p' : write w t a d p = Ret (r, p') → py_step alloc_limit p p'
| py_loop_ends r n : thread_ p = Running → py_step alloc_limit p (thread_ends r (set_node_ n p)).

Lemma joinThread_down p :
  running p = false → connected p = false →
  match joinThread_ fuel p with
  | Ret p' => thread_ p' = NoThread ∧ running p' = false ∧ connected p' = false
  | _ => True
  end.
Proof.
  intros Hr Hc. unfold joinThread_. destruct (thread_ p) eqn:Et; [done| |done].
  destruct (nb_runLoop fuel (node_ p)) as [[[] n]| | |]; done.
Qed.

Lemma join_and_rethrow_ok p r p' :
  running p = false → connected p = false → join_and_rethrow fuel p = Ret (r, p') →
  py_ok p' ∧ running p' = false ∧ thread_ p' = NoThread ∧ thread_error_ p' = None.
Proof.
  intros Hr Hc Hj. unfold join_and_rethrow in Hj. apply bind_Ret in Hj as (p1 & E & Hj).
  pose proof (joinThread_down p Hr Hc) as Hd. rewrite E in Hd. destruct Hd as (Ht & Hr1 & Hc1).
  unfold rethrowThreadError_ in Hj. simplify_eq. unfold py_ok. cbn. by rewrite Hr1, Hc1.
Qed.

Lemma stop_ok p r p' :
  py_ok p → stop fuel p = Ret (r, p') →
  py_ok p' ∧ running p' = false ∧ thread_ p' = NoThread ∧ thread_error_ p' = None.
Proof.
  intros [Hrc Ht] Hs. unfold stop in Hs. rewrite <-Hrc in Hs. destruct (running p) eqn:Er; cbn in Hs.
  - apply bind_Ret in Hs as ([res n] & _ & Hs). destruct res as [[]|e].
    + by eapply join_and_rethrow_ok in Hs.
    + apply bind_Ret in Hs as ([r1 p1] & Hj & Hs). apply join_and_rethrow_ok in Hj; [|done..].
      by destruct r1; simplify_eq.
  - by eapply join_and_rethrow_ok in Hs.
Qed.

Lemma start_ok p r p' : py_ok p → start fuel p = Ret (r, p') → py_ok p'.
Proof.
  intros Hok Hs. unfold start in Hs. destruct (running p) eqn:Er; [by simplify_eq|].
  apply bind_Ret in Hs as ([j p1] & Hj & Hs).
  assert (Hok1 : py_ok p1).
  { destruct (joinable (thread_ p)); [|by simplify_eq]. destruct Hok as [Hrc _].
    by eapply join_and_rethrow_ok in Hj; [apply Hj|done|congruence]. }
  destruct j; [|by simplify_eq]. apply bind_Ret in Hs as ([res n] & _ & Hs).
  destruct res; simplify_eq; done.
Qed.

Lemma py_step_ok alloc_limit p p' : py_ok p → py_step alloc_limit p p' → py_ok p'.
Proof.
  intros Hok Hs. destruct Hs as [r p' Hs|r p' Hs|w t a len r p' Hs|w t a d r p' Hs|r n Ht].
  - by eapply start_ok.
  - by eapply stop_ok.
  - unfold read in Hs. destruct (checkThreadError_ p); [|by simplify_eq].
    destruct (alloc_limit <? len); [by simplify_eq|].
    destruct (alloc_vector len (user_state (node_ p))) as [k h].
    apply bind_Ret in Hs as ([f n1] & _ & Hs). apply bind_Ret in Hs as (n2 & _ & Hs).
    apply bind_Ret in Hs as (r1 & _ & Hs). destruct r1; [destruct (alive (user_state n2) !! k)|]; by simplify_eq.
  - unfold write in Hs. destruct (checkThreadError_ p); [|by simplify_eq].
    apply bind_Ret in Hs as ([f n1] & _ & Hs). apply bind_Ret in Hs as (n2 & _ & Hs).
    apply bind_Ret in Hs as (r1 & _ & Hs). by simplify_eq.
  - by destruct r.
Qed.

(** C34: After any sequence of start, stop, read, write and ends of the loop thread,
    the two flags of the Python node agree and are set only while its thread
    runs; stop leaves no thread, and a second stop does nothing; an error that
    ends the loop is raised by every read and write from then on, until the next
    stop or start raises it once and clears it. *)
Theorem python_lifecycle alloc_limit n p :
  rtc (py_step alloc_limit) (init n) p →
  py_ok p ∧
  (∀ r p', stop fuel p = Ret (r, p') → running p' = false ∧ thread_ p' = NoThread ∧
     stop fuel p' = Ret (Val tt, p')) ∧
  (∀ e n', thread_ p = Running →
     let p1 := thread_ends (Unexpected e) (set_node_ n' p) in
     (∀ w t a len, read alloc_limit w t a len p1 = Ret (Raise (SystemError e), p1)) ∧
     (∀ w t a d, write w t a d p1 = Ret (Raise (SystemError e), p1)) ∧
     ∃ p2, stop fuel p1 = Ret (Raise (SystemError e), p2) ∧ start fuel p1 = Ret (Raise (SystemError e), p2) ∧
       stop fuel p2 = Ret (Val tt, p2)).
Proof.
  intros Hr. assert (Hok : py_ok p).
  { remember (init n) as p0 eqn:E0. assert (Hok : py_ok p0) by by subst. clear E0.
    induction Hr as [|x y z Hs Hr IH]; [done|]. by apply IH; eapply py_step_ok. }
  split; [done|]. split.
  - intros r p' Hs. destruct (stop_ok _ _ _ Hok Hs) as ([Hrc _] & Hr' & Ht & He).
    split_and!; [done..|]. unfold stop. rewrite <-Hrc, Hr'. cbn. unfold join_and_rethrow, joinThread_.
    rewrite Ht. cbn. unfold rethrowThreadError_. rewrite He. do 2 f_equal. by destruct p'; simpl in *; subst.
  - intros e n' Ht p1. split; [reflexivity|]. split; [reflexivity|].
    eexists. split; [reflexivity|]. split; reflexivity.
Qed.
End life.

(** ** Starting again *)

Section restart.
Context {W : Type} `{Posix W} (retries fuel : nat) (alloc_limit : Z).
#[local] Existing Instance tcp_client_backend.
#[local] Existing Instance tcp_client_virtuals.
Abbreviation base := (@tcp_node_base (TCPClient.t W) heap (tcp_client_backend retries)
  (tcp_client_virtuals retries) alloc_limit).
Abbreviation client := (@tcp_client_node W heap _ retries alloc_limit).

Lemma loop_without_backend (n : SpwRmapTCPClient.t W heap) r n' :
  getBackend_ n = None → @nb_runLoop _ heap base fuel n = Ret (r, n') → getBackend_ n' = None.
Proof.
  intros Hb Hl. cbn in Hl. unfold runLoop in Hl. destruct fuel as [|f]; [done|]. cbn [run_loop] in Hl.
  cbn [running_ set_running_] in Hl. unfold poll in Hl.
  assert (E : @recvAndParseOnePacket_ (TCPClient.t W) (tcp_client_backend retries) alloc_limit f
    (lnk (set_running_ true n)) = Ret (Unexpected (generic not_connected), lnk (set_running_ true n))).
  { unfold recvAndParseOnePacket_. cbn. unfold getBackend_ in Hb. by rewrite Hb. }
  rewrite E in Hl. cbn in Hl.
  match type of Hl with context [if ?b then _ else _] => destruct b end; by injection Hl as <- <-.
Qed.

(** A Python node that was started and then stopped without an error cannot be
    started again: start dereferences the null backend that shutdown left. *)
Theorem python_restart_fails (p p' : PySpwRmapTCPNode (node (TCPClient.t W) heap)) :
  connected p = true → thread_ p = Running →
  @stop _ base client fuel p = Ret (Val tt, p') → @start _ base client fuel p' = UB.
Proof.
  intros Hc Ht Hs. unfold stop in Hs. rewrite Hc, andb_false_r in Hs.
  apply bind_Ret in Hs as ([res n] & Hsd & Hs).
  assert (Hn : res = Ok tt → getBackend_ n = None).
  { intros ->. cbn in Hsd. unfold SpwRmapTCPClient.shutdown in Hsd. apply bind_Ret in Hsd as ([[r n1] w] & Hsd & [= -> <-]).
    unfold SpwRmapTCPClient.shutdown_os in Hsd. destruct (getBackend_ (node_ p)) as [b|] eqn:Eb; [|by simplify_eq].
    apply bind_Ret in Hsd as ([r1 b1] & _ & Hsd). destruct r1; [|done].
    by apply bind_Ret in Hsd as (b2 & _ & [= <- _]). }
  destruct res as [[]|e]; last first.
  { apply bind_Ret in Hs as ([r1 p1] & _ & Hs). by destruct r1. }
  specialize (Hn eq_refl). unfold join_and_rethrow, joinThread_ in Hs. cbn [thread_ set_flags set_node_] in Hs.
  rewrite Ht in Hs. cbn [node_ set_flags set_node_] in Hs.
  destruct (@nb_runLoop _ heap base fuel n) as [[r n2]| | |] eqn:El; try done.
  apply loop_without_backend in El; [|done]. cbn in Hs. unfold rethrowThreadError_ in Hs.
  assert (Hp : node_ p' = n2 ∧ running p' = false ∧ thread_ p' = NoThread) by by destruct r; simplify_eq.
  destruct Hp as (Hn2 & Hr' & Ht'). unfold start. rewrite Hr', Ht'. cbn. unfold SpwRmapTCPClient.connect.
  by rewrite Hn2, El.
Qed.
End restart.

(** ** Reading *)

Section reading.
Context {B : Type} `{TcpBackend B} `{NodeVirtuals B heap} (alloc_limit : Z).
Context (id_min id_max timeout : Z).
Implicit Types (p : PySpwRmapTCPNode (node B heap)).
#[local] Instance python_node_base : SpwRmapNodeBase (node B heap) heap := tcp_node_base alloc_limit.

(** Nothing is received during the wait, or one packet. *)
Definition nothing (now now' : Z) : waits (node B heap) := mkWaits (λ _, [now; now']) (λ _ n, Ret n).
Definition receiving (now now' : Z) (q : Packet) : waits (node B heap) :=
  mkWaits (λ _, [now; now']) (λ _ n, '(_, n) ← handle_packet alloc_limit q n; Ret n).

Context (p : PySpwRmapTCPNode (node B heap)) (S : list (@slot heap)) (ps : list (option (expected unit))).
Context (i : nat) (t : PyTargetNode) (addr len now now' : Z) (l : link B).
Context (Htx : txs (node_ p) = table id_min id_max timeout S ps (user (txs (node_ p)))).
Context (Hwf : table_wf id_min id_max S ps) (Hi : first_free S = Some i).
Context (Herr : thread_error_ p = None) (Hlen : 0 ≤ len < 2 ^ 32) (Hal : len ≤ alloc_limit).
Context (Hsend : sendReadPacket_ alloc_limit (target_of t) (id_min + Z.of_nat i) addr len (lnk (node_ p)) = Ret (Ok tt, l)).

Abbreviation k := (next_id (user (txs (node_ p)))).
Abbreviation h := (alloc_vector len (user (txs (node_ p)))).2.

(** The node once the command is sent. *)
Definition sent_node : node B heap :=
  set_txs (table id_min id_max timeout (<[i := Waiting now (length ps) (copy_into k)]> S) (ps ++ [None]) h)
    (set_lnk l (set_user_state h (node_ p))).

Lemma sent :
  nb_readAsync [now; now'] (target_of t) addr (u32 len) (copy_into k) (set_user_state h (node_ p)) =
  Ret (length ps, sent_node).
Proof.
  cbn [nb_readAsync python_node_base tcp_node_base]. unfold readAsync, startReadAsyncOperation_.
  rewrite (start_first_free id_min id_max timeout S ps h i _ now now' [] _ (copy_into k) l); [done| |done|done|].
  - cbn. by rewrite Htx.
  - unfold u32. rewrite Z.mod_small by lia. exact Hsend.
Qed.

(** What a read does once the wait is over. *)
Lemma read_unfold during_ :
  read alloc_limit (mkWaits (λ _, [now; now']) during_) t addr len p =
  (n ← during_ 0%nat sent_node;
   r ← await (length ps) n;
   let p := set_node_ (set_user_state (free_vector k (user_state n)) n) p in
   match r, alive (user_state n) !! k with
   | Raise e, _ => Ret (Raise e, p)
   | Val _, None => UB
   | Val _, Some d => Ret (Val d, p)
   end).
Proof.
  unfold read, checkThreadError_. rewrite Herr, (proj2 (Z.ltb_ge _ _)) by done.
  destruct (alloc_vector len (user_state (node_ p))) as [k' h'] eqn:E.
  assert (Ek : k' = k ∧ h' = h) by (unfold alloc_vector in E; cbn in *; by simplify_eq).
  destruct Ek as [-> ->]. cbn [clock_of during]. by rewrite sent, bind_ret.
Qed.

Lemma sent_handles q s' u' :
  transactionID q = id_min + Z.of_nat i → type q = ReadReply →
  txs s' = table id_min id_max timeout (<[i := Waiting now (length ps) (copy_into k)]> S) (ps ++ [None]) u' →
  handle_packet alloc_limit q s' =
  ('(r, u) ← copy_into k q u';
   Ret (Ok true, set_txs (table id_min id_max timeout (<[i := Free]> S) (<[length ps := Some (completion r)]> (ps ++ [None])) u) s')).
Proof.
  intros Hid Hty Hs. unfold handle_packet. rewrite Hty, Hs.
  apply first_free_Some in Hi as [Hf _]. apply lookup_lt_Some in Hf as Hlt.
  erewrite dispatch_reply_table; [|by apply waiting_wf|by apply list_lookup_insert_eq|done].
  cbv match beta. destruct (copy_into k q u') as [[r u]| | |]; try done. cbn [mbind outcome_bind]. by rewrite list_insert_insert_eq.
Qed.

(** C35: A read of the Python node whose command is sent: a reply with at least as
    many bytes as asked for makes it return exactly the first of them; a shorter
    reply makes the callback read out of range; without a reply it raises
    timed_out, and since the operation stays registered with a reference to the
    vector of the call, the reply that comes later writes into a vector that is
    gone. *)
Theorem python_read_outcomes :
  (∀ q, type q = ReadReply → transactionID q = id_min + Z.of_nat i → len ≤ zsize (data q) →
     ∃ p', read alloc_limit (receiving now now' q) t addr len p = Ret (Val (take (Z.to_nat len) (data q)), p')) ∧
  (∀ q, type q = ReadReply → transactionID q = id_min + Z.of_nat i → zsize (data q) < len →
     read alloc_limit (receiving now now' q) t addr len p = UB) ∧
  ∃ p', read alloc_limit (nothing now now') t addr len p = Ret (Raise (SystemError (generic timed_out)), p') ∧
    ∀ q, type q = ReadReply → transactionID q = id_min + Z.of_nat i → handle_packet alloc_limit q (node_ p') = UB.
Proof.
  unfold receiving, nothing.
  assert (Hk : alive h !! k = Some (replicate (Z.to_nat len) 0)) by (cbn; by rewrite lookup_insert_eq).
  assert (Hz : zsize (replicate (Z.to_nat len) 0) = len) by (rewrite zsize_replicate; lia).
  split_and!.
  - intros q Hty Hid Hd. rewrite read_unfold, (sent_handles q sent_node h) by done.
    unfold copy_into. rewrite Hk, Hz, subspan_in_range by lia. cbn [mbind outcome_bind].
    unfold await. cbn [future_value python_node_base tcp_node_base txs set_txs promises table table2 user_state user alive].
    rewrite list_lookup_insert_eq by (rewrite length_app; cbn; lia). cbn [completion].
    eexists. cbn [mbind outcome_bind]. by rewrite lookup_insert_eq.
  - intros q Hty Hid Hd. rewrite read_unfold, (sent_handles q sent_node h) by done.
    unfold copy_into. rewrite Hk, Hz. unfold subspan. by rewrite decide_False by lia.
  - rewrite read_unfold, bind_ret. unfold await. cbn [future_value python_node_base tcp_node_base txs set_txs sent_node promises table table2].
    rewrite list_lookup_middle by done. eexists. split; [done|].
    intros q Hty Hid. erewrite sent_handles; [|done..]. unfold copy_into. cbn. by rewrite lookup_delete_eq.
Qed.
End reading.

(** ** On a target with memory *)

Section memory.
Context {N : Type} `{SpwRmapClient N heap} (fuel : nat) `{!MemoryClient N heap fuel}.
Context (alloc_limit : Z) (w : waits N) (served_ : served w).
Implicit Types (p : PySpwRmapTCPNode N) (t : PyTargetNode).

Lemma start_ready p :
  running p = false → thread_ p = NoThread → fresh (node_ p) →
  ∃ n, start fuel p = Ret (Val tt, mkPy n Running None true true) ∧ ready n ∧ content n = content (node_ p).
Proof.
  intros Hr Ht Hf. unfold start. rewrite Hr, Ht. cbn [joinable]. rewrite bind_ret.
  destruct (mc_connect 5000000 _ Hf) as (n & -> & ? & _ & ?); [lia|]. by exists n.
Qed.

Lemma write_ready p t a bs :
  thread_error_ p = None → ready (node_ p) → reachable (target_of t) →
  bytes bs → 0 < zsize bs < 2 ^ 24 → 0 ≤ a → a + zsize bs ≤ 2 ^ 32 →
  ∃ n, write w t a bs p = Ret (Val tt, set_node_ n p) ∧ ready n ∧ content n = map_seqZ a bs ∪ content (node_ p).
Proof.
  intros He Hr Ht Hb Hz Ha1 Ha2. unfold write, checkThreadError_. rewrite He.
  destruct (mc_writeAsync w (target_of t) a bs (λ _ h, Ret (Returned tt, h)) (node_ p)) as (packet & Hf); [done..|].
  destruct (Hf (Returned tt) _ eq_refl) as (k & n1 & n2 & -> & E2 & Hv & Hr2 & _ & Hc2).
  rewrite bind_ret, E2, bind_ret. unfold await. rewrite Hv. cbn [completion]. rewrite bind_ret. by exists n2.
Qed.

Lemma read_ready p t a bs :
  thread_error_ p = None → ready (node_ p) → reachable (target_of t) → map_seqZ a bs ⊆ content (node_ p) →
  bytes bs → 0 < zsize bs < 2 ^ 24 → zsize bs ≤ alloc_limit → 0 ≤ a < 2 ^ 32 →
  ∃ n, read alloc_limit w t a (zsize bs) p = Ret (Val bs, set_node_ n p) ∧ ready n ∧ content n = content (node_ p).
Proof.
  intros He Hr Ht Hm Hb Hz Hal Ha. unfold read, checkThreadError_. rewrite He, (proj2 (Z.ltb_ge _ _)) by done.
  set (k := next_id (user_state (node_ p))). set (h := (alloc_vector (zsize bs) (user_state (node_ p))).2).
  change (alloc_vector (zsize bs) (user_state (node_ p))) with (k, h). cbv beta iota zeta.
  destruct (mc_user h (node_ p) Hr) as (Hu1 & Hr1 & Hc1). unfold u32. rewrite Z.mod_small by lia.
  destruct (mc_readAsync w (target_of t) a bs (copy_into k) (set_user_state h (node_ p))) as (packet & Hd & Hf);
    [done|done|done|by rewrite Hc1|done..|].
  destruct (Hf (Returned tt) (mkHeap (next_id h) (<[k := bs]> (alive h)))) as (f & n1 & n2 & -> & E2 & Hv & Hr2 & Hu2 & Hc2).
  { unfold copy_into. rewrite Hu1, Hd. subst h. cbn [alloc_vector snd alive]. rewrite lookup_insert_eq.
    rewrite zsize_replicate, subspan_in_range by lia. cbn [mbind outcome_bind]. repeat f_equal.
    rewrite drop_0, take_ge; [done|]. unfold zsize. lia. }
  rewrite bind_ret, E2, bind_ret. unfold await. rewrite Hv. cbn [completion]. rewrite bind_ret, Hu2. cbn [alive].
  rewrite lookup_insert_eq. destruct (mc_user (free_vector k (mkHeap (next_id h) (<[k := bs]> (alive h)))) n2 Hr2)
    as (_ & Hr3 & Hc3).
  eexists. split; [done|]. split; [done|]. by rewrite Hc3, Hc2.
Qed.

Lemma stop_ready p :
  connected p = true → thread_ p = Running → thread_error_ p = None → ready (node_ p) →
  ∃ n, stop fuel p = Ret (Val tt, mkPy n NoThread None false false).
Proof.
  intros Hc Ht He Hr. unfold stop. rewrite Hc, andb_false_r.
  destruct (mc_shutdown (node_ p) Hr) as (n1 & n2 & -> & E2). rewrite bind_ret.
  unfold join_and_rethrow, joinThread_. cbn [thread_ set_flags set_node_]. rewrite Ht. cbn [node_ set_flags set_node_].
  rewrite E2, !bind_ret. unfold rethrowThreadError_. exists n2. cbn. by rewrite He.
Qed.
End memory.

(** ** Spans *)

Lemma load_cast is_const is_const' sizeof_T s :
  0 < sizeof_T → zsize s mod sizeof_T = 0 →
  load is_const' sizeof_T (Some (cast is_const sizeof_T s)) =
  if negb is_const' && is_const then None else Some s.
Proof.
  intros Hs Hm. unfold load, cast. cbn. rewrite !Z.eqb_refl. cbn. destruct (negb is_const' && is_const); [done|].
  rewrite take_ge; [done|]. pose proof (Z.div_mod (zsize s) sizeof_T). unfold zsize in *. lia.
Qed.
