(* ===== verification/Network.v ===== *)
(** * A target behind the connection

    A system on which a client and a target can run together: the scripted
    system of [Posix], which has one connection, and behind the connection a
    node over the mock backend of tests/test_spw_rmap_node.cc whose users'
    functions are a memory.  [target_turn] lets the target handle one packet,
    [serve] is what happens while a thread of the client waits for a reply.

    Signals interrupt the calls that a thread can block in, and [close], as often
    and when [signals] says.

    [network_laws]: the system obeys [PosixLaws], also when [writable] says in
    addition what the target is, which no call of the client changes. *)

From S2P Require Import Prelude PacketTypes TcpBackend Posix TcpClient Framing Transactions Node TcpNode NodeInterface.
#[local] Open Scope Z_scope.

(** The node of the tests. *)
#[export] Instance test_node {U} : NodeVirtuals MockBackend U := {
  shutdown n :=
    match tcp_backend_ (lnk n) with
    | None => UB
    | Some b =>
        '(res, b) ← mock_shutdown b;
        Ret (res, set_lnk (set_tcp_backend_ (Some b) (lnk n)) n)
    end;
  isShutdowned n :=
    match tcp_backend_ (lnk n) with None => false | Some b => mock_shutdown_ b end;
}.

(** ** A memory *)

Abbreviation memory := (gmap Z Z).

Definition load_bytes (a len : Z) (m : memory) : list Z :=
  (λ i, default 0 (m !! (a + Z.of_nat i))) <$> seq 0 (Z.to_nat len).

Definition store_memory : user_function memory := λ packet m,
  Ret (Returned tt, map_seqZ (address packet) (data packet) ∪ m).
Definition load_memory : read_function memory := λ packet m,
  Ret (Returned (load_bytes (address packet) (dataLength packet) m), m).

Lemma load_stored a bs m : map_seqZ a bs ⊆ m → load_bytes a (zsize bs) m = bs.
Proof.
  intros Hm. apply list_eq. intros i. unfold load_bytes. rewrite list_lookup_fmap, zsize_to_nat.
  destruct (decide (i < length bs)%nat).
  - destruct (lookup_lt_is_Some_2 bs i) as [b Hb]; [done|]. rewrite lookup_seq_lt by done. cbn.
    rewrite (lookup_weaken (map_seqZ a bs) m _ b); [done| |done].
    apply lookup_map_seqZ_Some. split; [lia|]. by replace (Z.to_nat (a + Z.of_nat i - a)) with i by lia.
  - rewrite lookup_seq_ge by lia. by rewrite lookup_ge_None_2 by lia.
Qed.

(** ** The system *)

Record network := mkNetwork {
  kernel : ScriptedKernel;
  target : node MockBackend memory;
  seen : nat;                     (* how much of what was sent the target has got *)
  signals : list bool;            (* which of the next calls a signal interrupts *)
}.

Definition set_kernel (k : ScriptedKernel) (w : network) : network := mkNetwork k (target w) (seen w) (signals w).

Definition lift {A} (call : ScriptedKernel → A * ScriptedKernel) (w : network) : A * network :=
  let '(r, k) := call (kernel w) in (r, set_kernel k w).

(** A call that a signal can interrupt. *)
Definition next_signal (w : network) : network := mkNetwork (kernel w) (target w) (seen w) (tail (signals w)).
Definition set_k_errno (e : Z) (k : ScriptedKernel) : ScriptedKernel :=
  mkKernel e (k_fds k) (k_script k) (k_in k) (k_out k) (k_chunk k) (k_addresses k).
Definition signalled {A} (failed : A) (call : ScriptedKernel → A * ScriptedKernel) (w : network) : A * network :=
  match signals w with
  | true :: _ => (failed, set_kernel (set_k_errno EINTR (kernel w)) (next_signal w))
  | _ => lift call (next_signal w)
  end.

#[export] Instance network_posix : Posix network := {
  errno w := errno (kernel w);
  sys_getaddrinfo h p hi fl := lift (sys_getaddrinfo h p hi fl);
  sys_socket d t p := lift (sys_socket d t p);
  sys_connect fd a := lift (sys_connect fd a);
  sys_poll fd ev ms := signalled (-1, 0) (sys_poll fd ev ms);
  sys_getsockopt_error fd := lift (sys_getsockopt_error fd);
  sys_setsockopt fd o := lift (sys_setsockopt fd o);
  sys_fcntl fd c := lift (sys_fcntl fd c);
  sys_send fd d fl := signalled (-1) (sys_send fd d fl);
  sys_recv fd n := signalled (-1, []) (sys_recv fd n);
  sys_bind fd a := lift (sys_bind fd a);
  sys_listen fd n := lift (sys_listen fd n);
  sys_accept fd := lift (sys_accept fd);
  sys_shutdown fd how := lift (sys_shutdown fd how);
  sys_close fd := signalled (-1) (sys_close fd);
}.

(** The target gets what was sent, handles one packet, and what it sends is on
    its way to the client. *)
Definition target_turn (alloc_limit : Z) (w : network) : outcome network :=
  match tcp_backend_ (lnk (target w)) with
  | None => UB
  | Some b =>
      let k := kernel w in
      let input := incoming_bytes_ b ++ drop (seen w) (k_out k) in
      let b0 := mkMock (ip_address_ b) (port_ b) [] input (mock_shutdown_ b) in
      '(_, n) ← poll alloc_limit (S (length input))
                  (set_lnk (set_tcp_backend_ (Some b0) (lnk (target w))) (target w));
      match tcp_backend_ (lnk n) with
      | None => UB
      | Some b' =>
          Ret (mkNetwork (mkKernel (k_errno k) (k_fds k) (k_script k) (k_in k ++ mjoin (sent_frames_ b'))
                            (k_out k) (k_chunk k) (k_addresses k)) n (length (k_out k)) (signals w))
      end
  end.

(** The wait of a client: the target's turn, then a round of the client's
    loop. *)
Definition serve {U} (retries : nat) (alloc_limit : Z) (n : SpwRmapTCPClient.t network U)
    : outcome (SpwRmapTCPClient.t network U) :=
  match getBackend_ n with
  | None => UB
  | Some b =>
      w ← target_turn alloc_limit (TCPClient.os b);
      '(_, n) ← @poll _ U (tcp_client_backend retries) alloc_limit (tcp_client_virtuals retries)
                  (S (length (k_in (kernel w)))) (set_backend (Some (TCPClient.set_os w b)) n);
      Ret n
  end.

(** ** The laws *)

Section laws.
Context (s0 : node MockBackend memory) (seen0 : nat).

(** The target is [s0] and has got [seen0] bytes, and no call will fail. *)
Definition undisturbed (w : network) : Prop := target w = s0 ∧ seen w = seen0 ∧ k_script (kernel w) = [].

(** How many signals will still come. *)
Definition pending (w : network) : nat := length (List.filter id (signals w)).

#[local] Instance network_view : PosixView network := {
  open_fds w := open_fds (kernel w);
  inbound w := inbound (kernel w);
  outbound w := outbound (kernel w);
  interrupts w := (interrupts (kernel w) + pending w)%nat;
  readable w := readable (kernel w);
  writable w fd := writable (kernel w) fd ∧ undisturbed w;
}.

Lemma lift_ret {A} (call : ScriptedKernel → A * ScriptedKernel) w r w' :
  lift call w = (r, w') → call (kernel w) = (r, kernel w') ∧ target w' = target w ∧ seen w' = seen w ∧ signals w' = signals w.
Proof. unfold lift. destruct (call (kernel w)) as [r1 k]. by intros [= <- <-]. Qed.

(** A call behind which fewer signals are left, or as many. *)
Definition carried (w w' : network) : Prop :=
  target w' = target w ∧ seen w' = seen w ∧ (pending w' ≤ pending w)%nat.

Lemma lift_call_ret {A} (call : ScriptedKernel → A * ScriptedKernel) w r w' :
  lift call w = (r, w') → call (kernel w) = (r, kernel w') ∧ carried w w'.
Proof. intros (E & Ht & Hs & Hg)%lift_ret. split; [done|]. unfold carried, pending. by rewrite Hg. Qed.

Lemma signalled_ret {A} (failed : A) call w r w' :
  signalled failed call w = (r, w') →
  (r = failed ∧ kernel w' = set_k_errno EINTR (kernel w) ∧ carried w w' ∧ (pending w' < pending w)%nat) ∨
  (call (kernel w) = (r, kernel w') ∧ carried w w').
Proof.
  unfold signalled, carried, pending. destruct (signals w) as [|[] s] eqn:E.
  2: { intros [= <- <-]. left. cbn. rewrite E. cbn. split_and!; (done || lia). }
  all: intros (? & Ht & Hs & Hg)%lift_ret; right; rewrite Hg; cbn; rewrite E; by split_and!.
Qed.

Lemma undisturbed_carried w w' :
  carried w w' → (interrupts (kernel w') ≤ interrupts (kernel w))%nat → undisturbed w → undisturbed w'.
Proof.
  intros (Ht & Hs & _) Hi (? & ? & He). unfold undisturbed. rewrite Ht, Hs. split_and!; [done..|].
  cbn in Hi. rewrite He in Hi. destruct (k_script (kernel w')); [done|cbn in Hi; lia].
Qed.

(** What the laws say of the system below holds with the signals on top. *)
Lemma keeps_carried r w w' :
  carried w w' → keeps_fds r (kernel w) (kernel w') → keeps_fds r w w'.
Proof.
  intros (_ & _ & Hp) (Hf & Hi & Hl). split; [done|]. cbn [interrupts network_view] in *.
  split; [lia|]. intros Hr%Hl. lia.
Qed.

Lemma opens_carried r w w' :
  carried w w' → opens_fd r (kernel w) (kernel w') → opens_fd r w w'.
Proof.
  intros (_ & _ & Hp) (Hi & Hl & Hf). cbn [interrupts network_view] in *. split_and!; [|intros Hr%Hl|exact Hf]; cbn in *; lia.
Qed.

(** An interrupted call changes nothing. *)
Lemma keeps_interrupted r w w' :
  kernel w' = set_k_errno EINTR (kernel w) → (pending w' < pending w)%nat → keeps_fds r w w'.
Proof. intros Ek Hp. unfold keeps_fds. cbn [interrupts open_fds network_view]. rewrite Ek. split_and!; [done|cbn; lia..]. Qed.

Lemma interrupted_again w w' : kernel w' = set_k_errno EINTR (kernel w) → interrupted (-1) w' = true.
Proof. intros Ek. unfold interrupted. cbn [errno network_posix]. by rewrite Ek. Qed.

#[local] Instance network_laws : PosixLaws network.
Proof.
  split; cbn [sys_getaddrinfo sys_socket sys_connect sys_poll sys_getsockopt_error sys_setsockopt
    sys_fcntl sys_bind sys_listen sys_accept sys_shutdown sys_close sys_send sys_recv network_posix].
  - intros host port hints flags w r ais w' (E & Hc)%lift_call_ret. apply getaddrinfo_fds in E as [? ?].
    split; [done|]. destruct Hc as (_ & _ & ?). cbn in *. lia.
  - intros d t p w r w' (E & Hc)%lift_call_ret. apply socket_fds in E. by apply opens_carried.
  - intros fd a w r w' (E & Hc)%lift_call_ret. apply connect_fds in E as [? ?]. by split; [|apply keeps_carried].
  - intros fd ev ms w r rev w' [([= -> ->] & Ek & _ & Hp)|[E Hc]]%signalled_ret; [by apply keeps_interrupted|].
    apply poll_fds in E. by apply keeps_carried.
  - intros fd w r e w' (E & Hc)%lift_call_ret. apply getsockopt_fds in E. by apply keeps_carried.
  - intros fd o w r w' (E & Hc)%lift_call_ret. apply setsockopt_fds in E. by apply keeps_carried.
  - intros fd c w r w' (E & Hc)%lift_call_ret. apply fcntl_fds in E. by apply keeps_carried.
  - intros fd a w r w' (E & Hc)%lift_call_ret. apply bind_fds in E. by apply keeps_carried.
  - intros fd n w r w' (E & Hc)%lift_call_ret. apply listen_fds in E. by apply keeps_carried.
  - intros fd w r w' (E & Hc)%lift_call_ret. apply accept_fds in E. by apply opens_carried.
  - intros fd how w r w' (E & Hc)%lift_call_ret. apply shutdown_fds in E. by apply keeps_carried.
  - intros fd w r w' [(-> & Ek & _ & Hp)|[E Hc]]%signalled_ret.
    + pose proof (interrupted_again w w' Ek) as Hi. destruct (keeps_interrupted (-1) w w' Ek Hp) as (? & ? & ?).
      split_and!; [done|auto|by rewrite Hi].
    + apply close_fds in E as (? & Hi & Hn). destruct Hc as (_ & _ & Hp). cbn [interrupts network_view] in *.
      split_and!; [lia|intros Hr; destruct (Hi Hr) as [? ?]; split; [lia|done]|exact Hn].
  - intros fd d flags w r w' [(-> & Ek & _ & Hp)|[E Hc]]%signalled_ret; [by apply keeps_interrupted|].
    apply send_fds in E. by apply keeps_carried.
  - intros fd d flags w r w' [(-> & Ek & _ & Hp)|[E Hc]]%signalled_ret; [|by apply send_stream in E].
    cbn [inbound outbound network_view]. rewrite Ek, app_nil_r. split_and!; [|done..]. pose proof (zsize_nonneg d). lia.
  - intros fd d flags w r w' [Hw Hu] Hd [(-> & Ek & Hc & Hp)|[E Hc]]%signalled_ret.
    + split; [right; by eapply interrupted_again|]. split; [split|].
      * cbn [writable scripted_view]. by rewrite Ek.
      * apply (undisturbed_carried w w' Hc); [by rewrite Ek|done].
      * intros Hr. cbn [readable network_view] in *. by rewrite Ek.
    + pose proof E as (_ & ? & _)%send_fds. apply send_writable in E as (Hr & ? & ?); [|done..].
      split_and!; auto. split; [done|]. by eapply undisturbed_carried.
  - intros fd n w r bs w' [([= -> ->] & Ek & _ & Hp)|[E Hc]]%signalled_ret; [by apply keeps_interrupted|].
    apply recv_fds in E. by apply keeps_carried.
  - intros fd n w r bs w' Hn [([= -> ->] & Ek & _ & Hp)|[E Hc]]%signalled_ret; [|by apply recv_stream in E].
    cbn [inbound outbound network_view]. rewrite Ek. split_and!; [lia|done..].
  - intros fd n w r bs w' Hn Hr Hi [([= -> ->] & Ek & Hc & Hp)|[E Hc]]%signalled_ret.
    + split; [right; by eapply interrupted_again|]. split; [cbn [readable network_view] in *; by rewrite Ek|].
      intros [Hw Hu]. split; [cbn [writable scripted_view] in *; by rewrite Ek|].
      apply (undisturbed_carried w w' Hc); [by rewrite Ek|done].
    + pose proof E as (_ & ? & _)%recv_fds. apply recv_readable in E as (Hr' & ? & Hwr); [|done..].
      split_and!; [done|done|]. intros [? ?]. split; [by apply Hwr|]. by eapply undisturbed_carried.
  - intros fd ev ms w r rev w' [([= -> ->] & Ek & _ & Hp)|[E Hc]]%signalled_ret; [|by apply poll_stream in E].
    unfold keeps_streams. cbn [inbound outbound network_view]. by rewrite Ek.
Qed.
End laws.
