(* ===== verification/EndToEnd.v ===== *)
(** * The programs over the whole stack

    The TCP client node on the system of [Network] keeps the contract
    [MemoryClient]: every write and read of a program goes through the client's
    transaction table, the packet builder, the frames and the socket to the
    target's node, and back, while signals interrupt the calls.  So what [ToolsTheorems], [ExampleProgram] and
    [PythonTheorems] show of the programs holds of them
    as they are, without the contract. *)

From S2P Require Import Prelude PacketTypes PacketBuilder PacketParser PacketParserFacts PacketTheorems TcpBackend Posix TcpClient TcpClientTheorems Framing FramingFacts FramingTheorems Transactions TransactionSlots Node TcpNode NodeInterface NodeTheorems Exchange MemoryClient PythonBinding PythonTheorems Network CommandLine CommandLineTheorems Statistics Tools ToolsTheorems ExampleProgram.
#[local] Open Scope Z_scope.

Lemma two_readings {A} (l : list A) : (2 ≤ length l)%nat → ∃ x y t, l = x :: y :: t.
Proof. destruct l as [|x [|y t]]; cbn; [lia|lia|by exists x, y, t]. Qed.

Section stack.
Context {U : Type} (retries : nat) (alloc_limit : Z).
Context (retries_pos : (0 < retries)%nat) (alloc_range : 2 ^ 26 ≤ alloc_limit < 2 ^ 64).
#[local] Hint Extern 0 (TcpBackend (TCPClient.t network)) => exact (tcp_client_backend retries) : typeclass_instances.
#[local] Hint Extern 0 (NodeVirtuals (TCPClient.t network) _) => exact (tcp_client_virtuals retries) : typeclass_instances.
Abbreviation client := (SpwRmapTCPClient.t network U).
Implicit Types (n : client) (w : network).

Abbreviation poll_ := (poll (B := TCPClient.t network) (U := U) alloc_limit).

(** ** The target's turn *)

(** A target with its memory, between packets. *)
Definition target_ok (s : node MockBackend memory) : Prop :=
  (∃ b, tcp_backend_ (lnk s) = Some b ∧ incoming_bytes_ b = []) ∧ buffer_policy_ (lnk s) = AutoResize ∧
  on_write_callback_ s = Some store_memory ∧ on_read_callback_ s = Some load_memory.

(** The system behind a command: its frame is what the target has not got yet. *)
Definition commanded w (cmd : list Z) : Prop := drop (seen w) (k_out (kernel w)) = frame 0 0 0 cmd.

(** [w'] is [w] with the frame of [reply] on its way, and [m] in the target. *)
Definition replied w (reply : list Z) (m : memory) w' : Prop :=
  ∃ s, target_ok s ∧ user (txs s) = m ∧
    w' = mkNetwork (mkKernel (k_errno (kernel w)) (k_fds (kernel w)) (k_script (kernel w))
           (k_in (kernel w) ++ frame 0 0 0 reply) (k_out (kernel w)) (k_chunk (kernel w))
           (k_addresses (kernel w))) s (length (k_out (kernel w))) (signals w).

(** The packet arrives at the target. *)
Lemma target_turn_poll w cmd reply m :
  target_ok (target w) → commanded w cmd → cmd ≠ [] → zsize cmd ≤ 2 ^ 25 →
  (∀ b0 fuel, let s0 := set_lnk (set_tcp_backend_ (Some b0) (lnk (target w))) (target w) in
     wire_out b0 = [] → arriving alloc_limit fuel s0 b0 [] 0 0 cmd [] →
     ∃ s1, poll alloc_limit fuel s0 = Ret (Ok true, s1) ∧ answered s0 b0 [] reply m s1 ∧
       ∃ p, keeps p s0 s1) →
  ∃ w', target_turn alloc_limit w = Ret w' ∧ replied w reply m w'.
Proof.
  intros ((b & Hb & Hi) & Hpol & Hw & Hr) Hc Hne Hz Hpoll. unfold target_turn. rewrite Hb, Hi, Hc.
  cbv zeta. rewrite app_nil_l.
  set (b0 := mkMock _ _ _ _ _). set (fuel := S _).
  destruct (Hpoll b0 fuel) as (s1 & E & (Hu & b1 & Hb1 & Hi1 & Ho1 & _) & p & _ & Hp1 & Hw1 & Hr1 & _).
  - done.
  - split_and!; [done|done| |constructor|done|lia| |].
    + cbn. by rewrite app_nil_r.
    + cbn [room]. unfold buffer_cap. cbn [lnk set_lnk buffer_policy_ set_tcp_backend_]. rewrite Hpol. zs. lia.
    + unfold fuel, stream. cbn [fmap list_fmap mjoin list_join]. unfold zsize. cbn [length]. lia.
  - rewrite E, bind_ret, Hb1. eexists. split; [done|]. exists s1. split; [|split; [done|]].
    + split; [by exists b1|]. by rewrite Hp1, Hw1, Hr1.
    + do 2 f_equal. change (mjoin (sent_frames_ b1)) with (wire_out b1). by rewrite Ho1.
Qed.

Lemma target_stores w c :
  target_ok (target w) → commanded w (encode_write c) →
  write_config_wf c → is_path (WritePacketConfig.replyAddress c) →
  WritePacketBuilder.getTotalSize c ≤ 2 ^ 25 →
  ∃ w', target_turn alloc_limit w = Ret w' ∧
    replied w (encode_write_reply (write_reply_config (write_packet c)))
      (map_seqZ (WritePacketConfig.address c) (WritePacketConfig.data c) ∪ user (txs (target w))) w'.
Proof.
  intros Ht Hc Hwf Hp Hz. pose proof (zsize_encode_write c) as Hze.
  assert (Hpos : 0 < zsize (encode_write c)).
  { rewrite Hze. unfold WritePacketBuilder.getTotalSize. pose proof (zsize_nonneg (WritePacketConfig.data c)).
    pose proof (zsize_nonneg (WritePacketConfig.targetSpaceWireAddress c)).
    pose proof (zsize_nonneg (WritePacketConfig.replyAddress c)). lia. }
  apply (target_turn_poll w (encode_write c)); [done|done|by intros E; rewrite E in Hpos|lia|].
  intros b0 fuel s0 Ho Harr. edestruct (server_writes (B' := MockBackend) alloc_limit ltac:(lia) c fuel s0 b0
    [] 0 0 (encode_write c) []) as (s1 & E & Ha & Hk); [done|done|unfold INT_MAX; lia|done|done|done| | |].
  - destruct Ht as (_ & _ & Hw & _). change (on_write_callback_ s0) with (on_write_callback_ (target w)).
    rewrite Hw. reflexivity.
  - destruct Ht as (_ & Hpol & _). change (buffer_policy_ (lnk s0)) with (buffer_policy_ (lnk (target w))).
    rewrite Hpol, zsize_encode_write_reply. unfold WriteReplyPacketBuilder.getTotalSize, buffer_cap. cbn.
    pose proof (zsize_strip_zeros (WritePacketConfig.replyAddress c)). destruct Hwf as (_ & _ & _ & ? & _). lia.
  - exists s1. split; [done|]. split; [done|]. by eexists.
Qed.

Lemma target_loads w c bs :
  target_ok (target w) → commanded w (encode_read c) →
  read_config_wf c → is_path (ReadPacketConfig.replyAddress c) →
  ReadPacketBuilder.getTotalSize c ≤ 2 ^ 25 →
  ReadPacketConfig.dataLength c = zsize bs → zsize bs < 2 ^ 24 →
  map_seqZ (ReadPacketConfig.address c) bs ⊆ user (txs (target w)) →
  ∃ w', target_turn alloc_limit w = Ret w' ∧
    replied w (encode_read_reply (read_reply_config (read_packet c) bs)) (user (txs (target w))) w'.
Proof.
  intros Ht Hc Hwf Hp Hz Hl Hbs Hm. pose proof (zsize_encode_read c) as Hze.
  assert (Hpos : 0 < zsize (encode_read c)).
  { rewrite Hze. unfold ReadPacketBuilder.getTotalSize.
    pose proof (zsize_nonneg (ReadPacketConfig.targetSpaceWireAddress c)).
    pose proof (zsize_nonneg (ReadPacketConfig.replyAddress c)). lia. }
  apply (target_turn_poll w (encode_read c)); [done|done|by intros E; rewrite E in Hpos|lia|].
  intros b0 fuel s0 Ho Harr.
  assert (Hr : zsize (encode_read_reply (read_reply_config (read_packet c) bs)) ≤ 2 ^ 25).
  { rewrite zsize_encode_read_reply. unfold ReadReplyPacketBuilder.getTotalSize. cbn.
    pose proof (zsize_strip_zeros (ReadPacketConfig.replyAddress c)). destruct Hwf as (_ & _ & _ & ? & _). lia. }
  edestruct (server_reads (B' := MockBackend) alloc_limit ltac:(lia) c fuel s0 b0
    [] 0 0 (encode_read c) [] bs (user (txs (target w)))) as (s1 & E & Ha & Hk);
    [done|done|unfold INT_MAX; lia|done|done|done| |unfold INT_MAX; lia| |].
  - destruct Ht as (_ & _ & _ & Hr'). change (on_read_callback_ s0) with (on_read_callback_ (target w)).
    rewrite Hr'. unfold load_memory. cbn. rewrite Hl, Z.mod_small by (pose proof (zsize_nonneg bs); lia).
    by rewrite load_stored.
  - destruct Ht as (_ & Hpol & _). change (buffer_policy_ (lnk s0)) with (buffer_policy_ (lnk (target w))).
    rewrite Hpol. unfold buffer_cap. lia.
  - exists s1. split; [done|]. split; [done|]. by eexists.
Qed.

(** ** The client *)

(** The parts of the client that every operation leaves as they are. *)
Definition client_ok n : Prop :=
  node_wf 0x20 0x40 n ∧ (∃ i, rd (available_transaction_ids_ (txs n)) i = Ret true) ∧
  buffer_policy_ (lnk n) = AutoResize ∧ 4096 ≤ zsize (send_buf_ (lnk n)).

(** Calls move at least a byte, and none fails. *)
Definition reliable (k : ScriptedKernel) : Prop := k_script k = [] ∧ (0 < k_chunk k)%nat.

(** ... unless a signal interrupts it, and the signals leave a round of every
    repeated call. *)
Definition running w : Prop := reliable (kernel w) ∧ (pending w < retries)%nat.

(** The connection carries nothing. *)
Definition quiet w : Prop :=
  target_ok (target w) ∧ running w ∧ k_in (kernel w) = [] ∧ seen w = length (k_out (kernel w)).

Lemma running_interrupts w :
  running w → k_only_interrupts (kernel w) ∧ (length (k_script (kernel w)) + pending w < retries)%nat.
Proof. intros [[E Hc] Hp]. unfold k_only_interrupts. rewrite E. by split_and!. Qed.

Lemma still_running w :
  k_script (kernel w) = [] → (0 < k_chunk (kernel w))%nat → (length (k_script (kernel w)) + pending w < retries)%nat →
  running w.
Proof. intros He Hc Hp. split; [by split|lia]. Qed.

Definition ready_on n (b : TCPClient.t network) : Prop :=
  client_ok n ∧ tcp_backend_ (lnk n) = Some b ∧ 0 ≤ TCPClient.fd_ b ∧ quiet (TCPClient.os b) ∧
  byte (initiator_logical_address_ (lnk n)).

Definition stack_content n : memory :=
  match tcp_backend_ (lnk n) with Some b => user (txs (target (TCPClient.os b))) | None => ∅ end.

(** The two paths are path addresses of at most 1024 and 12 bytes, the logical
    address is one. *)
Definition stack_reachable (t : TargetNodeBase) : Prop :=
  is_path (getTargetSpaceWireAddress t) ∧ zsize (getTargetSpaceWireAddress t) ≤ 1024 ∧
  is_path (getReplyAddress t) ∧ zsize (getReplyAddress t) ≤ 12 ∧ logical_byte (getTargetLogicalAddress t).

(** The system as a backend while the target is undisturbed. *)
Abbreviation laws_ w :=
  (@tcp_client_laws network network_posix (network_view (target w) (seen w)) (network_laws (target w) (seen w)) retries).

Lemma ready_accepting n b : ready_on n b → @accepting _ _ (laws_ (TCPClient.os b)) b.
Proof.
  intros (_ & _ & Hfd & (_ & Hk & _) & _). destruct (running_interrupts _ Hk). split_and!; [done| |done].
  split; [done|]. split_and!; [done|done|apply Hk].
Qed.

(** A command has been sent: the target is as it was and has not got it. *)
Lemma sent_commanded n b cmd l' :
  ready_on n b → @sent_frame _ _ (laws_ (TCPClient.os b)) cmd b (lnk n) l' →
  ∃ b', tcp_backend_ l' = Some b' ∧ 0 ≤ TCPClient.fd_ b' ∧ commanded (TCPClient.os b') cmd ∧
    target (TCPClient.os b') = target (TCPClient.os b) ∧ k_in (kernel (TCPClient.os b')) = [] ∧
    running (TCPClient.os b') ∧ buffer_policy_ l' = AutoResize ∧ 4096 ≤ zsize (send_buf_ l') ∧ byte (initiator_logical_address_ l').
Proof.
  intros (Hok & Hb & Hfd & (Ht & Hk & Hin & Hseen) & Hini)
    (b' & Hb' & Ho & Hi & (Hfd' & [[Hw' _] (Ht' & Hs' & He)] & Hint') & _ & Hz & El).
  destruct Hok as (_ & _ & Hpol & Hsz). cbn in Ho, Hi, Hw', Hint'.
  exists b'. rewrite El. cbn. unfold commanded. rewrite Hs', Hseen, Ho, drop_app_length.
  split_and!; [exact eq_refl|exact Hfd'|exact eq_refl|exact Ht'|by rewrite Hi| |exact Hpol| |exact Hini].
  { by apply still_running. }
  by transitivity (zsize (send_buf_ (lnk n))).
Qed.

Lemma handle_reply_link q n r n' :
  type q = ReadReply ∨ type q = WriteReply → handle_packet alloc_limit q n = Ret (r, n') →
  lnk n' = lnk n ∧ on_write_callback_ n' = on_write_callback_ n.
Proof.
  unfold handle_packet. intros [-> | ->] E; apply bind_Ret in E as ([[] t] & _ & E); by injection E as <- <-.
Qed.

(** The reply comes: the operation's promise gets its value, and the client is
    ready again. *)
Lemma serve_completes n1 b1 op f tid w2 q m r u' :
  waiting 0x20 0x40 n1 op f → transaction_id op = Some tid → transactionID q = tid →
  type q = ReadReply ∨ type q = WriteReply → packet_wf q → 0 < zsize (wire 0 q) ≤ 2 ^ 25 →
  node_wf 0x20 0x40 n1 → tcp_backend_ (lnk n1) = Some b1 → 0 ≤ TCPClient.fd_ b1 →
  k_in (kernel (TCPClient.os b1)) = [] → running (TCPClient.os b1) → buffer_policy_ (lnk n1) = AutoResize →
  4096 ≤ zsize (send_buf_ (lnk n1)) → byte (initiator_logical_address_ (lnk n1)) →
  target_turn alloc_limit (TCPClient.os b1) = Ret w2 → replied (TCPClient.os b1) (wire 0 q) m w2 →
  f (received (packet_parser_ (lnk n1)) q) (user (txs n1)) = Ret (r, u') →
  ∃ n3 b3, serve retries alloc_limit n1 = Ret n3 ∧
    promises (txs n3) !! future op = Some (Some (completion r)) ∧ user (txs n3) = u' ∧
    ready_on n3 b3 ∧ user (txs (target (TCPClient.os b3))) = m.
Proof.
  intros Hwait Hop Hid Hty Hq Hz Hwf Hb Hfd Hin Hk Hpol Hsz Hini Hturn (s & Hs & Hm & Ew) Hf.
  unfold serve. unfold getBackend_. rewrite Hb, Hturn, bind_ret.
  set (b2 := TCPClient.set_os w2 b1). set (n2 := set_backend (Some b2) n1).
  assert (Hw2 : k_in (kernel w2) = frame 0 0 0 (wire 0 q)) by (rewrite Ew; cbn; by rewrite Hin).
  assert (Hk2 : running w2) by (by rewrite Ew).
  destruct (running_interrupts _ Hk2) as [Hio2 Hint2].
  destruct (@poll_receives _ U _ (laws_ w2) (tcp_client_virtuals retries) alloc_limit ltac:(lia)
    (S (length (k_in (kernel w2)))) n2 b2 [] 0 0 (wire 0 q) [] 0 q) as (n3 & Hr & E); [|done|done|done|lia|].
  { split_and!; [exact eq_refl|exact (conj Hio2 Hint2)|cbn; by rewrite Hw2, app_nil_r|by apply Forall_nil|intros E; rewrite E in Hz; by destruct Hz|lia| |].
    - cbn [room]. unfold buffer_cap. change (buffer_policy_ (lnk n2)) with (buffer_policy_ (lnk n1)). rewrite Hpol. zs. lia.
    - rewrite Hw2. unfold stream. cbn [fmap list_fmap mjoin list_join]. unfold zsize. cbn [length]. lia. }
  change (packet_parser_ (lnk n2)) with (packet_parser_ (lnk n1)) in *.
  set (q' := received (packet_parser_ (lnk n1)) q) in *.
  assert (Hty' : type q' = ReadReply ∨ type q' = WriteReply)
    by (subst q'; unfold received; by destruct Hty as [Et|Et]; rewrite Et; [left|right]).
  destruct (reply_completes_op alloc_limit 0x20 0x40 n1 n3 op f tid q' r u') as (n4 & E4 & Hp & Hav & Hu); try done.
  { subst q'. by destruct Hty as [Et|Et]; unfold received; rewrite Et. }
  { by destruct Hr as (? & ? & -> & _). }
  rewrite E, E4, bind_ret.
  assert (Hwf4 : node_wf 0x20 0x40 n4).
  { apply (node_step_wf alloc_limit 0x20 0x40 n3); [|by eapply step_packet].
    destruct Hr as (? & ? & -> & _). apply (node_step_wf alloc_limit 0x20 0x40 n2); [|apply step_link].
    apply (node_step_wf alloc_limit 0x20 0x40 n1); [done|apply step_link]. }
  destruct Hr as (b3 & buf & -> & Hi3 & Ho3 & [Hk3 Hint3] & Ha3).
  destruct Ha3 as (Hfd3 & [[Hc3 _] (Ht3 & Hs3 & He3)] & _); [split_and!; [done| |done]|].
  { split; [done|]. split_and!; [done|done|apply Hk2]. }
  destruct (handle_reply_link q' _ _ _ Hty' E4) as (El & _).
  exists n4, b3. split; [done|]. split; [done|]. split; [done|]. rewrite Ht3, Ew. split; [|done].
  cbn in Hi3, Ho3. unfold ready_on, client_ok, quiet. rewrite El. cbn.
  assert (Hs3' : seen (TCPClient.os b3) = length (k_out (kernel (TCPClient.os b3)))) by by rewrite Hs3, Ho3, Ew.
  rewrite Ht3. assert (Ht2 : target_ok (target w2)) by by rewrite Ew.
  split_and!; try done; [by eexists|by apply still_running].
Qed.

(** ** Whole operations *)

(** An operation [start] that sends [command] for its ID and gets the reply
    [q]: from the start to the end of the wait. *)
Definition operates n start (f : user_function U) (m : memory) (packet : Packet) : Prop :=
  ∀ r u, f packet (user (txs n)) = Ret (r, u) →
  ∃ op n1 n3 b3, start n = Ret (op, n1) ∧ serve retries alloc_limit n1 = Ret n3 ∧
    promises (txs n3) !! future op = Some (Some (completion r)) ∧ user (txs n3) = u ∧
    ready_on n3 b3 ∧ user (txs (target (TCPClient.os b3))) = m.

Lemma operation_round n b now now' clock send f (command : Z → list Z) (q : Z → Packet) m :
  ready_on n b →
  (∀ tid, 0x20 ≤ tid < 0x40 → ∃ l, send tid (lnk n) = Ret (Ok tt, l) ∧
     @sent_frame _ _ (laws_ (TCPClient.os b)) (command tid) b (lnk n) l) →
  (∀ tid, 0x20 ≤ tid < 0x40 → transactionID (q tid) = tid ∧ (type (q tid) = ReadReply ∨ type (q tid) = WriteReply) ∧
     packet_wf (q tid) ∧ 0 < zsize (wire 0 (q tid)) ≤ 2 ^ 25 ∧
     ∀ w, target w = target (TCPClient.os b) → commanded w (command tid) →
       ∃ w', target_turn alloc_limit w = Ret w' ∧ replied w (wire 0 (q tid)) m w') →
  ∃ tid, 0x20 ≤ tid < 0x40 ∧
    operates n (start_async (now :: now' :: clock) send f) f m (received (packet_parser_ (lnk n)) (q tid)).
Proof.
  intros Hready Hsend Hq. pose proof Hready as ((Hwf & (i & Hav) & _) & _).
  destruct (start_waits 0x20 0x40 n now now' clock send f i
    (λ tid l, @sent_frame _ _ (laws_ (TCPClient.os b)) (command tid) b (lnk n) l))
    as (op & n1 & tid & E & Hop & Hwait & Hu & Hsent); [done|done|done|].
  pose proof (waiting_range _ _ _ _ _ _ Hwait Hop) as (_ & Hr & _). exists tid. split; [done|].
  intros r u Hf. pose proof Hsent as Hsent'.
  destruct (sent_commanded n b _ _ Hready Hsent) as (b1 & Hb1 & Hfd & Hc & Ht & Hin & Hk & Hpol & Hsz & Hini).
  destruct (Hq tid Hr) as (Hid & Hty & Hqwf & Hz & Hturn). destruct (Hturn _ Ht Hc) as (w2 & Hw2 & Hrep).
  destruct Hsent' as (? & _ & _ & _ & _ & _ & _ & El).
  assert (Hpp : packet_parser_ (lnk n1) = packet_parser_ (lnk n)) by by rewrite El.
  assert (Hwf1 : node_wf 0x20 0x40 n1) by by eapply (node_step_wf alloc_limit); [|by eapply step_start].
  destruct (serve_completes n1 b1 op f tid w2 (q tid) m r u) as (n3 & b3 & ? & ? & ? & ? & ?);
    try done; [by rewrite Hpp, Hu|].
  by exists op, n1, n3, b3.
Qed.

Lemma reachable_size t :
  stack_reachable t → 0 ≤ read_size t ≤ 1100.
Proof.
  intros (_ & ? & _ & ? & _). unfold read_size.
  pose proof (zsize_nonneg (getTargetSpaceWireAddress t)). pose proof (zsize_nonneg (getReplyAddress t)).
  pose proof (Z.div_mod (zsize (getReplyAddress t) + 3) 4). pose proof (Z.mod_pos_bound (zsize (getReplyAddress t) + 3) 4). lia.
Qed.

Lemma path_bytes l : is_path l → bytes l.
Proof. intros Hl. eapply Forall_impl; [exact Hl|]. unfold path_byte, byte. lia. Qed.

Lemma stack_write n b now now' clock t a bs f :
  ready_on n b → stack_reachable t → bytes bs → zsize bs < 2 ^ 24 → 0 ≤ a < 2 ^ 32 →
  ∃ packet, operates n (startWriteAsyncOperation_ alloc_limit (now :: now' :: clock) t a bs f) f
    (map_seqZ a bs ∪ user (txs (target (TCPClient.os b)))) packet.
Proof.
  intros Hready Ht Hbs Hz Ha. pose proof Hready as ((_ & _ & Hpol & Hsz) & Hb & Hfd & (Hok & Hk & Hin & Hseen) & Hini).
  pose proof (reachable_size t Ht) as Hrs. destruct Ht as (Htp & Htz & Hrp & Hrz & Hla).
  set (c tid := write_config t tid a bs (lnk n)). set (q tid := write_reply_packet (write_reply_config (write_packet (c tid)))).
  assert (Hc : ∀ tid, 0x20 ≤ tid < 0x40 → write_config_wf (c tid)).
  { intros tid Htid. unfold write_config_wf. cbn. split_and!; try done; try lia. by apply path_bytes. }
  pose proof (zsize_nonneg bs).
  destruct (operation_round n b now now' clock (λ tid, sendWritePacket_ alloc_limit t tid a bs) f
    (λ tid, encode_write (c tid)) q (map_seqZ a bs ∪ user (txs (target (TCPClient.os b))))) as (tid & _ & Hop);
    [done| | |by eexists].
  - intros tid Htid. apply sendWritePacket_sent; [done|by eapply ready_accepting|done| |].
    + unfold write_size, INT_MAX. lia.
    + unfold write_size, buffer_cap. rewrite Hpol. lia.
  - intros tid Htid. split; [done|]. split; [by right|].
    assert (Hw : zsize (wire 0 (q tid)) = WriteReplyPacketBuilder.getTotalSize (write_reply_config (write_packet (c tid)))).
    { unfold q. by rewrite <-write_reply_packet_wire, zsize_encode_write_reply. }
    pose proof (zsize_strip_zeros (getReplyAddress t)).
    pose proof (zsize_nonneg (strip_zeros (getReplyAddress t))).
    split; [apply write_reply_packet_wf, write_reply_config_ok; [by apply Hc|done]|].
    split; [rewrite Hw; unfold WriteReplyPacketBuilder.getTotalSize; cbn; lia|].
    intros w Hw' Hcm. destruct (target_stores w (c tid)) as (w' & E & Hrep); [by rewrite Hw'|done|by apply Hc|done| |].
    { unfold c. rewrite size_write_config. unfold write_size. lia. }
    exists w'. split; [done|]. rewrite Hw' in Hrep. unfold q. by rewrite <-write_reply_packet_wire.
Qed.

Lemma stack_read n b now now' clock t a bs f :
  ready_on n b → stack_reachable t → map_seqZ a bs ⊆ user (txs (target (TCPClient.os b))) →
  bytes bs → zsize bs < 2 ^ 24 → 0 ≤ a < 2 ^ 32 →
  ∃ packet, data packet = bs ∧
    operates n (startReadAsyncOperation_ alloc_limit (now :: now' :: clock) t a (zsize bs) f) f
      (user (txs (target (TCPClient.os b)))) packet.
Proof.
  intros Hready Ht Hm Hbs Hz Ha. pose proof Hready as ((_ & _ & Hpol & Hsz) & Hb & Hfd & (Hok & Hk & Hin & Hseen) & Hini).
  pose proof (reachable_size t Ht) as Hrs. destruct Ht as (Htp & Htz & Hrp & Hrz & Hla).
  set (c tid := read_config t tid a (zsize bs) (lnk n)). set (q tid := read_reply_packet (read_reply_config (read_packet (c tid)) bs)).
  assert (Hc : ∀ tid, 0x20 ≤ tid < 0x40 → read_config_wf (c tid)).
  { intros tid Htid. unfold read_config_wf. cbn. split_and!; try done; try lia. by apply path_bytes. }
  pose proof (zsize_nonneg bs).
  destruct (operation_round n b now now' clock (λ tid, sendReadPacket_ alloc_limit t tid a (zsize bs)) f
    (λ tid, encode_read (c tid)) q (user (txs (target (TCPClient.os b))))) as (tid & _ & Hop);
    [done| | |eexists; by split; [|exact Hop]].
  - intros tid Htid. apply sendReadPacket_sent; [done|by eapply ready_accepting|done| |].
    + unfold INT_MAX. lia.
    + lia.
  - intros tid Htid. split; [done|]. split; [by left|].
    assert (Hw : zsize (wire 0 (q tid)) = ReadReplyPacketBuilder.getTotalSize (read_reply_config (read_packet (c tid)) bs)).
    { unfold q. by rewrite <-read_reply_packet_wire, zsize_encode_read_reply. }
    pose proof (zsize_strip_zeros (getReplyAddress t)). pose proof (zsize_nonneg (strip_zeros (getReplyAddress t))).
    split; [apply read_reply_packet_wf, read_reply_config_ok; [by apply Hc|done..]|].
    split; [rewrite Hw; unfold ReadReplyPacketBuilder.getTotalSize; cbn; lia|].
    intros w Hw' Hcm. destruct (target_loads w (c tid) bs) as (w' & E & Hrep);
      [by rewrite Hw'|done|by apply Hc|done| |done|done|by rewrite Hw'|].
    { unfold c. rewrite size_read_config. lia. }
    exists w'. split; [done|]. rewrite Hw' in Hrep. unfold q. by rewrite <-read_reply_packet_wire.
Qed.

(** ** The contract *)

#[local] Hint Extern 0 (SpwRmapNodeBase (node (TCPClient.t network) _) _) => exact (tcp_node_base alloc_limit) : typeclass_instances.

(** The waits in which the target answers: the clock of each attempt has its
    two readings. *)
Definition stack_serves (ws : waits client) : Prop :=
  (∀ k, 2 ≤ length (clock_of ws k))%nat ∧ ∀ k n, during ws k n = serve retries alloc_limit n.

(** A client whose descriptor is not open yet, on a system without failures
    where the name has an address. *)
Definition stack_fresh n : Prop :=
  client_ok n ∧ byte (initiator_logical_address_ (lnk n)) ∧ 0 ≤ send_timeout_ n ∧ ∃ b, tcp_backend_ (lnk n) = Some b ∧ TCPClient.fd_ b < 0 ∧
    k_addresses (kernel (TCPClient.os b)) ≠ [] ∧ quiet (TCPClient.os b).

(** One attempt is enough. *)
Lemma attempts_once n ws start f m packet r u count :
  stack_serves ws → operates n (start (clock_of ws 0%nat)) f m packet → f packet (user (txs n)) = Ret (r, u) →
  ∃ n3 b3, attempts (S count) 0 (clock_of ws) (during ws) start n = Ret (completion r, n3) ∧
    user (txs n3) = u ∧ ready_on n3 b3 ∧ user (txs (target (TCPClient.os b3))) = m.
Proof.
  intros [_ Hw] Hop Hf. destruct (Hop r u Hf) as (op & n1 & n3 & b3 & E1 & E3 & Hp & Hu & Hr & Hm).
  exists n3, b3. split; [|done]. cbn [attempts]. rewrite E1, bind_ret. rewrite Hw, E3, bind_ret. by rewrite Hp.
Qed.

Lemma lift_call {A} (call : ScriptedKernel → A * ScriptedKernel) w r k :
  call (kernel w) = (r, k) → lift call w = (r, set_kernel k w).
Proof. intros E. unfold lift. by rewrite E. Qed.

(** The calls of a system whose script is empty succeed. *)
Lemma next_empty k : k_script k = [] → k_next k = (true, k).
Proof. intros E. unfold k_next. by rewrite E. Qed.
Lemma call_empty r k : k_script k = [] → k_call r k = (r, k).
Proof. intros E. unfold k_call. by rewrite next_empty. Qed.
Lemma open_empty k : k_script k = [] → k_open k = (k_fresh k, k_set_fds (k_fresh k :: k_fds k) k).
Proof. intros E. unfold k_open. by rewrite next_empty. Qed.

Lemma set_kernel_id w : set_kernel (kernel w) w = w.
Proof. by destruct w. Qed.
Lemma lift_call_empty r w : k_script (kernel w) = [] → lift (k_call r) w = (r, w).
Proof. intros E. rewrite (lift_call _ _ r (kernel w)); [by rewrite set_kernel_id|by apply call_empty]. Qed.

Lemma retry_once {A} fuel result (call : network → A * network) w r w' :
  (0 < fuel)%nat → call w = (r, w') → 0 ≤ result r → retry fuel result call w = Ret (r, w').
Proof.
  intros Hf E Hr. destruct fuel as [|fuel]; [lia|]. cbn [retry]. rewrite E. unfold interrupted.
  by destruct (Z.ltb_spec (result r) 0); [lia|].
Qed.

Lemma timeout_connects fd addr timeout w :
  k_script (kernel w) = [] → 0 ≤ timeout →
  TCPClient.connect_with_timeout_ retries fd addr timeout w = Ret (Ok tt, w).
Proof.
  intros Hs Ht. unfold TCPClient.connect_with_timeout_. rewrite (proj2 (Z.ltb_ge _ _)) by done.
  cbn [sys_fcntl network_posix scripted_posix]. rewrite lift_call_empty by done.
  change (Z.land 2 O_NONBLOCK =? 0) with true. cbn iota beta. rewrite !lift_call_empty by done.
  cbn [Z.ltb]. change (2 <? 0) with false. change (0 <? 0) with false. cbn iota.
  unfold TCPClient.connect_nonblocking. cbn [sys_connect network_posix scripted_posix].
  rewrite (retry_once _ _ _ w 0 w); [|done|by apply lift_call_empty|done].
  rewrite bind_ret. change (0 =? 0) with true. cbn iota. rewrite bind_ret. by rewrite lift_call_empty.
Qed.

Lemma sockopts_set fd w :
  k_script (kernel w) = [] → TCPClient.set_sockopts fd w = (Ok tt, w).
Proof.
  intros Hs. unfold TCPClient.set_sockopts. cbn [sys_setsockopt sys_fcntl network_posix scripted_posix].
  by rewrite !lift_call_empty.
Qed.

(** [close], repeated while signals interrupt it. *)
Lemma close_retries rounds fd w :
  k_script (kernel w) = [] → (pending w < rounds)%nat →
  ∃ k s, retry rounds id (sys_close fd) w = Ret (0, mkNetwork (k_set_fds (filter (λ x, x ≠ fd) (k_fds (kernel w))) k) (target w) (seen w) s) ∧
    (∃ e, k = set_k_errno e (kernel w)) ∧ (length (List.filter id s) ≤ pending w)%nat.
Proof.
  revert w. induction rounds as [|rounds IH]; intros w Hs Hp; [lia|]. cbn [retry].
  cbn [sys_close network_posix]. unfold signalled. destruct (signals w) as [|[] s] eqn:Eg.
  2: { set (w1 := set_kernel _ (next_signal w)). change (interrupted (id (-1)) w1) with true. cbn iota.
    assert (Hp1 : (pending w1 < pending w)%nat) by (unfold pending; cbn; rewrite Eg; cbn; lia).
    destruct (IH w1 Hs ltac:(lia)) as (k & s' & E & (e & ->) & Hl). eexists _, s'. split; [exact E|].
    split; [by eexists|lia]. }
  all: unfold lift; cbn [sys_close scripted_posix kernel next_signal];
    rewrite next_empty by done; eexists (kernel w), (tail (signals w)); split; [done|];
    (split; [exists (k_errno (kernel w)); by destruct (kernel w)|unfold pending; rewrite Eg; cbn; lia]).
Qed.

Lemma tcp_connects timeout (b : TCPClient.t network) :
  TCPClient.fd_ b < 0 → 0 ≤ timeout → k_script (kernel (TCPClient.os b)) = [] →
  k_addresses (kernel (TCPClient.os b)) ≠ [] →
  ∃ fd, 0 ≤ fd ∧ TCPClient.connect retries timeout b =
  Ret (Ok tt, TCPClient.set_fd_ fd (TCPClient.set_os
    (set_kernel (k_set_fds (fd :: k_fds (kernel (TCPClient.os b))) (kernel (TCPClient.os b))) (TCPClient.os b)) b)).
Proof.
  intros Hfd Ht Hs Ha. unfold TCPClient.connect. destruct (Z.leb_spec 0 (TCPClient.fd_ b)); [lia|].
  set (fd := k_fresh (kernel (TCPClient.os b))). pose proof (k_fresh_pos (kernel (TCPClient.os b)) : 0 ≤ fd) as Hpos.
  exists fd. split; [done|].
  cbn [sys_getaddrinfo network_posix scripted_posix].
  rewrite (lift_call _ _ (0, k_addresses (kernel (TCPClient.os b))) (kernel (TCPClient.os b))) by (by rewrite call_empty).
  rewrite set_kernel_id. cbn [Z.eqb negb]. destruct (k_addresses (kernel (TCPClient.os b))) as [|ai ais] eqn:Ek; [done|].
  cbn [TCPClient.connect_loop sys_socket network_posix scripted_posix TCPClient.os TCPClient.set_os].
  rewrite (lift_call _ _ _ _ (open_empty _ Hs)). fold fd. rewrite (proj2 (Z.ltb_ge _ _)) by done.
  rewrite sockopts_set by done. rewrite timeout_connects by done. rewrite !bind_ret.
  cbn [TCPClient.fd_ TCPClient.set_fd_ TCPClient.set_os]. by rewrite (proj2 (Z.ltb_ge _ _)) by done.
Qed.

Lemma stack_connect timeout n :
  stack_fresh n → 0 ≤ timeout →
  ∃ n' b', SpwRmapTCPClient.connect retries timeout n =
    Ret (Ok tt, n') ∧ ready_on n' b' ∧ user (txs n') = user (txs n) ∧ stack_content n' = stack_content n.
Proof.
  intros (Hok & Hini & Hst & b & Hb & Hfd & Ha & Hq) Ht. pose proof Hq as (_ & [[Hs _] _] & _). unfold SpwRmapTCPClient.connect, getBackend_, stack_content.
  rewrite Hb. destruct (tcp_connects timeout b) as (fd & Hfd' & ->); [done..|]. rewrite bind_ret.
  set (b' := TCPClient.set_fd_ _ _). cbn [send_timeout_ set_shutdowned_].
  assert (E : TCPClient.setSendTimeout (send_timeout_ n) b' = Ret (Ok tt, b')).
  { unfold TCPClient.setSendTimeout. rewrite (proj2 (Z.ltb_ge _ _)) by done.
    cbn [sys_setsockopt network_posix scripted_posix]. by rewrite lift_call_empty. }
  rewrite E, bind_ret. eexists _, b'. split; [done|]. split; [|by split].
  destruct Hok as (Hwf & Hav & Hpol & Hsz). split; [|split; [done|split; [done|split; [|done]]]].
  - split; [|done]. destruct Hwf as (to & S & ps & u & E' & Hwf). by exists to, S, ps, u.
  - destruct Hq as (Htg & Hk & Hin & Hseen). by split_and!.
Qed.

(** Behind [shutdown] the loop ends with success. *)
Lemma stack_shutdown fuel n b :
  ready_on n b →
  ∃ n1 n2 w, SpwRmapTCPClient.shutdown_os retries n = Ret (Ok tt, n1, Some w) ∧
    quiet w ∧ target w = target (TCPClient.os b) ∧
    runLoop alloc_limit (S (S fuel)) n1 = Ret (Ok tt, n2).
Proof.
  intros (_ & Hb & Hfd & (Ht & [[Hs Hc] Hp] & Hin & Hseen) & _). unfold SpwRmapTCPClient.shutdown_os, getBackend_. rewrite Hb.
  unfold TCPClient.shutdown. rewrite (proj2 (Z.ltb_ge _ _)) by done.
  cbn [sys_shutdown network_posix scripted_posix]. rewrite lift_call_empty by done.
  change (0 <? 0) with false. cbn iota beta zeta. rewrite bind_ret.
  unfold TCPClient.disconnect, TCPClient.close_retry_. cbn [TCPClient.fd_ TCPClient.set_os].
  rewrite (proj2 (Z.leb_le _ _)) by done.
  destruct (close_retries retries (TCPClient.fd_ b) (TCPClient.os b)) as (k & s & E & (e & ->) & Hl); [done|done|].
  cbn [TCPClient.os TCPClient.set_os]. rewrite E, !bind_ret. eexists _, _, _. split; [done|]. split; [|done]. split; [done|]. split; [|done]. split; [done|].
  by eapply Nat.le_lt_trans.
Qed.

Lemma set_user_ready u n b : ready_on n b → ready_on (set_txs (set_user u (txs n)) n) b.
Proof.
  intros ((Hwf & Hav & Hpol & Hsz) & Hb & H). split; [|done].
  split; [by apply (set_user_wf 0x20 0x40 n u (lnk n)) in Hwf|done].
Qed.
End stack.

Section instance_.
Context {U : Type} (retries fuel : nat) (alloc_limit : Z).
Context (retries_pos : (0 < retries)%nat) (alloc_range : 2 ^ 26 ≤ alloc_limit < 2 ^ 64).
#[local] Hint Extern 0 (TcpBackend (TCPClient.t network)) => exact (tcp_client_backend retries) : typeclass_instances.
#[local] Hint Extern 0 (NodeVirtuals (TCPClient.t network) _) => exact (tcp_client_virtuals retries) : typeclass_instances.
Abbreviation client := (SpwRmapTCPClient.t network U).
Abbreviation base := (tcp_node_base (B := TCPClient.t network) (U := U) alloc_limit).
Abbreviation the_client := (tcp_client_node (W := network) (U := U) retries alloc_limit).
Implicit Types (n : client).

Definition stack_ready n : Prop := ∃ b, ready_on retries n b.

Lemma ready_content n b : ready_on retries n b → stack_content n = user (txs (target (TCPClient.os b))).
Proof. intros (_ & Hb & _). unfold stack_content. by rewrite Hb. Qed.

(** The blocking operations, and the asynchronous ones with the wait. *)
Lemma blocking_write (ws : waits client) t a bs n :
  stack_ready n → stack_serves retries alloc_limit ws → stack_reachable t →
  bytes bs → 0 < zsize bs < 2 ^ 24 → 0 ≤ a → a + zsize bs ≤ 2 ^ 32 →
  ∃ n', @nb_write _ _ base ws t a bs default_retry_count n = Ret (Ok tt, n') ∧
    stack_ready n' ∧ user (txs n') = user (txs n) ∧ stack_content n' = map_seqZ a bs ∪ stack_content n.
Proof.
  intros [b Hr] Hw Ht Hbs Hz Ha1 Ha2. destruct (two_readings _ (proj1 Hw 0%nat)) as (x & y & l & El).
  destruct (stack_write retries alloc_limit retries_pos alloc_range n b x y l t a bs
    (λ _ u, Ret (Returned tt, u)) Hr Ht Hbs) as (packet & Hop); [lia|lia|].
  edestruct (attempts_once retries alloc_limit n ws (λ clock, startWriteAsyncOperation_ alloc_limit clock t a bs
    (λ _ u, Ret (Returned tt, u)))) as (n3 & b3 & E & Hu & Hr3 & Hm3); [done|by rewrite El|done|].
  exists n3. split; [exact E|]. split; [by exists b3|]. split; [exact Hu|].
  by rewrite (ready_content _ _ Hr), (ready_content _ _ Hr3).
Qed.

Lemma blocking_read (ws : waits client) t a bs store n :
  stack_ready n → stack_serves retries alloc_limit ws → stack_reachable t →
  map_seqZ a bs ⊆ stack_content n → bytes bs → 0 < zsize bs < 2 ^ 24 → 0 ≤ a < 2 ^ 32 →
  ∃ n', @nb_read _ _ base ws t a (zsize bs) store default_retry_count n = Ret (Ok tt, n') ∧
    stack_ready n' ∧ user (txs n') = store bs (user (txs n)) ∧ stack_content n' = stack_content n.
Proof.
  intros [b Hr] Hw Ht Hm Hbs Hz Ha. destruct (two_readings _ (proj1 Hw 0%nat)) as (x & y & l & El).
  rewrite (ready_content _ _ Hr) in Hm.
  destruct (stack_read retries alloc_limit retries_pos alloc_range n b x y l t a bs
    (copy_reply (zsize bs) store) Hr Ht Hm Hbs) as (packet & Hd & Hop); [lia|lia|].
  edestruct (attempts_once retries alloc_limit n ws (λ clock, startReadAsyncOperation_ alloc_limit clock t a (u32 (zsize bs))
    (copy_reply (zsize bs) store))) as (n3 & b3 & E & Hu & Hr3 & Hm3); [done| | |].
  { unfold u32. rewrite Z.mod_small by lia. by rewrite El. }
  { unfold copy_reply. rewrite Hd, subspan_in_range by lia. by rewrite zsize_to_nat, drop_0, firstn_all. }
  exists n3. split; [exact E|]. split; [by exists b3|]. split; [done|].
  by rewrite (ready_content _ _ Hr), (ready_content _ _ Hr3).
Qed.

Lemma async_write (ws : waits client) t a bs f n :
  stack_ready n → stack_serves retries alloc_limit ws → stack_reachable t →
  bytes bs → 0 < zsize bs < 2 ^ 24 → 0 ≤ a → a + zsize bs ≤ 2 ^ 32 →
  ∃ packet, ∀ r u, f packet (user (txs n)) = Ret (r, u) →
    ∃ p n1 n2, @nb_writeAsync _ _ base (clock_of ws 0) t a bs f n = Ret (p, n1) ∧
      during ws 0 n1 = Ret n2 ∧ @future_value _ _ base p n2 = Some (Some (completion r)) ∧
      stack_ready n2 ∧ user (txs n2) = u ∧ stack_content n2 = map_seqZ a bs ∪ stack_content n.
Proof.
  intros [b Hr] Hw Ht Hbs Hz Ha1 Ha2. destruct (two_readings _ (proj1 Hw 0%nat)) as (x & y & l & El).
  destruct (stack_write retries alloc_limit retries_pos alloc_range n b x y l t a bs f Hr Ht Hbs) as (packet & Hop);
    [lia|lia|].
  exists packet. intros r u Hf. destruct (Hop r u Hf) as (op & n1 & n3 & b3 & E1 & E3 & Hp & Hu & Hr3 & Hm3).
  exists (future op), n1, n3. split; [by cbn [nb_writeAsync tcp_node_base]; unfold writeAsync; rewrite El, E1|].
  split; [by rewrite (proj2 Hw)|]. split; [done|]. split; [by exists b3|]. split; [done|].
  by rewrite (ready_content _ _ Hr), (ready_content _ _ Hr3).
Qed.

Lemma async_read (ws : waits client) t a bs f n :
  stack_ready n → stack_serves retries alloc_limit ws → stack_reachable t →
  map_seqZ a bs ⊆ stack_content n → bytes bs → 0 < zsize bs < 2 ^ 24 → 0 ≤ a < 2 ^ 32 →
  ∃ packet, data packet = bs ∧ ∀ r u, f packet (user (txs n)) = Ret (r, u) →
    ∃ p n1 n2, @nb_readAsync _ _ base (clock_of ws 0) t a (zsize bs) f n = Ret (p, n1) ∧
      during ws 0 n1 = Ret n2 ∧ @future_value _ _ base p n2 = Some (Some (completion r)) ∧
      stack_ready n2 ∧ user (txs n2) = u ∧ stack_content n2 = stack_content n.
Proof.
  intros [b Hr] Hw Ht Hm Hbs Hz Ha. destruct (two_readings _ (proj1 Hw 0%nat)) as (x & y & l & El).
  rewrite (ready_content _ _ Hr) in Hm.
  destruct (stack_read retries alloc_limit retries_pos alloc_range n b x y l t a bs f Hr Ht Hm Hbs)
    as (packet & Hd & Hop); [lia|lia|].
  exists packet. split; [done|]. intros r u Hf.
  destruct (Hop r u Hf) as (op & n1 & n3 & b3 & E1 & E3 & Hp & Hu & Hr3 & Hm3).
  exists (future op), n1, n3. split; [by cbn [nb_readAsync tcp_node_base]; unfold readAsync; rewrite El, E1|].
  split; [by rewrite (proj2 Hw)|]. split; [done|]. split; [by exists b3|]. split; [done|].
  by rewrite (ready_content _ _ Hr), (ready_content _ _ Hr3).
Qed.

(** The client on the network keeps the contract. *)
#[export] Instance stack_client : @MemoryClient client U base the_client (S (S fuel)).
Proof.
  refine (@Build_MemoryClient client U base the_client (S (S fuel)) stack_content (stack_fresh retries)
    stack_ready stack_reachable (stack_serves retries alloc_limit) _ _ _
    blocking_write blocking_read async_write async_read _).
  - intros timeout n Hf Ht. destruct (stack_connect retries retries_pos timeout n Hf Ht) as (n' & b' & E & Hr & Hu & Hc).
    exists n'. split; [exact E|]. by split; [exists b'|].
  - intros a n ((Hwf & Hok) & _ & Hst & Hf) Ha. split; [|by split]. split; [|by split].
    split; [|exact Hok]. by eapply (node_step_wf alloc_limit); [|apply step_link].
  - intros u n [b Hr]. split; [done|]. split; [|done]. exists b. by apply set_user_ready.
  - intros n [b Hr]. destruct (stack_shutdown retries alloc_limit retries_pos fuel n b Hr) as (n1 & n2 & w & E1 & _ & _ & E2).
    exists n1, n2. split; [|exact E2]. cbn [cl_shutdown tcp_client_node]. unfold SpwRmapTCPClient.shutdown. by rewrite E1.
Defined.

(** A system whose calls fail only when signals interrupt them, with nothing on
    its connection and a target with the memory [m] behind it. *)
Definition idle (w : network) (m : memory) : Prop :=
  quiet retries w ∧ k_addresses (kernel w) ≠ [] ∧ user (txs (target w)) = m.

(** The client as the programs construct it. *)
Definition new_client (w : network) (u : U) (ip port : string) : client :=
  SpwRmapTCPClient.init ip port default_config w u.

Lemma new_client_fresh w m u ip port :
  idle w m → stack_fresh retries (new_client w u ip port) ∧ stack_content (new_client w u ip port) = m.
Proof.
  intros (Hq & Ha & Hm). split; [|done]. split; [|split; [done|split; [done|]]].
  - split; [|split; [by exists 0|done]]. by apply (initial_node_wf default_config).
  - by eexists.
Qed.
End instance_.

(** ** The tools *)

Section tools.
Context (retries fuel : nat) (alloc_limit : Z).
Context (retries_pos : (0 < retries)%nat) (alloc_range : 2 ^ 26 ≤ alloc_limit < 2 ^ 64).
#[local] Hint Extern 0 (TcpBackend (TCPClient.t network)) => exact (tcp_client_backend retries) : typeclass_instances.
#[local] Hint Extern 0 (NodeVirtuals (TCPClient.t network) _) => exact (tcp_client_virtuals retries) : typeclass_instances.
Abbreviation client := (SpwRmapTCPClient.t network (list Z)).
Abbreviation base := (tcp_node_base (B := TCPClient.t network) (U := list Z) alloc_limit).
Abbreviation the_client := (tcp_client_node (W := network) (U := list Z) retries alloc_limit).
Abbreviation contract := (stack_client (U := list Z) retries fuel alloc_limit retries_pos alloc_range).

(** C3: spwrmap over the whole stack, from its arguments to its output: the tool
    runs on the TCP client, whose packets go through a TCP connection that moves
    them in chunks of any size, in calls that signals interrupt at any moment,
    to a target node with memory, which serves them. A read returns 0 and prints
    one line; the words of the line behind the address are, given to --data,
    exactly the bytes of the target's memory from the address on. A write
    returns 0, and the target's memory is then overwritten with the data and
    otherwise as before. For path addresses of the target and the reply that
    lead there and back, lengths from 1 to 2^24 - 1, and addresses that end
    within the 32-bit space. *)
Theorem spwrmap_over_tcp ws w m argv opts address :
  idle retries w m → stack_serves retries alloc_limit ws → argv ≠ [] → "--help"%string ∉ argv →
  Spwrmap.parseOptions argv = Ret (Some opts) → Spwrmap.address opts = Some address → 0 ≤ address < 2 ^ 32 →
  let t := TargetNodeDynamic kTargetLogicalAddress (Spwrmap.target_address opts) (Spwrmap.reply_address opts) in
  stack_reachable t →
  (∀ bs, Spwrmap.type opts = "read"%string → Spwrmap.length opts = Some (zsize bs) →
     map_seqZ address bs ⊆ m → bytes bs → 0 < zsize bs < 2 ^ 24 →
     ∃ n, @spwrmap_main _ base the_client alloc_limit (new_client w []) (S (S fuel)) ws argv =
         Ret (0, read_line address bs, Some n) ∧
       parseByteSequence (drop 5 (words (read_line address bs))) [] = Some (bs, [])) ∧
  (Spwrmap.type opts = "write"%string → bytes (Spwrmap.data opts) → 0 < zsize (Spwrmap.data opts) < 2 ^ 24 →
   address + zsize (Spwrmap.data opts) ≤ 2 ^ 32 →
   ∃ n1 n2 n3 w' n,
     SpwRmapTCPClient.connect retries 1000000 (setInitiatorLogicalAddress kInitiatorLogicalAddress
       (new_client w [] (Spwrmap.ip opts) (Spwrmap.port opts))) = Ret (Ok tt, n1) ∧
     @performWrite _ base ws opts t n1 = Ret (true, write_line address (Spwrmap.data opts), n2) ∧
     SpwRmapTCPClient.shutdown_os retries n2 = Ret (Ok tt, n3, Some w') ∧
     quiet retries w' ∧ user (txs (target w')) = map_seqZ address (Spwrmap.data opts) ∪ m ∧
     @spwrmap_main _ base the_client alloc_limit (new_client w []) (S (S fuel)) ws argv =
       Ret (0, write_line address (Spwrmap.data opts), Some n)).
Proof.
  intros Hidle Hws Hne Hh Hopt Ha Har t Ht.
  destruct (new_client_fresh retries w m ([] : list Z) (Spwrmap.ip opts) (Spwrmap.port opts) Hidle) as [Hf Hc]. split.
  - intros bs Hty Hl Hm Hbs Hz. eapply (@spwrmap_prints_memory client base the_client (S (S fuel)) contract);
      try done; [lia|]. cbn [content stack_client]. by rewrite Hc.
  - intros Hty Hbs Hz Hr.
    destruct (@spwrmap_stores_memory client base the_client (S (S fuel)) contract alloc_limit (new_client w [])
      ws argv opts address) as (n1 & n2 & n & E1 & E2 & [b Hr2] & Hm2 & E); try done; [lia|].
    destruct (stack_shutdown retries alloc_limit retries_pos fuel n2 b Hr2) as (n3 & _ & w' & E3 & Hq & Htg & _).
    exists n1, n2, n3, w', n. split; [exact E1|]. split; [exact E2|]. split; [exact E3|]. split; [done|].
    split; [|exact E]. rewrite Htg. cbn [content stack_client] in Hm2. rewrite Hc in Hm2.
    unfold stack_content in Hm2. by rewrite (proj1 (proj2 Hr2)) in Hm2.
Qed.

(** C32: The speed test over the whole stack of TCP client, connection and target
    node with memory, for accepted options: after main has connected, its writes
    put exactly the random numbers modulo 256 into the target's memory from the
    start address on, in chunks of 1024 bytes one behind the other and a shorter
    last one; each of its readings fetches and compares these bytes, and
    readings compared with any other bytes would end the test with 1; the memory
    is the same behind the shutdown; and main, whose steps these are, shows its
    progress without undefined conversions, prints the statistics of exactly the
    measured latencies and returns 0 with the client they lead to. For path
    addresses that lead there and back, 1 to 2^24 - 1 bytes that end within the
    32-bit space, fewer than 2^52 readings, and latencies that fit into the
    memory that can be allocated. *)
Theorem speedtest_over_tcp {F : Type} {double : Double F} {progress : ProgressLaws F} random (ws : nat → waits client) time w m argv opts ntimes total start :
  let target := TargetNodeDynamic kTargetLogicalAddress (Speedtest.target_address opts) (Speedtest.reply_address opts) in
  let pattern := (λ i, random i mod 256) <$> seq 0 (Z.to_nat total) in
  let measured := (latency time : nat → F) <$> seq 0 (Z.to_nat ntimes) in
  idle retries w m → (∀ k, stack_serves retries alloc_limit (ws k)) →
  Speedtest.parseOptions argv = Ret (Speedtest.Parsed (Some opts)) → stack_reachable target →
  Speedtest.ntimes opts = Some ntimes → Speedtest.nbytes opts = Some total →
  Speedtest.start_address opts = Some start →
  0 ≤ start → start + total ≤ 2 ^ 32 → 0 < total < 2 ^ 24 → 8 * ntimes ≤ alloc_limit →
  0 ≤ ntimes < 2 ^ 52 →
  make_pattern random total = pattern ∧ Speedtest.chunks (S (Z.to_nat total)) total 0 = Ret (all_chunks total) ∧
  ∃ n1 n2 n3 n4 w' n,
    SpwRmapTCPClient.connect retries 1000000 (setInitiatorLogicalAddress kInitiatorLogicalAddress
      (new_client w [] (Speedtest.ip opts) (Speedtest.port opts))) = Ret (Ok tt, n1) ∧
    @write_chunks _ base ws 0 (all_chunks total) target start pattern n1 = Ret (true, n2) ∧
    stack_content n2 = map_seqZ start pattern ∪ m ∧
    (let begun := @set_user_state _ _ base (replicate (Z.to_nat total) 0) n2 in
     @read_loop _ base F _ ws time (Z.to_nat ntimes) (length (all_chunks total)) 0 ntimes target start total pattern [] begun =
       Ret (Some measured, n3) ∧
     (∀ other iterations k iter latencies, other ≠ pattern → ∃ n5 n6,
       @read_loop _ base F _ ws time (S iterations) k iter ntimes target start total other latencies begun = Ret (None, n5) ∧
       @fail_exit _ base the_client (S (S fuel)) n5 = Ret (1, ""%string, Some n6))) ∧
    SpwRmapTCPClient.shutdown_os retries n3 = Ret (Ok tt, n4, Some w') ∧ @join _ _ base (S (S fuel)) n4 = Ret n ∧
    quiet retries w' ∧ user (txs (Network.target w')) = map_seqZ start pattern ∪ m ∧
    @speedtest_main _ base the_client alloc_limit (new_client w []) (S (S fuel)) F _ random ws time argv =
      Ret (0, report measured, Some n).
Proof.
  intros target pattern measured Hidle Hws Hopt Ht Hn Hto Hs H0 Hr Hz Hl Hnt.
  destruct (new_client_fresh retries w m ([] : list Z) (Speedtest.ip opts) (Speedtest.port opts) Hidle) as [Hf Hc].
  destruct (@speedtest_passes client base the_client (S (S fuel)) contract alloc_limit (new_client w []) F _ _ random ws time
    argv opts ntimes total start)
    as (Ep & Ec & n1 & n2 & n3 & n4' & n & E1 & E2 & Hm2 & E3 & [b Hr3] & Hm3 & Es & Ej & E); try done; [lia|].
  destruct (stack_shutdown retries alloc_limit retries_pos fuel n3 b Hr3) as (n4 & _ & w' & E4 & Hq & Htg & _).
  cbn [content stack_client] in Hm2, Hm3. rewrite Hc in Hm2, Hm3.
  assert (n4' = n4) as ->.
  { cbn [cl_shutdown tcp_client_node] in Es. unfold SpwRmapTCPClient.shutdown in Es. rewrite E4 in Es. by injection Es as <-. }
  split; [exact Ep|]. split; [exact Ec|].
  exists n1, n2, n3, n4, w', n. split; [exact E1|]. split; [exact E2|]. split; [exact Hm2|]. split; [exact E3|].
  split; [exact E4|]. split; [exact Ej|]. split; [done|]. split; [|exact E]. rewrite Htg.
  unfold stack_content in Hm3. by rewrite (proj1 (proj2 Hr3)) in Hm3.
Qed.
End tools.

(** ** The example program *)

Section example.
Context (retries fuel : nat) (alloc_limit : Z).
Context (retries_pos : (0 < retries)%nat) (alloc_range : 2 ^ 26 ≤ alloc_limit < 2 ^ 64).
Abbreviation base := (@tcp_node_base (TCPClient.t network) console (tcp_client_backend retries)
  (tcp_client_virtuals retries) alloc_limit).
Abbreviation the_client := (tcp_client_node (W := network) (U := console) retries alloc_limit).

(** The example program over the whole stack, on a target with any memory: the
    blocking write and read and the two asynchronous operations succeed, main
    prints exactly the expected four lines, the read ones with the payload, and
    returns 0. *)
Theorem example_over_tcp (ws : nat → waits (SpwRmapTCPClient.t network console)) w m :
  idle retries w m → (∀ k, stack_serves retries alloc_limit (ws k)) →
  ∃ n, @example_main _ base the_client (new_client w ([], ""%string)) (S (S fuel)) ws = Ret (0, example_output, n).
Proof.
  intros Hidle Hws.
  destruct (new_client_fresh retries w m (([], ""%string) : console) "192.168.1.100" "10030" Hidle) as [Hf _].
  apply (@example_runs _ base the_client (S (S fuel)) (stack_client retries fuel alloc_limit retries_pos alloc_range));
    try done.
  cbn [reachable stack_client]. unfold stack_reachable, is_path, path_byte, logical_byte. cbn.
  split_and!; first [lia|by repeat (apply Forall_cons_2; [lia|])].
Qed.
End example.

(** ** Python *)

Section python.
Context (retries fuel : nat) (alloc_limit : Z).
Context (retries_pos : (0 < retries)%nat) (alloc_range : 2 ^ 26 ≤ alloc_limit < 2 ^ 64).
Abbreviation base := (@tcp_node_base (TCPClient.t network) heap (tcp_client_backend retries)
  (tcp_client_virtuals retries) alloc_limit).
Abbreviation the_client := (tcp_client_node (W := network) (U := heap) retries alloc_limit).

(** C4: The Python node over the whole stack: on a network with a target that has
    memory, whose calls signals interrupt at any moment, start succeeds, write
    stores exactly its bytes in the memory of the target, read of the same
    address returns these bytes, and stop succeeds and leaves no thread. For
    path addresses that lead there and back, lengths from 1 to 2^24 - 1, and
    addresses that end within the 32-bit space. *)
Theorem python_over_tcp (ws : waits (SpwRmapTCPClient.t network heap)) w m ip port t a bs :
  idle retries w m → stack_serves retries alloc_limit ws → stack_reachable (target_of t) →
  bytes bs → 0 < zsize bs < 2 ^ 24 → 0 ≤ a → a + zsize bs ≤ 2 ^ 32 →
  ∃ p1 p2 p3 p4,
    @start _ base the_client (S (S fuel)) (init (new_client w empty_heap ip port)) = Ret (Val tt, p1) ∧
    @PythonBinding.write _ base ws t a bs p1 = Ret (Val tt, p2) ∧
    stack_content (node_ p2) = map_seqZ a bs ∪ m ∧
    @PythonBinding.read _ base alloc_limit ws t a (zsize bs) p2 = Ret (Val bs, p3) ∧
    @stop _ base the_client (S (S fuel)) p3 = Ret (Val tt, p4) ∧ thread_ p4 = NoThread.
Proof.
  intros Hidle Hws Ht Hb Hz Ha1 Ha2. destruct (new_client_fresh retries w m empty_heap ip port Hidle) as [Hf Hm].
  pose (contract := stack_client (U := heap) retries fuel alloc_limit retries_pos alloc_range).
  destruct (@start_ready _ base the_client (S (S fuel)) contract (init (new_client w empty_heap ip port)))
    as (n1 & E1 & Hr1 & Hc1); [done..|].
  edestruct (@write_ready _ base the_client (S (S fuel)) contract ws Hws (mkPy n1 Running None true true) t a bs)
    as (n2 & E2 & Hr2 & Hc2); [done..|].
  edestruct (@read_ready _ base the_client (S (S fuel)) contract alloc_limit ws Hws
    (set_node_ n2 (mkPy n1 Running None true true)) t a bs) as (n3 & E3 & Hr3 & _); [done|done|done| |done|done|lia|lia|].
  { cbn [node_ set_node_]. rewrite Hc2. apply map_union_subseteq_l. }
  edestruct (@stop_ready _ base the_client (S (S fuel)) contract (set_node_ n3 (set_node_ n2 (mkPy n1 Running None true true))))
    as (n4 & E4); [done..|].
  eexists _, _, _, _. split; [exact E1|]. split; [exact E2|]. split; [|by split; [exact E3|split; [exact E4|]]].
  cbn [node_ set_node_]. etransitivity; [exact Hc2|]. f_equal. etransitivity; [exact Hc1|exact Hm].
Qed.
End python.
