(* ===== verification/Witnesses.v ===== *)
(** * The theorems at work

    Concrete nodes, packets and streams: every hypothesis of the theorems of
    this development can hold. *)

From S2P Require Import Prelude Crc PacketTypes PacketBuilder PacketParser PacketParserFacts PacketTheorems PacketIntegrity TcpBackend Framing FramingFacts FramingTheorems Transactions TransactionSlots Node NodeTheorems Exchange Network.
#[local] Open Scope Z_scope.

(** Deciding by computation. *)
Ltac compute_decide := refine (bool_decide_eq_true_1 _ _); vm_compute; reflexivity.

(** ** Checksums *)

Lemma calcCRC_serial_witness :
  calcCRC [0x32; 0x01; 0x6C; 0x00] 0 = crc_serial [0x32; 0x01; 0x6C; 0x00] 0.
Proof. apply calcCRC_serial; compute_decide. Defined.

Lemma calcCRC_polynomial_witness :
  crc_poly [0x32; 0x01; 0x6C; 0x00] = calcCRC [0x32; 0x01; 0x6C; 0x00] 0.
Proof. apply calcCRC_polynomial; compute_decide. Defined.

Lemma calcCRC_detects_byte_witness :
  calcCRC ([0x32; 0x01] ++ 0x6C :: [0x00]) 0 ≠ calcCRC ([0x32; 0x01] ++ 0x6D :: [0x00]) 0.
Proof. apply calcCRC_detects_byte; compute_decide. Defined.

Lemma calcCRC_detects_burst_witness :
  calcCRC ([0x32] ++ Z.lxor 0x01 (burst_lo 0xFF 3) :: Z.lxor 0x6C (burst_hi 0xFF 3) :: [0x00]) 0 ≠
  calcCRC ([0x32] ++ 0x01 :: 0x6C :: [0x00]) 0.
Proof. apply calcCRC_detects_burst; try compute_decide; lia. Defined.

(** ** Packets *)

Definition example_read : ReadPacketConfig.t :=
  ReadPacketConfig.mk [6; 2] [1; 3] 0x32 0xFE 0x20 0 0x44A20000 4 0 true.
Definition example_write : WritePacketConfig.t :=
  WritePacketConfig.mk [6; 2] [1; 3] 0x32 0xFE 0x20 0 0 0x44A20000 true true true [1; 2; 3; 4].
Definition example_read_reply : ReadReplyPacketConfig.t :=
  ReadReplyPacketConfig.mk [1; 3] 0xFE 0 0x32 0x20 [1; 2; 3; 4] true.
Definition example_write_reply : WriteReplyPacketConfig.t :=
  WriteReplyPacketConfig.mk [1; 3] 0xFE 0 0x32 0x20 true true.

Definition buffer : list Z := replicate 64 0.

Ltac config_wf := split_and!; first [compute_decide | vm_compute; intuition discriminate].

Lemma example_read_wf : read_config_wf example_read.
Proof. unfold read_config_wf, is_path, path_byte, logical_byte. config_wf. Qed.
Lemma example_write_wf : write_config_wf example_write.
Proof. unfold write_config_wf, is_path, path_byte, logical_byte. config_wf. Qed.
Lemma example_read_reply_wf : read_reply_config_wf example_read_reply.
Proof. unfold read_reply_config_wf, is_path, path_byte, logical_byte. config_wf. Qed.
Lemma example_write_reply_wf : write_reply_config_wf example_write_reply.
Proof. unfold write_reply_config_wf, is_path, path_byte, logical_byte. config_wf. Qed.

Lemma parse_success_iff_witness :
  (∃ s q, parse [0x32; 0x01; 0x6C] empty_packet = Ret (s, q)) ∧
  ∃ rsv q0, packet_wf q0 ∧ byte rsv ∧ encode_write example_write = wire rsv q0 ∧
    write_packet example_write = received empty_packet q0.
Proof.
  split; [apply (parse_success_iff [0x32; 0x01; 0x6C]); [split; compute_decide|done]|].
  apply (parse_success_iff (encode_write example_write) empty_packet);
    [split; compute_decide|done|by vm_compute].
Defined.

Lemma builders_round_trip_witness :
  (∃ n out, WritePacketBuilder.build example_write buffer = Ret (Ok n, out) ∧
     parse (take (Z.to_nat n) out) empty_packet =
     Ret (Success, received empty_packet (write_packet example_write))) ∧
  (∃ n out, ReadPacketBuilder.build example_read buffer = Ret (Ok n, out) ∧
     parse (take (Z.to_nat n) out) empty_packet =
     Ret (Success, received empty_packet (read_packet example_read))) ∧
  (∃ n out, ReadReplyPacketBuilder.build example_read_reply buffer = Ret (Ok n, out) ∧
     parse (take (Z.to_nat n) out) empty_packet =
     Ret (Success, received empty_packet (read_reply_packet example_read_reply))) ∧
  (∃ n out, WriteReplyPacketBuilder.build example_write_reply buffer = Ret (Ok n, out) ∧
     parse (take (Z.to_nat n) out) empty_packet =
     Ret (Success, received empty_packet (write_reply_packet example_write_reply))).
Proof.
  destruct builders_round_trip as (Hw & Hr & Hrr & Hwr). split_and!.
  - apply Hw; [apply example_write_wf|split; vm_compute; discriminate].
  - apply Hr; [apply example_read_wf|split; vm_compute; discriminate].
  - apply Hrr; [apply example_read_reply_wf|split; vm_compute; discriminate].
  - apply Hwr; [apply example_write_reply_wf|split; vm_compute; discriminate].
Defined.

Lemma builders_outcomes_witness :
  ReadPacketBuilder.build example_read [] = Ret (Unexpected (generic no_buffer_space), []).
Proof.
  destruct (builders_outcomes []) as (H & _). destruct (H example_read) as [_ E]; [vm_compute; discriminate|]. clear H.
  rewrite E. by vm_compute.
Defined.

(** A write command with another target address byte, with another byte of data,
    and with another path. *)
Lemma corrupted_packet_rejected_witness :
  let q := write_packet example_write in
  let block := with_crc (header_block 0 q) ++ data_block q in
  (∃ p', parse (wire_path q ++ take 8 block ++ 0x77 :: drop 9 block) empty_packet = Ret (HeaderCRCError, p')) ∧
  (∃ p', parse (wire_path q ++ take 22 block ++ 0x77 :: drop 23 block) empty_packet = Ret (DataCRCError, p')) ∧
  parse ([6; 3] ++ block) empty_packet = Ret (Success, received empty_packet (set_path [6; 3] q)).
Proof.
  destruct (corrupted_packet_rejected empty_packet (write_packet example_write) 0) as [Hb Hp];
    [apply write_packet_wf, example_write_wf|apply byte_0|by vm_compute|].
  intros q block. split; [|split].
  - apply (Hb (take 8 block) 0xFE 0x77); [by vm_compute|compute_decide|done..].
  - apply (Hb (take 22 block) 3 0x77); [by vm_compute|compute_decide|by vm_compute|done..].
  - apply (Hp [6] 2 3 []); [by vm_compute|by split].
Defined.

(** ** Links *)

Definition mock (incoming : list Z) : MockBackend := mkMock "127.0.0.1" "10030" [] incoming false.
Definition example_link (policy : BufferPolicy) (size : nat) (incoming : list Z) : link MockBackend :=
  mkLink (Some (mock incoming)) (replicate size 0) (replicate size 0) policy empty_packet 0xFE true.
Definition example_target : TargetNodeBase := TargetNodeDynamic 0x32 [6; 2] [1; 3].

(** A packet in two fragments behind a dropped packet, with a time code. *)
Definition example_segments : list segment :=
  [Erroneous 0 0 [9; 9; 9]; Fragment 0 0 (take 10 (encode_write example_write)); TimeCode 0x30 7].
Definition example_last : list Z := drop 10 (encode_write example_write).
Definition example_stream : list Z :=
  stream example_segments ++ frame 0x00 0 0 example_last ++ [0x30; 0x00].

Lemma example_segments_wf : Forall segment_wf example_segments.
Proof. repeat constructor; vm_compute; intuition discriminate. Qed.

Lemma recv_reassembles_witness :
  ∃ b' l', recvAndParseOnePacket_ 4096 200 (example_link AutoResize 16 example_stream) =
      Ret (Ok (zsize (wire 0 (write_packet example_write))), l') ∧
    packet_parser_ l' = received empty_packet (write_packet example_write) ∧
    tcp_backend_ l' = Some b' ∧ wire_in b' = [0x30; 0x00] ∧ delivering b'.
Proof.
  apply (recv_reassembles 4096 example_segments 200 (example_link AutoResize 16 example_stream)
    (mock example_stream) 0 0 example_last [0x30; 0x00] 0 (write_packet example_write));
    [done|done|done|done|apply example_segments_wf|done|done|vm_compute; intuition discriminate|done
    |by vm_compute|apply write_packet_wf, example_write_wf|apply byte_0|done].
Defined.

Lemma recv_reports_status_witness :
  ∃ b' l', recvAndParseOnePacket_ 4096 200 (example_link Fixed 64 (frame 0x00 0 0 [1; 2; 0x32] ++ [])) =
      Ret (Unexpected (make_error_code IncompletePacket), l') ∧
    tcp_backend_ l' = Some b' ∧ wire_in b' = [] ∧ delivering b'.
Proof.
  eapply (recv_reports_status 4096 [] 200 (example_link Fixed 64 (frame 0x00 0 0 [1; 2; 0x32] ++ []))
    (mock (frame 0x00 0 0 [1; 2; 0x32] ++ [])) 0 0 [1; 2; 0x32] []);
    [done|done|done|done|constructor|done|done|vm_compute; discriminate|done|by vm_compute|done].
Defined.

Lemma sendWritePacket_outcomes_witness :
  (∃ l' b', sendWritePacket_ 4096 example_target 0x20 0x44A20000 [1; 2; 3; 4] (example_link AutoResize 16 []) =
      Ret (Ok tt, l') ∧ tcp_backend_ l' = Some b' ∧ zsize (wire_out b') = 39) ∧
  sendWritePacket_ 4096 example_target 0x20 0x44A20000 [1; 2; 3; 4] (example_link Fixed 16 []) =
    Ret (Unexpected (generic no_buffer_space), example_link Fixed 16 []).
Proof.
  split.
  - destruct (sendWritePacket_outcomes 4096 example_target 0x20 0x44A20000 [1; 2; 3; 4]
      (example_link AutoResize 16 []) (mock [])) as (l' & b' & E & Hb & Ho & _); [done..|].
    exists l', b'. split; [exact E|]. split; [exact Hb|]. by rewrite Ho.
  - exact (sendWritePacket_outcomes 4096 example_target 0x20 0x44A20000 [1; 2; 3; 4]
      (example_link Fixed 16 []) (mock []) eq_refl I ltac:(done) ltac:(done)).
Defined.

Lemma sendReadPacket_frame_witness :
  ∃ l' b', sendReadPacket_ 4096 example_target 0x20 0x44A20000 4 (example_link AutoResize 64 []) =
      Ret (Ok tt, l') ∧ tcp_backend_ l' = Some b' ∧ zsize (wire_out b') = 34.
Proof.
  destruct (sendReadPacket_frame 4096 example_target 0x20 0x44A20000 4
    (example_link AutoResize 64 []) (mock [])) as (l' & b' & E & Hb & Ho & _); [done..|].
  exists l', b'. split; [exact E|]. split; [exact Hb|]. by rewrite Ho.
Defined.

Lemma sendReadPacket_short_buffer_witness :
  ∃ l', sendReadPacket_ 4096 example_target 0x20 0x44A20000 4 (example_link AutoResize 16 []) =
      Ret (Unexpected (generic no_buffer_space), l') ∧
    tcp_backend_ l' = Some (mock []) ∧ zsize (send_buf_ l') < read_size example_target + 12.
Proof. apply sendReadPacket_short_buffer; done. Defined.

(** ** Nodes

    The node of tests/test_spw_rmap_node.cc over the mock backend, whose
    users' functions keep the last bytes they were given. *)

Definition keep_data : user_function (list Z) := λ packet _, Ret (Returned tt, data packet).
Definition answer_bytes : read_function (list Z) := λ packet u, Ret (Returned [1; 2; 3; 4], u).

Definition example_node : node MockBackend (list Z) := initial_node default_config (mock []) [].

(** [n] with the bytes [w] on its way in. *)
Definition with_incoming (w : list Z) (n : node MockBackend (list Z)) : node MockBackend (list Z) :=
  set_lnk (set_tcp_backend_ (Some (mock w)) (lnk n)) n.

Definition example_target_node : node MockBackend (list Z) :=
  registerOnRead (Some answer_bytes) (registerOnWrite (Some keep_data) example_node).

Lemma example_node_wf : node_wf 0x20 0x40 example_node.
Proof. apply (initial_node_wf default_config (mock []) []); done. Qed.

(** One frame arrives at a node whose receive buffer has the default size. *)
Lemma arriving_frame (n : node MockBackend (list Z)) pkt :
  0 < zsize pkt ≤ 4096 → zsize (recv_buf_ (lnk n)) = 4096 →
  arriving 65536 5000 (with_incoming (frame 0 0 0 pkt) n) (mock (frame 0 0 0 pkt)) [] 0 0 pkt [].
Proof.
  intros Hp Hr. split_and!; [done|done| |constructor| |lia| |].
  - cbn. by rewrite app_nil_r.
  - intros ->. zs. lia.
  - cbn [room]. unfold buffer_cap. cbn. rewrite Hr. destruct (buffer_policy_ (lnk n)); zs; lia.
  - unfold stream, frame. cbn [fmap list_fmap mjoin list_join]. zs. lia.
Qed.

(** A whole write over two nodes: the target gets the bytes, the initiator's
    promise its value. *)
Lemma write_transaction_witness :
  ∃ op client1 cmd reply server1 client3,
    startWriteAsyncOperation_ 65536 [0; 0] example_target 0x44A20000 [1; 2; 3; 4]
      (λ _ u, Ret (Returned tt, u)) example_node = Ret (op, client1) ∧
    poll 65536 5000 (with_incoming (frame 0 0 0 cmd) example_target_node) = Ret (Ok true, server1) ∧
    user (txs server1) = [1; 2; 3; 4] ∧
    poll 65536 5000 (with_incoming (frame 0 0 0 reply) client1) = Ret (Ok true, client3) ∧
    promises (txs client3) !! future op = Some (Some (Ok tt)).
Proof.
  destruct (write_transaction (B' := MockBackend) (U' := list Z) 65536 65536 ltac:(done) ltac:(done)
    0x20 0x40 example_node (mock []) 0 0 0 [] example_target 0x44A20000 [1; 2; 3; 4]
    (λ _ u, Ret (Returned tt, u))) as (op & client1 & tid & E & Hop & _ & Hs & Hserver & Hclient).
  - apply example_node_wf.
  - by vm_compute.
  - done.
  - done.
  - unfold write_config_wf, is_path, path_byte, logical_byte. config_wf.
  - unfold is_path, path_byte. compute_decide.
  - done.
  - done.
  - set (c := write_config example_target tid 0x44A20000 [1; 2; 3; 4] (lnk example_node)) in *.
    assert (Hz : zsize (encode_write c) = 27) by by rewrite zsize_encode_write.
    set (q := write_reply_config (write_packet c)) in *.
    assert (Hz' : zsize (encode_write_reply q) = 10) by by rewrite zsize_encode_write_reply.
    destruct (Hserver 5000%nat (with_incoming (frame 0 0 0 (encode_write c)) example_target_node)
      (mock (frame 0 0 0 (encode_write c))) [] 0 0 (encode_write c) [] [1; 2; 3; 4])
      as (server1 & E1 & Hu & _); [|done|done|done|rewrite Hz'; vm_compute; discriminate|].
    { apply arriving_frame; [rewrite Hz; lia|by vm_compute]. }
    destruct Hs as (b1 & _ & _ & _ & _ & _ & _ & El).
    destruct (Hclient 5000%nat (with_incoming (frame 0 0 0 (encode_write_reply q)) client1)
      (mock (frame 0 0 0 (encode_write_reply q))) [] 0 0 (encode_write_reply q) [] (Returned tt) [])
      as (client3 & E3 & Hp & _); [done| |done|done|].
    { apply arriving_frame; [rewrite Hz'; lia|rewrite El; by vm_compute]. }
    exists op, client1, (encode_write c), (encode_write_reply q), server1, client3.
    by split_and!.
Defined.

Lemma read_transaction_witness :
  ∃ op client1 cmd reply server1 client3,
    startReadAsyncOperation_ 65536 [0; 0] example_target 0x44A20000 4
      (copy_reply 4 (λ bs _, bs)) example_node = Ret (op, client1) ∧
    poll 65536 5000 (with_incoming (frame 0 0 0 cmd) example_target_node) = Ret (Ok true, server1) ∧
    poll 65536 5000 (with_incoming (frame 0 0 0 reply) client1) = Ret (Ok true, client3) ∧
    promises (txs client3) !! future op = Some (Some (Ok tt)) ∧
    user (txs client3) = [1; 2; 3; 4].
Proof.
  destruct (read_transaction (B' := MockBackend) (U' := list Z) 65536 65536 ltac:(done) ltac:(done)
    0x20 0x40 example_node (mock []) 0 0 0 [] example_target 0x44A20000 4
    (copy_reply 4 (λ bs _, bs))) as (op & client1 & tid & E & Hop & _ & Hs & Hrest).
  - apply example_node_wf.
  - by vm_compute.
  - done.
  - done.
  - unfold read_config_wf, is_path, path_byte, logical_byte. config_wf.
  - unfold is_path, path_byte. compute_decide.
  - done.
  - vm_compute. discriminate.
  - set (c := read_config example_target tid 0x44A20000 4 (lnk example_node)) in *.
    assert (Hz : zsize (encode_read c) = 22) by by rewrite zsize_encode_read.
    destruct (Hrest [1; 2; 3; 4]) as (_ & Hserver & Hclient); [compute_decide|done|].
    set (q := read_reply_config (read_packet c) [1; 2; 3; 4]) in *.
    assert (Hz' : zsize (encode_read_reply q) = 19) by by rewrite zsize_encode_read_reply.
    destruct (Hserver 5000%nat (with_incoming (frame 0 0 0 (encode_read c)) example_target_node)
      (mock (frame 0 0 0 (encode_read c))) [] 0 0 (encode_read c) [] [])
      as (server1 & E1 & Hu & _); [|done|done|done|rewrite Hz'; vm_compute; discriminate|].
    { apply arriving_frame; [rewrite Hz; lia|by vm_compute]. }
    destruct Hs as (b1 & _ & _ & _ & _ & _ & _ & El).
    destruct (Hclient 5000%nat (with_incoming (frame 0 0 0 (encode_read_reply q)) client1)
      (mock (frame 0 0 0 (encode_read_reply q))) [] 0 0 (encode_read_reply q) [] (Returned tt)
      [1; 2; 3; 4]) as (client3 & E3 & Hp & _ & Hu3); [done| |done|done|].
    { apply arriving_frame; [rewrite Hz'; lia|rewrite El; by vm_compute]. }
    exists op, client1, (encode_read c), (encode_read_reply q), server1, client3.
    by split_and!.
Defined.

(** The node with its first ID waiting for a reply. *)
Definition example_waiting (f : user_function (list Z)) : node MockBackend (list Z) :=
  set_txs (table 0x20 0x40 1000 (Waiting 0 0%nat f :: replicate 31 Free) [None] []) example_node.
Definition example_op : AsyncOperation := mkAsyncOperation 0 (Some 0x20).

Lemma example_waiting_ok f : waiting 0x20 0x40 (example_waiting f) example_op f.
Proof.
  exists 1000, (Waiting 0 0%nat f :: replicate 31 Free), [None], 0%nat, 0. split; [done|].
  split; [split; [by split_and!|split]|by split].
  - intros [|i] last p g Hi; [by injection Hi as <- <- <-|].
    by apply lookup_replicate in Hi as [? _].
  - intros [|i] [|j] l l' p g g' Hi Hj; [done| | |];
      [by apply lookup_replicate in Hj as [? _]|by apply lookup_replicate in Hi as [? _]..].
Qed.

Lemma reachable_consistent_witness :
  rd (available_transaction_ids_ (txs (setTimeout 5 example_node))) 3 = Ret true ∨
  ∃ h, rd (reply_callback_ (txs (setTimeout 5 example_node))) 3 = Ret (Some h).
Proof.
  destruct (reachable_consistent 65536 default_config (mock []) [] (setTimeout 5 example_node) 3)
    as [(H & _)|(h & _ & H & _)].
  - vm_compute. intuition discriminate.
  - done.
  - apply rtc_once, step_timeout.
  - vm_compute. intuition discriminate.
  - by left.
  - right. by exists h.
Defined.

Lemma operations_safe_witness : safe (cancelTransaction_ 0x21 (txs example_node)).
Proof. apply (operations_safe 0x20 0x40 example_node example_node_wf). Defined.

Lemma allocation_outcome_witness :
  ∃ r t, getAvailableTransactionID_ [5; 6] (txs example_node) = Ret (r, t) ∧
    match r with Ok id => 0x20 ≤ id < 0x40 | Unexpected _ => t = txs example_node end.
Proof.
  destruct (allocation_outcome 0x20 0x40 example_node 5 6 [] example_node_wf)
    as (r & t & E & Hr).
  exists r, t. split; [done|]. destruct r; apply Hr.
Defined.

Lemma failed_send_leaks_nothing_witness :
  start_async [5; 6] (λ _ l, Ret (Unexpected (generic not_connected), l)) keep_data example_node =
  Ret (mkAsyncOperation 0 None,
       set_txs (set_promises ([] ++ [Some (Unexpected (generic not_connected))]) (txs example_node))
         (set_lnk (lnk example_node) example_node)).
Proof.
  apply (failed_send_leaks_nothing 0x20 0x40 example_node 5 6 [] _ keep_data
    (generic not_connected) (lnk example_node) 0 example_node_wf); [by vm_compute|done].
Defined.

Lemma write_times_out_witness :
  ∃ n b, write 65536 (λ _, [0; 0]) (λ _ n, Ret n) example_target 0x44A20000 [1; 2; 3; 4] 3 example_node =
      Ret (Unexpected (generic timed_out), n) ∧
    tcp_backend_ (lnk n) = Some b ∧
    wire_out b = mjoin (replicate 3 (frame 0 0 0
      (encode_write (write_config example_target 0x20 0x44A20000 [1; 2; 3; 4] (lnk example_node))))).
Proof.
  destruct (write_times_out 65536 0x20 0x40 example_node (mock []) 0 (λ _, [0; 0]) example_target
    0x44A20000 [1; 2; 3; 4] 3) as (n & b & E & _ & Hb & Ho);
    [apply example_node_wf|done|done|done|by vm_compute|lia|simpl; lia|done|done|done|].
  exists n, b. split; [exact E|]. split; [exact Hb|exact Ho].
Defined.

Lemma late_reply_completes_next_witness :
  ∃ t op2 n2, cancelTransaction_ 0x20 (txs (example_waiting keep_data)) = Ret t ∧
    start_async [5; 6] (λ _ l, Ret (Ok tt, l)) keep_data (set_txs t (example_waiting keep_data)) =
      Ret (op2, n2) ∧
    transaction_id op2 = Some 0x20 ∧ future op2 ≠ 0%nat.
Proof.
  destruct (late_reply_completes_next 65536 0x20 0x40 (example_waiting keep_data) example_op keep_data
    0x20 5 6 [] (λ _ l, Ret (Ok tt, l)) keep_data (lnk example_node))
    as (t & op2 & n2 & E & E2 & H2 & Hne & _);
    [apply example_waiting_ok|done|lia|done|].
  by exists t, op2, n2.
Defined.

(** A write reply with the ID of [example_op]. *)
Definition example_reply : Packet := write_reply_packet (write_reply_config (write_packet example_write)).

Lemma replies_unchecked_witness :
  (∃ n, handle_packet 65536 (set_status 4 example_reply)
         (example_waiting (λ _ u, Ret (Returned tt, u))) = Ret (Ok true, n) ∧
    promises (txs n) !! 0%nat = Some (Some (Ok tt))) ∧
  handle_packet 65536 (read_reply_packet example_read_reply)
    (example_waiting (copy_reply 8 (λ bs _, bs))) = UB.
Proof.
  split.
  - apply (replies_unchecked 65536 0x20 0x40 (example_waiting (λ _ u, Ret (Returned tt, u)))
      example_op 0x20); [done|done|apply example_waiting_ok|done].
  - apply (replies_unchecked 65536 0x20 0x40 _ example_op 0x20 (read_reply_packet example_read_reply)) with 8 (λ bs _, bs);
      [done|done|apply example_waiting_ok|done..].
Defined.
