(* ===== verification/WitnessesTcp.v ===== *)
(** * The theorems about the TCP nodes and the tools at work

    The TCP client and server on the scripted system, with calls that are
    interrupted or fail; a target node over the TCP server that answers two
    commands; the options of spwrmap. *)

From S2P Require Import Prelude PacketTypes PacketBuilder PacketParser PacketParserFacts PacketTheorems TcpBackend Posix TcpClient TcpClientTheorems TcpServer TcpServerTheorems Framing FramingFacts FramingTheorems Transactions Node TcpNode TcpNodeTheorems Exchange Serving CommandLine CommandLineTheorems Witnesses.
#[local] Open Scope Z_scope.

Definition example_address : addrinfo := mkAddrinfo AF_INET SOCK_STREAM IPPROTO_TCP [127; 0; 0; 1].

(** A system in which a call is interrupted and the calls behind it succeed. *)
Definition example_kernel (addresses : list addrinfo) (w : list Z) : ScriptedKernel :=
  mkKernel 0 [2; 1; 0] [Some EINTR; None; Some EINTR] w [] 5 addresses.

(** ** The TCP client *)

Definition example_tcp_client : TCPClient.t ScriptedKernel :=
  TCPClient.mk 3 "127.0.0.1" "10030" (example_kernel [] []).

Lemma client_sendAll_outcomes_witness :
  ∃ res c', TCPClient.sendAll 10 [1; 2; 3; 4; 5; 6; 7] example_tcp_client = Ret (res, c') ∧
    match res with Ok _ => sent c' = [1; 2; 3; 4; 5; 6; 7] | Unexpected _ => True end.
Proof.
  destruct (client_sendAll_outcomes 10 [1; 2; 3; 4; 5; 6; 7] example_tcp_client)
    as (res & c' & E & _ & _ & Hr); [simpl; lia|].
  exists res, c'. split; [exact E|]. destruct res; [apply Hr|done].
Defined.



(** The node over a client whose system accepts the shutdown. *)
Definition example_connected_node : SpwRmapTCPClient.t ScriptedKernel (list Z) :=
  initial_node default_config
    (TCPClient.mk 3 "127.0.0.1" "10030" (mkKernel 0 [3; 2; 1; 0] [None; Some EINTR] [] [] 5 [])) [].

Lemma shutdown_outcomes_witness :
  ∃ n', SpwRmapTCPClient.shutdown 10 example_connected_node = Ret (Ok tt, n') ∧
    SpwRmapTCPClient.connect 10 100000 n' = UB.
Proof.
  eexists. split; [vm_compute; reflexivity|].
  refine (proj2 (proj2 (proj2 (proj2 (proj2 (proj2
    (shutdown_outcomes 10 4096 example_connected_node _ _ _ 5 100000 (example_target) 0x20 0 [] _ _ _)))))));
    [reflexivity|simpl; lia|vm_compute; reflexivity].
Defined.


(** ** The TCP server *)

Definition example_tcp_server (addresses : list addrinfo) : TCPServer.t ScriptedKernel :=
  TCPServer.init "localhost" "10030" (mkKernel 0 [2; 1; 0] [None] [] [] 5 addresses).

(** The system behind the resolution of the address. *)
Definition resolved (addresses : list addrinfo) : ScriptedKernel :=
  mkKernel 0 [2; 1; 0] [] [] [] 5 addresses.

(** A server with a connection from before, on a system in which its
    address cannot be bound. *)
Definition served_before (script : list (option Z)) : TCPServer.t ScriptedKernel :=
  TCPServer.mk (-1) 9 "127.0.0.1" "10030" (mkKernel 0 [9; 2; 1; 0] script [] [] 20 [example_address]).

Lemma accept_once_outcomes_witness :
  (∃ res s', TCPServer.accept_once 10 (example_tcp_server [example_address]) = Ret (res, s') ∧
    TCPServer.listen_fd_ s' < 0) ∧
  (∃ s', TCPServer.accept_once 10 (served_before (replicate 6 None ++ [Some 98])) = Ret (Ok tt, s') ∧ TCPServer.client_fd_ s' = 9).
Proof.
  split.
  - destruct (accept_once_outcomes 10 (example_tcp_server [example_address]) example_address
      (resolved [example_address])) as (res & s' & E & Hl & _); [done|simpl; lia|].
    by exists res, s'.
  - destruct (accept_once_outcomes 10 (served_before (replicate 6 None ++ [Some 98])) example_address
      (TCPServer.os (served_before (replicate 5 None ++ [Some 98])))) as (res & s' & E & _ & _); [done|simpl; lia|].
    exists s'. rewrite E. revert E. vm_compute. intros [= <- <-]. by split.
Defined.

Lemma accept_once_leaks_witness :
  ∃ s', TCPServer.accept_once 10 (example_tcp_server [example_address; example_address]) =
      Ret (Ok tt, s') ∧
    open_fds (TCPServer.os s') = {[6; 4; 3]} ∪ open_fds (resolved []).
Proof.
  edestruct (accept_once_leaks 10 (example_tcp_server [example_address; example_address]))
    as (s' & E & Hc & _ & _ & Ho);
    [done|vm_compute; reflexivity|vm_compute; reflexivity|simpl; lia|].
  exists s'. split; [exact E|]. by rewrite Ho, Hc.
Defined.

(** ** A target node that serves two commands over the TCP server *)

Definition example_arrivals : list arrival :=
  [mkArrival example_segments 0 0 example_last (WriteCommand example_write);
   mkArrival [] 0 0 (encode_read example_read) (ReadCommand example_read [1; 2; 3; 4])].

Definition example_server_node : SpwRmapTCPServer.t ScriptedKernel (list Z) :=
  set_running_ true (registerOnRead (Some answer_bytes) (registerOnWrite (Some keep_data)
    (initial_node default_config
      (TCPServer.mk (-1) 3 "127.0.0.1" "10030"
        (mkKernel 0 [3; 2; 1; 0] [Some EINTR; None; Some EINTR]
          (mjoin (arrival_bytes <$> example_arrivals)) [] 7 [])) []))).

Lemma example_arrivals_wf : Forall (arrival_wf 65536) example_arrivals.
Proof.
  repeat constructor; try done; try (by vm_compute; intuition discriminate).
  all: first [apply example_segments_wf | apply example_write_wf | apply example_read_wf
             | unfold is_path, path_byte; compute_decide | idtac].
Qed.

Lemma run_loop_serves_in_order_witness :
  ∃ n' b', @run_loop _ _ (tcp_server_backend 10) 65536 tcp_server_virtuals (2 + 402) example_server_node =
      @run_loop _ _ (tcp_server_backend 10) 65536 tcp_server_virtuals 402 n' ∧
    tcp_backend_ (lnk n') = Some b' ∧ user (txs n') = [1; 2; 3; 4] ∧
    outbound (TCPServer.os b') 3 = mjoin ((λ a, frame 0 0 0 (reply_bytes (arr_command a))) <$> example_arrivals).
Proof.
  destruct (@run_loop_serves_in_order _ _ (tcp_server_backend 10) (tcp_server_laws 10)
    tcp_server_virtuals 65536 ltac:(done) example_arrivals 400 example_server_node
    (TCPServer.mk (-1) 3 "127.0.0.1" "10030"
        (mkKernel 0 [3; 2; 1; 0] [Some EINTR; None; Some EINTR]
          (mjoin (arrival_bytes <$> example_arrivals)) [] 7 [])) [] [1; 2; 3; 4])
    as (n' & b' & E & _ & Hb & _ & _ & _ & Hu & Ho & _).
  - done.
  - done.
  - done.
  - split; [|simpl; lia]. split; [simpl; lia|]. repeat constructor; by (left + right).
  - split; [|simpl; lia]. split; [simpl; lia|]. repeat constructor; by (left + right).
  - apply example_arrivals_wf.
  - exact (eq_sym (app_nil_r (mjoin (arrival_bytes <$> example_arrivals)))).
  - by vm_compute.
  - exists [1; 2; 3; 4]. split; [done|]. exists [1; 2; 3; 4]. by split.
  - exists n', b'. split_and!; [exact E|exact Hb|exact Hu|exact Ho].
Defined.

(** The loop on a connection that has ended. *)
Example run_loop_ends_example :
  ∃ n', @run_loop _ _ (tcp_server_backend 10) 65536 tcp_server_virtuals 2
      (with_backend (TCPServer.mk (-1) 3 "127.0.0.1" "10030" (resolved [])) example_server_node) =
    Ret (Ok tt, n').
Proof. eexists. vm_compute. reflexivity. Qed.

(** ** The command line *)

Lemma parseUnsigned_print_witness :
  parseUnsigned (print_decimal 10030) 0xFFFF = Some 10030 ∧
  parseUnsigned (print_hex 10030) 0xFFFF = Some 10030.
Proof. apply (parseUnsigned_print 10030 0xFFFF). lia. Defined.

Definition example_options : Spwrmap.Options :=
  Spwrmap.mkOptions "192.168.1.2" "10030" "write" [3; 6; 2] [2; 6; 4] (Some 0x44A2006C) None
    [0x32; 0x42; 0x18; 0x34].

Lemma parseOptions_render_witness :
  Spwrmap.parseOptions (render example_options) = Ret (Some example_options).
Proof.
  apply parseOptions_render. split_and!; try compute_decide; try done; try (by right).
  exists 0x44A2006C. split; [reflexivity|lia].
Defined.
