(* ===== verification/WitnessesThreads.v ===== *)
(** * Witnesses for the theorems about threads

    One [write] and the loop that receives its reply, on a node with one
    transaction ID. *)

From S2P Require Import Prelude PacketTypes TcpBackend Transactions TransactionSlots Node NodeTheorems Concurrency ConcurrencyFacts ConcurrencyTokens Interleavings ThreadsAlone Races Witnesses.
#[local] Open Scope Z_scope.

Definition write_and_loop : list (pc unit) := [one_write (Ok tt); Poll [reply_to 32]].

Lemma write_and_loop_begins : Forall begins write_and_loop.
Proof. repeat constructor. apply one_write_begins. Qed.

Definition result (m : outcome (system unit)) : system unit :=
  match m with Ret s => s | _ => one_id [] end.

(** The [write] has its reply and the ID is free again. *)
Definition replied : list (nat * Z * bool) := moves 0 4 0 ++ moves 1 4 0 ++ moves 0 1 0.

(** The callback is running, with the mutex of the slot. *)
Definition in_callback : list (nat * Z * bool) := moves 0 4 0 ++ moves 1 1 0.

Lemma run_reaches schedule s s' :
  run_schedule schedule s = Ret s' → rtc (@step_to unit) s s'.
Proof.
  revert s. induction schedule as [|[[k now] w] schedule IH]; intros s Hr; [by simplify_eq/=; constructor|].
  cbn in Hr. apply bind_Ret in Hr as (s1 & Hs & Hr). eapply rtc_l; [by econstructor|by apply IH].
Qed.

(** Calm runs as executions. *)
Definition calm_pc (c : pc unit) : bool :=
  match c with
  | Force _ _ _ | ForceRelease _ _ _ | TimeOutSet _ _ _ | TimeOutRelease _ _ _
  | TimeOutNull _ _ _ | CancelClear _ _ | CancelRelease _ _ => false
  | _ => true
  end.

Definition sending_pc (c : pc unit) : bool := match unsent c with Some _ => true | None => false end.

Fixpoint calm_schedule (schedule : list (nat * Z * bool)) (s : system unit) : bool :=
  match schedule with
  | [] => true
  | (k, now, w) :: schedule =>
      match system_step k now w s with
      | Ret s' =>
          forallb (λ c, negb (sending_pc c)) (threads s) && forallb calm_pc (threads s') &&
          calm_schedule schedule s'
      | _ => false
      end
  end.

Lemma calm_schedule_steps schedule s s' :
  calm_schedule schedule s = true → run_schedule schedule s = Ret s' →
  nsteps calm_step (length schedule) s s'.
Proof.
  revert s. induction schedule as [|[[k now] w] schedule IH]; intros s Hc Hr;
    [by simplify_eq/=; constructor|].
  cbn in Hc, Hr. destruct (system_step k now w s) as [s1| | |] eqn:Es; try done.
  apply andb_true_iff in Hc as [[Hn Hq]%andb_true_iff Hc]. cbn in Hr.
  apply Is_true_true in Hn, Hq. apply forallb_True in Hn, Hq. rewrite Forall_lookup in Hn, Hq.
  pose proof Es as Es'. unfold system_step in Es'. destruct (threads s !! k) as [c|] eqn:Hk; [|done].
  apply bind_Ret in Es' as ([c' sh] & _ & [= <-]).
  assert (Hk' : <[k := c']> (threads s) !! k = Some c')
    by (apply list_lookup_insert_eq; by eapply lookup_lt_Some).
  eapply nsteps_l; [|by apply IH].
  apply (calm_step_intro s k now w c c'); [done| |done|done|].
  - destruct c; try done. destruct packets; try done. intros j d q Hj Hu.
    specialize (Hn j d Hj). unfold sending_pc in Hn. by rewrite Hu in Hn.
  - specialize (Hq k c' Hk'). by destruct c'.
Qed.


Lemma no_deadlock_witness :
  ∃ j, ∀ now, system_step j now true (result (run_schedule in_callback (one_id write_and_loop))) ≠ Pending.
Proof.
  eapply (no_deadlock 32 33 tt write_and_loop _ 1); [lia|lia|apply write_and_loop_begins| | |].
  - apply (run_reaches in_callback). by vm_compute.
  - by vm_compute.
  - done.
Defined.


Lemma calm_runs_end_witness : (length replied ≤ sum_list_with steps_left write_and_loop)%nat.
Proof.
  eapply (calm_runs_end 32 33 tt write_and_loop); [lia|lia|apply write_and_loop_begins|].
  apply (calm_schedule_steps replied); by vm_compute.
Defined.

Lemma threads_alone_refine_witness :
  (∃ op n', start_async [5; 6] (λ _ l, Ret (Ok tt, l)) keep_data example_node = Ret (op, n') ∧
     alone (Start (mkOperation keep_data [Ok tt] false)) (txs example_node)
       (started_pc (mkOperation keep_data [] false) (future op) (transaction_id op)) (txs n')) ∧
  (∃ t', cancelTransaction_ 0x20 (txs example_node) = Ret t' ∧
     alone (CancelClear (mkOperation keep_data [] true) 0x20) (txs example_node)
       (Start (mkOperation keep_data [] true)) t').
Proof.
  destruct (threads_alone_refine 0x20 0x40 example_node) as (Hs & Hc & _);
    [by apply (initial_table_ok 0x20 0x40 [])|].
  split.
  - do 2 eexists. split; [by vm_compute|].
    eapply (Hs [5; 6] (mkOperation keep_data [Ok tt] false)); [done|by vm_compute].
  - eexists. split; [by vm_compute|]. apply Hc. by vm_compute.
Defined.

(** ** The races *)

Definition two_writes : list (pc unit) := [one_async; one_write (Ok tt); one_write (Ok tt); Poll [reply_to 32]].
Definition early_threads : list (pc unit) := [one_write (Unexpected (generic timed_out)); Poll [reply_to 32]].
Definition cancel_threads : list (pc unit) := [one_write (Ok tt); Poll [reply_to 32]; one_write (Ok tt)].

(** A write before its send fails; one before it cancels, when the reply has come
    and another has the ID; two that have found an ID expired, one of them
    behind its error callback. *)
Definition before_early : system unit := result (run_schedule (moves 0 3 0) (one_id early_threads)).
Definition before_cancel : system unit :=
  result (run_schedule (moves 0 4 0 ++ [(0%nat, 0, true)] ++ moves 1 4 0 ++ moves 2 4 0) (one_id cancel_threads)).
Definition behind_callback : list (nat * Z * bool) := moves 0 4 0 ++ moves 1 5 2000000000 ++ moves 2 4 2000000000.
Definition before_overlap : system unit := result (run_schedule behind_callback (one_id two_writes)).

(** A third has found the second owner expired as well; two that have found the
    same owner expired, one of which has the ID by now. *)
Definition writes : list (pc unit) := [one_async; one_write (Ok tt); one_write (Ok tt); one_write (Ok tt)].
Definition before_null : system unit := result (run_schedule (behind_callback ++ moves 3 2 4000000000) (one_id writes)).
Definition found_twice : list (nat * Z * bool) := moves 0 4 0 ++ moves 1 2 2000000000 ++ moves 2 2 2000000000 ++ moves 1 7 2000000000.
Definition before_force : system unit := result (run_schedule found_twice (one_id writes)).

(** The one slot is the only one that refers to the promise. *)
Definition only_in_slot_0 (p : nat) (s : system unit) : bool :=
  forallb (λ c, negb (holds p c)) (threads s) &&
  bool_decide (length (reply_callback_ (table_ (shared_state s))) = 1%nat) &&
  bool_decide (length (reply_error_callback_ (table_ (shared_state s))) = 1%nat).

Lemma only_in_slot_0_spec p s : only_in_slot_0 p s = true → only_in_slot p 0 s.
Proof.
  unfold only_in_slot_0. rewrite !andb_true_iff, forallb_forall, !bool_decide_eq_true. intros [[Hc Hr] He]. split_and!.
  - intros k c Hk%list_elem_of_lookup_2%list_elem_of_In. by apply negb_true_iff, Hc.
  - intros j h Hj%lookup_lt_Some _. lia.
  - intros j h Hj%lookup_lt_Some _. lia.
Qed.

Lemma early_reached : rtc step_to (one_id early_threads) before_early.
Proof. apply (run_reaches (moves 0 3 0)). by vm_compute. Qed.
Lemma cancel_reached : rtc step_to (one_id cancel_threads) before_cancel.
Proof. apply (run_reaches (moves 0 4 0 ++ [(0%nat, 0, true)] ++ moves 1 4 0 ++ moves 2 4 0)). by vm_compute. Qed.
Lemma overlap_reached : rtc step_to (one_id two_writes) before_overlap.
Proof. apply (run_reaches behind_callback). by vm_compute. Qed.

Lemma null_reached : rtc step_to (one_id writes) before_null.
Proof. apply (run_reaches (behind_callback ++ moves 3 2 4000000000)). by vm_compute. Qed.
Lemma force_reached : rtc step_to (one_id writes) before_force.
Proof. apply (run_reaches found_twice). by vm_compute. Qed.

(** Each of these threads begins its operation. *)
Ltac begin := repeat (apply Forall_cons_2; [first [apply one_write_begins|done|by intros ? ?; eexists _, _]|]); apply Forall_nil_2.

Lemma races_end_badly_witness :
  always [1; 1; 1; 1; 0; 0; 0]%nat before_early Abort ∧
  always [0; 2]%nat before_cancel Abort ∧
  always [1; 3; 2]%nat before_null Abort ∧
  (∃ s', always [2; 2; 1]%nat before_force (Ret s') ∧
     threads s' !! 1%nat = Some (Done (Some (Unexpected (generic timed_out))))) ∧
  (∃ s', always [3%nat] before_overlap (Ret s') ∧ runs_error_callback 0 (default (Poll []) (threads s' !! 1%nat)) ∧
     match threads s' !! 3%nat with Some (ReplyRun h _ _) => rh_tx_index h = 0 | _ => False end).
Proof.
  split; [|split; [|split; [|split]]].
  - destruct (races_end_badly 32 33 tt early_threads before_early 0) as (H & _);
      [lia|lia|begin|apply early_reached|done|by vm_compute|].
    eapply (H 0%nat 1%nat); vm_compute; reflexivity.
  - destruct (races_end_badly 32 33 tt cancel_threads before_cancel 0) as (_ & H & _);
      [lia|lia|begin|apply cancel_reached|done|by vm_compute|].
    eapply (H 0%nat 2%nat); [vm_compute; reflexivity..|apply only_in_slot_0_spec; by vm_compute|vm_compute; reflexivity].
  - destruct (races_end_badly 32 33 tt writes before_null 0) as (_ & _ & H & _);
      [lia|lia|begin|apply null_reached|done|by vm_compute|].
    eapply (H 1%nat 3%nat 2%nat); [vm_compute; reflexivity..|apply only_in_slot_0_spec; by vm_compute|vm_compute; reflexivity].
  - destruct (races_end_badly 32 33 tt writes before_force 0) as (_ & _ & _ & H & _);
      [lia|lia|begin|apply force_reached|done|by vm_compute|].
    eapply (H 2%nat 1%nat); vm_compute; reflexivity.
  - destruct (races_end_badly 32 33 tt two_writes before_overlap 0) as (_ & _ & _ & _ & H);
      [lia|lia|begin|apply overlap_reached|done|by vm_compute|].
    edestruct (H 1%nat 3%nat) as (s' & Hs & E1 & E3 & Hx); [vm_compute; reflexivity..|].
    exists s'. split; [exact Hs|]. rewrite E1, E3. by split.
Defined.
