(* ===== verification/WitnessesSending.v ===== *)
(** * Witnesses for the theorems about threads that send

    A write and a read on the scripted system, which moves twenty bytes at a
    time and interrupts the first call. *)

From S2P Require Import Prelude PacketTypes PacketBuilder PacketParserFacts PacketTheorems TcpBackend Posix TcpClient Framing FramingFacts FramingTheorems Transactions Node TcpNode Serving Sending SendingFacts SendingTheorems SendingRaces Network Witnesses.
#[local] Open Scope Z_scope.

Definition sending_requests : list request := [racing_write 0; SendRead racing_target 1 0x100 4].
Definition sending_link : link (TCPClient.t ScriptedKernel) := racing_link [Some EINTR].

Lemma sending_requests_fit : Forall (fits 4096 sending_link) sending_requests.
Proof. repeat constructor; vm_compute; intuition discriminate. Qed.

Definition sending_schedule : list nat := [0; 1]%nat ++ replicate 8 0%nat ++ replicate 7 1%nat.
Definition sending_backend : TCPClient.t ScriptedKernel :=
  TCPClient.mk 3 "127.0.0.1" "10030" (mkKernel 0 [3; 2; 1; 0] [Some EINTR] [] [] 20 []).

Lemma sending_writable : writable (TCPClient.os sending_backend) 3.
Proof. repeat constructor; by (left + right). Qed.

(** Where the schedule ends. *)
Definition sending_end : senders ScriptedKernel :=
  match run_senders 5 4096 sending_schedule (start_senders sending_requests sending_link) with
  | Ret s => s
  | _ => start_senders [] sending_link
  end.

Lemma sending_runs : run_senders 5 4096 sending_schedule (start_senders sending_requests sending_link) = Ret sending_end.
Proof. by vm_compute. Qed.

Lemma sending_finished c : c ∈ senders_ sending_end → ∃ r, c = Finished r.
Proof.
  change (senders_ sending_end) with [Finished (Ok tt); Finished (Ok tt)].
  rewrite !elem_of_cons, elem_of_nil. intros [->|[->|[]]]; by eexists.
Qed.

Lemma concurrent_sends_serialise_witness :
  ∃ order b', tcp_backend_ (link_ (state_ sending_end)) = Some b' ∧ order ≡ₚ [0; 1]%nat ∧
    k_out (TCPClient.os b') = frames sending_requests sending_link order.
Proof.
  destruct (concurrent_sends_serialise 5 4096 sending_requests sending_link 3 [] ltac:(lia) sending_requests_fit
    sending_backend sending_schedule eq_refl eq_refl sending_writable eq_refl) as [_ H].
  destruct (H _ sending_runs) as (_ & _ & order & sent & b' & _ & Hb & Ho & _ & _ & Hend).
  destruct (Hend sending_finished) as [Hord ->].
  exists order, b'. split_and!; [done|done|]. rewrite app_nil_r in Ho. exact Ho.
Defined.

Lemma senders_alone_refine_witness :
  ∃ l', sender_alone 5 4096 (entry (racing_write 0)) (mkSendState sending_link false false)
    (Finished (Ok tt)) (mkSendState l' false false).
Proof.
  assert (E : ∃ l', @send_request _ (tcp_client_backend 5) 4096 (racing_write 0) sending_link = Ret (Ok tt, l'))
    by (eexists; vm_compute; reflexivity).
  destruct E as [l' E]. exists l'. destruct (senders_alone_refine (W := ScriptedKernel) (U := unit) 5 4096) as [H _].
  exact (H (racing_write 0) sending_link l' sending_backend _ eq_refl ltac:(done) E).
Defined.

(** The target: a node over the backend of the tests, with the bytes that the
    threads have sent. *)
Definition sending_command (k : nat) : command :=
  match k with
  | O => WriteCommand (write_config racing_target 0 0x100 [1; 2; 3; 4] sending_link)
  | _ => ReadCommand (read_config racing_target 1 0x100 4 sending_link) [1; 2; 3; 4]
  end.

Definition sending_target : node MockBackend (list Z) :=
  set_running_ true (registerOnRead (Some answer_bytes) (registerOnWrite (Some keep_data)
    (initial_node default_config (mock (bytes_sent sending_end)) []))).

Lemma sending_command_fits k : command_fits 65536 (sending_command k).
Proof.
  destruct k; (split; [|vm_compute; intuition discriminate]); cbn [command_wf sending_command];
    unfold write_config_wf, read_config_wf, is_path, path_byte, logical_byte; config_wf.
Qed.

Lemma sending_served order :
  order ≡ₚ seq 0 2 →
  ∃ cs u', each_command sending_requests sending_link order cs ∧ Forall (command_fits 65536) cs ∧
    user_serves_all sending_target (packet_parser_ (lnk sending_target)) (user (txs sending_target)) cs u'.
Proof.
  intros Ho%symmetry. exists (sending_command <$> order), [1; 2; 3; 4].
  apply Permutation_length_2_inv in Ho as [-> | ->];
    (split; [do 2 (apply Forall2_cons; split; [by eexists; split; [reflexivity|done]|]); by constructor|]);
    (split; [by repeat (apply Forall_cons; split; [apply sending_command_fits|])|]).
  - exists [1; 2; 3; 4]. split; [done|]. exists [1; 2; 3; 4]. by split.
  - exists []. split; [done|]. exists [1; 2; 3; 4]. by split.
Qed.

Lemma concurrent_commands_served_witness :
  ∃ order n' tb', order ≡ₚ [0; 1]%nat ∧
    run_loop 65536 (2 + 400) sending_target = run_loop 65536 400 n' ∧
    tcp_backend_ (lnk n') = Some tb' ∧ wire_in tb' = [].
Proof.
  destruct (concurrent_commands_served (U := list Z) 5 4096 65536 ltac:(done) sending_requests sending_link sending_backend
    sending_schedule sending_end sending_target (mock (bytes_sent sending_end)) 400)
    as (order & cs & u' & n' & tb' & Hord & Hcs & Hu & El & _ & Eu & Htb & Hi & _);
    [done|done|exact sending_writable|exact sending_requests_fit|exact sending_runs|exact sending_finished|done..| | |].
  - intros b' E. vm_compute in E. injection E as <-. by vm_compute.
  - apply sending_served.
  - exists order, n', tb'. by split_and!.
Defined.

(** ** Sends that are not under the mutex *)



