(* ===== verification/WitnessesTools.v ===== *)
(** * Witnesses for the theorems about the tools

    The tools on a network of a client and a target, from their arguments to
    what they print. *)

From S2P Require Import Prelude PacketTypes PacketParserFacts TcpBackend Posix TcpClient Framing Transactions TransactionSlots Node TcpNode NodeInterface NodeTheorems Exchange PythonBinding ExampleProgram Network CommandLine Statistics Binary64 Tools Progress ToolsTheorems EndToEnd Witnesses.
From Stdlib Require Import QArith SpecFloat.
#[local] Open Scope Z_scope.

(** A target with the memory [m]; the connection moves [chunk] bytes at a time. *)
Definition example_target_memory (m : memory) : node MockBackend memory :=
  registerOnRead (Some load_memory) (registerOnWrite (Some store_memory)
    (initial_node default_config (mock []) m)).
Definition example_network (chunk : nat) (m : memory) : network :=
  mkNetwork (mkKernel 0 [2; 1; 0] [] [] [] chunk [mkAddrinfo AF_INET SOCK_STREAM IPPROTO_TCP [127; 0; 0; 1]])
    (example_target_memory m) 0 [false; true; true; false; false; true; false; false; false; true].

Lemma example_idle chunk m : (0 < chunk)%nat → idle 5 (example_network chunk m) m.
Proof. intros Hc. split; [|done]. split; [by split; [eexists|]|]. split; [|done]. split; [done|]. by apply Nat.ltb_lt. Qed.

Abbreviation example_client := (SpwRmapTCPClient.t network (list Z)).
Definition example_waits : waits example_client := mkWaits (λ _, [0; 0]) (λ _, serve 5 (2 ^ 26)).

Lemma example_serves : stack_serves 5 (2 ^ 26) example_waits.
Proof. split; [cbn; lia|done]. Qed.

Abbreviation example_base := (tcp_node_base (B := TCPClient.t network) (U := list Z) (2 ^ 26)
  (H := tcp_client_backend 5) (H0 := tcp_client_virtuals 5)).
Abbreviation example_tool_client := (tcp_client_node (W := network) (U := list Z) 5 (2 ^ 26)).

Definition read_argv : list string :=
  ["--type"; "read"; "--target-address"; "3"; "--reply-address"; "2"; "--address"; "0x10"; "--length"; "2"]%string.

Lemma spwrmap_over_tcp_witness :
  ∃ n, @spwrmap_main _ example_base example_tool_client (2 ^ 26)
    (new_client (example_network 3 (map_seqZ 0x10 [0xAB; 7])) []) 2 example_waits read_argv =
    Ret (0, read_line 0x10 [0xAB; 7], Some n).
Proof.
  assert (E : ∃ opts, Spwrmap.parseOptions read_argv = Ret (Some opts) ∧ Spwrmap.type opts = "read"%string ∧
    Spwrmap.address opts = Some 0x10 ∧ Spwrmap.length opts = Some 2 ∧
    Spwrmap.target_address opts = [3] ∧ Spwrmap.reply_address opts = [2]) by (eexists; by vm_compute).
  destruct E as (opts & H1 & H2 & H3 & H4 & H5 & H6).
  destruct (spwrmap_over_tcp 5 0 (2 ^ 26) ltac:(lia) ltac:(lia) example_waits
    (example_network 3 (map_seqZ 0x10 [0xAB; 7])) (map_seqZ 0x10 [0xAB; 7]) read_argv opts 0x10) as [Hr _].
  - apply example_idle. lia.
  - apply example_serves.
  - done.
  - unfold read_argv. rewrite !not_elem_of_cons. by split_and!; [..|apply not_elem_of_nil].
  - done.
  - done.
  - lia.
  - rewrite H5, H6. unfold stack_reachable, is_path, path_byte, logical_byte. cbn. split_and!; try lia; by repeat constructor.
  - destruct (Hr [0xAB; 7]) as (n & E & _); [done|done|done|by repeat constructor|done|]. by exists n.
Defined.

Lemma spwrmap_prints_memory_line :
  read_line 0x10 [0xAB; 7] = ("Read 2 bytes from 0x00000010: 0xab 0x07" +:+ newline)%string.
Proof. by vm_compute. Qed.

(** The same by evaluation: the bytes go through both nodes. *)
Example spwrmap_evaluates :
  match @spwrmap_main _ example_base example_tool_client (2 ^ 26)
    (new_client (example_network 3 (map_seqZ 0x10 [0xAB; 7])) []) 2 example_waits read_argv with
  | Ret (code, out, _) => (code, out) = (0, "Read 2 bytes from 0x00000010: 0xab 0x07" +:+ newline)%string
  | _ => False
  end.
Proof. by vm_compute. Qed.

Definition speed_argv : list string :=
  ["--target-address"; "3"; "--reply-address"; "2"; "--ntimes"; "3"; "--nbytes"; "1500"; "--start_address"; "0x100"]%string.

Definition speed_pattern : list Z := (λ i, (Z.of_nat i * 7) mod 256) <$> seq 0 1500.
Definition speed_target : TargetNodeBase := TargetNodeDynamic kTargetLogicalAddress [3] [2].

Lemma speedtest_over_tcp_witness :
  ∃ n1 n2 n,
    @write_chunks _ example_base (λ _, example_waits) 0 [(0, 1024); (1024, 476)] speed_target 0x100 speed_pattern n1 = Ret (true, n2) ∧
    stack_content n2 = map_seqZ 0x100 speed_pattern ∪ ∅ ∧
    @speedtest_main _ example_base example_tool_client (2 ^ 26)
      (new_client (example_network 1000 ∅) []) 2 spec_float _ (λ i, Z.of_nat i * 7) (λ _, example_waits)
      (λ i, (Z.of_nat i, 5 * Z.of_nat i + 10)) speed_argv =
      Ret (0, report ((latency (λ i, (Z.of_nat i, 5 * Z.of_nat i + 10)) : nat → spec_float) <$> seq 0 3), Some n).
Proof.
  assert (E : ∃ opts, Speedtest.parseOptions speed_argv = Ret (Speedtest.Parsed (Some opts)) ∧
    Speedtest.ntimes opts = Some 3 ∧ Speedtest.nbytes opts = Some 1500 ∧
    Speedtest.start_address opts = Some 0x100 ∧
    Speedtest.target_address opts = [3] ∧ Speedtest.reply_address opts = [2]) by (eexists; by vm_compute).
  destruct E as (opts & H1 & H2 & H3 & H4 & H5 & H6).
  destruct (speedtest_over_tcp (F := spec_float) 5 0 (2 ^ 26) ltac:(lia) ltac:(lia) (λ i, Z.of_nat i * 7) (λ _, example_waits)
    (λ i, (Z.of_nat i, 5 * Z.of_nat i + 10)) (example_network 1000 ∅) ∅ speed_argv opts 3 1500 0x100)
    as (_ & _ & n1 & n2 & n3 & n4 & w' & n & _ & E2 & Em & _ & _ & _ & _ & _ & E);
    [apply example_idle; lia|intros _; exact example_serves|exact H1| |exact H2|exact H3|exact H4|lia..|].
  - rewrite H5, H6. unfold stack_reachable, is_path, path_byte, logical_byte. cbn. split_and!; try lia; by repeat constructor.
  - rewrite H5, H6 in E2. exists n1, n2, n. split; [exact E2|]. split; [exact Em|exact E].
Defined.

Abbreviation console_base := (@tcp_node_base (TCPClient.t network) console (tcp_client_backend 5)
  (tcp_client_virtuals 5) (2 ^ 26)).
Abbreviation console_client := (tcp_client_node (W := network) (U := console) 5 (2 ^ 26)).
Definition console_waits : waits (SpwRmapTCPClient.t network console) := mkWaits (λ _, [0; 0]) (λ _, serve 5 (2 ^ 26)).

Lemma example_over_tcp_witness :
  ∃ n, @example_main _ console_base console_client (new_client (example_network 7 ∅) ([], ""%string)) 2
    (λ _, console_waits) = Ret (0, example_output, n).
Proof.
  apply (example_over_tcp 5 0 (2 ^ 26) ltac:(lia) ltac:(lia) (λ _, console_waits) (example_network 7 ∅) ∅).
  - apply example_idle. lia.
  - intros _. split; [cbn; lia|done].
Defined.

Abbreviation heap_base := (@tcp_node_base (TCPClient.t network) heap (tcp_client_backend 5)
  (tcp_client_virtuals 5) (2 ^ 26)).
Abbreviation heap_client := (tcp_client_node (W := network) (U := heap) 5 (2 ^ 26)).
Definition heap_waits : waits (SpwRmapTCPClient.t network heap) := mkWaits (λ _, [0; 0]) (λ _, serve 5 (2 ^ 26)).
Definition tcp_python_target : PyTargetNode := mkPyTargetNode 0x132 [6; 2] [1; 3].

Lemma python_over_tcp_witness :
  ∃ p2 p3, @PythonBinding.read _ heap_base (2 ^ 26) heap_waits tcp_python_target 0x100 3 p2 = Ret (Val [1; 2; 255], p3).
Proof.
  destruct (python_over_tcp 5 0 (2 ^ 26) ltac:(lia) ltac:(lia) heap_waits (example_network 7 ∅) ∅
    "127.0.0.1" "10030" tcp_python_target 0x100 [1; 2; 255]) as (p1 & p2 & p3 & p4 & _ & _ & _ & E & _).
  - apply example_idle. lia.
  - split; [cbn; lia|done].
  - unfold stack_reachable, is_path, path_byte, logical_byte. cbn. split_and!; first [lia|by repeat (apply Forall_cons_2; [lia|])].
  - by repeat constructor.
  - done.
  - lia.
  - vm_compute. discriminate.
  - by exists p2, p3.
Defined.

(** Four latencies: the quartiles are 15.5, 25.5 and 35 nanoseconds. *)
Lemma quartiles_binary64_exact_witness :
  let '(mn, q1, med, q3, mx) := computeQuartiles (F := spec_float) (of_integer <$> [40; 10; 21; 30]) in
  ∃ least h1 hm h3 greatest : Z,
    Forall2 exactly [mn; q1; med; q3; mx] [2 * least; h1; hm; h3; 2 * greatest] ∧
    least ∈ [40; 10; 21; 30] ∧ greatest ∈ [40; 10; 21; 30] ∧ 2 * least ≤ h1 ≤ hm ∧ hm ≤ h3 ≤ 2 * greatest.
Proof.
  destruct (computeQuartiles (F := spec_float) (of_integer <$> [40; 10; 21; 30])) as [[[[mn q1] med] q3] mx] eqn:E.
  destruct (quartiles_binary64_exact [40; 10; 21; 30] mn q1 med q3 mx) as (l & h1 & hm & h3 & g & _ & ? & ? & ? & _ & ?);
    [done|by repeat constructor|exact E|]. by exists l, h1, hm, h3, g.
Defined.
