(* ===== verification/WitnessesPython.v ===== *)
(** * Witnesses for the theorems about the Python binding

    A node that is started, stopped and started again on the scripted system;
    a read over a backend in memory, answered, answered short, and not
    answered in time. *)

From S2P Require Import Prelude PacketTypes PacketBuilder TcpBackend Posix TcpClient Framing Transactions TransactionSlots Node TcpNode NodeInterface NodeTheorems PythonBinding PythonTheorems Network Witnesses WitnessesTcp.
#[local] Open Scope Z_scope.

(** ** The life of a node *)

Definition python_client : SpwRmapTCPClient.t ScriptedKernel heap :=
  SpwRmapTCPClient.init "127.0.0.1" "10030" default_config (resolved [example_address]) empty_heap.

Abbreviation example_base := (@tcp_node_base (TCPClient.t ScriptedKernel) heap (tcp_client_backend 10)
  (tcp_client_virtuals 10) 65536).
Abbreviation example_client := (@tcp_client_node ScriptedKernel heap _ 10 65536).

(** The node after the first start. *)
Definition python_started : PySpwRmapTCPNode (SpwRmapTCPClient.t ScriptedKernel heap) :=
  Eval vm_compute in
  match @start _ example_base example_client 20 (init python_client) with
  | Ret (Val _, p) => p
  | _ => init python_client
  end.

Lemma python_lifecycle_witness :
  (@py_ok _ python_started) ∧
  ∀ r p', @stop _ example_base example_client 20 python_started = Ret (r, p') →
    @stop _ example_base example_client 20 p' = Ret (Val tt, p').
Proof.
  destruct (@python_lifecycle _ example_base example_client 20 65536 python_client python_started)
    as (Hok & Hs & _).
  - apply rtc_once. apply (@py_start _ example_base example_client 20 65536 _ (Val tt)).
    vm_compute. reflexivity.
  - split; [exact Hok|]. intros r p' E. exact (proj2 (proj2 (Hs r p' E))).
Defined.

Lemma python_restart_fails_witness :
  ∃ p', @stop _ example_base example_client 20 python_started = Ret (Val tt, p') ∧
    @start _ example_base example_client 20 p' = UB.
Proof.
  eexists. split; [vm_compute; reflexivity|].
  eapply (python_restart_fails 10 20 65536 python_started); vm_compute; reflexivity.
Defined.

(** ** Reading *)

Definition python_node : PySpwRmapTCPNode (node MockBackend heap) :=
  mkPy (initial_node default_config (mock []) empty_heap) Running None true true.
Definition python_target : PyTargetNode := mkPyTargetNode 0x32 [6; 2] [1; 3].
Definition python_reply (bs : list Z) : Packet :=
  mkPacket [] [] 0xFE 0 0x0C 0 0x32 0x20 0 0 (zsize bs) bs ReadReply.

Lemma python_read_outcomes_witness :
  (∃ p', @read _ (tcp_node_base 65536) 65536 (receiving 65536 0 0 (python_reply [1; 2; 3; 4]))
     python_target 0x10 4 python_node = Ret (Val [1; 2; 3; 4], p')) ∧
  @read _ (tcp_node_base 65536) 65536 (receiving 65536 0 0 (python_reply [1; 2; 3]))
     python_target 0x10 4 python_node = UB.
Proof.
  edestruct (python_read_outcomes (B := MockBackend) 65536 0x20 0x40 1000 python_node (replicate 32 Free) []
    0 python_target 0x10 4 0 0) as (Hok & Hshort & _).
  - vm_compute. reflexivity.
  - apply free_table_wf; lia.
  - reflexivity.
  - reflexivity.
  - lia.
  - lia.
  - vm_compute. reflexivity.
  - split.
    + apply (Hok (python_reply [1; 2; 3; 4])); done.
    + apply (Hshort (python_reply [1; 2; 3])); done.
Defined.
