(* ===== verification/WitnessesPolling.v ===== *)
(** * Witnesses for the theorems about receiving

    A client on the scripted system: a frame of five bytes that never comes to
    its end, for the function and for a node that stores what is written; and a
    thread that waits behind a time code when the client is shut down. *)

From S2P Require Import Prelude PacketTypes TcpBackend Posix TcpClient TcpServer Framing Transactions TransactionSlots Node TcpNode Sending Receiving AnyPeer Polling PollingTheorems.
#[local] Open Scope Z_scope.

(** Behind the header the connection ends. *)
Definition cut_off_link : link (TCPClient.t ScriptedKernel) :=
  mkLink (tcp_backend_ (polled_link [] partial_frame)) (replicate 64 0) [] Fixed empty_packet 0xFE true.

Lemma receive_safe_witness :
  safe (@recvAndParseOnePacket_ _ (tcp_client_backend 5) 4096 8 cut_off_link) ∧
  @recvAndParseOnePacket_ _ (tcp_server_backend 5) 4096 8 (lnk (accepted_node lone_header)) = UB.
Proof.
  destruct receive_safe as (Hsafe & Hend & _). split.
  - eapply (Hsafe _ _ (client_stream 5) 4096 8%nat cut_off_link _ 64); [done| |split; [done|split; [done|]]|done];
      by repeat constructor.
  - eapply (Hend ScriptedKernel _ 4%nat 4096 7%nat (lnk (accepted_node lone_header)) _ 5);
      [reflexivity|vm_compute; intuition discriminate|done|vm_compute; reflexivity..].
Defined.

(** A node that keeps the last data written to it, and throws for the others;
    two IDs, of which one waits for a reply. *)
Definition keeping_node : SpwRmapTCPClient.t ScriptedKernel (list Z) :=
  mkNode cut_off_link
    (table 0x20 0x22 1000 [Free; TransactionSlots.Waiting 5 0 (λ packet u, Ret (Returned tt, data packet ++ u))] [None] [])
    500000 false false
    (Some (λ packet _, Ret (Returned tt, data packet)))
    (Some (λ packet u, Ret (if dataLength packet =? zsize u then Returned u else ThrewException, u))).

Lemma client_survives_any_peer_witness :
  safe (@runLoop _ (list Z) (tcp_client_backend 5) 4096 (tcp_client_virtuals 5) 20 keeping_node).
Proof.
  apply (proj1 client_survives_any_peer ScriptedKernel (list Z) _ _ _ 5%nat 4096 0x20 0x22 64 20%nat keeping_node); [done|].
  split; [|split; [|split]].
  - split; [split; [done|split; [done|by repeat constructor]]|]. split; [done|]. eexists. split; [done|]. by repeat constructor.
  - exists 1000. do 3 eexists. split; [done|]. split; [|split].
    + split; [by split_and!|split].
      * intros [|[|i]] last p f; by intros [= _ <- _].
      * intros [|[|i]] [|[|j]]; cbn; by intros ????? [=] [=].
    + by intros [|[|i]] last.
    + intros [|[|i]] last p f; by intros [= _ _ <-].
  - intros g [= <-] packet u. split; [done|]. by case_match.
  - intros g [= <-] packet u. by split.
Defined.

Definition polled_schedule : list thread := [Closer; Poller; Closer; Poller; Poller].

Lemma shutdown_while_receiving_witness :
  match polling (replicate 12 Poller) [None; None; None] timecode_frame with
  | Ret st =>
      match run_threads 5 4096 8 scripted_block polled_schedule st with
      | Ret st' => (5 ≤ 5)%nat ∧ ended st'
      | Pending => True
      | UB | Abort => False
      end
  | _ => False
  end.
Proof.
  assert (H : match polling (replicate 12 Poller) [None; None; None] timecode_frame with
    | Ret st => match poller_ st with
                | Waiting fd _ _ => scripted_block (system (state_ st)) fd = true ∧ k_script (system (state_ st)) = [None]
                | _ => False
                end
    | _ => False
    end) by (by vm_compute).
  destruct (polling (replicate 12 Poller) [None; None; None] timecode_frame) as [st| | |] eqn:E;
    [|destruct H|destruct H|destruct H].
  destruct (poller_ st) as [| |fd size k| | | |] eqn:Ep; [destruct H|destruct H| |destruct H|destruct H|destruct H|destruct H].
  destruct H as [Hb Hs]. unfold polling in E.
  apply (proj1 shutdown_while_receiving ScriptedKernel _ scripted_block _ 5%nat 4096 8%nat
    (polled_link [None; None; None] timecode_frame) (mkKernel 0 [] [] [] [] 1 []) _ 12%nat st fd size k
    polled_schedule ltac:(lia) eq_refl ltac:(done) E Ep Hb).
  intros r w'. cbn. unfold k_call, k_next. rewrite Hs. by intros [= <- _].
Defined.

(** The same schedule by evaluation: both threads end with success. *)
Example polled_schedule_ends :
  match polling (replicate 12 Poller ++ polled_schedule) [None; None; None] timecode_frame with
  | Ret st => ended st
  | _ => False
  end.
Proof. by vm_compute. Qed.
